(** * The integrated gang scheduler: a shallow embedding

    Sources embedded here:
    - [xen/common/sched_gang.c]                 (hypervisor side)
    - [xen/include/public/gang_sched_policies.h] (policy records)
    - [tools/gangi_ctl/gs_sched_test.cc]        (schedulability test)

    Conventions.  C integers are [Z] (or [N] for bit masks) with the
    conversions of the C code written out ([s64], [s32]).  Pointers to
    scheduling tickets are addresses into an explicit ticket store; a
    NULL pointer is [None].  [BUG()], [BUG_ON], [ASSERT], [assert] and
    [panic] end the run: functions that can reach one return an
    [outcome]. *)

From Stdlib Require Import ZArith NArith Lia Bool List Floats.
From stdpp Require Import base option list gmap.

Local Open Scope Z_scope.

(** ** Outcomes of fallible code *)

Inductive crash : Set :=
| BUG            (* BUG() / BUG_ON(...) in the hypervisor *)
| PANIC          (* __PANIC(...) *)
| ASSERT_FAILED  (* ASSERT(...) in the hypervisor, assert(...) in the tool *)
| EXIT_FAILURE   (* exit(EXIT_FAILURE) in the tool *)
| FAULT          (* a load or store outside the object it addresses,
                    or a division by zero *)
| NO_FUEL.       (* the step budget of an embedded loop ran out; the
                    budgets given below are shown to suffice *)

Inductive outcome (A : Type) : Type :=
| Done (a : A)
| Crash (c : crash).
Arguments Done {A} a.
Arguments Crash {A} c.

Definition obind {A B} (k : A -> outcome B) (m : outcome A) : outcome B :=
  match m with
  | Done a => k a
  | Crash c => Crash c
  end.

(** [outcome] is a monad; stdpp's notations [x ← m; k] and [m;; k]
    sequence fallible steps. *)
#[global] Instance outcome_ret : MRet outcome := fun A a => Done a.
#[global] Instance outcome_bind : MBind outcome := fun A B k m => obind k m.

(** [BUG_ON(c)] always checks.  [ASSERT(c)] (hypervisor) and [assert(c)]
    (tool) are compiled in: the embedding is of the build without
    [NDEBUG], the one in which the assertions of the source say
    something. *)
Definition BUG_ON (c : bool) : outcome unit :=
  if c then Crash BUG else Done tt.
Definition ASSERT (c : bool) : outcome unit :=
  if c then Done tt else Crash ASSERT_FAILED.

(** Running a fallible body over the elements of a list, left to right
    (the [for] loops of the source). *)
Fixpoint ofold {A S} (body : S -> A -> outcome S) (l : list A) (s : S)
  : outcome S :=
  match l with
  | [] => Done s
  | a :: l' => s' ← body s a; ofold body l' s'
  end.

(** ** Machine integers *)

(** Reinterpretation of an integer as a signed 64-bit ([s_time_t],
    [long]) or signed 32-bit ([int], [int32_t]) value. *)
Definition s64 (z : Z) : Z := (z + 2^63) mod 2^64 - 2^63.
Definition s32 (z : Z) : Z := (z + 2^31) mod 2^32 - 2^31.
Definition u64 (z : Z) : Z := z mod 2^64.

Definition STIME_MAX : Z := 2^63 - 1.
Definition UINT64_MAX : Z := 2^64 - 1.

(** Xen's time base is the nanosecond ([xen/time.h]):
    [MICROSECS(us) = (s_time_t)(us * 1000ULL)] and
    [MILLISECS(ms) = (s_time_t)(ms * 1000000ULL)]. *)
Definition us_2_ns (us : Z) : Z := s64 (us * 1000).
Definition ms_2_ns (ms : Z) : Z := s64 (ms * 1000000).

(** ** Policies ([gang_sched_policies.h]) *)

Module Policy.

Inductive gang_sched_policy_type_t : Set :=
| GANG_SCHED_POLICY_NOT_SET
| GANG_NO_MUXING
| GANG_TIME_TRIG_MUXING
| GANG_EVENT_TRIG_MUXING
| GANG_BEST_EFFORT_MUXING
| NUM_OF_GANG_SCHED_POLICIES.

Definition type_code (t : gang_sched_policy_type_t) : Z :=
  match t with
  | GANG_SCHED_POLICY_NOT_SET => 0
  | GANG_NO_MUXING => 1
  | GANG_TIME_TRIG_MUXING => 2
  | GANG_EVENT_TRIG_MUXING => 3
  | GANG_BEST_EFFORT_MUXING => 4
  | NUM_OF_GANG_SCHED_POLICIES => 5
  end.

(** All fields are the unsigned C fields: [from], [period] and
    [active_time] are [uint64_t], [weight] is [uint16_t],
    [space_filling] is a [char] used as a truth value. *)
Record no_muxing_params_t := { nm_from : Z }.
Record tt_muxing_params_t :=
  { tt_from : Z; tt_period : Z; tt_active_time : Z; tt_space_filling : bool }.
Record et_muxing_params_t :=
  { et_from : Z; et_period : Z; et_active_time : Z; et_space_filling : bool }.
Record be_muxing_params_t :=
  { be_from : Z; be_weight : Z; be_space_filling : bool }.

(** [gang_sched_policy_t]: the type tag with the arm of the union it
    selects.  [NotSet] is the tag [GANG_SCHED_POLICY_NOT_SET]; [BadType]
    stands for every tag that is not one of the five enumerators
    below [NUM_OF_GANG_SCHED_POLICIES]. *)
Inductive gang_sched_policy_t :=
| NotSet
| NoMuxing (p : no_muxing_params_t)
| TimeTrig (p : tt_muxing_params_t)
| EventTrig (p : et_muxing_params_t)
| BestEffort (p : be_muxing_params_t)
| BadType.

Definition type (p : gang_sched_policy_t) : gang_sched_policy_type_t :=
  match p with
  | NotSet => GANG_SCHED_POLICY_NOT_SET
  | NoMuxing _ => GANG_NO_MUXING
  | TimeTrig _ => GANG_TIME_TRIG_MUXING
  | EventTrig _ => GANG_EVENT_TRIG_MUXING
  | BestEffort _ => GANG_BEST_EFFORT_MUXING
  | BadType => NUM_OF_GANG_SCHED_POLICIES
  end.

(** [VALIDATE_GANG_SCHED_POLICY_TYPE] *)
Definition VALIDATE_GANG_SCHED_POLICY_TYPE (t : gang_sched_policy_type_t) : bool :=
  (type_code GANG_SCHED_POLICY_NOT_SET <? type_code t) &&
  (type_code t <? type_code NUM_OF_GANG_SCHED_POLICIES).

Definition is_no_muxing (p : gang_sched_policy_t) : bool :=
  match p with NoMuxing _ => true | _ => false end.
Definition is_best_effort (p : gang_sched_policy_t) : bool :=
  match p with BestEffort _ => true | _ => false end.

End Policy.
Import Policy.

(** ** Policy validation in the hypervisor ([sched_gang.c]) *)

Module Validate.
Section WithGrain.

(** [sched_ratelimit_us], Xen's boot parameter (an [int]) behind
    [GANG_FINEST_TIME_GRAIN_IN_US]. *)
Variable sched_ratelimit_us : Z.

Definition GANG_FINEST_TIME_GRAIN_IN_US : Z := sched_ratelimit_us.
Definition GANG_FINEST_TIME_GRAIN : Z := us_2_ns GANG_FINEST_TIME_GRAIN_IN_US.
Definition INFINITY : Z := STIME_MAX.

Definition __validate_tt_muxing_params (params : tt_muxing_params_t) : bool :=
  let period := s64 (tt_period params) in
  let active_time := s64 (tt_active_time params) in
  if period <? GANG_FINEST_TIME_GRAIN_IN_US then false
  else if period >=? INFINITY then false
  else if active_time <? GANG_FINEST_TIME_GRAIN_IN_US then false
  else if active_time >=? INFINITY then false
  else if period <? active_time then false
  else true.

Definition __validate_et_muxing_params (params : et_muxing_params_t) : bool :=
  let period := s64 (et_period params) in
  let active_time := s64 (et_active_time params) in
  if period <? GANG_FINEST_TIME_GRAIN_IN_US then false
  else if period >=? INFINITY then false
  else if active_time <? GANG_FINEST_TIME_GRAIN_IN_US then false
  else if active_time >=? INFINITY then false
  else if period <? active_time then false
  else true.

(** "So far, nothing to validate." *)
Definition __validate_be_muxing_params (params : be_muxing_params_t) : bool :=
  true.

(** The argument is the pointer [p]; [None] is NULL. *)
Definition __validate_gang_sched_policy (p : option gang_sched_policy_t) : bool :=
  match p with
  | None => false
  | Some (NoMuxing _) => true
  | Some (TimeTrig ttp) => __validate_tt_muxing_params ttp
  | Some (EventTrig etp) => __validate_et_muxing_params etp
  | Some (BestEffort bep) => __validate_be_muxing_params bep
  | Some NotSet | Some BadType => false
  end.

End WithGrain.
End Validate.

(** ** Policy validation in the control tool ([gs_sched_test.cc]) *)

Module ToolValidate.

(** [const uint64_t INFINITY = UINT64_MAX;] of [gs_sched_test.h]. *)
Definition INFINITY : Z := UINT64_MAX.

Definition __validate_muxing_policy (p : gang_sched_policy_t) : bool :=
  if negb (VALIDATE_GANG_SCHED_POLICY_TYPE (type p)) then false
  else match p with
       | TimeTrig ttp =>
           if tt_from ttp =? INFINITY then false
           else if tt_active_time ttp >=? tt_period ttp then false
           else true
       | EventTrig etp =>
           if et_from etp =? INFINITY then false
           else if et_active_time etp >=? et_period etp then false
           else true
       | BestEffort bep =>
           if be_from bep =? INFINITY then false
           else if be_weight bep =? 0 then false
           else true
       | NoMuxing nmp =>
           if nm_from nmp =? INFINITY then false else true
       | NotSet | BadType => true
       end.

End ToolValidate.


(** ** CPU masks

    A [cpumask_t] is a bitmap with one bit per CPU id.  It is embedded
    as the number whose bit [i] is CPU [i]; Xen's [cpumask_*]
    operations are the bitwise operations on it. *)

Module Cpumask.

Abbreviation cpumask_t := N (only parsing).

Definition cpumask_test_cpu (cpu : nat) (m : cpumask_t) : bool :=
  N.testbit m (N.of_nat cpu).
Definition cpumask_set_cpu (cpu : nat) (m : cpumask_t) : cpumask_t :=
  N.setbit m (N.of_nat cpu).
Definition cpumask_clear : cpumask_t := 0%N.
Definition cpumask_or (a b : cpumask_t) : cpumask_t := N.lor a b.
Definition cpumask_and (a b : cpumask_t) : cpumask_t := N.land a b.
Definition cpumask_andnot (a b : cpumask_t) : cpumask_t := N.ldiff a b.
Definition cpumask_intersects (a b : cpumask_t) : bool :=
  negb (N.land a b =? 0)%N.
Definition cpumask_subset (a b : cpumask_t) : bool :=
  (N.ldiff a b =? 0)%N.
Definition cpumask_equal (a b : cpumask_t) : bool := (a =? b)%N.

(** [cpumask_weight]: the number of CPUs in the mask. *)
Fixpoint pos_weight (p : positive) : nat :=
  match p with
  | xH => 1
  | xO p' => pos_weight p'
  | xI p' => S (pos_weight p')
  end.
Definition cpumask_weight (m : cpumask_t) : Z :=
  match m with
  | N0 => 0
  | Npos p => Z.of_nat (pos_weight p)
  end.


(** The mask built from a list of CPU ids. *)
Definition mask_of_cpus (cpus : list nat) : cpumask_t :=
  fold_right cpumask_set_cpu cpumask_clear cpus.

End Cpumask.
Import Cpumask.


(** ** The per-CPU local scheduler ([sched_gang.c]) *)

Module LocalSched.

(** Address of a [sched_ticket_t]. *)
Definition tkt_ptr : Type := nat.

(** What the scheduler reads of a [struct vcpu]: its id, whether it is
    an idle VCPU ([is_idle_vcpu]) and its [sched_priv] (the ticket
    [SCHED_TICKET] returns). *)
Record vcpu_t := {
  vcpu_id : Z;
  is_idle_vcpu : bool;
  sched_priv : option tkt_ptr
}.

(** [gang_dom_info_t]; [domain_id] is [domain->domain_id]. *)
Record gang_dom_info_t := {
  domain_id : Z;
  cpumask : cpumask_t;
  tm_muxing_spec : gang_sched_policy_t;
  cohort : Z;
  muxgroup_mask : cpumask_t
}.

(** [sched_ticket_t].  [dom_info] points to the record of the ticket's
    domain, which no scheduling function writes: the ticket carries its
    contents.  The red-black links are the queues below. *)
Record sched_ticket_t := {
  vcpu : option vcpu_t;
  dom_info : gang_dom_info_t;
  earliest_start_time : Z;
  deadline : Z;
  remaining_time : Z;
  activated_at : Z;
  flags : N;
  on_my_behalf : option tkt_ptr
}.

Definition set_times (est dl rem : Z) (t : sched_ticket_t) : sched_ticket_t :=
  {| vcpu := vcpu t; dom_info := dom_info t;
     earliest_start_time := est; deadline := dl; remaining_time := rem;
     activated_at := activated_at t; flags := flags t;
     on_my_behalf := on_my_behalf t |}.

Definition set_activated_at (a : Z) (t : sched_ticket_t) : sched_ticket_t :=
  {| vcpu := vcpu t; dom_info := dom_info t;
     earliest_start_time := earliest_start_time t; deadline := deadline t;
     remaining_time := remaining_time t;
     activated_at := a; flags := flags t;
     on_my_behalf := on_my_behalf t |}.

Definition set_flags (f : N) (t : sched_ticket_t) : sched_ticket_t :=
  {| vcpu := vcpu t; dom_info := dom_info t;
     earliest_start_time := earliest_start_time t; deadline := deadline t;
     remaining_time := remaining_time t;
     activated_at := activated_at t; flags := f;
     on_my_behalf := on_my_behalf t |}.

Definition set_on_my_behalf (o : option tkt_ptr) (t : sched_ticket_t) : sched_ticket_t :=
  {| vcpu := vcpu t; dom_info := dom_info t;
     earliest_start_time := earliest_start_time t; deadline := deadline t;
     remaining_time := remaining_time t;
     activated_at := activated_at t; flags := flags t;
     on_my_behalf := o |}.

(** Bits in the flag. *)
Definition GSBIT_SINGLE_VCPU_YIELD : N := 1.
Definition GSBIT_IS_SLEEPING : N := 2.
Definition GSBIT_WAS_WAITING_FOR_EVENT : N := 3.

Definition test_bit (b : N) (f : N) : bool := N.testbit f b.
Definition clear_bit (b : N) (f : N) : N := N.clearbit f b.
Definition set_bit (b : N) (f : N) : N := N.setbit f b.

(** [sched_info_t].  The two red-black trees are the lists of their
    elements in tree order, least first; the waiting-for-event set is
    the hashtable handle ([None] is NULL) with its (domain id, ticket)
    entries; [cur_ticket_per_cpu] has one slot per CPU id, [None] for
    NULL. *)
Record sched_info_t := {
  edf_runnable_Q : list tkt_ptr;
  activation_Q : list tkt_ptr;
  tickets_waiting_4_event : option (list (Z * tkt_ptr));
  cur_ticket_per_cpu : list (option tkt_ptr)
}.

(** The state a local scheduler runs on: the tickets in memory and the
    CPU's [sched_info_t]. *)
Record cpu_state := {
  tickets : gmap tkt_ptr sched_ticket_t;
  local_sched : sched_info_t
}.

Definition set_runnable_Q (q : list tkt_ptr) (st : cpu_state) : cpu_state :=
  {| tickets := tickets st;
     local_sched :=
       {| edf_runnable_Q := q;
          activation_Q := activation_Q (local_sched st);
          tickets_waiting_4_event := tickets_waiting_4_event (local_sched st);
          cur_ticket_per_cpu := cur_ticket_per_cpu (local_sched st) |} |}.

Definition set_activation_Q (q : list tkt_ptr) (st : cpu_state) : cpu_state :=
  {| tickets := tickets st;
     local_sched :=
       {| edf_runnable_Q := edf_runnable_Q (local_sched st);
          activation_Q := q;
          tickets_waiting_4_event := tickets_waiting_4_event (local_sched st);
          cur_ticket_per_cpu := cur_ticket_per_cpu (local_sched st) |} |}.

Definition set_cur_tickets (tbl : list (option tkt_ptr)) (st : cpu_state) : cpu_state :=
  {| tickets := tickets st;
     local_sched :=
       {| edf_runnable_Q := edf_runnable_Q (local_sched st);
          activation_Q := activation_Q (local_sched st);
          tickets_waiting_4_event := tickets_waiting_4_event (local_sched st);
          cur_ticket_per_cpu := tbl |} |}.

(** Reading and writing a ticket through its address. *)
Definition load (st : cpu_state) (p : tkt_ptr) : outcome sched_ticket_t :=
  match tickets st !! p with
  | Some t => Done t
  | None => Crash FAULT
  end.

Definition store (p : tkt_ptr) (t : sched_ticket_t) (st : cpu_state) : cpu_state :=
  {| tickets := <[p := t]> (tickets st); local_sched := local_sched st |}.

(** The scheduler's global variables, and [sched_ratelimit_us] of Xen. *)
Record gang_globals := {
  cohorts : list cpumask_t;
  cpu_2_cohort : list Z;
  be_doms_in_cohort : list Z;
  num_of_cohorts : Z;
  num_of_muxgroups : Z;
  __period_4_be_doms : Z;
  __quantum_4_be_doms : Z;
  sched_ratelimit_us : Z
}.

Definition INFINITY : Z := STIME_MAX.
Definition MARGIN : Z := us_2_ns 10.
Definition GANG_FINEST_TIME_GRAIN (g : gang_globals) : Z :=
  us_2_ns (sched_ratelimit_us g).

(** *** The priority queues *)

(** [__cmp_tckt_deadlines] and [__cmp_tckt_rel_times]: [Lt], [Eq], [Gt]
    for -1, 0, 1. *)
Definition __cmp_tckt_deadlines (t1 t2 : sched_ticket_t) : comparison :=
  if deadline t1 <? deadline t2 then Lt
  else if deadline t1 >? deadline t2 then Gt
  else if domain_id (dom_info t1) <? domain_id (dom_info t2) then Lt
  else if domain_id (dom_info t1) >? domain_id (dom_info t2) then Gt
  else Eq.

Definition __cmp_tckt_rel_times (t1 t2 : sched_ticket_t) : comparison :=
  if earliest_start_time t1 <? earliest_start_time t2 then Lt
  else if earliest_start_time t1 >? earliest_start_time t2 then Gt
  else if domain_id (dom_info t1) <? domain_id (dom_info t2) then Lt
  else if domain_id (dom_info t1) >? domain_id (dom_info t2) then Gt
  else Eq.

(** [RB_INSERT] of [extras/tree.h] (the BSD red-black tree): the
    element goes to its place in the order; when an element that
    compares equal is already in the tree, nothing is inserted. *)
Fixpoint RB_INSERT (cmp : sched_ticket_t -> sched_ticket_t -> comparison)
    (st : cpu_state) (p : tkt_ptr) (t : sched_ticket_t) (q : list tkt_ptr)
  : outcome (list tkt_ptr) :=
  match q with
  | [] => Done [p]
  | h :: q' =>
      th ← load st h;
      match cmp t th with
      | Lt => Done (p :: q)
      | Eq => Done q
      | Gt => q'' ← RB_INSERT cmp st p t q'; Done (h :: q'')
      end
  end.

(** [RB_REMOVE]: the element leaves the tree. *)
Fixpoint RB_REMOVE (p : tkt_ptr) (q : list tkt_ptr) : list tkt_ptr :=
  match q with
  | [] => []
  | h :: q' => if decide (h = p) then q' else h :: RB_REMOVE p q'
  end.

Definition __is_runnable_Q_empty (st : cpu_state) : bool :=
  match edf_runnable_Q (local_sched st) with [] => true | _ => false end.

Definition __insert_into_runnable_Q (p : tkt_ptr) (st : cpu_state) : outcome cpu_state :=
  t ← load st p;
  q ← RB_INSERT __cmp_tckt_deadlines st p t (edf_runnable_Q (local_sched st));
  Done (set_runnable_Q q st).

Definition __head_of_runnable_Q (st : cpu_state) : option tkt_ptr :=
  head (edf_runnable_Q (local_sched st)).

Definition __remove_from_runnable_Q (p : tkt_ptr) (st : cpu_state) : outcome cpu_state :=
  BUG_ON (__is_runnable_Q_empty st);;
  Done (set_runnable_Q (RB_REMOVE p (edf_runnable_Q (local_sched st))) st).

(** [RB_FOREACH] until a ticket of the domain is met. *)
Fixpoint search_by_domid (st : cpu_state) (domid : Z) (q : list tkt_ptr)
  : outcome (option tkt_ptr) :=
  match q with
  | [] => Done None
  | p :: q' =>
      t ← load st p;
      if domain_id (dom_info t) =? domid then Done (Some p)
      else search_by_domid st domid q'
  end.

Definition __search_in_runnable_Q (st : cpu_state) (domid : Z) : outcome (option tkt_ptr) :=
  search_by_domid st domid (edf_runnable_Q (local_sched st)).

Definition __is_activation_Q_empty (st : cpu_state) : bool :=
  match activation_Q (local_sched st) with [] => true | _ => false end.

Definition __insert_into_activation_Q (p : tkt_ptr) (st : cpu_state) : outcome cpu_state :=
  t ← load st p;
  q ← RB_INSERT __cmp_tckt_rel_times st p t (activation_Q (local_sched st));
  Done (set_activation_Q q st).

Definition __head_of_activation_Q (st : cpu_state) : option tkt_ptr :=
  head (activation_Q (local_sched st)).

Definition __remove_from_activation_Q (p : tkt_ptr) (st : cpu_state) : outcome cpu_state :=
  BUG_ON (__is_activation_Q_empty st);;
  Done (set_activation_Q (RB_REMOVE p (activation_Q (local_sched st))) st).

Definition __search_in_activation_Q (st : cpu_state) (domid : Z) : outcome (option tkt_ptr) :=
  search_by_domid st domid (activation_Q (local_sched st)).

(** *** Ticket time update *)

(** [enum reason_4_updating_time_in_ticket] *)
Definition NORMAL_SCHEDULING : Z := 0.
Definition PAUSED_DOMAIN : Z := 1.
Definition UNPAUSED_DOMAIN : Z := 2.
Definition GLOBAL_ADJUST : Z := 3.
Definition NUM_OF_REASONS_4_UPDATING_TIME_IN_TICKET : Z := 4.

Definition MIN_NEGATIVE_DIFF : Z := -10000.

(** [(now/GANG_FINEST_TIME_GRAIN)*GANG_FINEST_TIME_GRAIN] on [s_time_t];
    a zero grain traps the division. *)
Definition round_down_to_grain (g : gang_globals) (now : Z) : outcome Z :=
  if GANG_FINEST_TIME_GRAIN g =? 0 then Crash FAULT
  else Done (s64 (s64 (Z.quot now (GANG_FINEST_TIME_GRAIN g)) * GANG_FINEST_TIME_GRAIN g)).

(** [be_doms_in_cohort[cohort]] *)
Definition read_be_doms_in_cohort (g : gang_globals) (cohort : Z) : outcome Z :=
  if cohort <? 0 then Crash FAULT
  else match be_doms_in_cohort g !! Z.to_nat cohort with
       | Some n => Done n
       | None => Crash FAULT
       end.

(** The policy-dependent part of the [NORMAL_SCHEDULING] branch: [t]
    already has its [remaining_time] decreased. *)
Definition rearm_ticket (g : gang_globals) (now : Z) (t : sched_ticket_t)
  : outcome sched_ticket_t :=
  let di := dom_info t in
  match tm_muxing_spec di with
  | TimeTrig p =>
      if remaining_time t <? MARGIN then
        Done (set_times (s64 (earliest_start_time t + tt_period p))
                        (s64 (deadline t + tt_period p))
                        (s64 (tt_active_time p)) t)
      else Done t
  | EventTrig p =>
      if remaining_time t <? MARGIN then
        est ← round_down_to_grain g now;
        Done (set_times est
                        (s64 (deadline t + et_period p))
                        (s64 (et_active_time p)) t)
      else Done t
  | BestEffort p =>
      let cohort := cohort di in
      if remaining_time t <? MARGIN then
        est ← round_down_to_grain g now;
        n ← read_be_doms_in_cohort g cohort;
        Done (set_times est
                        (s64 (deadline t + s64 (n * __period_4_be_doms g)))
                        (__quantum_4_be_doms g) t)
      else Done t
  | _ =>
      (* "ERROR: Domain %d with invalid time-multiplexing policy." *)
      ASSERT false;; Done t
  end.

Definition __update_times_in_ticket (g : gang_globals) (tkt : tkt_ptr)
    (now : Z) (reason : Z) (st : cpu_state) : outcome cpu_state :=
  t ← load st tkt;
  let di := dom_info t in
  let dom_id := domain_id di in
  found ← __search_in_runnable_Q st dom_id;
  BUG_ON (bool_decide (found ≠ None));;
  match vcpu t with
  | Some v => BUG_ON (is_idle_vcpu v)
  | None => Done tt
  end;;
  BUG_ON (negb (VALIDATE_GANG_SCHED_POLICY_TYPE (type (tm_muxing_spec di))));;
  BUG_ON (reason <? NORMAL_SCHEDULING);;
  BUG_ON (reason >=? NUM_OF_REASONS_4_UPDATING_TIME_IN_TICKET);;
  if reason =? NORMAL_SCHEDULING then
    if is_no_muxing (tm_muxing_spec di) then
      (* No need to update the ticket of a non-multiplexed domain. *)
      __insert_into_activation_Q tkt st
    else
      let diff := s64 (now - activated_at t) in
      if diff <? MIN_NEGATIVE_DIFF then Crash BUG
      else
        let diff := if diff <? 0 then 0 else diff in
        let t1 := set_times (earliest_start_time t) (deadline t)
                            (s64 (remaining_time t - diff)) t in
        t2 ← rearm_ticket g now t1;
        __insert_into_activation_Q tkt (store tkt t2 st)
  else if reason =? PAUSED_DOMAIN then Crash BUG
  else if reason =? UNPAUSED_DOMAIN then Crash BUG
  else Crash PANIC.

Section WithNrCpus.

(** [NR_CPUS], the build-time number of CPU ids. *)
Variable NR_CPUS : nat.

(** One round of the [for] loop of [__update_current_tickets]. *)
Definition update_current_ticket_of_cpu (g : gang_globals) (now : Z)
    (acc : cpumask_t * cpu_state) (cpu : nat) : outcome (cpumask_t * cpu_state) :=
  let '(checked_cpus, st) := acc in
  if negb (cpumask_test_cpu cpu checked_cpus) then
    match cur_ticket_per_cpu (local_sched st) !! cpu with
    | None => Crash FAULT
    | Some None => Done (checked_cpus, st)
    | Some (Some tkt) =>
        t ← load st tkt;
        let dom_info := dom_info t in
        st ← __update_times_in_ticket g tkt now NORMAL_SCHEDULING st;
        t' ← load st tkt;
        let st := store tkt (set_on_my_behalf None t') st in
        Done (cpumask_or checked_cpus (cpumask dom_info), st)
    end
  else Done (checked_cpus, st).

Definition __update_current_tickets (g : gang_globals) (now : Z) (st : cpu_state)
  : outcome cpu_state :=
  '(_, st) ← ofold (update_current_ticket_of_cpu g now) (seq 0 NR_CPUS)
                   (cpumask_clear, st);
  (* memset(s->cur_ticket_per_cpu, 0, ...) *)
  Done (set_cur_tickets (replicate NR_CPUS None) st).

(** The [while] loop of [__update_sched_info]; [aq] is the activation
    queue of [st], whose head the loop inspects and removes. *)
Fixpoint activate_due_tickets (now : Z) (aq : list tkt_ptr) (st : cpu_state)
  : outcome cpu_state :=
  match aq with
  | [] => Done st
  | tkt :: aq' =>
      t ← load st tkt;
      if earliest_start_time t <=? now then
        st ← __remove_from_activation_Q tkt st;
        let st :=
          if test_bit GSBIT_WAS_WAITING_FOR_EVENT (flags t) then
            store tkt (set_flags (clear_bit GSBIT_WAS_WAITING_FOR_EVENT (flags t)) t) st
          else st in
        st ← __insert_into_runnable_Q tkt st;
        activate_due_tickets now aq' st
      else Done st
  end.

Definition __update_sched_info (g : gang_globals) (now : Z) (st : cpu_state)
  : outcome (Z * cpu_state) :=
  st ← __update_current_tickets g now st;
  if now =? INFINITY then Done (INFINITY, st)
  else
    st ← activate_due_tickets now (activation_Q (local_sched st)) st;
    match __head_of_activation_Q st with
    | Some ht => t ← load st ht; Done (earliest_start_time t, st)
    | None => Done (INFINITY, st)
    end.

(** *** The schedule decision *)

Inductive task_t :=
| idle_vcpu (cpu : nat)
| domain_vcpu (v : vcpu_t).

Record task_slice := {
  task : task_t;
  time : Z;
  migrated : bool
}.

(** Local variables of [gang_do_schedule] that live across the rounds
    of its [while] loop. *)
Record loop_vars := {
  assigned_cpus : cpumask_t;
  end_of_time_slice : Z;
  __num_of_runnable_domains : Z;
  __non_muxed_domain_present : bool
}.

(** [for (i = 0; i < NR_CPUS; i++) if (cpumask_test_cpu(i, mask))
    { BUG_ON(cur[i] != NULL); cur[i] = ticket; }] *)
Definition install_ticket_on_cpu (ticket : tkt_ptr) (mask : cpumask_t)
    (tbl : list (option tkt_ptr)) (i : nat) : outcome (list (option tkt_ptr)) :=
  if cpumask_test_cpu i mask then
    match tbl !! i with
    | None => Crash FAULT
    | Some cur => BUG_ON (bool_decide (cur ≠ None));; Done (<[i := Some ticket]> tbl)
    end
  else Done tbl.

(** The body of the [while] loop, after the ticket has been removed
    from the runnable queue. *)
Definition schedule_ticket (now : Z) (ticket : tkt_ptr) (lv : loop_vars)
    (st : cpu_state) : outcome (loop_vars * cpu_state) :=
  t ← load st ticket;
  let dom_info := dom_info t in
  let n := __num_of_runnable_domains lv + 1 in
  if negb (cpumask_intersects (assigned_cpus lv) (cpumask dom_info)) then
    let assigned := cpumask_or (assigned_cpus lv) (cpumask dom_info) in
    tbl ← ofold (install_ticket_on_cpu ticket (cpumask dom_info)) (seq 0 NR_CPUS)
                (cur_ticket_per_cpu (local_sched st));
    let st := set_cur_tickets tbl st in
    let st := store ticket (set_activated_at now t) st in
    let tval := if is_no_muxing (tm_muxing_spec dom_info) then INFINITY
                else s64 (now + remaining_time t) in
    let eots := Z.min (end_of_time_slice lv) tval in
    (* Sanity checks *)
    (if is_no_muxing (tm_muxing_spec dom_info) then
       BUG_ON (negb (remaining_time t =? INFINITY))
     else
       BUG_ON (remaining_time t =? INFINITY);;
       BUG_ON (remaining_time t <? MARGIN));;
    Done ({| assigned_cpus := assigned;
             end_of_time_slice := eots;
             __num_of_runnable_domains := n;
             __non_muxed_domain_present :=
               if is_no_muxing (tm_muxing_spec dom_info) then true
               else __non_muxed_domain_present lv |}, st)
  else
    let tval := s64 (deadline t - remaining_time t) in
    BUG_ON (tval <=? 0);;
    let tval := if tval <=? now then s64 (now + ms_2_ns 1) else tval in
    let eots := Z.min (end_of_time_slice lv) tval in
    st ← __insert_into_activation_Q ticket st;
    Done ({| assigned_cpus := assigned_cpus lv;
             end_of_time_slice := eots;
             __num_of_runnable_domains := n;
             __non_muxed_domain_present := __non_muxed_domain_present lv |}, st).

(** [cohorts[cpu_id]] *)
Definition cohort_mask_at (g : gang_globals) (cpu_id : nat) : outcome cpumask_t :=
  match cohorts g !! cpu_id with
  | Some m => Done m
  | None => Crash FAULT
  end.

(** The [while (!__is_runnable_Q_empty(s))] loop; [rq] is the runnable
    queue of [st], whose head each round removes. *)
Fixpoint schedule_loop (g : gang_globals) (cpu_id : nat) (now : Z)
    (rq : list tkt_ptr) (lv : loop_vars) (st : cpu_state)
  : outcome (loop_vars * cpu_state) :=
  match rq with
  | [] => Done (lv, st)
  | ticket :: rq' =>
      st ← __remove_from_runnable_Q ticket st;
      '(lv, st) ← schedule_ticket now ticket lv st;
      c ← cohort_mask_at g cpu_id;
      if cpumask_equal (assigned_cpus lv) c then Done (lv, st)
      else schedule_loop g cpu_id now rq' lv st
  end.

(** The exit of [gang_do_schedule] (label [EXIT_GANG_DO_SCHEDULE]). *)
Definition exit_gang_do_schedule (cpu_id : nat) (now : Z)
    (ticket : option tkt_ptr) (end_of_time_slice : Z) (st : cpu_state)
  : outcome (task_slice * cpu_state) :=
  tsk ← match ticket with
        | Some p =>
            t ← load st p;
            match vcpu t with
            | None => Crash BUG
            | Some v => BUG_ON (is_idle_vcpu v);; Done (domain_vcpu v)
            end
        | None => Done (idle_vcpu cpu_id)
        end;
  let tm :=
    if end_of_time_slice <? INFINITY then
      let d := s64 (end_of_time_slice - now) in
      if d <? 0 then 0 else d
    else -1 in
  Done ({| task := tsk; time := tm; migrated := false |}, st).

(** Guest yield handling: [ticket] is the ticket picked for this CPU,
    [current] the VCPU that was running. *)
Definition handle_guest_sched_commands (current : vcpu_t)
    (ticket : option tkt_ptr) (st : cpu_state)
  : outcome (option tkt_ptr * cpu_state) :=
  if negb (is_idle_vcpu current) then
    match sched_priv current with
    | None => Crash FAULT
    | Some cur_tkt =>
        ct ← load st cur_tkt;
        let cur_di := dom_info ct in
        '(ticket, st) ←
          (if bool_decide (ticket = Some cur_tkt) then
             if negb (is_no_muxing (tm_muxing_spec cur_di)) &&
                test_bit GSBIT_SINGLE_VCPU_YIELD (flags ct) then
               (* ticket->on_my_behalf = NULL; no substitute: idle *)
               Done (None, store cur_tkt (set_on_my_behalf None ct) st)
             else Done (ticket, st)
           else Done (ticket, st));
        ct ← load st cur_tkt;
        Done (ticket,
              store cur_tkt
                (set_flags (clear_bit GSBIT_SINGLE_VCPU_YIELD (flags ct)) ct) st)
    end
  else Done (ticket, st).

Definition gang_do_schedule (g : gang_globals) (cpu_id : nat) (current : vcpu_t)
    (now : Z) (tasklet_work_scheduled : bool) (st : cpu_state)
  : outcome (task_slice * cpu_state) :=
  if (num_of_cohorts g =? 0) || (num_of_muxgroups g =? 0) then
    (* No domains in the gang-scheduled CPU pool. *)
    BUG_ON (negb (num_of_cohorts g =? 0) || negb (num_of_muxgroups g =? 0));;
    exit_gang_do_schedule cpu_id now None INFINITY st
  else
    '(earliest_actv, st) ← __update_sched_info g now st;
    if tasklet_work_scheduled then
      (* This CPU got a tasklet. Then, it just need to go idle. *)
      exit_gang_do_schedule cpu_id now None INFINITY st
    else
      '(lv, st) ← schedule_loop g cpu_id now (edf_runnable_Q (local_sched st))
                    {| assigned_cpus := cpumask_clear;
                       end_of_time_slice := INFINITY;
                       __num_of_runnable_domains := 0;
                       __non_muxed_domain_present := false |} st;
      (if __non_muxed_domain_present lv && (__num_of_runnable_domains lv >? 1)
       then Crash PANIC else Done tt);;
      ticket ← match cur_ticket_per_cpu (local_sched st) !! cpu_id with
               | Some tk => Done tk
               | None => Crash FAULT
               end;
      let eots := Z.min (end_of_time_slice lv) earliest_actv in
      eots ← (if eots <? INFINITY then
                if GANG_FINEST_TIME_GRAIN g =? 0 then Crash FAULT
                else Done (s64 (s64 (Z.quot eots (GANG_FINEST_TIME_GRAIN g))
                                * GANG_FINEST_TIME_GRAIN g))
              else Done eots);
      '(ticket, st) ← handle_guest_sched_commands current ticket st;
      exit_gang_do_schedule cpu_id now ticket eots st.

End WithNrCpus.

End LocalSched.
Import LocalSched.

(** ** Per-CPU scheduler data: allocation and release *)

Module Pdata.
Section WithNrCpus.

Variable NR_CPUS : nat.

(** [gang_pcpu_info_t]: the pointer to the CPU's [sched_info_t]
    ([None] is NULL). *)
Record gang_pcpu_info_t := {
  pci_local_sched : option sched_info_t
}.

(** What [xzalloc(sched_info_t)] returns: all zero. *)
Definition zeroed_sched_info : sched_info_t :=
  {| edf_runnable_Q := [];
     activation_Q := [];
     tickets_waiting_4_event := None;
     cur_ticket_per_cpu := replicate NR_CPUS None |}.

(** [__create_waiting_4_event_set]; [created] is what [create_hashtable]
    returns, [None] when it fails. *)
Definition __create_waiting_4_event_set (created : option (list (Z * tkt_ptr)))
    (s : sched_info_t) : outcome sched_info_t :=
  BUG_ON (bool_decide (tickets_waiting_4_event s ≠ None));;
  Done {| edf_runnable_Q := edf_runnable_Q s;
          activation_Q := activation_Q s;
          tickets_waiting_4_event := created;
          cur_ticket_per_cpu := cur_ticket_per_cpu s |}.

Definition __init_sched_info (created : option (list (Z * tkt_ptr)))
    (s : option sched_info_t) : outcome sched_info_t :=
  match s with
  | None => Crash BUG
  | Some s =>
      let s := {| edf_runnable_Q := [];
                  activation_Q := [];
                  tickets_waiting_4_event := tickets_waiting_4_event s;
                  cur_ticket_per_cpu := cur_ticket_per_cpu s |} in
      s ← __create_waiting_4_event_set created s;
      Done {| edf_runnable_Q := edf_runnable_Q s;
              activation_Q := activation_Q s;
              tickets_waiting_4_event := tickets_waiting_4_event s;
              cur_ticket_per_cpu := replicate NR_CPUS None |}
  end.

(** [xfree(t)] of a ticket: the block must be allocated; the queue
    node read before it lies in the block, and a block is freed
    once. *)
Definition xfree (mem : gmap tkt_ptr sched_ticket_t) (p : tkt_ptr)
  : outcome (gmap tkt_ptr sched_ticket_t) :=
  match mem !! p with
  | None => Crash FAULT
  | Some _ => Done (delete p mem)
  end.

(** [xfree] of the tickets [ps], one after the other. *)
Definition free_tickets (ps : list tkt_ptr) (mem : gmap tkt_ptr sched_ticket_t)
  : outcome (gmap tkt_ptr sched_ticket_t) :=
  ofold xfree ps mem.

(** [__clean_runnable_Q], [__clean_activation_Q]: the loop takes
    [RB_MAX], the last ticket of the queue, removes and frees it,
    until the queue is empty. *)
Definition clean_Q (q : list tkt_ptr) (mem : gmap tkt_ptr sched_ticket_t)
  : outcome (gmap tkt_ptr sched_ticket_t) :=
  free_tickets (reverse q) mem.

(** One round of the loop of [__deinit_sched_info] over the current
    tickets: one [xfree] per domain mask. *)
Definition free_current_ticket_of_cpu (tbl : list (option tkt_ptr))
    (acc : cpumask_t * gmap tkt_ptr sched_ticket_t) (cpu : nat)
  : outcome (cpumask_t * gmap tkt_ptr sched_ticket_t) :=
  let '(cleared_cpus, mem) := acc in
  if negb (cpumask_test_cpu cpu cleared_cpus) then
    match tbl !! cpu with
    | None => Crash FAULT
    | Some None => Done (cleared_cpus, mem)
    | Some (Some tkt) =>
        match mem !! tkt with
        | None => Crash FAULT
        | Some t =>
            Done (cpumask_or cleared_cpus (cpumask (dom_info t)), delete tkt mem)
        end
    end
  else Done (cleared_cpus, mem).

(** [__deinit_sched_info(s, destroy_waiting_4_event_set)] *)
Definition __deinit_sched_info (s : option sched_info_t)
    (destroy_waiting_4_event_set : bool) (mem : gmap tkt_ptr sched_ticket_t)
  : outcome (sched_info_t * gmap tkt_ptr sched_ticket_t) :=
  match s with
  | None => Crash BUG                      (* BUG_ON(s == NULL) *)
  | Some s =>
      (* __clean_runnable_Q, __clean_activation_Q *)
      mem ← clean_Q (edf_runnable_Q s) mem;
      mem ← clean_Q (activation_Q s) mem;
      (* __clean_waiting_4_event_set *)
      '(w, mem) ← match tickets_waiting_4_event s with
                  | None => Crash FAULT    (* hashtable_count(NULL) *)
                  | Some entries =>
                      mem ← free_tickets (map snd entries) mem;
                      Done (Some ([] : list (Z * tkt_ptr)), mem)
                  end;
      let w := if destroy_waiting_4_event_set then None else w in
      '(_, mem) ← ofold (free_current_ticket_of_cpu (cur_ticket_per_cpu s))
                        (seq 0 NR_CPUS) (cpumask_clear, mem);
      Done ({| edf_runnable_Q := [];
               activation_Q := [];
               tickets_waiting_4_event := w;
               cur_ticket_per_cpu := replicate NR_CPUS None |}, mem)
  end.

(** [gang_alloc_pdata].  [pci_ok] and [local_sched_ok] say whether the
    two [xzalloc] calls return memory, [created] is the result of
    [create_hashtable], [curr_is_idle] is [is_idle_vcpu(curr_on_cpu(cpu))].
    The result is the returned pointer. *)
Definition gang_alloc_pdata (pci_ok local_sched_ok : bool)
    (created : option (list (Z * tkt_ptr))) (curr_is_idle : bool)
  : outcome (option gang_pcpu_info_t) :=
  if negb pci_ok || negb local_sched_ok then Done None
  else
    local_sched ← __init_sched_info created (Some zeroed_sched_info);
    BUG_ON (bool_decide (tickets_waiting_4_event local_sched = None));;
    (* Start off idling ... *)
    BUG_ON (negb curr_is_idle);;
    Done (Some {| pci_local_sched := Some local_sched |}).

(** [gang_free_pdata]; the result is the ticket memory after it. *)
Definition gang_free_pdata (spc : option gang_pcpu_info_t)
    (mem : gmap tkt_ptr sched_ticket_t)
  : outcome (gmap tkt_ptr sched_ticket_t) :=
  match spc with
  | None => Done mem
  | Some pci =>
      ASSERT (bool_decide (pci_local_sched pci = None));;
      '(_, mem) ← __deinit_sched_info (pci_local_sched pci) true mem;
      Done mem
  end.

End WithNrCpus.
End Pdata.


(** ** Cohorts ([__update_cohorts], [__set_cohort_in_domain]) *)

Module Cohorts.

(** [__cohorts[n]] *)
Definition read_cohort (c : list cpumask_t) (n : nat) : outcome cpumask_t :=
  match c !! n with
  | Some m => Done m
  | None => Crash FAULT
  end.

(** First loop of [__update_cohorts]: does the domain's CPU mask
    intersect an existing cohort?  [ns] are the indices still to visit.
    The result is the final value of [intersect] with the array. *)
Fixpoint expand_first_intersecting (di_cpumask : cpumask_t) (ns : list nat)
    (c : list cpumask_t) : outcome (bool * list cpumask_t) :=
  match ns with
  | [] => Done (false, c)
  | n :: ns' =>
      the_cohort ← read_cohort c n;
      if cpumask_intersects di_cpumask the_cohort then
        if negb (cpumask_subset di_cpumask the_cohort) then
          Done (true, <[n := cpumask_or the_cohort di_cpumask]> c)
        else Done (true, c)
      else expand_first_intersecting di_cpumask ns' c
  end.

(** [for (j = i+1; j < num; j++) if (cpumask_intersects(ca, cb)) ...]:
    the first [j] whose cohort overlaps cohort [i]. *)
Fixpoint first_overlap (c : list cpumask_t) (ca : cpumask_t) (js : list nat)
  : outcome (option nat) :=
  match js with
  | [] => Done None
  | j :: js' =>
      cb ← read_cohort c j;
      if cpumask_intersects ca cb then Done (Some j)
      else first_overlap c ca js'
  end.

(** "Fill the hole in the array of cohorts":
    [for (k = j+1; k < num; k++) cohorts[k-1] = cohorts[k]]. *)
Definition fill_hole (c : list cpumask_t) (j num : nat) : outcome (list cpumask_t) :=
  ofold (fun c k => cy ← read_cohort c k; Done (<[(k - 1)%nat := cy]> c))
        (seq (j + 1) (num - (j + 1))) c.

(** The merging [while] loop of [__update_cohorts].  The count is at
    least 1 when the loop is entered, so [num - 1] does not wrap. *)
Fixpoint merge_overlapping (fuel : nat) (i : nat) (c : list cpumask_t) (num : nat)
  : outcome (list cpumask_t * nat) :=
  match fuel with
  | O => Crash NO_FUEL
  | S fuel' =>
      if (i <? num - 1)%nat then
        ca ← read_cohort c i;
        found ← first_overlap c ca (seq (i + 1) (num - (i + 1)));
        match found with
        | Some j =>
            (* Cohorts A and B overlap, then merge them. *)
            cb ← read_cohort c j;
            c ← fill_hole (<[i := cpumask_or ca cb]> c) j num;
            (* i = -1; break; i++ *)
            merge_overlapping fuel' 0 c (num - 1)
        | None => merge_overlapping fuel' (i + 1) c num
        end
      else Done (c, num)
  end.

Definition __update_cohorts (di_cpumask : cpumask_t)
    (cs : list cpumask_t * nat) : outcome (list cpumask_t * nat) :=
  let '(c, num) := cs in
  '(intersect, c) ← expand_first_intersecting di_cpumask (seq 0 num) c;
  '(c, num) ←
    (if negb intersect then
       (* Get a new/unused cohort *)
       new_cohort ← read_cohort c num;
       Done (<[num := cpumask_or new_cohort di_cpumask]> c, S num)
     else Done (c, num));
  merge_overlapping (num * num + num + 1) 0 c num.

(** [__set_cohort_in_domain]: the index stored in [di->cohort]. *)
Fixpoint find_cohort (di_cpumask : cpumask_t) (c : list cpumask_t) (ncs : list nat)
  : outcome nat :=
  match ncs with
  | [] => Crash BUG                       (* BUG_ON(found == FALSE) *)
  | nc :: ncs' =>
      the_cohort ← read_cohort c nc;
      if cpumask_subset di_cpumask the_cohort then Done nc
      else find_cohort di_cpumask c ncs'
  end.

Definition __set_cohort_in_domain (di_cpumask : cpumask_t) (c : list cpumask_t)
    (num_of_cohorts : nat) : outcome nat :=
  find_cohort di_cpumask c (seq 0 num_of_cohorts).


End Cohorts.


(** ** The global adjustment ([gang_adjust_global])

    The adjustment is embedded as far as the domains' scheduling
    records go: the validation of the request, the snapshot of the
    pool's domains, the overlay of the request, the sort, the cohorts
    and multiplexing groups, and what the designated CPU writes back.

    The cross-CPU protocol is taken as run to its end: every CPU of the
    pool runs [__adjust_and_pause_this_cpu] before the initiator's
    timeout.  The rebuilding of the per-CPU local schedulers, the
    placement of the VCPUs and the unpausing of the domains, which do
    not write the domains' records, are left out; so are failed
    allocations and failed bitmap conversions.  A CPU map travels as
    the [cpumask_t] that [xenctl_bitmap_to_cpumask] makes of it. *)

Module Adjust.
Import Cohorts.

Definition EPERM : Z := 1.
Definition ENOMEM : Z := 12.
Definition EINVAL : Z := 22.

(** What the adjustment reads of a [struct domain]: its id, the id of
    its CPU pool, [max_vcpus], the number of its VCPUs
    ([__count_vcpus_in_domain]) and its scheduling record
    ([DOMAIN_SCHED_INFO]).  The record's [domain] pointer is held as
    the id of the domain it points to. *)
Record domain_t := {
  d_domain_id : Z;
  d_cpupool_id : Z;
  max_vcpus : Z;
  nr_vcpus : Z;
  d_sched_priv : gang_dom_info_t
}.

Record cpupool_t := {
  cpupool_id : Z;
  cpu_valid : cpumask_t
}.

(** The hypervisor's domain list, in its order, and the CPU pool that
    [op->cpupool_id] names. *)
Record hv_state := {
  domain_list : list domain_t;
  cpu_pool : cpupool_t
}.

(** [gang_sched_dom_conf_t], an entry of [xen_sysctl_gang_schedule_t].
    The request is the list of its first [num_dom_entries] entries. *)
Record gang_sched_dom_conf_t := {
  domid : Z;
  cpumap : cpumask_t;
  gang_sched_policy : gang_sched_policy_t
}.

Inductive sched_cmd : Set :=
| XEN_SYSCTL_SCHEDOP_putinfo
| XEN_SYSCTL_SCHEDOP_getinfo.

(** The two calls of [xenctl_bitmap_to_cpumask] for an entry of a
    request: in the validation of [gang_adjust_global] and in
    [__update_domain_infos]. *)
Inductive call_site : Set :=
| in_validation
| in_update.

(** The caller: whether [current->domain] is DOM0, whether it is in
    CPU pool 0, and [smp_processor_id()]. *)
Record caller_t := {
  from_dom0 : bool;
  in_cpupool0 : bool;
  processor : nat
}.

Definition set_sched_priv (di : gang_dom_info_t) (d : domain_t) : domain_t :=
  {| d_domain_id := d_domain_id d; d_cpupool_id := d_cpupool_id d;
     max_vcpus := max_vcpus d; nr_vcpus := nr_vcpus d; d_sched_priv := di |}.

Definition set_domain_list (l : list domain_t) (st : hv_state) : hv_state :=
  {| domain_list := l; cpu_pool := cpu_pool st |}.

Definition set_cohort (k : Z) (di : gang_dom_info_t) : gang_dom_info_t :=
  {| domain_id := domain_id di; cpumask := cpumask di;
     tm_muxing_spec := tm_muxing_spec di; cohort := k;
     muxgroup_mask := muxgroup_mask di |}.

Definition set_muxgroup_mask (m : cpumask_t) (di : gang_dom_info_t) : gang_dom_info_t :=
  {| domain_id := domain_id di; cpumask := cpumask di;
     tm_muxing_spec := tm_muxing_spec di; cohort := cohort di;
     muxgroup_mask := m |}.

(** A loop that rewrites the elements of an array in place, threading
    a state. *)
Fixpoint ofor_each {A B S} (body : S -> A -> outcome (B * S)) (l : list A) (s : S)
  : outcome (list B * S) :=
  match l with
  | [] => Done ([], s)
  | a :: l' =>
      '(b, s) ← body s a;
      '(bs, s) ← ofor_each body l' s;
      Done (b :: bs, s)
  end.

Definition array_read {A} (l : list A) (i : nat) : outcome A :=
  match l !! i with
  | Some a => Done a
  | None => Crash FAULT
  end.

(** [for_each_domain_in_cpupool] *)
Definition domains_in_cpupool (st : hv_state) : list domain_t :=
  filter (fun d => d_cpupool_id d = cpupool_id (cpu_pool st)) (domain_list st).

Definition get_domain_by_id (st : hv_state) (id : Z) : option domain_t :=
  find (fun d => d_domain_id d =? id) (domain_list st).

(** *** [__get_all_domain_infos] *)

Definition copy_domain_info (d : domain_t) : gang_dom_info_t :=
  let di := d_sched_priv d in
  {| domain_id := domain_id di; cpumask := cpumask di;
     tm_muxing_spec := tm_muxing_spec di; cohort := -1;
     muxgroup_mask := cpumask_clear |}.

Section WithConstants.

Variable NR_CPUS : nat.
(** [GANG_SCHED_MAX_DOMAINS] of [public/sysctl.h] *)
Variable GANG_SCHED_MAX_DOMAINS : nat.
Variable sched_ratelimit_us : Z.

(** [xenctl_bitmap_to_cpumask] allocates a mask and copies the bitmap
    of the request from the memory of the caller; it returns 0, or the
    negative of an error number.  The model holds the CPU map of an
    entry as the mask it denotes; the error number of the call made at
    [site] for the entry [e], 0 when the call succeeds, is a
    parameter. *)
Variable xenctl_bitmap_to_cpumask : call_site -> nat -> nat.

(** Whether [xmalloc_array] returns memory for [di_parr]. *)
Variable di_parr_allocated : bool.

(** The filled part of [infos] and the number of the pool's domains. *)
Definition __get_all_domain_infos (len : nat) (st : hv_state)
  : outcome (list gang_dom_info_t * Z) :=
  BUG_ON (GANG_SCHED_MAX_DOMAINS <? len)%nat;;
  let doms := domains_in_cpupool st in
  Done (copy_domain_info <$> take len doms, Z.of_nat (length doms)).

(** *** [__update_domain_infos] *)

(** [cpumask_copy(&di->cpumask, new_cpumask)] and the [memcpy] of the
    policy. *)
Definition apply_entry (dom_entry : gang_sched_dom_conf_t) (di : gang_dom_info_t)
  : gang_dom_info_t :=
  {| domain_id := domain_id di; cpumask := cpumap dom_entry;
     tm_muxing_spec := gang_sched_policy dom_entry;
     cohort := cohort di; muxgroup_mask := muxgroup_mask di |}.

(** The inner loop, [for (j = 0; j < len; j++)], over the indices [js]:
    the first index whose record has the domain id of the entry. *)
Fixpoint find_domain_info (dom_entry : gang_sched_dom_conf_t)
    (infos : list gang_dom_info_t) (js : list nat) : outcome (option nat) :=
  match js with
  | [] => Done None
  | j :: js' =>
      ddii ← array_read infos j;
      if domid dom_entry =? domain_id ddii then Done (Some j)
      else find_domain_info dom_entry infos js'
  end.

(** The loop over the entries, from the entry of index [e] on.  The
    result is the return value with the array: a record that an
    earlier entry has overwritten stays so when a later entry makes
    the function return. *)
Fixpoint update_entries (len : nat) (e : nat) (entries : list gang_sched_dom_conf_t)
    (infos : list gang_dom_info_t) (updated_domains : Z)
  : outcome (Z * list gang_dom_info_t) :=
  match entries with
  | [] => Done (updated_domains, infos)
  | dom_entry :: entries' =>
      di ← find_domain_info dom_entry infos (seq 0 len);
      match di with
      | None => Done (- EINVAL, infos)
      | Some j =>
          let err := - Z.of_nat (xenctl_bitmap_to_cpumask in_update e) in
          if err =? 0 then
            ddii ← array_read infos j;
            update_entries len (S e) entries'
              (<[j := apply_entry dom_entry ddii]> infos) updated_domains
          else Done (err, infos)
      end
  end.

(** The result is the return value with the array. *)
Definition __update_domain_infos (infos : list gang_dom_info_t) (len : Z)
    (params : list gang_sched_dom_conf_t) : outcome (Z * list gang_dom_info_t) :=
  let updated_domains := Z.of_nat (length params) in
  if len <? Z.of_nat (length params) then Done (- EINVAL, infos)
  else update_entries (Z.to_nat len) 0 params infos updated_domains.

(** *** [__sort_domain_infos] *)

Definition item_ord (di : gang_dom_info_t) : Z := type_code (type (tm_muxing_spec di)).

Fixpoint sort_loop (fuel : nat) (i : nat) (arr : list gang_dom_info_t)
  : outcome (list gang_dom_info_t) :=
  match fuel with
  | O => Crash NO_FUEL
  | S fuel' =>
      if Z.of_nat i =? Z.of_nat (length arr) - 1 then Done arr
      else
        item ← array_read arr i;
        next_item ← array_read arr (S i);
        if item_ord item >? item_ord next_item then
          sort_loop fuel' 0 (<[S i := item]> (<[i := next_item]> arr))
        else sort_loop fuel' (S i) arr
  end.

Definition __sort_domain_infos (arr : list gang_dom_info_t)
  : outcome (list gang_dom_info_t) :=
  let len := length arr in
  sort_loop ((len * len + 1) * len + 1) 0 arr.

(** "TODO: Implement!": the allocation is sorted and found valid. *)
Definition __validate_resource_allocation (arr : list gang_dom_info_t)
  : outcome (bool * list gang_dom_info_t) :=
  arr ← __sort_domain_infos arr;
  Done (true, arr).

(** *** [__add_dom_to_muxgroups] *)

Record muxgroups_t := {
  cpu_2_muxgroup : list Z;
  muxgroups : list cpumask_t;
  num_of_muxgroups : nat
}.

(** [for_each_cpu(c, group) __cpu_2_muxgroup[c] = muxgroup_id;] *)
Definition map_cpus_to_muxgroup (group : cpumask_t) (muxgroup_id : nat) (c2m : list Z)
  : list Z :=
  imap (fun c old => if cpumask_test_cpu c group then Z.of_nat muxgroup_id else old) c2m.

(** "Store in 'new_muxgrp' the CPU in no mux group." *)
Definition cpus_in_no_muxgroup (c2m : list Z) (new_muxgroup : cpumask_t) : cpumask_t :=
  fold_left (fun m i =>
               match c2m !! i with
               | Some g => if g <? 0 then cpumask_set_cpu i m else m
               | None => m
               end)
            (seq 0 NR_CPUS) new_muxgroup.

(** One round of the loop over the CPUs of the domain.  The state is
    [pending_cpus], [di->muxgroup_mask] and the groups. *)
Definition add_dom_cpu (di_cpumask : cpumask_t)
    (s : cpumask_t * cpumask_t * muxgroups_t) (cpu_id : nat)
  : outcome (cpumask_t * cpumask_t * muxgroups_t) :=
  let '(pending_cpus, di_muxgroup_mask, mg) := s in
  if negb (cpumask_test_cpu cpu_id di_cpumask) then Done s
  else if negb (cpumask_test_cpu cpu_id pending_cpus) then Done s
  else
    muxgroup_id ← array_read (cpu_2_muxgroup mg) cpu_id;
    if muxgroup_id >=? 0 then
      the_muxgroup ← array_read (muxgroups mg) (Z.to_nat muxgroup_id);
      let pending_cpus := cpumask_andnot pending_cpus the_muxgroup in
      if cpumask_subset di_cpumask the_muxgroup then
        Done (pending_cpus,
              cpumask_set_cpu (Z.to_nat muxgroup_id) di_muxgroup_mask, mg)
      else
        let new_id := num_of_muxgroups mg in
        BUG_ON (NR_CPUS <? S new_id)%nat;;
        let new_muxgroup := cpumask_and the_muxgroup di_cpumask in
        Done (pending_cpus,
              cpumask_set_cpu new_id di_muxgroup_mask,
              {| cpu_2_muxgroup :=
                   map_cpus_to_muxgroup new_muxgroup new_id (cpu_2_muxgroup mg);
                 muxgroups :=
                   <[Z.to_nat muxgroup_id := cpumask_andnot the_muxgroup di_cpumask]>
                     (<[new_id := new_muxgroup]> (muxgroups mg));
                 num_of_muxgroups := S new_id |})
    else
      let new_id := num_of_muxgroups mg in
      BUG_ON (NR_CPUS <? S new_id)%nat;;
      old ← array_read (muxgroups mg) new_id;
      let new_muxgroup :=
        cpumask_and (cpus_in_no_muxgroup (cpu_2_muxgroup mg) old) di_cpumask in
      Done (cpumask_andnot pending_cpus new_muxgroup,
            cpumask_set_cpu new_id di_muxgroup_mask,
            {| cpu_2_muxgroup :=
                 map_cpus_to_muxgroup new_muxgroup new_id (cpu_2_muxgroup mg);
               muxgroups := <[new_id := new_muxgroup]> (muxgroups mg);
               num_of_muxgroups := S new_id |}).

Definition __add_dom_to_muxgroups (di : gang_dom_info_t) (mg : muxgroups_t)
  : outcome (gang_dom_info_t * muxgroups_t) :=
  '(_, di_muxgroup_mask, mg) ←
    ofold (add_dom_cpu (cpumask di)) (seq 0 NR_CPUS)
          (cpumask di, muxgroup_mask di, mg);
  Done (set_muxgroup_mask di_muxgroup_mask di, mg).

(** *** [__populate_cohorts_and_muxgroups]

    The temporary arrays go to the globals that the local schedulers
    read; the domains keep their cohort and their mask of groups. *)
Definition __populate_cohorts_and_muxgroups (arr : list gang_dom_info_t)
  : outcome (list gang_dom_info_t) :=
  '(arr, (mg, cs)) ←
    ofor_each (fun '(mg, cs) di =>
                 '(di, mg) ← __add_dom_to_muxgroups di mg;
                 cs ← __update_cohorts (cpumask di) cs;
                 Done (di, (mg, cs)))
              arr
              ({| cpu_2_muxgroup := replicate NR_CPUS (-1);
                  muxgroups := replicate NR_CPUS cpumask_clear;
                  num_of_muxgroups := 0 |},
               (replicate NR_CPUS cpumask_clear, 0%nat));
  let '(__cohorts, __num_of_cohorts) := cs in
  BUG_ON (num_of_muxgroups mg =? 0)%nat;;
  BUG_ON (NR_CPUS <? num_of_muxgroups mg)%nat;;
  BUG_ON (__num_of_cohorts =? 0)%nat;;
  BUG_ON (NR_CPUS <? __num_of_cohorts)%nat;;
  '(arr, _) ←
    ofor_each (fun (_ : unit) di =>
                 k ← __set_cohort_in_domain (cpumask di) __cohorts __num_of_cohorts;
                 Done (set_cohort (Z.of_nat k) di, tt))
              arr tt;
  Done arr.

(** *** The designated CPU's part of the adjustment *)

(** The checks of [__setup_vcpus_for_domain]. *)
Definition __setup_vcpus_for_domain (st : hv_state) (di : gang_dom_info_t)
  : outcome unit :=
  match get_domain_by_id st (domain_id di) with
  | None => Crash BUG
  | Some d =>
      let cpus_in_pool := cpumask_weight (cpu_valid (cpu_pool st)) in
      let assigned_cpus_2_dom := cpumask_weight (cpumask di) in
      let vcpus_in_dom := nr_vcpus d in
      BUG_ON (negb (vcpus_in_dom =? max_vcpus d));;
      BUG_ON (vcpus_in_dom >? cpus_in_pool);;
      BUG_ON (negb (assigned_cpus_2_dom =? vcpus_in_dom))
  end.

(** "Only the designated CPU updates the domain's private scheduling
    info" ([__update_local_sched_v0]): the record of [di->domain]
    takes the CPU mask, the policy, the cohort and the group mask of
    [di]. *)
Definition write_domain_info (di : gang_dom_info_t) (d : domain_t) : domain_t :=
  if d_domain_id d =? domain_id di then
    set_sched_priv {| domain_id := domain_id (d_sched_priv d);
                      cpumask := cpumask di;
                      tm_muxing_spec := tm_muxing_spec di;
                      cohort := cohort di;
                      muxgroup_mask := muxgroup_mask di |} d
  else d.

Definition __smp_adjust_and_pause (caller : caller_t) (arr : list gang_dom_info_t)
    (st : hv_state) : outcome hv_state :=
  BUG_ON (cpumask_test_cpu (processor caller) (cpu_valid (cpu_pool st)));;
  if (cpu_valid (cpu_pool st) =? 0)%N then
    (* no CPU is selected: nothing runs *)
    Done st
  else
    ofold (fun _ di => __setup_vcpus_for_domain st di) arr tt;;
    Done (fold_left (fun st di =>
                       set_domain_list (write_domain_info di <$> domain_list st) st)
                    arr st).

(** *** The validation of a request *)

(** "Check no duplicates in the parameters." *)
Fixpoint has_duplicate_domid (entries : list gang_sched_dom_conf_t) : bool :=
  match entries with
  | [] => false
  | e :: entries' =>
      existsb (fun j => domid e =? domid j) entries' || has_duplicate_domid entries'
  end.

(** "Validate each domain's request", for the entry of index [e]: 0,
    or the error code. *)
Definition validate_dom_entry (st : hv_state) (e : nat)
    (dom_entry : gang_sched_dom_conf_t) : Z :=
  if domid dom_entry <=? 0 then - EINVAL
  else
    (* get_domain_by_id((domid_t) dom_entry->domid) *)
    match get_domain_by_id st (domid dom_entry mod 2^16) with
    | None => - EINVAL
    | Some dom =>
        if negb (d_cpupool_id dom =? cpupool_id (cpu_pool st)) then - EINVAL
        else
          let cpus_in_pool := cpumask_weight (cpu_valid (cpu_pool st)) in
          let vcpu_count := nr_vcpus dom in
          if vcpu_count >? cpus_in_pool then - EINVAL
          else if max_vcpus dom >? cpus_in_pool then - EINVAL
          else if negb (vcpu_count =? max_vcpus dom) then - EINVAL
          else
            let err := - Z.of_nat (xenctl_bitmap_to_cpumask in_validation e) in
            if negb (err =? 0) then err
            else
              let is_subset :=
                cpumask_subset (cpumap dom_entry) (cpu_valid (cpu_pool st)) in
              let assigned_cpus_2_dom := cpumask_weight (cpumap dom_entry) in
              if negb is_subset then - EINVAL
              else if negb (vcpu_count =? assigned_cpus_2_dom) then - EINVAL
              else if negb (VALIDATE_GANG_SCHED_POLICY_TYPE
                              (type (gang_sched_policy dom_entry))) then - EINVAL
              else if negb (Validate.__validate_gang_sched_policy sched_ratelimit_us
                              (Some (gang_sched_policy dom_entry))) then - EINVAL
              else 0
    end.

Fixpoint validate_dom_entries (st : hv_state) (e : nat)
    (entries : list gang_sched_dom_conf_t) : Z :=
  match entries with
  | [] => 0
  | dom_entry :: entries' =>
      let rc := validate_dom_entry st e dom_entry in
      if rc =? 0 then validate_dom_entries st (S e) entries' else rc
  end.

(** *** [gang_adjust_global]

    The result is the return value, the state, and the entries that
    [params] holds on return.  ([exec_count] is left out: the test
    [atomic_inc_and_test(&exec_count) > 1] is never true.  The
    allocation of [dom_infos] and of the temporary arrays, which the
    code does not test, and the conversion [cpumask_to_xenctl_bitmap]
    of [getinfo] are taken to succeed.) *)

Definition entry_of_info (di : gang_dom_info_t) : gang_sched_dom_conf_t :=
  {| domid := domain_id di; cpumap := cpumask di;
     gang_sched_policy := tm_muxing_spec di |}.

Definition gang_adjust_global (caller : caller_t) (cmd : sched_cmd)
    (params : list gang_sched_dom_conf_t) (st : hv_state)
  : outcome (Z * hv_state * list gang_sched_dom_conf_t) :=
  if negb (from_dom0 caller) then Done (- EPERM, st, params)
  else if negb (in_cpupool0 caller) then Done (- EPERM, st, params)
  else
    match cmd with
    | XEN_SYSCTL_SCHEDOP_putinfo =>
        let num_dom_entries := Z.of_nat (length params) in
        if (num_dom_entries <? 1) || (num_dom_entries >? Z.of_nat GANG_SCHED_MAX_DOMAINS)
        then Done (- EINVAL, st, params)
        else if has_duplicate_domid params then Done (- EINVAL, st, params)
        else
          let rc := validate_dom_entries st 0 params in
          if negb (rc =? 0) then Done (rc, st, params)
          else
            BUG_ON (cpumask_test_cpu (processor caller) (cpu_valid (cpu_pool st)));;
            '(dom_infos, dom_count) ←
              __get_all_domain_infos GANG_SCHED_MAX_DOMAINS st;
            BUG_ON (dom_count =? 0);;
            BUG_ON (dom_count >? Z.of_nat GANG_SCHED_MAX_DOMAINS);;
            '(err, dom_infos) ← __update_domain_infos dom_infos dom_count params;
            BUG_ON (err <? 0);;
            if negb di_parr_allocated then Done (- ENOMEM, st, params)
            else
              '(valid, di_parr) ← __validate_resource_allocation dom_infos;
              if negb valid then Done (- EINVAL, st, params)
              else
                di_parr ← __populate_cohorts_and_muxgroups di_parr;
                st ← __smp_adjust_and_pause caller di_parr st;
                Done (0, st, params)
    | XEN_SYSCTL_SCHEDOP_getinfo =>
        BUG_ON (cpumask_test_cpu (processor caller) (cpu_valid (cpu_pool st)));;
        '(dom_infos, dom_count) ←
          __get_all_domain_infos GANG_SCHED_MAX_DOMAINS st;
        BUG_ON (dom_count >? Z.of_nat GANG_SCHED_MAX_DOMAINS);;
        Done (0, st, entry_of_info <$> (dom_infos : list gang_dom_info_t))
    end.

End WithConstants.

(** *** The configuration that [getinfo] is to return after an
    accepted [putinfo] *)

(** The entry of the request [p] that names the domain [id]. *)
Definition named_entry (p : list gang_sched_dom_conf_t) (id : Z)
  : option gang_sched_dom_conf_t :=
  find (fun e => domid e =? id) p.

(** The entry [e] names one of the first [len] records of [infos]. *)
Definition named_within (infos : list gang_dom_info_t) (len : Z)
    (e : gang_sched_dom_conf_t) : Prop :=
  domid e ∈ domain_id <$> take (Z.to_nat len) infos.

#[global] Instance named_within_dec infos len e : Decision (named_within infos len e) :=
  decide (domid e ∈ domain_id <$> take (Z.to_nat len) infos).

(** The snapshot of a domain with the request laid over it. *)
Definition overlay (p : list gang_sched_dom_conf_t) (di : gang_dom_info_t)
  : gang_dom_info_t :=
  match named_entry p (domain_id di) with
  | Some e => apply_entry e di
  | None => di
  end.

(** What the designated CPU has written to the domain [d] after the
    records [arr]. *)
Definition written_back (arr : list gang_dom_info_t) (d : domain_t) : domain_t :=
  fold_left (fun d di => write_domain_info di d) arr d.

(** The number of pairs of [arr] that are out of order, the measure
    of [__sort_domain_infos]. *)
Fixpoint inversions (arr : list gang_dom_info_t) : nat :=
  match arr with
  | [] => 0
  | a :: l => length (filter (fun b => item_ord b < item_ord a) l) + inversions l
  end.

(** For a domain that [p] names, the CPU map and policy of its entry;
    for another domain, what it had. *)
Definition expected_entry (p : list gang_sched_dom_conf_t) (d : domain_t)
  : gang_sched_dom_conf_t :=
  let di := d_sched_priv d in
  match named_entry p (domain_id di) with
  | Some e =>
      {| domid := domain_id di; cpumap := cpumap e;
         gang_sched_policy := gang_sched_policy e |}
  | None =>
      {| domid := domain_id di; cpumap := cpumask di;
         gang_sched_policy := tm_muxing_spec di |}
  end.

(** Domain ids are unique, and the scheduling record of a domain
    points back to it ([gang_alloc_domdata]). *)
Definition wf_state (st : hv_state) : Prop :=
  NoDup (d_domain_id <$> domain_list st) /\
  Forall (fun d => domain_id (d_sched_priv d) = d_domain_id d) (domain_list st).

End Adjust.


(** ** The schedulability test of the control tool ([gs_sched_test.cc]) *)

Module SchedTest.
Import ToolValidate.

(** [gs_dominfo_t].  [cpus] is the array the pointer names; the test
    reads its first [num_of_cpus] elements. *)
Record gs_dominfo_t := {
  domid : Z;
  cpus : list Z;
  num_of_cpus : Z;
  gang_sched_policy : gang_sched_policy_t
}.

Definition EINVAL : Z := 22.

(** C's [double] is IEEE 754 binary64, the kernel's primitive [float];
    [(double) n] for an unsigned integer [n] rounds to nearest, ties to
    even. *)
Definition double_of_Z (n : Z) : float :=
  SF2Prim (binary_normalize prec emax n 0 false).

Definition dbl_0 : float := double_of_Z 0.
Definition dbl_1 : float := double_of_Z 1.
Definition dbl_100 : float := double_of_Z 100.

(** [x > y] on doubles *)
Definition dgt (x y : float) : bool := PrimFloat.ltb y x.
(** [x <= y] on doubles *)
Definition dle (x y : float) : bool := PrimFloat.leb x y.

(** [di->cpus[c]] *)
Definition read_cpu (di : gs_dominfo_t) (c : nat) : outcome Z :=
  match cpus di !! c with
  | Some cpuid => Done cpuid
  | None => Crash FAULT
  end.

(** The indices [0 .. num_of_cpus - 1] of the loops over [di->cpus]. *)
Definition cpu_indices (di : gs_dominfo_t) : list nat :=
  seq 0 (Z.to_nat (num_of_cpus di)).

(** "Validate the CPU identifiers": [false] when an id is refused. *)
Definition validate_cpu_ids (di : gs_dominfo_t) (cpu_count : Z) : outcome bool :=
  ofold (fun (ok : bool) c =>
           if ok then
             cpuid ← read_cpu di c;
             ASSERT (cpuid >=? 0);;
             ASSERT (cpuid <? s32 cpu_count);;
             if (cpuid <? 0) || (s32 cpu_count <=? cpuid) then Done false
             else Done true
           else Done false)
        (cpu_indices di) true.

Fixpoint __validate_dominfos (arr : list gs_dominfo_t) (cpu_count : Z) : outcome bool :=
  match arr with
  | [] => Done true
  | di :: arr' =>
      if domid di <? 0 then Done false
      else if (num_of_cpus di <? 0) || (s32 cpu_count <? num_of_cpus di) then Done false
      else
        ok ← validate_cpu_ids di cpu_count;
        if negb ok then Done false
        else if negb (__validate_muxing_policy (gang_sched_policy di)) then Done false
        else __validate_dominfos arr' cpu_count
  end.

(** [cpu2dom_map_t]: CPU id to the set of the domains on it. *)
Abbreviation cpu2dom_map_t := (gmap Z (gset Z)) (only parsing).

Definition cpu2dom_insert_id (di : gs_dominfo_t) (cpu_count : Z)
    (cpu2dom : cpu2dom_map_t) (cpuid : Z) : outcome cpu2dom_map_t :=
  ASSERT (cpuid >=? 0);;
  ASSERT (cpuid <? s32 cpu_count);;
  let doms := default ∅ (cpu2dom !! cpuid) in
  (* auto ret = cpu2dom[cpuid].insert(domid); assert(ret.second == true); *)
  ASSERT (bool_decide (domid di ∉ doms));;
  Done (<[cpuid := {[ domid di ]} ∪ doms]> cpu2dom).

Definition cpu2dom_insert (di : gs_dominfo_t) (cpu_count : Z)
    (cpu2dom : cpu2dom_map_t) (c : nat) : outcome cpu2dom_map_t :=
  cpuid ← read_cpu di c;
  cpu2dom_insert_id di cpu_count cpu2dom cpuid.

Definition __populate_cpu2dom (arr : list gs_dominfo_t) (cpu_count : Z)
  : outcome cpu2dom_map_t :=
  let init : cpu2dom_map_t :=
    list_to_map (map (fun c => (Z.of_nat c, (∅ : gset Z))) (seq 0 (Z.to_nat cpu_count))) in
  ofold (fun cpu2dom di =>
           ASSERT (num_of_cpus di >? 0);;
           ASSERT (num_of_cpus di <=? s32 cpu_count);;
           ofold (cpu2dom_insert di cpu_count) (cpu_indices di) cpu2dom)
        arr init.

(** The utilisation [u] of a domain in the test loop. *)
Definition domain_util (bedom_util : float) (p : gang_sched_policy_t) : outcome float :=
  match p with
  | NoMuxing _ => Done dbl_1
  | TimeTrig ttp =>
      Done (PrimFloat.div (double_of_Z (tt_active_time ttp)) (double_of_Z (tt_period ttp)))
  | EventTrig etp =>
      Done (PrimFloat.div (double_of_Z (et_active_time etp)) (double_of_Z (et_period etp)))
  | BestEffort _ => Done bedom_util
  | NotSet | BadType => Crash EXIT_FAILURE
  end.

(** The two vectors of the test: [total_util_per_cpu] and
    [bedom_considered_in_cpu]. *)
Abbreviation util_vectors := (list float * list bool)%type (only parsing).

(** One round of the inner loop, for the CPU id [cpuid] read from
    [di->cpus[c]]. *)
Definition charge_cpu_id (di : gs_dominfo_t) (u : float) (v : util_vectors) (cpuid : Z)
  : outcome util_vectors :=
  let '(total_util_per_cpu, bedom_considered_in_cpu) := v in
  let i := Z.to_nat cpuid in
  if cpuid <? 0 then Crash FAULT else
  match total_util_per_cpu !! i, bedom_considered_in_cpu !! i with
  | Some total, Some considered =>
      if is_best_effort (gang_sched_policy di) then
        if negb considered then
          Done (<[i := PrimFloat.add total u]> total_util_per_cpu,
                <[i := true]> bedom_considered_in_cpu)
        else Done v
      else
        Done (<[i := PrimFloat.add total u]> total_util_per_cpu, bedom_considered_in_cpu)
  | _, _ => Crash FAULT
  end.

Definition charge_cpu (di : gs_dominfo_t) (u : float) (v : util_vectors) (c : nat)
  : outcome util_vectors :=
  cpuid ← read_cpu di c;
  charge_cpu_id di u v cpuid.

Definition charge_domain (bedom_util : float) (cpu_count : Z) (v : util_vectors)
    (di : gs_dominfo_t) : outcome util_vectors :=
  ASSERT (num_of_cpus di >? 0);;
  ASSERT (num_of_cpus di <=? s32 cpu_count);;
  u ← domain_util bedom_util (gang_sched_policy di);
  ASSERT (dgt u dbl_0);;
  ASSERT (dle u dbl_1);;
  ofold (charge_cpu di u) (cpu_indices di) v.

(** [are_schedulable]: 0 when the test passes, 1 when it fails, a
    negative number on an error.  [arr] is the array with its [len]
    elements. *)
Definition are_schedulable (arr : list gs_dominfo_t) (be_reserve : Z)
    (be_basic_period : Z) (cpu_count : Z) : outcome Z :=
  if cpu_count <=? 0 then Done (- EINVAL)
  else if be_reserve =? 100 then Done 1
  else if be_reserve >? 100 then Done (- EINVAL)
  else if be_basic_period =? 0 then Done (- EINVAL)
  else
    ok ← __validate_dominfos arr cpu_count;
    if negb ok then Done (- EINVAL)
    else
      _ ← __populate_cpu2dom arr cpu_count;
      let bedom_util := PrimFloat.div (double_of_Z be_reserve) dbl_100 in
      let n := Z.to_nat cpu_count in
      '(total_util_per_cpu, _) ←
        ofold (charge_domain bedom_util cpu_count) arr
              (replicate n dbl_0, replicate n false);
      Done (if existsb (fun total => dgt total dbl_1) total_util_per_cpu
            then 1 else 0).

(** *** The test as the specification words it

    [U c]: the utilisation charged to CPU [c], the domains taken in
    array order.  A domain is on [c] when [c] is among its CPUs.  An
    exclusive domain contributes 1.0, a time- or event-triggered one
    [active_time / period]; the best-effort reserve
    [be_reserve / 100] is charged once per CPU, with the first
    best-effort domain on it. *)

Definition on_cpu (c : Z) (di : gs_dominfo_t) : bool :=
  existsb (Z.eqb c) (cpus di).

Definition contribution (be_reserve : Z) (p : gang_sched_policy_t) : float :=
  match p with
  | NoMuxing _ => dbl_1
  | TimeTrig ttp =>
      PrimFloat.div (double_of_Z (tt_active_time ttp)) (double_of_Z (tt_period ttp))
  | EventTrig etp =>
      PrimFloat.div (double_of_Z (et_active_time etp)) (double_of_Z (et_period etp))
  | BestEffort _ => PrimFloat.div (double_of_Z be_reserve) dbl_100
  | NotSet | BadType => dbl_0
  end.

(** The charge of a domain of utilisation [u] to a CPU it is on: the
    state is the utilisation so far and whether the best-effort reserve
    has been charged. *)
Definition charge_one (best_effort : bool) (u : float) (s : float * bool)
  : float * bool :=
  if best_effort then
    if s.2 then s else (PrimFloat.add s.1 u, true)
  else (PrimFloat.add s.1 u, s.2).

(** The charge of the domain [di] to CPU [c]. *)
Definition charge_spec (be_reserve : Z) (c : Z) (s : float * bool) (di : gs_dominfo_t)
  : float * bool :=
  if on_cpu c di then
    charge_one (is_best_effort (gang_sched_policy di))
               (contribution be_reserve (gang_sched_policy di)) s
  else s.

Definition U (be_reserve : Z) (arr : list gs_dominfo_t) (c : Z) : float :=
  (fold_left (charge_spec be_reserve c) arr (dbl_0, false)).1.

(** What the assertions of the test demand of its input: every domain
    has at least one CPU, its [num_of_cpus] CPU ids are the array
    [cpus], no (CPU, domain id) pair occurs twice, and the utilisation
    of every domain is in (0, 1]. *)
Definition cpu_dom_pairs (arr : list gs_dominfo_t) : list (Z * Z) :=
  flat_map (fun di => map (fun c => (c, domid di)) (cpus di)) arr.

Definition assertions_hold (arr : list gs_dominfo_t) (be_reserve : Z) : Prop :=
  Forall (fun di =>
            0 < num_of_cpus di /\
            Z.to_nat (num_of_cpus di) = length (cpus di) /\
            dgt (contribution be_reserve (gang_sched_policy di)) dbl_0 = true /\
            dle (contribution be_reserve (gang_sched_policy di)) dbl_1 = true) arr /\
  NoDup (cpu_dom_pairs arr).

(** *** Loop invariants of the test *)

(** The two vectors hold, for every CPU [c] below [n], the pair
    [sp c]. *)
Definition vectors_hold (n : nat) (v : util_vectors) (sp : Z -> float * bool) : Prop :=
  length v.1 = n /\ length v.2 = n /\
  forall c : nat, (c < n)%nat ->
    v.1 !! c = Some (sp (Z.of_nat c)).1 /\ v.2 !! c = Some (sp (Z.of_nat c)).2.

(** The map holds only (CPU, domain id) pairs of [seen]. *)
Definition cpu2dom_within (m : cpu2dom_map_t) (seen : list (Z * Z)) : Prop :=
  forall cpu d, d ∈ default (∅ : gset Z) (m !! cpu) -> (cpu, d) ∈ seen.

End SchedTest.


(** ** The ticket update and the deferral as the specification words them *)

Module TicketSpec.

(** [tval] of the overlap branch of [gang_do_schedule]. *)
Definition deferral_tval (now : Z) (t : sched_ticket_t) : Z :=
  let tval := s64 (deadline t - remaining_time t) in
  if tval <=? now then s64 (now + ms_2_ns 1) else tval.

(** The time grain in nanoseconds. *)
Definition grain_ns (g : gang_globals) : Z := sched_ratelimit_us g * 1000.

(** The ticket after a time update at [now], in unbounded integers:
    [remaining_time] decreases by [max(0, now - activated_at)]; below
    the margin of 10 us the ticket is re-armed per policy. *)
Definition updated_ticket (g : gang_globals) (now : Z) (t : sched_ticket_t)
  : sched_ticket_t :=
  let rem := remaining_time t - Z.max 0 (now - activated_at t) in
  let est := earliest_start_time t in
  let dl := deadline t in
  match tm_muxing_spec (dom_info t) with
  | TimeTrig p =>
      if rem <? 10000 then
        set_times (est + tt_period p) (dl + tt_period p) (tt_active_time p) t
      else set_times est dl rem t
  | EventTrig p =>
      if rem <? 10000 then
        set_times (now / grain_ns g * grain_ns g) (dl + et_period p) (et_active_time p) t
      else set_times est dl rem t
  | BestEffort p =>
      if rem <? 10000 then
        set_times (now / grain_ns g * grain_ns g)
                  (dl + default 0 (be_doms_in_cohort g !! Z.to_nat (cohort (dom_info t)))
                        * __period_4_be_doms g)
                  (__quantum_4_be_doms g) t
      else set_times est dl rem t
  | _ => t
  end.

Definition is_muxed (p : gang_sched_policy_t) : bool :=
  match p with
  | TimeTrig _ | EventTrig _ | BestEffort _ => true
  | _ => false
  end.

(** Times and parameters for which the 64-bit arithmetic of the update
    does not wrap: every time is below 2^61 ns in magnitude (73 years),
    [now] is not negative, the grain is positive, and a best-effort
    ticket names a cohort of the [be_doms_in_cohort] array. *)
Definition small (z : Z) : Prop := - 2^61 < z < 2^61.

Definition times_in_range (g : gang_globals) (now : Z) (t : sched_ticket_t) : Prop :=
  0 <= now < 2^61 /\
  0 < sched_ratelimit_us g < 2^31 /\
  small (activated_at t) /\ small (remaining_time t) /\
  small (earliest_start_time t) /\ small (deadline t) /\
  match tm_muxing_spec (dom_info t) with
  | TimeTrig p => 0 <= tt_period p < 2^61 /\ 0 <= tt_active_time p < 2^61
  | EventTrig p => 0 <= et_period p < 2^61 /\ 0 <= et_active_time p < 2^61
  | BestEffort p =>
      0 <= cohort (dom_info t) /\
      exists n, be_doms_in_cohort g !! Z.to_nat (cohort (dom_info t)) = Some n /\
                small (n * __period_4_be_doms g)
  | _ => True
  end.

(** Every ticket of the queue is allocated. *)
Definition queue_allocated (st : cpu_state) (q : list tkt_ptr) : Prop :=
  Forall (fun p => is_Some (tickets st !! p)) q.

(** [cur_ticket_per_cpu[c]] as a ticket: [None] when the slot is NULL. *)
Definition current_ticket (st : cpu_state) (c : nat) : option tkt_ptr :=
  mjoin (cur_ticket_per_cpu (local_sched st) !! c).

(** The CPU mask of the domain of the ticket at [p]. *)
Definition ticket_mask (st : cpu_state) (p : tkt_ptr) : option cpumask_t :=
  (fun t => cpumask (dom_info t)) <$> tickets st !! p.

End TicketSpec.
Import TicketSpec.


(** ** What the cohort computation is to achieve *)

Module CohortSpec.



End CohortSpec.
Import CohortSpec.


(** ** Invariants used in the proofs *)

Module Invariants.

(** [m] only names CPUs that [a] names. *)
Definition mask_within (m a : cpumask_t) : Prop :=
  forall i, N.testbit m i = true -> N.testbit a i = true.

(** The invariant of the decision loop over the ticket memory and the
    current-ticket table: every ticket of the table is allocated, sits
    in every slot of its domain's mask and in no other, its mask is
    within the assigned CPUs, and two different tickets of the table
    have disjoint masks. *)
Definition gang_inv (NR_CPUS : nat) (assigned : cpumask_t) (tks : gmap tkt_ptr sched_ticket_t)
    (tbl : list (option tkt_ptr)) : Prop :=
  length tbl = NR_CPUS /\
  (forall c p, tbl !! c = Some (Some p) ->
     exists t, tks !! p = Some t /\
       cpumask_test_cpu c (cpumask (dom_info t)) = true /\
       mask_within (cpumask (dom_info t)) assigned /\
       forall c', (c' < NR_CPUS)%nat -> cpumask_test_cpu c' (cpumask (dom_info t)) = true ->
                  tbl !! c' = Some (Some p)) /\
  (forall c1 c2 p1 p2 t1 t2,
     tbl !! c1 = Some (Some p1) -> tbl !! c2 = Some (Some p2) -> p1 <> p2 ->
     tks !! p1 = Some t1 -> tks !! p2 = Some t2 ->
     N.land (cpumask (dom_info t1)) (cpumask (dom_info t2)) = 0%N).




End Invariants.
Import Invariants.

(** * Further embedded code

    - [xen/common/sched_gang.c]: [gang_init], [__adjust_activation_time]
    - [xen/common/hashtable.c]
    - [tools/libxc/xc_gang.c]: the CPU bitmaps of the sysctl
    - [tools/gangi_ctl/gs_utils.c]: the checks of the CPU arrays *)

(** ** Scheduler initialisation ([gang_init]) *)

Module GangInit.

Definition ENOMEM : Z := 12.

Definition DEFAULT_CPU_RESERV_4_BE_DOMAINS : Z := 10.
Definition MIN_CPU_RESERV_4_BE_DOMAINS : Z := 0.
Definition MAX_CPU_RESERV_4_BE_DOMAINS : Z := 100.
Definition DEFAULT_PERIOD_4_BE_DOMAINS : Z := ms_2_ns 100.
Definition DEFAULT_QUANTUM_4_BE_DOMAINS : Z :=
  Z.quot (DEFAULT_PERIOD_4_BE_DOMAINS * DEFAULT_CPU_RESERV_4_BE_DOMAINS) 100.
Definition MIN_ADJ_TIME_UPPER_BOUND : Z := ms_2_ns 10.
Definition MAX_ADJ_TIME_UPPER_BOUND : Z := ms_2_ns 500.
Definition DEFAULT_ADJ_TIME_UPPER_BOUND : Z := ms_2_ns 100.

(** The static variables that [gang_init] reads and writes.
    [sched_gang_cpu_rsrv_4_be_doms] is a [uint8_t], the others are
    [s_time_t]. *)
Record statics := {
  sched_gang_cpu_rsrv_4_be_doms : Z;
  sched_gang_period_4_be_doms : Z;
  __period_4_be_doms : Z;
  __quantum_4_be_doms : Z;
  sched_gang_adj_time_upper_bound : Z;
  __adj_time_upper_bound : Z
}.

(** Their values when Xen calls [gang_init]: the initialisers, with the
    reservation that the boot parameter [sched_gang_cpu_rsrv_4_be_doms]
    gives (the only one of them that the command line can set). *)
Definition at_boot (rsrv : Z) : statics :=
  {| sched_gang_cpu_rsrv_4_be_doms := rsrv;
     sched_gang_period_4_be_doms := DEFAULT_PERIOD_4_BE_DOMAINS;
     __period_4_be_doms := DEFAULT_PERIOD_4_BE_DOMAINS;
     __quantum_4_be_doms := DEFAULT_QUANTUM_4_BE_DOMAINS;
     sched_gang_adj_time_upper_bound := DEFAULT_ADJ_TIME_UPPER_BOUND;
     __adj_time_upper_bound := DEFAULT_ADJ_TIME_UPPER_BOUND |}.

(** [gang_init]; [pd_ok] says whether [xzalloc(gang_priv_data_t)]
    returns memory.  The result is the return value and the statics. *)
Definition gang_init (pd_ok : bool) (sched_ratelimit_us : Z) (s : statics)
  : outcome (Z * statics) :=
  let GANG_FINEST_TIME_GRAIN := us_2_ns sched_ratelimit_us in
  let min_period_4_be_doms := s64 (100 * GANG_FINEST_TIME_GRAIN) in
  if negb pd_ok then Done (- ENOMEM, s)
  else
    let rsrv :=
      if (sched_gang_cpu_rsrv_4_be_doms s >? MAX_CPU_RESERV_4_BE_DOMAINS) ||
         (sched_gang_cpu_rsrv_4_be_doms s <? MIN_CPU_RESERV_4_BE_DOMAINS)
      then DEFAULT_CPU_RESERV_4_BE_DOMAINS
      else sched_gang_cpu_rsrv_4_be_doms s in
    let period :=
      if sched_gang_period_4_be_doms s <? min_period_4_be_doms
      then min_period_4_be_doms
      else sched_gang_period_4_be_doms s in
    let quantum := Z.quot (s64 (period * rsrv)) 100 in
    BUG_ON (quantum <? GANG_FINEST_TIME_GRAIN);;
    let adj :=
      if sched_gang_adj_time_upper_bound s >? MAX_ADJ_TIME_UPPER_BOUND
      then sched_gang_adj_time_upper_bound s
      else if sched_gang_adj_time_upper_bound s <? MIN_ADJ_TIME_UPPER_BOUND
      then DEFAULT_ADJ_TIME_UPPER_BOUND
      else sched_gang_adj_time_upper_bound s in
    let timeout := Z.quot (Z.quot adj (ms_2_ns 1)) 2 in
    let adj := if timeout <? 1 then ms_2_ns 2 else adj in
    Done (0, {| sched_gang_cpu_rsrv_4_be_doms := rsrv;
                sched_gang_period_4_be_doms := sched_gang_period_4_be_doms s;
                __period_4_be_doms := period;
                __quantum_4_be_doms := quantum;
                sched_gang_adj_time_upper_bound := sched_gang_adj_time_upper_bound s;
                __adj_time_upper_bound := adj |}).

End GangInit.

(** ** Seeding the tickets after a global adjustment *)

Module Reseed.

(** [__adjust_activation_time]; the division traps for a zero
    [period], and for the least [s_time_t] divided by -1. *)
Definition __adjust_activation_time (start_at actv_time period : Z) : outcome Z :=
  if actv_time <? start_at then
    let diff := s64 (start_at - actv_time) in
    if (period =? 0) || ((period =? -1) && (diff =? - 2^63)) then Crash FAULT
    else
      let k := if negb (Z.rem diff period =? 0)
               then s64 (Z.quot diff period + 1)
               else Z.quot diff period in
      Done (s64 (actv_time + s64 (k * period)))
  else Done actv_time.

End Reseed.

(** ** The CPU bitmaps of the sysctl ([tools/libxc/xc_gang.c]) *)

Module XcGang.

(** A bitmap is an array of bytes ([uint8_t]), an array of CPU ids an
    array of [int32_t]; a NULL pointer is [None].  Reading or writing
    past the end of an array is a [FAULT]. *)
Definition u8 (z : Z) : Z := z mod 256.

Definition read_at (a : list Z) (i : Z) : outcome Z :=
  if i <? 0 then Crash FAULT
  else match a !! Z.to_nat i with
       | Some x => Done x
       | None => Crash FAULT
       end.

Definition write_at (a : list Z) (i : Z) (x : Z) : outcome (list Z) :=
  if (i <? 0) || (Z.of_nat (length a) <=? i) then Crash FAULT
  else Done (<[Z.to_nat i := x]> a).

(** One round of the loop of [array_to_bitmap]. *)
Definition set_bit_of_element (arr : list Z) (nr_bits : Z) (bitmap : list Z) (i : nat)
  : outcome (list Z) :=
  a ← read_at arr (Z.of_nat i);
  ASSERT (a >=? 0);;
  ASSERT (a <? nr_bits);;
  let byte := Z.quot a 8 in
  let bit := Z.rem a 8 in
  b ← read_at bitmap byte;
  write_at bitmap byte (u8 (Z.lor b (Z.shiftl 1 bit))).

(** [array_to_bitmap(arr, arr_len, bitmap, nr_bits)]; the result is the
    bitmap after the call. *)
Definition array_to_bitmap (arr : option (list Z)) (arr_len : Z)
    (bitmap : option (list Z)) (nr_bits : Z) : outcome (list Z) :=
  ASSERT (bool_decide (arr ≠ None));;
  ASSERT (arr_len >=? 0);;
  ASSERT (bool_decide (bitmap ≠ None));;
  ASSERT (nr_bits >? 0);;
  ASSERT (arr_len <=? nr_bits);;
  ofold (set_bit_of_element (default [] arr) nr_bits) (seq 0 (Z.to_nat arr_len))
        (default [] bitmap).

(** [bzero(arr, arr_len * sizeof(int32_t))] *)
Definition bzero (arr : list Z) (arr_len : Z) : outcome (list Z) :=
  if Z.of_nat (length arr) <? arr_len then Crash FAULT
  else Done (replicate (Z.to_nat arr_len) 0 ++ drop (Z.to_nat arr_len) arr).

(** One round of the loop of [bitmap_to_array]. *)
Definition collect_bit (bitmap : list Z) (acc : Z * list Z) (i : nat)
  : outcome (Z * list Z) :=
  let '(nr_set_bits, arr) := acc in
  let byte := Z.quot (Z.of_nat i) 8 in
  let bit := Z.rem (Z.of_nat i) 8 in
  b ← read_at bitmap byte;
  if negb (Z.land b (Z.shiftl 1 bit) =? 0) then
    arr ← write_at arr nr_set_bits (Z.of_nat i);
    Done (nr_set_bits + 1, arr)
  else Done (nr_set_bits, arr).

(** [bitmap_to_array(bitmap, nr_bits, arr, arr_len)]; the result is the
    returned number of set bits and the array after the call. *)
Definition bitmap_to_array (bitmap : option (list Z)) (nr_bits : Z)
    (arr : option (list Z)) (arr_len : Z) : outcome (Z * list Z) :=
  ASSERT (bool_decide (arr ≠ None));;
  ASSERT (arr_len >=? 0);;
  ASSERT (bool_decide (bitmap ≠ None));;
  ASSERT (nr_bits >? 0);;
  ASSERT (arr_len >=? nr_bits);;
  arr ← bzero (default [] arr) arr_len;
  ofold (collect_bit (default [] bitmap)) (seq 0 (Z.to_nat nr_bits)) (0, arr).

(** *** What a bitmap says *)

(** Bit [j] of a bitmap: bit [j mod 8] of byte [j / 8]. *)
Definition bit_of (bitmap : list Z) (j : nat) : bool :=
  match bitmap !! (j / 8)%nat with
  | Some b => Z.testbit b (Z.of_nat (j mod 8))
  | None => false
  end.

(** The positions below [nr_bits] of the set bits, in increasing
    order. *)
Definition set_bits (bitmap : list Z) (nr_bits : nat) : list nat :=
  filter (fun j => bit_of bitmap j = true) (seq 0 nr_bits).

End XcGang.

(** ** The check of a CPU array in the control tool
    ([tools/gangi_ctl/gs_utils.c]) *)

Module GsUtils.
Import XcGang.

Definition EINVAL : Z := 22.

(** What [validate_cpu_array] asks of the control interface:
    [xc_get_max_cpus(xch)] and, per pool id, the CPU map (an array of
    bytes) of the record that [xc_cpupool_getinfo] returns, [None] for
    NULL. *)
Record xc_interface := {
  xc_get_max_cpus : Z;
  xc_cpupool_getinfo : Z -> option (list Z)
}.

(** A [for] loop that leaves the function at the first round whose
    body returns. *)
Fixpoint first_return {A R} (body : A -> outcome (option R)) (l : list A)
  : outcome (option R) :=
  match l with
  | [] => Done None
  | a :: l' =>
      r ← body a;
      match r with
      | Some x => Done (Some x)
      | None => first_return body l'
      end
  end.

Section WithSizeof.

(** [sizeof(xc_cpumap_t)]; the type is declared in [xenctrl.h]. *)
Variable sizeof_xc_cpumap_t : Z.

(** "Invalid CPU ID (%d) in element %d of CPU array." *)
Definition check_cpu_id (cpus : list Z) (max_cpus : Z) (i : nat)
  : outcome (option Z) :=
  c ← read_at cpus (Z.of_nat i);
  if (c <? 0) || (c >=? max_cpus) then Done (Some (- EINVAL)) else Done None.

(** "Cannot be repeated elements." *)
Definition check_repeated (cpus : list Z) (num_of_cpus : Z) (i : nat)
  : outcome (option Z) :=
  first_return
    (fun j =>
       ci ← read_at cpus (Z.of_nat i);
       cj ← read_at cpus (Z.of_nat j);
       if ci =? cj then Done (Some (- EINVAL)) else Done None)
    (seq (i + 1) (Z.to_nat num_of_cpus - (i + 1))).

(** "All CPUs in the array must belong to the CPU pool.": one round of
    the loop, which breaks at the first CPU that is not present. *)
Definition check_present (cpus : list Z) (cpumap : list Z) (i : nat)
  : outcome (option unit) :=
  c ← read_at cpus (Z.of_nat i);
  if sizeof_xc_cpumap_t =? 0 then Crash FAULT
  else
    let w := s32 (Z.quot c sizeof_xc_cpumap_t) in
    let bit := s32 (Z.rem c sizeof_xc_cpumap_t) in
    b ← read_at cpumap w;
    let present := u8 (Z.land b (Z.shiftl 1 bit)) in
    if present =? 0 then Done (Some tt) else Done None.

(** [validate_cpu_array(xch, cpupool_id, cpus, num_of_cpus)] *)
Definition validate_cpu_array (xch : xc_interface) (cpupool_id : Z)
    (cpus : option (list Z)) (num_of_cpus : Z) : outcome Z :=
  match cpus with
  | None => Done (- EINVAL)
  | Some cpus =>
      if num_of_cpus <=? 0 then Done (- EINVAL)
      else
        let max_cpus := xc_get_max_cpus xch in
        if num_of_cpus >? max_cpus then Done (- EINVAL)
        else
          r ← first_return (check_cpu_id cpus max_cpus)
                (seq 0 (Z.to_nat num_of_cpus));
          match r with
          | Some rc => Done rc
          | None =>
              r ← first_return (check_repeated cpus num_of_cpus)
                    (seq 0 (Z.to_nat (num_of_cpus - 1)));
              match r with
              | Some rc => Done rc
              | None =>
                  match xc_cpupool_getinfo xch cpupool_id with
                  | None => Done (- EINVAL)
                  | Some cpumap =>
                      absent ← first_return (check_present cpus cpumap)
                                 (seq 0 (Z.to_nat num_of_cpus));
                      match absent with
                      | Some _ => Done (- EINVAL)
                      | None => Done 0
                      end
                  end
              end
          end
  end.

End WithSizeof.
End GsUtils.

(** ** The hash table ([xen/common/hashtable.c]) *)

Module Hashtable.

Definition u32 (z : Z) : Z := z mod 2^32.

Definition primes : list Z :=
  [53; 97; 193; 389;
   769; 1543; 3079; 6151;
   12289; 24593; 49157; 98317;
   196613; 393241; 786433; 1572869;
   3145739; 6291469; 12582917; 25165843;
   50331653; 100663319; 201326611; 402653189;
   805306457; 1610612741].

Definition prime_table_length : Z := Z.of_nat (length primes).

(** [APPLY_MAX_LOAD_FACTOR(size)] on [unsigned int] *)
Definition APPLY_MAX_LOAD_FACTOR (size : Z) : Z := u32 (size * 13) / 20.

(** [struct entry], as [hashtable.c] uses it: the key, the value and
    the hash of the key; [next] is the rest of the chain.  Keys and
    values are [void*], held as their addresses; NULL is 0. *)
Record entry := {
  k : Z;
  v : Z;
  h : Z
}.

Definition NULL : Z := 0.

(** [struct hashtable], as [hashtable.c] uses it.  [table] is the array
    of the chains, the head of a chain first.  [hashfn] returns an
    [unsigned int], [eqfn] an [int]. *)
Record hashtable := {
  tablelength : Z;
  table : list (list entry);
  entrycount : Z;
  loadlimit : Z;
  primeindex : Z;
  hashfn : Z -> Z;
  eqfn : Z -> Z -> Z
}.

Definition set_table (t : list (list entry)) (tbl : hashtable) : hashtable :=
  {| tablelength := tablelength tbl; table := t; entrycount := entrycount tbl;
     loadlimit := loadlimit tbl; primeindex := primeindex tbl;
     hashfn := hashfn tbl; eqfn := eqfn tbl |}.

Definition set_entrycount (n : Z) (tbl : hashtable) : hashtable :=
  {| tablelength := tablelength tbl; table := table tbl; entrycount := n;
     loadlimit := loadlimit tbl; primeindex := primeindex tbl;
     hashfn := hashfn tbl; eqfn := eqfn tbl |}.

Definition set_primeindex (n : Z) (tbl : hashtable) : hashtable :=
  {| tablelength := tablelength tbl; table := table tbl;
     entrycount := entrycount tbl;
     loadlimit := loadlimit tbl; primeindex := n;
     hashfn := hashfn tbl; eqfn := eqfn tbl |}.

(** The loop of [create_hashtable] that enforces a prime size: the
    index at which it stops and the size. *)
Fixpoint first_prime_above (minsize : Z) (pindex : Z) (ps : list Z) (size : Z)
  : Z * Z :=
  match ps with
  | [] => (pindex, size)
  | p :: ps' =>
      if p >? minsize then (pindex, p)
      else first_prime_above minsize (pindex + 1) ps' size
  end.

(** [create_hashtable(minsize, hashf, eqf)]; [h_ok], [table_ok] and
    [pool_ok] say whether [xmalloc], [xzalloc_array] and
    [xmem_pool_create] return memory.  [None] is NULL. *)
Definition create_hashtable (h_ok table_ok pool_ok : bool) (minsize : Z)
    (hashf : Z -> Z) (eqf : Z -> Z -> Z) : option hashtable :=
  if minsize >? Z.shiftl 1 30 then None
  else
    let '(pindex, size) := first_prime_above minsize 0 primes 53 in
    if negb h_ok then None
    else if negb table_ok then None
    else if negb pool_ok then None
    else Some {| tablelength := size;
                 table := replicate (Z.to_nat size) [];
                 entrycount := 0;
                 loadlimit := APPLY_MAX_LOAD_FACTOR size;
                 primeindex := pindex;
                 hashfn := hashf;
                 eqfn := eqf |}.

(** [generic_hash]: [(unsigned int) kk * 0x9e370001UL], returned as an
    [unsigned int]. *)
Definition generic_hash (key : Z) : Z := u32 (u64 (u32 key * 0x9e370001)).

Definition generic_equal (k1 k2 : Z) : Z := if k1 =? k2 then 1 else 0.

(** [hash(h, k)] *)
Definition hash (tbl : hashtable) (key : Z) : Z :=
  let i := u32 (hashfn tbl key) in
  let i := u32 (i + u32 (Z.lnot (u32 (Z.shiftl i 9)))) in
  let i := Z.lxor i (Z.lor (Z.shiftr i 14) (u32 (Z.shiftl i 18))) in
  let i := u32 (i + u32 (Z.shiftl i 4)) in
  let i := Z.lxor i (Z.lor (Z.shiftr i 10) (u32 (Z.shiftl i 22))) in
  i.

Section WithIndexFor.

(** [indexFor(tablelength, hashvalue)] of [hashtable_private.h]. *)
Variable indexFor : Z -> Z -> Z.

(** [table[index]] *)
Definition chain_at (t : list (list entry)) (index : Z) : outcome (list entry) :=
  if index <? 0 then Crash FAULT
  else match t !! Z.to_nat index with
       | Some chain => Done chain
       | None => Crash FAULT
       end.

(** [e->next = table[index]; table[index] = e;] *)
Definition push_entry (e : entry) (index : Z) (t : list (list entry))
  : outcome (list (list entry)) :=
  chain ← chain_at t index;
  Done (<[Z.to_nat index := e :: chain]> t).

(** The inner [while] loop of [hashtable_expand] moves the entries of
    one chain, from its head on, to the new table. *)
Definition move_entry (newsize : Z) (newtable : list (list entry)) (e : entry)
  : outcome (list (list entry)) :=
  push_entry e (indexFor newsize (h e)) newtable.

Definition move_chain (newsize : Z) (oldtable : list (list entry))
    (newtable : list (list entry)) (i : nat) : outcome (list (list entry)) :=
  chain ← chain_at oldtable (Z.of_nat i);
  ofold (move_entry newsize) chain newtable.

(** [hashtable_expand(h)]; [newtable_ok] says whether [xzalloc_array]
    returns memory.  The result is the return value and the table. *)
Definition hashtable_expand (newtable_ok : bool) (tbl : hashtable)
  : outcome (Z * hashtable) :=
  if primeindex tbl =? prime_table_length - 1 then Done (0, tbl)
  else
    let primeindex' := u32 (primeindex tbl + 1) in
    match primes !! Z.to_nat primeindex' with
    | None => Crash FAULT
    | Some newsize =>
        if newtable_ok then
          newtable ← ofold (move_chain newsize (table tbl))
                       (seq 0 (Z.to_nat (tablelength tbl)))
                       (replicate (Z.to_nat newsize) []);
          Done (-1, {| tablelength := newsize;
                       table := newtable;
                       entrycount := entrycount tbl;
                       loadlimit := APPLY_MAX_LOAD_FACTOR newsize;
                       primeindex := primeindex';
                       hashfn := hashfn tbl;
                       eqfn := eqfn tbl |})
        else Done (0, set_primeindex primeindex' tbl)
    end.

Definition hashtable_count (tbl : hashtable) : Z := entrycount tbl.

(** [hashtable_insert(h, k, v)]; [entry_ok] says whether
    [xmem_pool_alloc] returns memory. *)
Definition hashtable_insert (newtable_ok entry_ok : bool) (tbl : hashtable)
    (key value : Z) : outcome (Z * hashtable) :=
  let tbl := set_entrycount (u32 (entrycount tbl + 1)) tbl in
  tbl ← (if entrycount tbl >? loadlimit tbl then
           r ← hashtable_expand newtable_ok tbl; Done r.2
         else Done tbl);
  if negb entry_ok then
    Done (0, set_entrycount (u32 (entrycount tbl - 1)) tbl)
  else
    let e_h := hash tbl key in
    let index := indexFor (tablelength tbl) e_h in
    t ← push_entry {| k := key; v := value; h := e_h |} index (table tbl);
    Done (-1, set_table t tbl).

(** The [while] loop of [hashtable_search] *)
Fixpoint search_chain (eqf : Z -> Z -> Z) (hashvalue key : Z) (chain : list entry)
  : Z :=
  match chain with
  | [] => NULL
  | e :: next =>
      if (hashvalue =? h e) && negb (eqf key (k e) =? 0) then v e
      else search_chain eqf hashvalue key next
  end.

Definition hashtable_search (tbl : hashtable) (key : Z) : outcome Z :=
  let hashvalue := hash tbl key in
  let index := indexFor (tablelength tbl) hashvalue in
  e ← chain_at (table tbl) index;
  Done (search_chain (eqfn tbl) hashvalue key e).

(** The [while] loop of [hashtable_remove]: the value of the entry it
    unlinks and the chain without it, or [None]. *)
Fixpoint remove_from_chain (eqf : Z -> Z -> Z) (hashvalue key : Z)
    (chain : list entry) : option (Z * list entry) :=
  match chain with
  | [] => None
  | e :: next =>
      if (hashvalue =? h e) && negb (eqf key (k e) =? 0) then Some (v e, next)
      else
        match remove_from_chain eqf hashvalue key next with
        | Some (x, next') => Some (x, e :: next')
        | None => None
        end
  end.

Definition hashtable_remove (tbl : hashtable) (key : Z) : outcome (Z * hashtable) :=
  let hashvalue := hash tbl key in
  let index := indexFor (tablelength tbl) (hash tbl key) in
  e ← chain_at (table tbl) index;
  match remove_from_chain (eqfn tbl) hashvalue key e with
  | Some (x, chain) =>
      let tbl := set_table (<[Z.to_nat index := chain]> (table tbl)) tbl in
      Done (x, set_entrycount (u32 (entrycount tbl - 1)) tbl)
  | None => Done (NULL, tbl)
  end.

End WithIndexFor.

(** *** What a table holds *)

(** All the entries, bucket after bucket. *)
Definition entries (tbl : hashtable) : list entry := concat (table tbl).

(** The table as a finite map, when no key is held twice. *)
Definition to_map (tbl : hashtable) : gmap Z Z :=
  list_to_map ((fun e => (k e, v e)) <$> entries tbl).

(** Every entry of the chains [t] sits in the chain that [indexFor]
    gives for its stored hash in a table of [n] chains. *)
Definition placed (indexFor : Z -> Z -> Z) (n : Z) (t : list (list entry)) : Prop :=
  forall i chain e, t !! i = Some chain -> e ∈ chain ->
    indexFor n (h e) = Z.of_nat i.

(** The stored hash of every entry is the hash of its key. *)
Definition hashed (tbl : hashtable) : Prop :=
  forall e, e ∈ entries tbl -> h e = hash tbl (k e).

(** The invariant of a table: [table] has [tablelength] chains,
    [entrycount] counts the entries and fits an [unsigned int],
    [primeindex] is within the table of primes, the entries are placed
    and hashed as above, and no key is held twice. *)
Definition wf (indexFor : Z -> Z -> Z) (tbl : hashtable) : Prop :=
  0 < tablelength tbl /\
  Z.of_nat (length (table tbl)) = tablelength tbl /\
  entrycount tbl = Z.of_nat (length (entries tbl)) /\
  entrycount tbl < 2^32 /\
  0 <= primeindex tbl < prime_table_length /\
  placed indexFor (tablelength tbl) (table tbl) /\
  hashed tbl /\
  NoDup (k <$> entries tbl).

(** The part of the invariant that holds also of a table with a key
    held twice: the chains are [tablelength] many, [primeindex] is
    within the table of primes and the entries are placed. *)
Definition wf_chains (indexFor : Z -> Z -> Z) (tbl : hashtable) : Prop :=
  0 < tablelength tbl /\
  Z.of_nat (length (table tbl)) = tablelength tbl /\
  0 <= primeindex tbl < prime_table_length /\
  placed indexFor (tablelength tbl) (table tbl).

(** A list of numbers in strictly increasing order. *)
Fixpoint increasing (l : list Z) : bool :=
  match l with
  | [] => true
  | a :: l' =>
      match l' with
      | [] => true
      | b :: _ => (a <? b) && increasing l'
      end
  end.

(** [eqf] tells whether two keys are the same, as [generic_equal]
    does. *)
Definition is_equality (eqf : Z -> Z -> Z) : Prop :=
  forall a b, eqf a b <> 0 <-> a = b.

End Hashtable.

(** ** The spin barrier ([xen/common/barrier.c])

    The CPUs that wait on the barrier run concurrently.  The embedding
    is a transition system: every statement of
    [waiton_barrier_with_count] that reads or writes the barrier is one
    step of the CPU that runs it, and the steps of the CPUs interleave
    in any order. *)

Module Barrier.

Definition u32 (z : Z) : Z := z mod 2^32.
Definition u8 (z : Z) : Z := z mod 2^8.

(** [barrier_t]; [lock] tells whether the spin lock is held. *)
Record barrier_t := {
  lock : bool;
  init_count : Z;
  current_count : Z;
  ready : Z
}.

Definition init_barrier (init_count : Z) : barrier_t :=
  {| lock := false; init_count := init_count; current_count := init_count;
     ready := 0 |}.

Definition reset_barrier (b : barrier_t) : barrier_t :=
  {| lock := lock b; init_count := init_count b; current_count := init_count b;
     ready := ready b |}.

Definition set_lock (l : bool) (b : barrier_t) : barrier_t :=
  {| lock := l; init_count := init_count b; current_count := current_count b;
     ready := ready b |}.

Definition set_current_count (n : Z) (b : barrier_t) : barrier_t :=
  {| lock := lock b; init_count := init_count b; current_count := n;
     ready := ready b |}.

Definition set_ready (r : Z) (b : barrier_t) : barrier_t :=
  {| lock := lock b; init_count := init_count b; current_count := current_count b;
     ready := r |}.

(** Where a CPU is in [waiton_barrier_with_count(b, count)], with its
    [local_ready] once it has read it. *)
Inductive place :=
| Calling                              (* before [ASSERT(b->init_count >= count)] *)
| Asserted                             (* before [local_ready = b->ready] *)
| At_lock (local_ready : Z)            (* before [spin_lock_irqsave] *)
| Holding (local_ready : Z)            (* before [b->current_count--] *)
| Decremented (local_ready : Z)        (* before the [if] *)
| Waiting_unlock (local_ready : Z)     (* then-branch, before the unlock *)
| Spinning (local_ready : Z)           (* in the [while] loop *)
| Last_unlock                          (* else-branch, before the unlock *)
| Unlocked_last                        (* before [reset_barrier(b)] *)
| After_reset                          (* before [b->ready++] *)
| Returned
| Assert_failed.

#[global] Instance place_eq_dec : EqDecision place.
Proof. solve_decision. Defined.

(** The next step of a CPU at place [p]: the barrier and the place
    after it.  [None]: the CPU has no step (it has left the function,
    or the lock it wants is held). *)
Definition cpu_step (count : Z) (b : barrier_t) (p : place)
  : option (barrier_t * place) :=
  match p with
  | Calling =>
      if init_count b >=? count then Some (b, Asserted) else Some (b, Assert_failed)
  | Asserted => Some (b, At_lock (ready b))
  | At_lock local_ready =>
      if lock b then None else Some (set_lock true b, Holding local_ready)
  | Holding local_ready =>
      Some (set_current_count (u32 (current_count b - 1)) b, Decremented local_ready)
  | Decremented local_ready =>
      if current_count b >? u32 (init_count b - count)
      then Some (b, Waiting_unlock local_ready)
      else Some (b, Last_unlock)
  | Waiting_unlock local_ready => Some (set_lock false b, Spinning local_ready)
  | Spinning local_ready =>
      if ready b =? local_ready then Some (b, Spinning local_ready)
      else Some (b, Returned)
  | Last_unlock => Some (set_lock false b, Unlocked_last)
  | Unlocked_last => Some (reset_barrier b, After_reset)
  | After_reset => Some (set_ready (u8 (ready b + 1)) b, Returned)
  | Returned | Assert_failed => None
  end.

(** The barrier and the places of the CPUs that wait on it. *)
Record system := {
  barrier : barrier_t;
  cpus : list place
}.

(** One step of the system: one CPU takes its next step. *)
Inductive step (count : Z) : system -> system -> Prop :=
| step_cpu s i p b' p' :
    cpus s !! i = Some p ->
    cpu_step count (barrier s) p = Some (b', p') ->
    step count s {| barrier := b'; cpus := <[i := p']> (cpus s) |}.

(** The states that the CPUs can reach from [s0]. *)
Definition reachable (count : Z) (s0 s : system) : Prop := rtc (step count) s0 s.

(** The system after the CPUs named by a schedule have taken their
    next steps, one after the other; a CPU without a step is skipped. *)
Definition run_cpu (count : Z) (s : system) (i : nat) : system :=
  match cpus s !! i with
  | Some p =>
      match cpu_step count (barrier s) p with
      | Some (b', p') => {| barrier := b'; cpus := <[i := p']> (cpus s) |}
      | None => s
      end
  | None => s
  end.

Definition run (count : Z) (schedule : list nat) (s : system) : system :=
  fold_left (run_cpu count) schedule s.

(** [n] CPUs about to wait on a barrier that [init_barrier] has just
    set up. *)
Definition start (init_count : Z) (n : nat) : system :=
  {| barrier := init_barrier init_count; cpus := replicate n Calling |}.

(** A CPU has arrived once it has decremented [current_count]. *)
Definition arrived (p : place) : bool :=
  match p with
  | Calling | Asserted | At_lock _ | Holding _ | Assert_failed => false
  | _ => true
  end.

(** A CPU is released once it is on its way out of the function. *)
Definition released (p : place) : bool :=
  match p with
  | Last_unlock | Unlocked_last | After_reset | Returned => true
  | _ => false
  end.

Definition local_ready_of (p : place) : option Z :=
  match p with
  | At_lock r | Holding r | Decremented r | Waiting_unlock r | Spinning r => Some r
  | _ => None
  end.

Fixpoint arrivals (l : list place) : nat :=
  match l with
  | [] => 0
  | p :: l' => ((if arrived p then 1 else 0) + arrivals l')%nat
  end.

(** *** The phases of a round *)

(** The number of CPUs at a place of a kind. *)
Fixpoint places_where (f : place -> bool) (l : list place) : nat :=
  match l with
  | [] => 0
  | p :: l' => ((if f p then 1 else 0) + places_where f l')%nat
  end.

(** The CPU holds the lock. *)
Definition in_section (p : place) : bool :=
  match p with
  | Holding _ | Decremented _ | Waiting_unlock _ | Last_unlock => true
  | _ => false
  end.

(** The CPU has taken, or is taking, the branch that waits. *)
Definition waiting (p : place) : bool :=
  match p with
  | Waiting_unlock _ | Spinning _ => true
  | _ => false
  end.

(** The CPU has taken the branch that releases the others and has not
    returned yet. *)
Definition releasing (p : place) : bool :=
  match p with
  | Last_unlock | Unlocked_last | After_reset => true
  | _ => false
  end.

(** While the CPUs arrive: none is released, no assertion has failed,
    the count is the initial one less the arrivals, [ready] and every
    [local_ready] are 0, the lock is held exactly when one CPU is in
    the locked section, and not all CPUs are waiting. *)
Definition arriving (init_count : Z) (s : system) : Prop :=
  (forall p, p ∈ cpus s -> released p = false /\ p <> Assert_failed) /\
  current_count (barrier s)
  = init_count - Z.of_nat (places_where arrived (cpus s)) /\
  ready (barrier s) = 0 /\
  (forall p r, p ∈ cpus s -> local_ready_of p = Some r -> r = 0) /\
  places_where in_section (cpus s) = (if lock (barrier s) then 1 else 0)%nat /\
  (places_where waiting (cpus s) < length (cpus s))%nat.

(** While the last CPU to arrive, CPU [i], releases the others: they
    all spin on [ready], which is still 0. *)
Definition releasing_by (init_count : Z) (i : nat) (s : system) : Prop :=
  (exists p, cpus s !! i = Some p /\ releasing p = true /\
             lock (barrier s) = bool_decide (p = Last_unlock) /\
             (p = After_reset -> current_count (barrier s) = init_count)) /\
  (forall j q, j <> i -> cpus s !! j = Some q -> q = Spinning 0) /\
  ready (barrier s) = 0.

(** Once [ready] has been incremented: the barrier is as
    [reset_barrier] leaves it, and every CPU has returned or is about
    to leave its loop. *)
Definition all_released (init_count : Z) (s : system) : Prop :=
  (forall p, p ∈ cpus s -> p = Spinning 0 \/ p = Returned) /\
  ready (barrier s) = 1 /\
  current_count (barrier s) = init_count /\
  lock (barrier s) = false.

End Barrier.

(** ** The tickets that a local scheduler holds *)

Module TicketsHeld.

(** The ticket is in the runnable queue, in the activation queue or in
    a slot of the current-ticket table. *)
Definition holds (s : sched_info_t) (p : tkt_ptr) : Prop :=
  p ∈ edf_runnable_Q s \/ p ∈ activation_Q s \/ Some p ∈ cur_ticket_per_cpu s.

(** The domain record that the ticket at [p] points to. *)
Definition domain_of (tks : gmap tkt_ptr sched_ticket_t) (p : tkt_ptr)
  : option gang_dom_info_t :=
  dom_info <$> tks !! p.

(** The tickets of [tks'] are those of [tks], with their domains. *)
Definition same_domains (tks tks' : gmap tkt_ptr sched_ticket_t) : Prop :=
  forall p, domain_of tks' p = domain_of tks p.

(** A domain has at most one ticket among those of [held]. *)
Definition one_ticket_per_domain (tks : gmap tkt_ptr sched_ticket_t)
    (held : tkt_ptr -> Prop) : Prop :=
  forall p q d e, held p -> held q ->
    domain_of tks p = Some d -> domain_of tks q = Some e ->
    domain_id d = domain_id e -> p = q.

(** The domain of every ticket of [held] has a CPU below [NR_CPUS]. *)
Definition domains_have_cpu (NR_CPUS : nat) (tks : gmap tkt_ptr sched_ticket_t)
    (held : tkt_ptr -> Prop) : Prop :=
  forall p d, held p -> domain_of tks p = Some d ->
    exists c, (c < NR_CPUS)%nat /\ cpumask_test_cpu c (cpumask d) = true.

(** A local scheduler between two decisions: no ticket is twice in the
    queues, a current ticket is in no queue, a domain has one ticket
    and a CPU, and the current tickets keep the gang invariant. *)
Definition tickets_in_order (NR_CPUS : nat) (st : cpu_state) : Prop :=
  let s := local_sched st in
  NoDup (edf_runnable_Q s ++ activation_Q s) /\
  (forall p, Some p ∈ cur_ticket_per_cpu s -> p ∉ edf_runnable_Q s ++ activation_Q s) /\
  one_ticket_per_domain (tickets st) (holds s) /\
  domains_have_cpu NR_CPUS (tickets st) (holds s) /\
  exists assigned, gang_inv NR_CPUS assigned (tickets st) (cur_ticket_per_cpu s).

End TicketsHeld.

(** ** The local scheduler after a global adjustment
    ([__update_local_sched_v0]) *)

Module LocalUpdate.

(** An element of [arr] with what the update reads through
    [di->domain]: whether the domain has a CPU pool, and its VCPUs in
    the order of [for_each_vcpu], each with its [processor] (an
    [int]). *)
Record dom_view := {
  di : gang_dom_info_t;
  has_cpupool : bool;
  vcpus : list (vcpu_t * Z)
}.

(** The local variables that live across the rounds of the loop.
    ([non_muxed_domid] is only logged.) *)
Record update_vars := {
  be_doms_counter : Z;
  muxed_dom_in_cohort : bool;
  non_muxed_dom_in_cohort : bool
}.

Definition set_waiting_4_event (w : option (list (Z * tkt_ptr))) (st : cpu_state)
  : cpu_state :=
  {| tickets := tickets st;
     local_sched :=
       {| edf_runnable_Q := edf_runnable_Q (local_sched st);
          activation_Q := activation_Q (local_sched st);
          tickets_waiting_4_event := w;
          cur_ticket_per_cpu := cur_ticket_per_cpu (local_sched st) |} |}.

Definition set_vcpu (v : option vcpu_t) (t : sched_ticket_t) : sched_ticket_t :=
  {| vcpu := v; dom_info := dom_info t;
     earliest_start_time := earliest_start_time t; deadline := deadline t;
     remaining_time := remaining_time t;
     activated_at := activated_at t; flags := flags t;
     on_my_behalf := on_my_behalf t |}.

Definition set_sched_priv (p : option tkt_ptr) (v : vcpu_t) : vcpu_t :=
  {| vcpu_id := vcpu_id v; is_idle_vcpu := is_idle_vcpu v; sched_priv := p |}.

(** [hashtable_remove] on the entries of the set: the entry of the key
    that a search meets first leaves the set, and its value is
    returned. *)
Fixpoint remove_entry (domid : Z) (w : list (Z * tkt_ptr))
  : option tkt_ptr * list (Z * tkt_ptr) :=
  match w with
  | [] => (None, [])
  | e :: w' =>
      if e.1 =? domid then (Some e.2, w')
      else let '(r, w'') := remove_entry domid w' in (r, e :: w'')
  end.

(** [__remove_from_waiting_4_event_set] *)
Definition __remove_from_waiting_4_event_set (domid : Z) (st : cpu_state)
  : outcome (option tkt_ptr * cpu_state) :=
  match tickets_waiting_4_event (local_sched st) with
  | None => Crash FAULT
  | Some w =>
      let '(r, w') := remove_entry domid w in
      Done (r, set_waiting_4_event (Some w') st)
  end.

(** The first VCPU of [for_each_vcpu] with [cpu_id == vcpu->processor]
    (the comparison is unsigned). *)
Definition vcpu_on_cpu (cpu_id : nat) (d : dom_view) : option vcpu_t :=
  fst <$> find (fun v => Z.of_nat cpu_id =? v.2 mod 2^32) (vcpus d).

(** [MAX(from, will_resume_at)] of a [uint64_t] and an [s_time_t],
    stored in an [s_time_t]. *)
Definition MAX_from (from will_resume_at : Z) : Z :=
  s64 (if from >? u64 will_resume_at then from else u64 will_resume_at).

Section WithAllocator.

Variable NR_CPUS : nat.

(** [xzalloc(sched_ticket_t)]: the address of the new ticket in the
    ticket memory, [None] for NULL; and whether [hashtable_insert]
    gets memory for the entry of a domain id. *)
Variable xzalloc : gmap tkt_ptr sched_ticket_t -> option tkt_ptr.
Variable entry_ok : Z -> bool.

(** [gang_alloc_vdata]; [dd] is the record that the ticket points to. *)
Definition gang_alloc_vdata (v : option vcpu_t) (dd : gang_dom_info_t) (st : cpu_state)
  : option (tkt_ptr * cpu_state) :=
  match xzalloc (tickets st) with
  | None => None
  | Some tkt =>
      Some (tkt,
            store tkt {| vcpu := v; dom_info := dd;
                         earliest_start_time := INFINITY; deadline := INFINITY;
                         remaining_time := 0; activated_at := INFINITY;
                         flags := 0%N; on_my_behalf := None |} st)
  end.

(** [__insert_into_waiting_4_event_set]: the new entry is the first
    that a search of its key meets. *)
Definition __insert_into_waiting_4_event_set (tkt : tkt_ptr) (st : cpu_state)
  : outcome (bool * cpu_state) :=
  t ← load st tkt;
  let domid := domain_id (dom_info t) in
  match tickets_waiting_4_event (local_sched st) with
  | None => Crash FAULT
  | Some w =>
      if entry_ok domid then Done (true, set_waiting_4_event (Some ((domid, tkt) :: w)) st)
      else Done (false, st)
  end.

(** The times of the new ticket, by the policy of its domain, and its
    insertion into the activation queue. *)
Definition seed_ticket (g : gang_globals) (will_resume_at cpu_cohort : Z)
    (tkt : tkt_ptr) (di : gang_dom_info_t) (vars : update_vars) (st : cpu_state)
  : outcome (update_vars * cpu_state) :=
  t ← load st tkt;
  match tm_muxing_spec di with
  | NoMuxing p =>
      let t := set_times (MAX_from (nm_from p) will_resume_at) INFINITY INFINITY t in
      st ← __insert_into_activation_Q tkt (store tkt t st);
      Done (vars, st)
  | TimeTrig p =>
      est ← Reseed.__adjust_activation_time will_resume_at
              (s64 (tt_from p)) (s64 (tt_period p));
      let t := set_times est (s64 (est + tt_period p)) (s64 (tt_active_time p)) t in
      st ← __insert_into_activation_Q tkt (store tkt t st);
      Done (vars, st)
  | EventTrig p =>
      est ← Reseed.__adjust_activation_time will_resume_at
              (s64 (et_from p)) (s64 (et_period p));
      let t := set_times est (s64 (est + et_period p)) (s64 (et_active_time p)) t in
      st ← __insert_into_activation_Q tkt (store tkt t st);
      Done (vars, st)
  | BestEffort p =>
      est ← Reseed.__adjust_activation_time will_resume_at
              (s64 (be_from p)) (__period_4_be_doms g);
      let counter := s32 (be_doms_counter vars + 1) in
      let vars := {| be_doms_counter := counter;
                     muxed_dom_in_cohort := muxed_dom_in_cohort vars;
                     non_muxed_dom_in_cohort := non_muxed_dom_in_cohort vars |} in
      n ← read_be_doms_in_cohort g cpu_cohort;
      BUG_ON (n <=? 0);;
      let t := set_times est (s64 (est + s64 (counter * __period_4_be_doms g)))
                         (__quantum_4_be_doms g) t in
      st ← __insert_into_activation_Q tkt (store tkt t st);
      Done (vars, st)
  | _ =>
      (* "ERROR: Domain %d with invalid time-multiplexing policy." *)
      ASSERT false;; Done (vars, st)
  end.

(** One round of the loop over the domains.  The ticket points to the
    domain's own record [DOMAIN_SCHED_INFO(di->domain)], whose [domain]
    is [di->domain] and to which the designated CPU copies the CPU
    mask, the policy, the cohort and the group mask of [di] in this
    adjustment ([Adjust.write_domain_info]): the ticket is given the
    contents that the record has when the pool resumes, those of [di].
    A VCPU found takes the ticket as its [sched_priv]. *)
Definition update_for_domain (g : gang_globals) (will_resume_at : Z)
    (cpu_id : nat) (cpu_cohort : Z)
    (acc : update_vars * cpu_state) (d : dom_view)
  : outcome (update_vars * cpu_state) :=
  let '(vars, st) := acc in
  BUG_ON (negb (has_cpupool d));;
  if negb (cpu_cohort =? cohort (di d)) then
    (* The domain is not in this cohort. *)
    Done (vars, st)
  else
    let vcpu := vcpu_on_cpu cpu_id d in
    let vcpu_found := match vcpu with Some _ => true | None => false end in
    let dom_got_this_cpu := cpumask_test_cpu cpu_id (cpumask (di d)) in
    BUG_ON (negb (eqb dom_got_this_cpu vcpu_found));;
    match vcpu with
    | Some v => BUG_ON (is_idle_vcpu v)
    | None => Done tt
    end;;
    match gang_alloc_vdata (if dom_got_this_cpu then vcpu else None) (di d) st with
    | None => Crash BUG                      (* BUG_ON(tkt == NULL) *)
    | Some (tkt, st) =>
        st ← (if dom_got_this_cpu then
                match vcpu with
                | Some v =>
                    (* vcpu->sched_priv = tkt *)
                    t ← load st tkt;
                    Done (store tkt (set_vcpu (Some (set_sched_priv (Some tkt) v)) t) st)
                | None => Crash FAULT
                end
              else Done st);
        '(res, st) ← __insert_into_waiting_4_event_set tkt st;
        BUG_ON (negb res);;
        let domid := domain_id (di d) in
        let vars :=
          if is_no_muxing (tm_muxing_spec (di d)) then
            {| be_doms_counter := be_doms_counter vars;
               muxed_dom_in_cohort := muxed_dom_in_cohort vars;
               non_muxed_dom_in_cohort := true |}
          else
            {| be_doms_counter := be_doms_counter vars;
               muxed_dom_in_cohort := true;
               non_muxed_dom_in_cohort := non_muxed_dom_in_cohort vars |} in
        BUG_ON (non_muxed_dom_in_cohort vars && muxed_dom_in_cohort vars);;
        '(tmp_tkt, st) ← __remove_from_waiting_4_event_set domid st;
        BUG_ON (bool_decide (tmp_tkt ≠ Some tkt));;
        seed_ticket g will_resume_at cpu_cohort tkt (di d) vars st
    end.

(** [__update_local_sched_v0] on the CPU [cpu_id], whose scheduler is
    [si]; [mem] is the ticket memory.  The result is the CPU's
    scheduler with the ticket memory. *)
Definition __update_local_sched_v0 (g : gang_globals) (__adj_time_upper_bound : Z)
    (arr : list dom_view) (now : Z) (cpu_id : nat)
    (si : option sched_info_t) (mem : gmap tkt_ptr sched_ticket_t)
  : outcome cpu_state :=
  cpu_cohort ← match cpu_2_cohort g !! cpu_id with
               | Some k => Done k
               | None => Crash FAULT
               end;
  let grain := GANG_FINEST_TIME_GRAIN g in
  let sum := s64 (now + __adj_time_upper_bound) in
  will_resume_at ←
    (if (grain =? 0) || ((grain =? -1) && (sum =? - 2^63)) then Crash FAULT
     else Done (s64 (s64 (Z.quot sum grain + 1) * grain)));
  (* Reset the local schedule. *)
  '(s, mem) ← Pdata.__deinit_sched_info NR_CPUS si false mem;
  '(_, st) ← ofold (update_for_domain g will_resume_at cpu_id cpu_cohort) arr
                   ({| be_doms_counter := 0;
                       muxed_dom_in_cohort := false;
                       non_muxed_dom_in_cohort := false |},
                    {| tickets := mem; local_sched := s |});
  Done st.

End WithAllocator.

(** The ticket memory [mem'] differs from [mem] at [tkt] only, where
    the ticket has kept its domain. *)
Definition only_at (tkt : tkt_ptr) (mem mem' : gmap tkt_ptr sched_ticket_t) : Prop :=
  (forall q, q <> tkt -> mem' !! q = mem !! q) /\
  TicketsHeld.domain_of mem' tkt = TicketsHeld.domain_of mem tkt.

(** The domains of [arr] that are in the cohort [k]. *)
Definition domains_of_cohort (k : Z) (arr : list dom_view) : list gang_dom_info_t :=
  di <$> filter (fun d => cohort (di d) = k) arr.

(** The scheduler while the update runs, after the domains [arr1]: a
    ticket for each of them that is in the cohort [k], all allocated
    and in the activation queue, each once. *)
Definition seeded (NR_CPUS : nat) (k : Z) (arr1 : list dom_view) (st : cpu_state) : Prop :=
  edf_runnable_Q (local_sched st) = [] /\
  cur_ticket_per_cpu (local_sched st) = replicate NR_CPUS None /\
  tickets_waiting_4_event (local_sched st) = Some [] /\
  NoDup (activation_Q (local_sched st)) /\
  (forall p, p ∈ activation_Q (local_sched st) -> is_Some (tickets st !! p)) /\
  TicketsHeld.domain_of (tickets st) <$> activation_Q (local_sched st)
  ≡ₚ Some <$> domains_of_cohort k arr1.

(** The times of the policy of a domain for which the seeding does not
    wrap: a start below 2^61 ns and a positive period below 2^61 ns. *)
Definition seed_times_in_range (g : gang_globals) (d : gang_dom_info_t) : Prop :=
  match tm_muxing_spec d with
  | NoMuxing p => 0 <= nm_from p < 2^61
  | TimeTrig p => 0 <= tt_from p < 2^61 /\ 0 < tt_period p < 2^61
  | EventTrig p => 0 <= et_from p < 2^61 /\ 0 < et_period p < 2^61
  | BestEffort p => 0 <= be_from p < 2^61 /\ 0 < __period_4_be_doms g < 2^61
  | _ => True
  end.

(** No ticket of the activation queue is to start before [w]. *)
Definition all_start_after (w : Z) (st : cpu_state) : Prop :=
  forall p, p ∈ activation_Q (local_sched st) ->
    exists t, tickets st !! p = Some t /\ w <= earliest_start_time t.

End LocalUpdate.



(** ** Concrete inputs used by the examples below *)

(** A 2 ms period with the default grain of 1 ms
    ([sched_ratelimit_us = 1000]). *)
Definition tt_2ms_full : tt_muxing_params_t :=
  {| tt_from := 0; tt_period := 2000000; tt_active_time := 2000000;
     tt_space_filling := false |}.

Definition be_weight_zero : be_muxing_params_t :=
  {| be_from := 0; be_weight := 0; be_space_filling := false |}.

(** *** A pool of four CPUs with two overlapping time-triggered domains

    Domain 1 runs on CPUs 0 and 1, domain 2 on CPUs 1 and 2; both have
    a period of 100 ms and an active time of 50 ms.  CPUs 0 to 2 form
    one cohort.  Times are in nanoseconds. *)

Definition ms (n : Z) : Z := n * 1000000.

Definition tt_100_50 : gang_sched_policy_t :=
  TimeTrig {| tt_from := 0; tt_period := ms 100; tt_active_time := ms 50;
              tt_space_filling := false |}.

Definition dom1_info : gang_dom_info_t :=
  {| domain_id := 1; cpumask := mask_of_cpus [0; 1]%nat;
     tm_muxing_spec := tt_100_50; cohort := 0; muxgroup_mask := 0%N |}.

Definition dom2_info : gang_dom_info_t :=
  {| domain_id := 2; cpumask := mask_of_cpus [1; 2]%nat;
     tm_muxing_spec := tt_100_50; cohort := 0; muxgroup_mask := 0%N |}.

Definition globals4 : gang_globals :=
  {| cohorts := [mask_of_cpus [0; 1; 2]%nat; 0; 0; 0]%N;
     cpu_2_cohort := [0; 0; 0; -1];
     be_doms_in_cohort := [0; 0; 0; 0];
     num_of_cohorts := 1;
     num_of_muxgroups := 3;
     __period_4_be_doms := ms 100;
     __quantum_4_be_doms := ms 10;
     sched_ratelimit_us := 1000 |}.

(** Tickets of the two domains on CPU 0, at addresses 10 and 20.
    Domain 2 has no VCPU on CPU 0. *)
Definition ticket_of (v : option vcpu_t) (di : gang_dom_info_t) (est : Z)
  : sched_ticket_t :=
  {| vcpu := v; dom_info := di;
     earliest_start_time := est; deadline := est + ms 100;
     remaining_time := ms 50; activated_at := STIME_MAX;
     flags := 0%N; on_my_behalf := None |}.

Definition vcpu_dom1 : vcpu_t :=
  {| vcpu_id := 0; is_idle_vcpu := false; sched_priv := Some 10%nat |}.

Definition the_idle_vcpu : vcpu_t :=
  {| vcpu_id := 0; is_idle_vcpu := true; sched_priv := None |}.

(** Both tickets wait in the activation queue, to start at [est1] and
    [est2]. *)
Definition cpu0_state (est1 est2 : Z) : cpu_state :=
  {| tickets := {[ 10%nat := ticket_of (Some vcpu_dom1) dom1_info est1;
                   20%nat := ticket_of None dom2_info est2 ]};
     local_sched :=
       {| edf_runnable_Q := [];
          activation_Q := [10; 20]%nat;
          tickets_waiting_4_event := Some [];
          cur_ticket_per_cpu := replicate 4 None |} |}.

(** The loop variables once domain 1 has been given CPUs 0 and 1, and
    the state in which the ticket of domain 2 has just been taken from
    the runnable queue. *)
Definition lv_after_dom1 : loop_vars :=
  {| assigned_cpus := mask_of_cpus [0; 1]%nat;
     end_of_time_slice := STIME_MAX;
     __num_of_runnable_domains := 1;
     __non_muxed_domain_present := false |}.

Definition state_dom2_popped : cpu_state :=
  set_activation_Q [] (cpu0_state 0 0).

(** The state while domain 1 runs on CPUs 0 and 1 since 1 ms, with the
    ticket of domain 2 waiting in the activation queue. *)
Definition state_dom1_running : cpu_state :=
  {| tickets := {[ 10%nat := set_activated_at (ms 1)
                               (ticket_of (Some vcpu_dom1) dom1_info 0);
                   20%nat := ticket_of None dom2_info 0 ]};
     local_sched :=
       {| edf_runnable_Q := [];
          activation_Q := [20]%nat;
          tickets_waiting_4_event := Some [];
          cur_ticket_per_cpu := [Some 10; Some 10; None; None]%nat |} |}.

(** *** Inputs of the schedulability test *)

Definition tool_tt (period active_time : Z) : gang_sched_policy_t :=
  TimeTrig {| tt_from := 0; tt_period := period; tt_active_time := active_time;
              tt_space_filling := false |}.

Definition tool_be (weight : Z) : gang_sched_policy_t :=
  BestEffort {| be_from := 0; be_weight := weight; be_space_filling := false |}.

(** A time-triggered domain (period 100, active 95) and a best-effort
    domain, both on CPUs 0 and 1. *)
Definition overload_doms : list SchedTest.gs_dominfo_t :=
  [ {| SchedTest.domid := 0; SchedTest.cpus := [0; 1]; SchedTest.num_of_cpus := 2;
       SchedTest.gang_sched_policy := tool_tt 100 95 |};
    {| SchedTest.domid := 1; SchedTest.cpus := [0; 1]; SchedTest.num_of_cpus := 2;
       SchedTest.gang_sched_policy := tool_be 128 |} ].

(** A time-triggered domain (period 100, active 60) whose CPU array
    names CPU 0 twice. *)
Definition twice_on_cpu0 : SchedTest.gs_dominfo_t :=
  {| SchedTest.domid := 0; SchedTest.cpus := [0; 0]; SchedTest.num_of_cpus := 2;
     SchedTest.gang_sched_policy := tool_tt 100 60 |}.

(** *** A pool of two single-VCPU domains on CPUs 1 and 2

    The pool has id 1; the caller is DOM0 on CPU 0, outside the pool.
    [NR_CPUS] is 4, at most 8 domains fit a request, and the time grain
    is 1000 us. *)

Definition pool_domain (id : Z) (di : gang_dom_info_t) : Adjust.domain_t :=
  {| Adjust.d_domain_id := id; Adjust.d_cpupool_id := 1;
     Adjust.max_vcpus := 1; Adjust.nr_vcpus := 1; Adjust.d_sched_priv := di |}.

Definition pool_of (doms : list Adjust.domain_t) : Adjust.hv_state :=
  {| Adjust.domain_list := doms;
     Adjust.cpu_pool := {| Adjust.cpupool_id := 1;
                           Adjust.cpu_valid := mask_of_cpus [1; 2]%nat |} |}.

(** The record that [gang_alloc_domdata] makes. *)
Definition fresh_dom_info (id : Z) : gang_dom_info_t :=
  {| domain_id := id; cpumask := cpumask_clear; tm_muxing_spec := NotSet;
     cohort := -1; muxgroup_mask := cpumask_clear |}.

Definition tt_200_50 : gang_sched_policy_t :=
  TimeTrig {| tt_from := 0; tt_period := ms 200; tt_active_time := ms 50;
              tt_space_filling := false |}.

(** The two domains as created. *)
Definition pool_created : Adjust.hv_state :=
  pool_of [pool_domain 1 (fresh_dom_info 1); pool_domain 2 (fresh_dom_info 2)].

(** Domain 1 on CPU 1 and domain 2 on CPU 2, both with a period of
    100 ms and an active time of 50 ms. *)
Definition pool_configured : Adjust.hv_state :=
  pool_of [pool_domain 1 {| domain_id := 1; cpumask := mask_of_cpus [1%nat];
                            tm_muxing_spec := tt_100_50; cohort := 0;
                            muxgroup_mask := mask_of_cpus [0%nat] |};
           pool_domain 2 {| domain_id := 2; cpumask := mask_of_cpus [2%nat];
                            tm_muxing_spec := tt_100_50; cohort := 1;
                            muxgroup_mask := mask_of_cpus [1%nat] |}].

(** The same with the period of domain 1 at 200 ms. *)
Definition pool_reconfigured : Adjust.hv_state :=
  pool_of [pool_domain 1 {| domain_id := 1; cpumask := mask_of_cpus [1%nat];
                            tm_muxing_spec := tt_200_50; cohort := 0;
                            muxgroup_mask := mask_of_cpus [0%nat] |};
           pool_domain 2 {| domain_id := 2; cpumask := mask_of_cpus [2%nat];
                            tm_muxing_spec := tt_100_50; cohort := 1;
                            muxgroup_mask := mask_of_cpus [1%nat] |}].

Definition dom0_caller : Adjust.caller_t :=
  {| Adjust.from_dom0 := true; Adjust.in_cpupool0 := true; Adjust.processor := 0 |}.

Definition conf_of (id : Z) (cpus : list nat) (pol : gang_sched_policy_t)
  : Adjust.gang_sched_dom_conf_t :=
  {| Adjust.domid := id; Adjust.cpumap := mask_of_cpus cpus;
     Adjust.gang_sched_policy := pol |}.

(** The request that configures both domains, and the request that
    names domain 1 only. *)
Definition conf_both : list Adjust.gang_sched_dom_conf_t :=
  [conf_of 1 [1%nat] tt_100_50; conf_of 2 [2%nat] tt_100_50].
Definition conf_one : list Adjust.gang_sched_dom_conf_t :=
  [conf_of 1 [1%nat] tt_200_50].

(** A call from DOM0 in which every conversion and allocation
    succeeds. *)
Definition adjust_pool (cmd : Adjust.sched_cmd)
    (params : list Adjust.gang_sched_dom_conf_t) (st : Adjust.hv_state)
  : outcome (Z * Adjust.hv_state * list Adjust.gang_sched_dom_conf_t) :=
  Adjust.gang_adjust_global 4 8 1000 (fun _ _ => 0%nat) true dom0_caller cmd params st.

(** ** Concrete inputs of the further properties *)

(** Three domain records in the order best-effort, time-triggered, not
    multiplexed, on CPUs 1, 2 and 3. *)
Definition info_of (id : Z) (cpus : list nat) (pol : gang_sched_policy_t)
  : gang_dom_info_t :=
  {| domain_id := id; cpumask := mask_of_cpus cpus; tm_muxing_spec := pol;
     cohort := -1; muxgroup_mask := cpumask_clear |}.

Definition unsorted_infos : list gang_dom_info_t :=
  [info_of 1 [1%nat] (tool_be 128); info_of 2 [2%nat] tt_100_50;
   info_of 3 [3%nat] (NoMuxing {| nm_from := 0 |})].

(** A request that names domain 1 twice. *)
Definition conf_twice : list Adjust.gang_sched_dom_conf_t :=
  [conf_of 1 [1%nat] tt_100_50; conf_of 1 [2%nat] tt_100_50].

(** The state of CPU 0 when the ticket of domain 1 is due at 0 and the
    ticket of domain 2 at 70 ms. *)
Definition cpu0_dom2_later : cpu_state := cpu0_state 0 (ms 70).

(** The local scheduler of [state_dom1_running], with the ticket of
    domain 2 in its activation queue. *)
Definition sched_dom1_running : sched_info_t := local_sched state_dom1_running.

(** The conversions of a request in which the one made by
    [__update_domain_infos] for the second entry finds no memory. *)
Definition no_memory_for_second (site : Adjust.call_site) (e : nat) : nat :=
  match site, e with
  | Adjust.in_update, 1%nat => 12%nat
  | _, _ => 0%nat
  end.

(** The conversions of a request in which the one made by the
    validation for the first entry finds no memory. *)
Definition no_memory_in_validation (site : Adjust.call_site) (e : nat) : nat :=
  match site, e with
  | Adjust.in_validation, 0%nat => 12%nat
  | _, _ => 0%nat
  end.

(** *** Inputs of the bitmap functions and of the CPU array check *)

(** CPUs 3, 1 and 3 again, for a bitmap of one byte in a system of four
    CPUs, and a temporary array of eight elements. *)
Definition cpus_3_1_3 : list Z := [3; 1; 3].
Definition one_zero_byte : list Z := [0].
Definition tmp_array : list Z := replicate 8 7.

(** A bitmap with the bits 1 and 3 set. *)
Definition bitmap_1_3 : list Z := [10].

(** A control interface of four CPUs whose pool 1 has CPUs 1 and 3. *)
Definition xch_4_cpus : GsUtils.xc_interface :=
  {| GsUtils.xc_get_max_cpus := 4;
     GsUtils.xc_cpupool_getinfo := fun id => if id =? 1 then Some bitmap_1_3 else None |}.

(** *** A waiting-for-event set *)

(** The usual [indexFor]: the hash value modulo the table length. *)
Definition index_by_mod (tablelength hashvalue : Z) : Z := hashvalue mod tablelength.

(** The table that [__create_waiting_4_event_set] asks for:
    [create_hashtable(MAX_NUM_OF_DOMAINS, generic_hash, generic_equal)]
    with [MAX_NUM_OF_DOMAINS = 1 << sizeof(domid_t) = 4]. *)
Definition waiting_set_created : Hashtable.hashtable :=
  {| Hashtable.tablelength := 53;
     Hashtable.table := replicate 53 [];
     Hashtable.entrycount := 0;
     Hashtable.loadlimit := 34;
     Hashtable.primeindex := 0;
     Hashtable.hashfn := Hashtable.generic_hash;
     Hashtable.eqfn := Hashtable.generic_equal |}.

(** The set once the ticket at address 4096 of domain 7 is in it. *)
Definition waiting_set_with_dom7 : Hashtable.hashtable :=
  match Hashtable.hashtable_insert index_by_mod true true waiting_set_created 7 4096 with
  | Done (_, tbl) => tbl
  | Crash _ => waiting_set_created
  end.

(** *** A schedule of two CPUs at the barrier *)

(** CPU 0 takes seven steps, then CPU 1 takes nine. *)
Definition two_cpus_schedule : list nat :=
  replicate 7 0%nat ++ replicate 9 1%nat.

(** *** Inputs of the local update *)

(** An allocator: the block after the highest one in use. *)
Definition block_after_last (mem : gmap tkt_ptr sched_ticket_t) : option tkt_ptr :=
  Some (S (foldr Nat.max 0%nat (fst <$> map_to_list mem))).

Definition vcpu_of (id : Z) : vcpu_t :=
  {| vcpu_id := id; is_idle_vcpu := false; sched_priv := None |}.

(** The two domains after [__setup_vcpus_for_domain]: the VCPUs of
    domain 1 are on CPUs 0 and 1, those of domain 2 on CPUs 1 and 2. *)
Definition doms_after_setup : list LocalUpdate.dom_view :=
  [ {| LocalUpdate.di := dom1_info; LocalUpdate.has_cpupool := true;
       LocalUpdate.vcpus := [(vcpu_of 0, 0); (vcpu_of 1, 1)] |};
    {| LocalUpdate.di := dom2_info; LocalUpdate.has_cpupool := true;
       LocalUpdate.vcpus := [(vcpu_of 0, 1); (vcpu_of 1, 2)] |} ].



(** * Properties *)

(** ** Outcomes and machine integers *)

Lemma bind_Done_inv {A B} (m : outcome A) (k : A -> outcome B) b :
  (m ≫= k) = Done b -> exists a, m = Done a /\ k a = Done b.
Proof. destruct m as [a|c]; simpl; [eauto | discriminate]. Qed.

Lemma BUG_ON_Done_inv c u : BUG_ON c = Done u -> c = false.
Proof. destruct c; simpl; congruence. Qed.

Lemma ASSERT_Done_inv c u : ASSERT c = Done u -> c = true.
Proof. destruct c; simpl; congruence. Qed.

(** Inversion of a completed sequence of steps. *)
Ltac inv_bind H :=
  let a := fresh "a" in
  let Ha := fresh "Ha" in
  apply bind_Done_inv in H; destruct H as (a & Ha & H).

Tactic Notation "inv_bind_as" hyp(H) ident(a) ident(Ha) :=
  apply bind_Done_inv in H; destruct H as (a & Ha & H).

Lemma s64_id z : - 2^63 <= z < 2^63 -> s64 z = z.
Proof. intros H. unfold s64. rewrite Z.mod_small; lia. Qed.

Lemma s64_range z : - 2^63 <= s64 z < 2^63.
Proof.
  unfold s64. pose proof (Z.mod_pos_bound (z + 2^63) (2^64) ltac:(lia)). lia.
Qed.

Lemma s64_high z : 2^63 <= z < 2^64 -> s64 z = z - 2^64.
Proof.
  intros H. unfold s64.
  replace (z + 2^63) with ((z - 2^63) + 1 * 2^64) by lia.
  rewrite Z.mod_add by lia. rewrite Z.mod_small; lia.
Qed.

Lemma s32_id z : - 2^31 <= z < 2^31 -> s32 z = z.
Proof. intros H. unfold s32. rewrite Z.mod_small; lia. Qed.

(** A [uint64_t] field read as [s_time_t] is itself below 2^63 and
    negative from there on. *)
Lemma s64_of_u64 z :
  0 <= z < 2^64 ->
  (z < 2^63 /\ s64 z = z) \/ (2^63 <= z /\ s64 z = z - 2^64).
Proof.
  intros H. destruct (Z_lt_le_dec z (2^63)).
  - left. split; [lia | apply s64_id; lia].
  - right. split; [lia | apply s64_high; lia].
Qed.

(** ** Policy validation *)

Section ValidationFacts.

Variable sched_ratelimit_us : Z.

Local Abbreviation validate_tt := (Validate.__validate_tt_muxing_params sched_ratelimit_us).
Local Abbreviation validate_et := (Validate.__validate_et_muxing_params sched_ratelimit_us).
Local Abbreviation grain := (Validate.GANG_FINEST_TIME_GRAIN sched_ratelimit_us).

Lemma validate_tt_true_iff p :
  validate_tt p = true <->
  sched_ratelimit_us <= s64 (tt_period p) < STIME_MAX /\
  sched_ratelimit_us <= s64 (tt_active_time p) < STIME_MAX /\
  s64 (tt_active_time p) <= s64 (tt_period p).
Proof.
  unfold Validate.__validate_tt_muxing_params, Validate.GANG_FINEST_TIME_GRAIN_IN_US,
    Validate.INFINITY.
  repeat match goal with
         | |- context [if ?c then _ else _] => destruct c eqn:?
         end; split; intros; try discriminate; try reflexivity; lia.
Qed.

Lemma validate_et_true_iff p :
  validate_et p = true <->
  sched_ratelimit_us <= s64 (et_period p) < STIME_MAX /\
  sched_ratelimit_us <= s64 (et_active_time p) < STIME_MAX /\
  s64 (et_active_time p) <= s64 (et_period p).
Proof.
  unfold Validate.__validate_et_muxing_params, Validate.GANG_FINEST_TIME_GRAIN_IN_US,
    Validate.INFINITY.
  repeat match goal with
         | |- context [if ?c then _ else _] => destruct c eqn:?
         end; split; intros; try discriminate; try reflexivity; lia.
Qed.

(** The order of two [uint64_t] fields survives the cast to [s_time_t]
    unless the cast makes the larger one negative. *)
Lemma cast_keeps_excess (period active_time : Z) :
  0 <= sched_ratelimit_us ->
  0 <= period < 2^64 -> 0 <= active_time < 2^64 ->
  period < active_time ->
  ~ (sched_ratelimit_us <= s64 period /\
     sched_ratelimit_us <= s64 active_time /\
     s64 active_time <= s64 period).
Proof.
  intros Hg Hp Ha Hlt.
  destruct (s64_of_u64 period Hp) as [[? ->]|[? ->]];
    destruct (s64_of_u64 active_time Ha) as [[? ->]|[? ->]]; lia.
Qed.

(** C4, as amended.  In the hypervisor's validators a time-triggered or
    event-triggered record whose [active_time] exceeds its [period] is
    rejected; a time-triggered record with [active_time = period] is
    accepted (the header lets [active_time] be at most the period); a
    record with [active_time] one time grain below [period] is accepted
    when its other fields pass (both at least [sched_ratelimit_us],
    [period] below INFINITY). *)
Theorem validate_tt_et_boundary :
  0 <= sched_ratelimit_us ->
  (forall p, 0 <= tt_period p < 2^64 -> 0 <= tt_active_time p < 2^64 ->
             tt_period p < tt_active_time p -> validate_tt p = false) /\
  (forall p, 0 <= et_period p < 2^64 -> 0 <= et_active_time p < 2^64 ->
             et_period p < et_active_time p -> validate_et p = false) /\
  (forall p, sched_ratelimit_us <= tt_period p < STIME_MAX ->
             tt_active_time p = tt_period p -> validate_tt p = true) /\
  (forall p, 0 < grain ->
             tt_period p < STIME_MAX ->
             tt_active_time p = tt_period p - grain ->
             sched_ratelimit_us <= tt_active_time p ->
             validate_tt p = true) /\
  (forall p, 0 < grain ->
             et_period p < STIME_MAX ->
             et_active_time p = et_period p - grain ->
             sched_ratelimit_us <= et_active_time p ->
             validate_et p = true).
Proof.
  intros Hg. unfold STIME_MAX. repeat split.
  - intros p Hp Ha Hlt. destruct (validate_tt p) eqn:E; [|reflexivity].
    apply validate_tt_true_iff in E.
    exfalso. apply (cast_keeps_excess _ _ Hg Hp Ha Hlt). tauto.
  - intros p Hp Ha Hlt. destruct (validate_et p) eqn:E; [|reflexivity].
    apply validate_et_true_iff in E.
    exfalso. apply (cast_keeps_excess _ _ Hg Hp Ha Hlt). tauto.
  - intros p Hp Heq. apply validate_tt_true_iff. rewrite Heq.
    unfold STIME_MAX. rewrite s64_id by lia. lia.
  - intros p Hgr Hp Heq Hlo. apply validate_tt_true_iff. unfold STIME_MAX.
    rewrite !s64_id by lia. lia.
  - intros p Hgr Hp Heq Hlo. apply validate_et_true_iff. unfold STIME_MAX.
    rewrite !s64_id by lia. lia.
Qed.

End ValidationFacts.

Lemma validate_tt_et_boundary_witness :
  Validate.__validate_tt_muxing_params 1000 tt_2ms_full = true.
Proof.
  destruct (validate_tt_et_boundary 1000 ltac:(lia)) as (_ & _ & Heq & _).
  apply Heq; [unfold STIME_MAX; simpl; lia | reflexivity].
Defined.

(** C4 as stated fails: the hypervisor accepts a time-triggered record
    whose [active_time] equals its [period]. *)
Lemma validate_tt_accepts_full_period :
  tt_active_time tt_2ms_full >= tt_period tt_2ms_full /\
  Validate.__validate_tt_muxing_params 1000 tt_2ms_full = true.
Proof. split; [simpl; lia | reflexivity]. Qed.

(** The control tool's validator does reject [active_time >= period]. *)
Lemma tool_validate_rejects_full_period p :
  (tt_active_time p >= tt_period p ->
   ToolValidate.__validate_muxing_policy (TimeTrig p) = false) /\
  (forall q, et_active_time q >= et_period q ->
   ToolValidate.__validate_muxing_policy (EventTrig q) = false).
Proof.
  split.
  - intros H. unfold ToolValidate.__validate_muxing_policy. simpl.
    destruct (tt_from p =? _); [reflexivity|].
    destruct (tt_active_time p >=? tt_period p) eqn:E; [reflexivity | lia].
  - intros q H. unfold ToolValidate.__validate_muxing_policy. simpl.
    destruct (et_from q =? _); [reflexivity|].
    destruct (et_active_time q >=? et_period q) eqn:E; [reflexivity | lia].
Qed.

(** C5, as amended.  The control tool's validator rejects a best-effort
    record with [weight = 0] and accepts one with [weight = 1] whose
    [from] is not INFINITY; the hypervisor's
    [__validate_be_muxing_params] validates nothing and accepts every
    best-effort record. *)
Theorem validate_be_weight_boundary :
  (forall p, be_weight p = 0 ->
             ToolValidate.__validate_muxing_policy (BestEffort p) = false) /\
  (forall p, be_weight p = 1 -> be_from p <> ToolValidate.INFINITY ->
             ToolValidate.__validate_muxing_policy (BestEffort p) = true) /\
  (forall p, Validate.__validate_be_muxing_params p = true).
Proof.
  repeat split.
  - intros p H. unfold ToolValidate.__validate_muxing_policy. simpl.
    rewrite H. destruct (be_from p =? _); reflexivity.
  - intros p H Hf. unfold ToolValidate.__validate_muxing_policy. simpl.
    rewrite H. destruct (be_from p =? ToolValidate.INFINITY) eqn:E; [lia | reflexivity].
Qed.

Lemma validate_be_weight_boundary_witness :
  ToolValidate.__validate_muxing_policy (BestEffort be_weight_zero) = false.
Proof. apply (proj1 validate_be_weight_boundary). reflexivity. Defined.

(** C5 as stated fails in the hypervisor: a best-effort record with
    [weight = 0] passes its validation. *)
Lemma hv_validate_accepts_weight_zero :
  be_weight be_weight_zero = 0 /\
  Validate.__validate_gang_sched_policy 1000 (Some (BestEffort be_weight_zero)) = true.
Proof. split; reflexivity. Qed.

(** ** Per-CPU scheduler data *)

Lemma gang_alloc_pdata_local_sched NR_CPUS pci_ok local_sched_ok created curr_is_idle pci :
  Pdata.gang_alloc_pdata NR_CPUS pci_ok local_sched_ok created curr_is_idle
    = Done (Some pci) ->
  Pdata.pci_local_sched pci <> None.
Proof.
  unfold Pdata.gang_alloc_pdata.
  destruct (negb pci_ok || negb local_sched_ok); [discriminate|].
  intros H. inv_bind H. inv_bind H. inv_bind H.
  injection H as <-. simpl. discriminate.
Qed.

(** C10 (the code at the failing inputs).  For the record that
    [gang_alloc_pdata] returns, [gang_free_pdata] stops at its own
    assertion [ASSERT(pci->local_sched == NULL)]. *)
Theorem gang_free_pdata_after_alloc NR_CPUS created curr_is_idle pci mem :
  Pdata.gang_alloc_pdata NR_CPUS true true created curr_is_idle = Done (Some pci) ->
  Pdata.gang_free_pdata NR_CPUS (Some pci) mem = Crash ASSERT_FAILED.
Proof.
  intros H. apply gang_alloc_pdata_local_sched in H.
  unfold Pdata.gang_free_pdata.
  destruct (Pdata.pci_local_sched pci) as [s|]; [reflexivity | congruence].
Qed.

Lemma gang_free_pdata_after_alloc_witness :
  Pdata.gang_alloc_pdata 4 true true (Some []) true
    = Done (Some (Pdata.Build_gang_pcpu_info_t
                    (Some (Build_sched_info_t [] [] (Some []) (replicate 4 None))))) /\
  Pdata.gang_free_pdata 4
    (Some (Pdata.Build_gang_pcpu_info_t
             (Some (Build_sched_info_t [] [] (Some []) (replicate 4 None))))) ∅
    = Crash ASSERT_FAILED.
Proof.
  split; [reflexivity|].
  apply (gang_free_pdata_after_alloc 4 (Some []) true). reflexivity.
Defined.

(** The assertion of [gang_free_pdata] and the [BUG_ON(s == NULL)] of
    [__deinit_sched_info] exclude each other: no record lets
    [gang_free_pdata] run to its end. *)
Lemma gang_free_pdata_never_completes NR_CPUS pci mem mem' :
  Pdata.gang_free_pdata NR_CPUS (Some pci) mem <> Done mem'.
Proof.
  unfold Pdata.gang_free_pdata.
  destruct (Pdata.pci_local_sched pci) as [s|]; simpl; discriminate.
Qed.

(** ** The schedule decision *)

Section ScheduleFacts.

Variable NR_CPUS : nat.

Lemma exit_idle_no_limit cpu_id now st :
  exit_gang_do_schedule cpu_id now None INFINITY st
  = Done ({| task := idle_vcpu cpu_id; time := -1; migrated := false |}, st).
Proof. reflexivity. Qed.

(** C7, as amended.  When [gang_do_schedule] is invoked with the
    tasklet hint set and returns, it returns the idle VCPU of the CPU
    with no time limit (-1), whatever the activation queue holds. *)
Theorem tasklet_goes_idle_without_limit g cpu_id current now st ret st' :
  gang_do_schedule NR_CPUS g cpu_id current now true st = Done (ret, st') ->
  task ret = idle_vcpu cpu_id /\ time ret = -1 /\ migrated ret = false.
Proof.
  unfold gang_do_schedule. intros H.
  destruct ((num_of_cohorts g =? 0) || (num_of_muxgroups g =? 0)).
  - inv_bind H. rewrite exit_idle_no_limit in H. injection H as <- _. auto.
  - inv_bind H. destruct a as [earliest_actv st1].
    rewrite exit_idle_no_limit in H. injection H as <- _. auto.
Qed.


(** *** The queues *)

Lemma load_Some st p t : tickets st !! p = Some t -> load st p = Done t.
Proof. unfold load. intros ->. reflexivity. Qed.

Lemma load_Done_inv st p t : load st p = Done t -> tickets st !! p = Some t.
Proof. unfold load. destruct (tickets st !! p); congruence. Qed.

(** Insertion succeeds on a queue of allocated tickets. *)
Lemma RB_INSERT_total cmp st p t q :
  queue_allocated st q -> exists q', RB_INSERT cmp st p t q = Done q'.
Proof.
  induction 1 as [|h q [th Hh] _ IH]; simpl.
  - eauto.
  - rewrite (load_Some _ _ _ Hh). simpl.
    destruct (cmp t th); eauto.
    destruct IH as [q' ->]. simpl. eauto.
Qed.

(** After an insertion the ticket is in the queue, unless the queue
    held a ticket with the same key; nothing leaves the queue. *)
Lemma RB_INSERT_elem cmp st p t q q' :
  RB_INSERT cmp st p t q = Done q' ->
  (p ∈ q' \/ exists h th, h ∈ q /\ tickets st !! h = Some th /\ cmp t th = Eq) /\
  (forall h, h ∈ q -> h ∈ q').
Proof.
  revert q'. induction q as [|h q IH]; simpl; intros q' H.
  - injection H as <-. split; [left; left|]. intros h Hh. inversion Hh.
  - inv_bind_as H th Hth. apply load_Done_inv in Hth.
    destruct (cmp t th) eqn:E.
    + injection H as <-. split; [|auto].
      right. exists h, th. split; [left|]. split; assumption.
    + injection H as <-. split; [left; left|]. intros h0 Hh0. right. exact Hh0.
    + inv_bind_as H q1 Hq1. injection H as <-.
      destruct (IH _ Hq1) as [Hp Hsub]. split.
      * destruct Hp as [Hin|(h' & th' & Hin & Hl & Hc)].
        -- left. right. exact Hin.
        -- right. exists h', th'. split; [right; exact Hin|]. split; assumption.
      * intros h0 Hh0. apply elem_of_cons in Hh0. destruct Hh0 as [->|Hh0].
        -- left.
        -- right. apply Hsub. exact Hh0.
Qed.

Lemma cmp_tckt_rel_times_Eq t1 t2 :
  __cmp_tckt_rel_times t1 t2 = Eq ->
  domain_id (dom_info t1) = domain_id (dom_info t2).
Proof.
  unfold __cmp_tckt_rel_times.
  destruct (earliest_start_time t1 <? earliest_start_time t2); [discriminate|].
  destruct (earliest_start_time t1 >? earliest_start_time t2); [discriminate|].
  destruct (domain_id (dom_info t1) <? domain_id (dom_info t2)) eqn:E1; [discriminate|].
  destruct (domain_id (dom_info t1) >? domain_id (dom_info t2)) eqn:E2; [discriminate|].
  lia.
Qed.

Lemma cmp_tckt_rel_times_Gt t1 t2 :
  __cmp_tckt_rel_times t1 t2 = Gt -> earliest_start_time t2 <= earliest_start_time t1.
Proof.
  unfold __cmp_tckt_rel_times.
  destruct (earliest_start_time t1 <? earliest_start_time t2) eqn:E; [discriminate|].
  lia.
Qed.

Lemma cmp_tckt_deadlines_Eq t1 t2 :
  __cmp_tckt_deadlines t1 t2 = Eq ->
  domain_id (dom_info t1) = domain_id (dom_info t2).
Proof.
  unfold __cmp_tckt_deadlines.
  destruct (deadline t1 <? deadline t2); [discriminate|].
  destruct (deadline t1 >? deadline t2); [discriminate|].
  destruct (domain_id (dom_info t1) <? domain_id (dom_info t2)) eqn:E1; [discriminate|].
  destruct (domain_id (dom_info t1) >? domain_id (dom_info t2)) eqn:E2; [discriminate|].
  lia.
Qed.

(** An insertion that meets no ticket with the same key adds the
    ticket to the queue. *)
Lemma RB_INSERT_perm cmp st p t : forall q q',
  RB_INSERT cmp st p t q = Done q' ->
  (forall h th, h ∈ q -> tickets st !! h = Some th -> cmp t th <> Eq) ->
  q' ≡ₚ p :: q.
Proof.
  induction q as [|h q IH]; intros q' H Hne; cbn [RB_INSERT] in H.
  - injection H as <-. reflexivity.
  - inv_bind_as H th Hth. apply load_Done_inv in Hth.
    destruct (cmp t th) eqn:E.
    + exfalso. apply (Hne h th); [left | exact Hth | exact E].
    + injection H as <-. reflexivity.
    + inv_bind_as H q1 Hq1. injection H as <-.
      rewrite (IH q1 Hq1).
      * apply Permutation_swap.
      * intros h' th' Hh'. apply Hne. right. exact Hh'.
Qed.

(** Nothing but the ticket joins the queue. *)
Lemma RB_INSERT_subset cmp st p t : forall q q',
  RB_INSERT cmp st p t q = Done q' -> forall h, h ∈ q' -> h = p \/ h ∈ q.
Proof.
  induction q as [|x q IH]; intros q' H h Hh; cbn [RB_INSERT] in H.
  - injection H as <-. apply list_elem_of_singleton in Hh. left. exact Hh.
  - inv_bind_as H th Hth. destruct (cmp t th).
    + injection H as <-. right. exact Hh.
    + injection H as <-. apply elem_of_cons in Hh. destruct Hh as [->|Hh]; auto.
    + inv_bind_as H q1 Hq1. injection H as <-.
      apply elem_of_cons in Hh. destruct Hh as [->|Hh]; [right; left|].
      destruct (IH q1 Hq1 h Hh) as [->|Hin]; [left; reflexivity|right; right; exact Hin].
Qed.

(** The head of the queue after an insertion: the ticket, or the old
    head when the ticket compares greater. *)
Lemma RB_INSERT_head cmp st p t q q' :
  RB_INSERT cmp st p t q = Done q' ->
  (forall h th, h ∈ q -> tickets st !! h = Some th -> cmp t th <> Eq) ->
  head q' = Some p \/
  exists h th, head q' = Some h /\ tickets st !! h = Some th /\ cmp t th = Gt.
Proof.
  destruct q as [|h q]; intros H Hne; cbn [RB_INSERT] in H.
  - injection H as <-. left. reflexivity.
  - inv_bind_as H th Hth. apply load_Done_inv in Hth.
    destruct (cmp t th) eqn:E.
    + exfalso. apply (Hne h th); [left | exact Hth | exact E].
    + injection H as <-. left. reflexivity.
    + inv_bind_as H q1 Hq1. injection H as <-. right. exists h, th. auto.
Qed.

(** A search by domain that finds nothing: every ticket of the queue
    is allocated and belongs to another domain. *)
Lemma search_by_domid_None st domid : forall q,
  search_by_domid st domid q = Done None ->
  forall h, h ∈ q ->
    exists th, tickets st !! h = Some th /\ domain_id (dom_info th) <> domid.
Proof.
  induction q as [|p q IH]; intros H h Hh; [inversion Hh|].
  cbn [search_by_domid] in H. inv_bind_as H t Ht. apply load_Done_inv in Ht.
  destruct (domain_id (dom_info t) =? domid) eqn:E; [discriminate|].
  apply elem_of_cons in Hh. destruct Hh as [->|Hh].
  - exists t. split; [exact Ht | lia].
  - exact (IH H h Hh).
Qed.

(** A write that keeps the domain of the ticket does not change what
    a search by domain finds. *)
Lemma search_by_domid_store st p t t' domid : forall q,
  tickets st !! p = Some t -> dom_info t' = dom_info t ->
  search_by_domid st domid q = Done None ->
  search_by_domid (store p t' st) domid q = Done None.
Proof.
  induction q as [|h q IH]; intros Hp Hd H; [reflexivity|].
  cbn [search_by_domid] in *. inv_bind_as H th Hth. apply load_Done_inv in Hth.
  destruct (domain_id (dom_info th) =? domid) eqn:E; [discriminate|].
  destruct (decide (p = h)) as [<-|Hne].
  - assert (th = t) as -> by congruence.
    rewrite (load_Some (store p t' st) p t') by (cbn; apply lookup_insert_eq).
    simpl. rewrite Hd, E. exact (IH Hp Hd H).
  - rewrite (load_Some (store p t' st) h th)
      by (cbn; rewrite lookup_insert_ne by exact Hne; exact Hth).
    simpl. rewrite E. exact (IH Hp Hd H).
Qed.

(** The insertion of a ticket into an activation queue that holds no
    ticket of its domain. *)
Lemma insert_into_activation_Q_spec tkt t st :
  tickets st !! tkt = Some t ->
  __search_in_activation_Q st (domain_id (dom_info t)) = Done None ->
  exists q',
    RB_INSERT __cmp_tckt_rel_times st tkt t (activation_Q (local_sched st)) = Done q' /\
    __insert_into_activation_Q tkt st = Done (set_activation_Q q' st) /\
    q' ≡ₚ tkt :: activation_Q (local_sched st) /\
    (head q' = Some tkt \/
     exists h th, head q' = Some h /\ tickets st !! h = Some th /\
                  earliest_start_time th <= earliest_start_time t).
Proof.
  intros Hl Hs. unfold __search_in_activation_Q in Hs.
  pose proof (search_by_domid_None _ _ _ Hs) as Hother.
  assert (Hq : queue_allocated st (activation_Q (local_sched st))).
  { apply Forall_forall. intros h Hh. destruct (Hother h Hh) as (th & -> & _). eauto. }
  destruct (RB_INSERT_total __cmp_tckt_rel_times st tkt t _ Hq) as [q' Hq'].
  assert (Hne : forall h th, h ∈ activation_Q (local_sched st) ->
                  tickets st !! h = Some th -> __cmp_tckt_rel_times t th <> Eq).
  { intros h th Hh Hth Heq. apply cmp_tckt_rel_times_Eq in Heq.
    destruct (Hother h Hh) as (th' & Hth' & Hd). congruence. }
  exists q'. split; [exact Hq'|]. split.
  - unfold __insert_into_activation_Q. rewrite (load_Some _ _ _ Hl). simpl.
    rewrite Hq'. reflexivity.
  - split; [exact (RB_INSERT_perm _ _ _ _ _ _ Hq' Hne)|].
    destruct (RB_INSERT_head _ _ _ _ _ _ Hq' Hne) as [Hh|(h & th & Hh & Hth & Hgt)];
      [left; exact Hh|].
    right. exists h, th. split; [exact Hh|]. split; [exact Hth|].
    apply cmp_tckt_rel_times_Gt. exact Hgt.
Qed.

(** *** Deferral of an overlapping ticket *)

(** C3, as amended.  A ticket taken from the runnable queue (so that
    its [earliest_start_time] is not after [now]) whose domain's CPU
    mask intersects the CPUs already assigned, when the activation
    queue holds no ticket of its domain: the ticket is put back into
    the activation queue as it is.  It is in the queue afterwards with
    the tickets that were there, no ticket is written, so it keeps its
    [earliest_start_time], and the head of the activation queue then
    has an [earliest_start_time] that is not after [now].  The computed
    [tval], that is [deadline - remaining_time] when this is after
    [now] and [now + 1 ms] otherwise, only lowers
    [end_of_time_slice]. *)
Theorem overlapping_ticket_is_deferred now ticket lv st t :
  tickets st !! ticket = Some t ->
  cpumask_intersects (assigned_cpus lv) (cpumask (dom_info t)) = true ->
  0 < s64 (deadline t - remaining_time t) ->
  earliest_start_time t <= now ->
  __search_in_activation_Q st (domain_id (dom_info t)) = Done None ->
  exists q',
    RB_INSERT __cmp_tckt_rel_times st ticket t (activation_Q (local_sched st)) = Done q' /\
    schedule_ticket NR_CPUS now ticket lv st
    = Done ({| assigned_cpus := assigned_cpus lv;
               end_of_time_slice := Z.min (end_of_time_slice lv) (deferral_tval now t);
               __num_of_runnable_domains := __num_of_runnable_domains lv + 1;
               __non_muxed_domain_present := __non_muxed_domain_present lv |},
            set_activation_Q q' st) /\
    q' ≡ₚ ticket :: activation_Q (local_sched st) /\
    tickets (set_activation_Q q' st) !! ticket = Some t /\
    exists hd th,
      __head_of_activation_Q (set_activation_Q q' st) = Some hd /\
      tickets (set_activation_Q q' st) !! hd = Some th /\
      earliest_start_time th <= now.
Proof.
  intros Hl Hint Hpos Hdue Hs.
  destruct (insert_into_activation_Q_spec ticket t st Hl Hs)
    as (q' & Hq' & Hins & Hperm & Hhead).
  exists q'. split; [exact Hq'|]. split; [|split; [exact Hperm|split; [exact Hl|]]].
  - unfold schedule_ticket. rewrite (load_Some _ _ _ Hl). simpl.
    rewrite Hint. simpl.
    destruct (s64 (deadline t - remaining_time t) <=? 0) eqn:E; [lia|]. simpl.
    rewrite Hins. reflexivity.
  - unfold __head_of_activation_Q. cbn.
    destruct Hhead as [Hh|(h & th & Hh & Hth & Hle)].
    + exists ticket, t. split; [exact Hh|]. split; [exact Hl | exact Hdue].
    + exists h, th. split; [exact Hh|]. split; [exact Hth | lia].
Qed.

(** [activate_due_tickets] changes the flags of tickets only. *)
Lemma activate_due_tickets_keeps_times now : forall aq st st',
  activate_due_tickets now aq st = Done st' ->
  forall q tq, tickets st !! q = Some tq ->
    exists tq', tickets st' !! q = Some tq' /\
                earliest_start_time tq' = earliest_start_time tq.
Proof.
  induction aq as [|a aq IH]; intros st st' H q tq Hq; cbn [activate_due_tickets] in H.
  - injection H as <-. eauto.
  - inv_bind_as H ta Hta. apply load_Done_inv in Hta.
    destruct (earliest_start_time ta <=? now); [|injection H as <-; eauto].
    inv_bind_as H s1 Hrm. unfold __remove_from_activation_Q in Hrm.
    inv_bind_as Hrm u Hu. injection Hrm as <-.
    inv_bind_as H s2 Hins. unfold __insert_into_runnable_Q in Hins.
    inv_bind_as Hins t2 Ht2. inv_bind_as Hins q2 Hq2. injection Hins as <-.
    assert (Hstep : exists tq2,
              tickets (if test_bit GSBIT_WAS_WAITING_FOR_EVENT (flags ta)
                       then store a (set_flags (clear_bit GSBIT_WAS_WAITING_FOR_EVENT
                                                  (flags ta)) ta)
                              (set_activation_Q (RB_REMOVE a (activation_Q (local_sched st))) st)
                       else set_activation_Q (RB_REMOVE a (activation_Q (local_sched st))) st)
              !! q = Some tq2 /\
              earliest_start_time tq2 = earliest_start_time tq).
    { destruct (test_bit GSBIT_WAS_WAITING_FOR_EVENT (flags ta)); cbn; [|eauto].
      destruct (decide (a = q)) as [->|Hne].
      - rewrite lookup_insert_eq. assert (tq = ta) as -> by congruence. eauto.
      - rewrite lookup_insert_ne by exact Hne. eauto. }
    destruct Hstep as (tq2 & Hq2' & Het).
    destruct (IH _ _ H q tq2) as (tq' & Hq' & Het').
    + cbn. exact Hq2'.
    + exists tq'. split; [exact Hq'|]. congruence.
Qed.

(** Where the tickets of the runnable queue come from: a ticket that
    [activate_due_tickets] has moved there has an
    [earliest_start_time] that is not after [now]. *)
Lemma activated_tickets_are_due now : forall aq st st',
  activate_due_tickets now aq st = Done st' ->
  forall p, p ∈ edf_runnable_Q (local_sched st') ->
    p ∈ edf_runnable_Q (local_sched st) \/
    exists t, tickets st' !! p = Some t /\ earliest_start_time t <= now.
Proof.
  induction aq as [|tkt aq IH]; intros st st' H p Hp; cbn [activate_due_tickets] in H.
  - injection H as <-. left. exact Hp.
  - inv_bind_as H t Ht. apply load_Done_inv in Ht.
    destruct (earliest_start_time t <=? now) eqn:Hdue;
      [|injection H as <-; left; exact Hp].
    inv_bind_as H st1 Hrm. unfold __remove_from_activation_Q in Hrm.
    inv_bind_as Hrm u Hu. injection Hrm as <-.
    inv_bind_as H st2 Hins.
    pose proof (activate_due_tickets_keeps_times _ _ _ _ H) as Hkeep.
    destruct (IH _ _ H p Hp) as [Hin|Hdone]; [|right; exact Hdone].
    unfold __insert_into_runnable_Q in Hins.
    inv_bind_as Hins t2 Ht2. apply load_Done_inv in Ht2.
    inv_bind_as Hins q2 Hq2. injection Hins as <-. cbn in Hin.
    destruct (RB_INSERT_subset _ _ _ _ _ _ Hq2 p Hin) as [->|Hold].
    + right.
      assert (Het : earliest_start_time t2 = earliest_start_time t).
      { destruct (test_bit GSBIT_WAS_WAITING_FOR_EVENT (flags t)); cbn in Ht2.
        - rewrite lookup_insert_eq in Ht2. injection Ht2 as <-. reflexivity.
        - congruence. }
      destruct (Hkeep tkt t2) as (t' & Ht' & Heq).
      { cbn. exact Ht2. }
      exists t'. split; [exact Ht'|]. apply Z.leb_le in Hdue. lia.
    + left. destruct (test_bit GSBIT_WAS_WAITING_FOR_EVENT (flags t)); exact Hold.
Qed.


(** *** Ticket time update *)

Lemma MARGIN_eq : MARGIN = 10000.
Proof. reflexivity. Qed.

Lemma grain_eq g :
  0 < sched_ratelimit_us g < 2^31 ->
  GANG_FINEST_TIME_GRAIN g = grain_ns g /\ 0 < grain_ns g.
Proof.
  intros H. unfold GANG_FINEST_TIME_GRAIN, us_2_ns, grain_ns.
  rewrite s64_id by lia. lia.
Qed.

Lemma round_down_to_grain_floor g now :
  0 < sched_ratelimit_us g < 2^31 -> 0 <= now < 2^61 ->
  round_down_to_grain g now = Done (now / grain_ns g * grain_ns g).
Proof.
  intros Hg Hn. unfold round_down_to_grain.
  destruct (grain_eq g Hg) as [-> Hpos].
  destruct (grain_ns g =? 0) eqn:E; [lia|].
  rewrite Z.quot_div_nonneg by lia.
  pose proof (Z.div_pos now (grain_ns g) ltac:(lia) Hpos).
  pose proof (Z.mul_div_le now (grain_ns g) Hpos).
  pose proof (Z.div_le_upper_bound now (grain_ns g) now Hpos ltac:(nia)).
  rewrite (s64_id (now / grain_ns g)) by lia.
  rewrite s64_id by lia. reflexivity.
Qed.

(** The part of the update that the policy decides, against the
    specification's wording. *)
Lemma rearm_ticket_spec g now t :
  is_muxed (tm_muxing_spec (dom_info t)) = true ->
  - 10000 <= now - activated_at t ->
  times_in_range g now t ->
  let diff := if s64 (now - activated_at t) <? 0 then 0 else s64 (now - activated_at t) in
  rearm_ticket g now
    (set_times (earliest_start_time t) (deadline t) (s64 (remaining_time t - diff)) t)
  = Done (updated_ticket g now t).
Proof.
  intros Hm Hd (Hnow & Hg & Ha & Hr & He & Hdl & Hp). unfold small in *.
  cbv zeta. rewrite (s64_id (now - activated_at t)) by lia.
  assert (Hdiff : (if now - activated_at t <? 0 then 0 else now - activated_at t)
                  = Z.max 0 (now - activated_at t)).
  { destruct (now - activated_at t <? 0) eqn:E; lia. }
  rewrite Hdiff. rewrite s64_id by lia.
  unfold rearm_ticket, updated_ticket. simpl. rewrite MARGIN_eq.
  destruct (tm_muxing_spec (dom_info t)) as [|nm|ttp|etp|bep|]; try discriminate.
  - destruct (_ <? 10000); [|reflexivity].
    rewrite !s64_id by lia. reflexivity.
  - destruct (_ <? 10000); [|reflexivity].
    rewrite round_down_to_grain_floor by assumption. simpl.
    rewrite !s64_id by lia. reflexivity.
  - destruct (_ <? 10000); [|reflexivity].
    rewrite round_down_to_grain_floor by assumption. simpl.
    destruct Hp as (Hc & n & Hn & Hsmall).
    unfold read_be_doms_in_cohort. destruct (cohort (dom_info t) <? 0) eqn:E; [lia|].
    rewrite Hn. simpl. unfold small in Hsmall.
    rewrite (s64_id (n * __period_4_be_doms g)) by lia.
    rewrite s64_id by lia. reflexivity.
Qed.

(** The checks at the head of [__update_times_in_ticket] pass. *)
Lemma update_times_prelude g tkt now st t :
  tickets st !! tkt = Some t ->
  __search_in_runnable_Q st (domain_id (dom_info t)) = Done None ->
  (forall v, vcpu t = Some v -> is_idle_vcpu v = false) ->
  VALIDATE_GANG_SCHED_POLICY_TYPE (type (tm_muxing_spec (dom_info t))) = true ->
  __update_times_in_ticket g tkt now NORMAL_SCHEDULING st
  = if is_no_muxing (tm_muxing_spec (dom_info t)) then
      __insert_into_activation_Q tkt st
    else
      let diff := s64 (now - activated_at t) in
      if diff <? MIN_NEGATIVE_DIFF then Crash BUG
      else
        let diff := if diff <? 0 then 0 else diff in
        t2 ← rearm_ticket g now
               (set_times (earliest_start_time t) (deadline t)
                          (s64 (remaining_time t - diff)) t);
        __insert_into_activation_Q tkt (store tkt t2 st).
Proof.
  intros Hl Hs Hv Hty. unfold __update_times_in_ticket.
  rewrite (load_Some _ _ _ Hl). simpl. rewrite Hs. simpl.
  assert (Hvc : match vcpu t with Some v => BUG_ON (is_idle_vcpu v) | None => Done tt end
                = Done tt).
  { destruct (vcpu t) as [v|]; [rewrite (Hv v eq_refl)|]; reflexivity. }
  rewrite Hvc. simpl. rewrite Hty. reflexivity.
Qed.

(** C6.  A ticket updated by [__update_times_in_ticket] in the
    normal-scheduling path at [now], when neither queue holds a ticket
    of its domain: an exclusive ticket goes to the activation queue
    untouched; for a multiplexed ticket an update with
    [now - activated_at] below -10 us is rejected ([BUG]); otherwise
    [remaining_time] decreases by [max(0, now - activated_at)], the
    ticket is re-armed per policy when the result is below the 10 us
    margin ([updated_ticket]), stored, and inserted into the activation
    queue.  In both cases the ticket is in the activation queue
    afterwards, with the tickets that were there, and nothing else
    has changed. *)
Theorem ticket_time_update g tkt now st t :
  tickets st !! tkt = Some t ->
  __search_in_runnable_Q st (domain_id (dom_info t)) = Done None ->
  __search_in_activation_Q st (domain_id (dom_info t)) = Done None ->
  (forall v, vcpu t = Some v -> is_idle_vcpu v = false) ->
  (is_no_muxing (tm_muxing_spec (dom_info t)) = true ->
   exists q',
     RB_INSERT __cmp_tckt_rel_times st tkt t (activation_Q (local_sched st)) = Done q' /\
     __update_times_in_ticket g tkt now NORMAL_SCHEDULING st
     = Done (set_activation_Q q' st) /\
     q' ≡ₚ tkt :: activation_Q (local_sched st)) /\
  (is_muxed (tm_muxing_spec (dom_info t)) = true ->
   0 <= now < 2^61 -> small (activated_at t) ->
   now - activated_at t < - 10000 ->
   __update_times_in_ticket g tkt now NORMAL_SCHEDULING st = Crash BUG) /\
  (is_muxed (tm_muxing_spec (dom_info t)) = true ->
   times_in_range g now t ->
   - 10000 <= now - activated_at t ->
   exists q',
     RB_INSERT __cmp_tckt_rel_times (store tkt (updated_ticket g now t) st) tkt
       (updated_ticket g now t) (activation_Q (local_sched st)) = Done q' /\
     __update_times_in_ticket g tkt now NORMAL_SCHEDULING st
     = Done (set_activation_Q q' (store tkt (updated_ticket g now t) st)) /\
     q' ≡ₚ tkt :: activation_Q (local_sched st)).
Proof.
  intros Hl Hs Ha Hv. repeat split.
  - intros Hn. rewrite (update_times_prelude g tkt now st t); auto.
    + rewrite Hn.
      destruct (insert_into_activation_Q_spec tkt t st Hl Ha)
        as (q' & Hq' & Hins & Hperm & _).
      exists q'. repeat split; assumption.
    + destruct (tm_muxing_spec (dom_info t)); try discriminate; reflexivity.
  - intros Hm Hnow Hact Hlt. unfold small in Hact.
    rewrite (update_times_prelude g tkt now st t); auto.
    + destruct (tm_muxing_spec (dom_info t)); try discriminate; simpl;
        rewrite s64_id by lia; unfold MIN_NEGATIVE_DIFF;
        destruct (now - activated_at t <? -10000) eqn:E; try lia; reflexivity.
    + destruct (tm_muxing_spec (dom_info t)); try discriminate; reflexivity.
  - intros Hm Hr Hge.
    rewrite (update_times_prelude g tkt now st t); auto.
    + assert (Hnm : is_no_muxing (tm_muxing_spec (dom_info t)) = false).
      { destruct (tm_muxing_spec (dom_info t)); try discriminate; reflexivity. }
      rewrite Hnm. cbv zeta.
      pose proof Hr as (Hnow & _ & Hact & _). unfold small in Hact.
      assert (Hge' : (s64 (now - activated_at t) <? MIN_NEGATIVE_DIFF) = false).
      { rewrite s64_id by lia. unfold MIN_NEGATIVE_DIFF. lia. }
      rewrite Hge'.
      pose proof (rearm_ticket_spec g now t Hm Hge Hr) as Hre. cbv zeta in Hre.
      rewrite Hre. simpl.
      assert (Hd : dom_info (updated_ticket g now t) = dom_info t).
      { unfold updated_ticket. cbv zeta.
        destruct (tm_muxing_spec (dom_info t)); try reflexivity;
          destruct (_ <? 10000); reflexivity. }
      destruct (insert_into_activation_Q_spec tkt (updated_ticket g now t)
                  (store tkt (updated_ticket g now t) st))
        as (q' & Hq' & Hins & Hperm & _).
      * cbn. apply lookup_insert_eq.
      * rewrite Hd. unfold __search_in_activation_Q in *. cbn.
        apply (search_by_domid_store _ _ _ _ _ _ Hl Hd Ha).
      * exists q'. split; [exact Hq'|]. split; [exact Hins | exact Hperm].
    + destruct (tm_muxing_spec (dom_info t)); try discriminate; reflexivity.
Qed.


(** *** The gang invariant *)

Lemma ofold_app {A S} (f : S -> A -> outcome S) l1 l2 s :
  ofold f (l1 ++ l2) s = (s' ← ofold f l1 s; ofold f l2 s').
Proof.
  revert s. induction l1 as [|a l1 IH]; intros s; simpl; [reflexivity|].
  destruct (f s a) as [s1|c]; simpl; [apply IH | reflexivity].
Qed.

Lemma intersects_false_iff a b :
  cpumask_intersects a b = false <-> N.land a b = 0%N.
Proof.
  unfold cpumask_intersects. destruct (N.eqb_spec (N.land a b) 0); simpl; split;
    congruence.
Qed.

Lemma land_zero_bits a b i :
  N.land a b = 0%N -> N.testbit a i = true -> N.testbit b i = false.
Proof.
  intros H Ha. assert (Hb : N.testbit (N.land a b) i = false)
    by (rewrite H; apply N.bits_0).
  rewrite N.land_spec, Ha in Hb. exact Hb.
Qed.

Lemma mask_within_disjoint m a b :
  mask_within m a -> N.land a b = 0%N -> N.land m b = 0%N.
Proof.
  intros Hw Hz. apply N.bits_inj. intros i. rewrite N.land_spec, N.bits_0.
  destruct (N.testbit m i) eqn:E; [|reflexivity].
  simpl. apply (land_zero_bits a b i Hz). auto.
Qed.

Lemma mask_within_or_l m a b : mask_within m a -> mask_within m (cpumask_or a b).
Proof.
  intros H i Hi. unfold cpumask_or. rewrite N.lor_spec, (H i Hi). reflexivity.
Qed.

Lemma mask_within_or_r a b : mask_within b (cpumask_or a b).
Proof.
  intros i Hi. unfold cpumask_or. rewrite N.lor_spec, Hi. apply orb_true_r.
Qed.

(** The installation loop writes the ticket to the slots of its mask,
    which were NULL, and leaves the others. *)
Lemma install_ticket_spec ticket mask n tbl tbl' :
  ofold (install_ticket_on_cpu ticket mask) (seq 0 n) tbl = Done tbl' ->
  length tbl' = length tbl /\
  forall i,
    ((i < n)%nat -> cpumask_test_cpu i mask = true ->
       tbl !! i = Some None /\ tbl' !! i = Some (Some ticket)) /\
    (((n <= i)%nat \/ cpumask_test_cpu i mask = false) -> tbl' !! i = tbl !! i).
Proof.
  revert tbl'. induction n as [|n IH]; intros tbl' H.
  - simpl in H. injection H as <-. split; [reflexivity|].
    intros i. split; [lia | reflexivity].
  - rewrite seq_S, ofold_app in H. simpl in H. inv_bind_as H tbl1 Htbl1.
    destruct (IH _ Htbl1) as [Hlen Hi]. clear IH Htbl1.
    inv_bind_as H tbl2 Hstep. injection H as <-. rename Hstep into H.
    unfold install_ticket_on_cpu in H.
    destruct (cpumask_test_cpu n mask) eqn:Hn.
    + destruct (tbl1 !! n) as [cur|] eqn:Hcur; [|discriminate].
      inv_bind_as H u Hbug. apply BUG_ON_Done_inv in Hbug.
      apply bool_decide_eq_false in Hbug.
      assert (cur = None) as -> by (destruct cur; [exfalso; apply Hbug; discriminate | reflexivity]).
      injection H as <-. rewrite length_insert. split; [exact Hlen|].
      intros i. split.
      * intros Hlt Hbit. destruct (decide (i = n)) as [->|Hne].
        -- split.
           ++ rewrite <- (proj2 (Hi n)) by (left; lia). exact Hcur.
           ++ apply list_lookup_insert_eq. apply lookup_lt_Some in Hcur. exact Hcur.
        -- rewrite list_lookup_insert_ne by congruence.
           apply (proj1 (Hi i)); [lia | exact Hbit].
      * intros Hor. destruct (decide (i = n)) as [->|Hne].
        -- destruct Hor as [Hor|Hor]; [lia | congruence].
        -- rewrite list_lookup_insert_ne by congruence.
           apply (proj2 (Hi i)). destruct Hor; [left; lia | right; assumption].
    + injection H as <-. split; [exact Hlen|].
      intros i. split.
      * intros Hlt Hbit. destruct (decide (i = n)) as [->|Hne]; [congruence|].
        apply (proj1 (Hi i)); [lia | exact Hbit].
      * intros Hor. destruct (decide (i = n)) as [->|Hne].
        -- apply (proj2 (Hi n)). left. lia.
        -- apply (proj2 (Hi i)). destruct Hor; [left; lia | right; assumption].
Qed.

Lemma gang_inv_empty assigned tks :
  gang_inv NR_CPUS assigned tks (replicate NR_CPUS None).
Proof.
  split; [apply length_replicate|]. split.
  - intros c p H. apply lookup_replicate in H. destruct H; discriminate.
  - intros c1 c2 p1 p2 t1 t2 H. apply lookup_replicate in H. destruct H; discriminate.
Qed.

(** Writing a ticket without changing its domain keeps the invariant. *)
Lemma gang_inv_store assigned tks tbl p t t' :
  tks !! p = Some t -> dom_info t' = dom_info t ->
  gang_inv NR_CPUS assigned tks tbl -> gang_inv NR_CPUS assigned (<[p := t']> tks) tbl.
Proof.
  intros Hp Hd (Hlen & Hin & Hdis). split; [exact Hlen|]. split.
  - intros c q Hq. destruct (Hin c q Hq) as (tq & Htq & Hrest).
    destruct (decide (p = q)) as [<-|Hne].
    + exists t'. rewrite lookup_insert_eq. split; [reflexivity|].
      rewrite Hd. assert (tq = t) as -> by congruence. exact Hrest.
    + exists tq. rewrite lookup_insert_ne by exact Hne. auto.
  - intros c1 c2 p1 p2 t1 t2 H1 H2 Hne Ht1 Ht2.
    assert (Hold : forall q tq, <[p := t']> tks !! q = Some tq ->
                     exists tq0, tks !! q = Some tq0 /\ dom_info tq = dom_info tq0).
    { intros q tq Hq. destruct (decide (p = q)) as [<-|Hpq].
      - rewrite lookup_insert_eq in Hq. injection Hq as <-. eauto.
      - rewrite lookup_insert_ne in Hq by exact Hpq. eauto. }
    destruct (Hold _ _ Ht1) as (u1 & Hu1 & ->).
    destruct (Hold _ _ Ht2) as (u2 & Hu2 & ->).
    exact (Hdis c1 c2 p1 p2 u1 u2 H1 H2 Hne Hu1 Hu2).
Qed.

(** One round of the decision loop keeps the invariant. *)
Lemma schedule_ticket_inv now ticket lv st lv' st' :
  gang_inv NR_CPUS (assigned_cpus lv) (tickets st) (cur_ticket_per_cpu (local_sched st)) ->
  schedule_ticket NR_CPUS now ticket lv st = Done (lv', st') ->
  gang_inv NR_CPUS (assigned_cpus lv') (tickets st') (cur_ticket_per_cpu (local_sched st')).
Proof.
  intros Hinv H. unfold schedule_ticket in H. inv_bind H. rename a into t.
  apply load_Done_inv in Ha. rename Ha into Hload.
  destruct (cpumask_intersects (assigned_cpus lv) (cpumask (dom_info t))) eqn:Hint;
    simpl in H.
  - (* overlap: only the activation queue changes *)
    inv_bind H. inv_bind H. injection H as <- <-. simpl.
    unfold __insert_into_activation_Q in Ha0. inv_bind Ha0. inv_bind Ha0.
    injection Ha0 as <-. exact Hinv.
  - (* no overlap: the ticket is installed *)
    apply intersects_false_iff in Hint.
    inv_bind H. rename a into tbl'. inv_bind H. injection H as <- <-. simpl.
    destruct Hinv as (Hlen & Hin & Hdis).
    destruct (install_ticket_spec _ _ _ _ _ Ha) as [Hlen' Hslots].
    apply gang_inv_store with (t := t); [exact Hload | reflexivity |].
    split; [congruence|]. split.
    + intros c p Hc.
      assert (Hcl : (c < NR_CPUS)%nat)
        by (apply lookup_lt_Some in Hc; lia).
      destruct (cpumask_test_cpu c (cpumask (dom_info t))) eqn:Hbit.
      * destruct (proj1 (Hslots c) Hcl Hbit) as [_ Hnew].
        assert (p = ticket) as -> by congruence.
        exists t. split; [exact Hload|]. split; [exact Hbit|].
        split; [apply mask_within_or_r|].
        intros c' Hc' Hbit'. apply (proj1 (Hslots c') Hc' Hbit').
      * rewrite (proj2 (Hslots c)) in Hc by (right; exact Hbit).
        destruct (Hin c p Hc) as (tp & Htp & Hbp & Hwp & Hall).
        exists tp. split; [exact Htp|]. split; [exact Hbp|].
        split; [apply mask_within_or_l; exact Hwp|].
        intros c' Hc' Hbit'. specialize (Hall c' Hc' Hbit').
        destruct (cpumask_test_cpu c' (cpumask (dom_info t))) eqn:Hbt.
        -- destruct (proj1 (Hslots c') Hc' Hbt) as [Hnull _]. congruence.
        -- rewrite (proj2 (Hslots c')) by (right; exact Hbt). exact Hall.
    + intros c1 c2 p1 p2 t1 t2 H1 H2 Hne Ht1 Ht2.
      assert (Hc1 : (c1 < NR_CPUS)%nat) by (apply lookup_lt_Some in H1; lia).
      assert (Hc2 : (c2 < NR_CPUS)%nat) by (apply lookup_lt_Some in H2; lia).
      destruct (cpumask_test_cpu c1 (cpumask (dom_info t))) eqn:Hb1;
        destruct (cpumask_test_cpu c2 (cpumask (dom_info t))) eqn:Hb2.
      * destruct (proj1 (Hslots c1) Hc1 Hb1) as [_ Hn1].
        destruct (proj1 (Hslots c2) Hc2 Hb2) as [_ Hn2]. congruence.
      * destruct (proj1 (Hslots c1) Hc1 Hb1) as [_ Hn1].
        assert (p1 = ticket) by congruence. subst p1.
        assert (t1 = t) by congruence. subst t1.
        rewrite (proj2 (Hslots c2)) in H2 by (right; exact Hb2).
        destruct (Hin c2 p2 H2) as (tp & Htp & _ & Hwp & _).
        assert (t2 = tp) by congruence. subst t2.
        rewrite N.land_comm. apply (mask_within_disjoint _ _ _ Hwp Hint).
      * destruct (proj1 (Hslots c2) Hc2 Hb2) as [_ Hn2].
        assert (p2 = ticket) by congruence. subst p2.
        assert (t2 = t) by congruence. subst t2.
        rewrite (proj2 (Hslots c1)) in H1 by (right; exact Hb1).
        destruct (Hin c1 p1 H1) as (tp & Htp & _ & Hwp & _).
        assert (t1 = tp) by congruence. subst t1.
        apply (mask_within_disjoint _ _ _ Hwp Hint).
      * rewrite (proj2 (Hslots c1)) in H1 by (right; exact Hb1).
        rewrite (proj2 (Hslots c2)) in H2 by (right; exact Hb2).
        exact (Hdis c1 c2 p1 p2 t1 t2 H1 H2 Hne Ht1 Ht2).
Qed.

Lemma schedule_loop_inv g cpu_id now rq lv st lv' st' :
  gang_inv NR_CPUS (assigned_cpus lv) (tickets st) (cur_ticket_per_cpu (local_sched st)) ->
  schedule_loop NR_CPUS g cpu_id now rq lv st = Done (lv', st') ->
  gang_inv NR_CPUS (assigned_cpus lv') (tickets st') (cur_ticket_per_cpu (local_sched st')).
Proof.
  revert lv st. induction rq as [|ticket rq IH]; intros lv st Hinv H; simpl in H.
  - injection H as <- <-. exact Hinv.
  - inv_bind H. unfold __remove_from_runnable_Q in Ha. inv_bind Ha.
    injection Ha as <-. inv_bind H. destruct a as [lv1 st1].
    apply schedule_ticket_inv in Ha; [|exact Hinv].
    inv_bind H. destruct (cpumask_equal (assigned_cpus lv1) a).
    + injection H as <- <-. exact Ha.
    + exact (IH _ _ Ha H).
Qed.


Lemma activate_due_tickets_table now aq st st' :
  activate_due_tickets now aq st = Done st' ->
  cur_ticket_per_cpu (local_sched st') = cur_ticket_per_cpu (local_sched st).
Proof.
  revert st. induction aq as [|tkt aq IH]; intros st H; simpl in H.
  - injection H as <-. reflexivity.
  - inv_bind_as H t Ht. destruct (earliest_start_time t <=? now).
    + inv_bind_as H st1 Hrm. unfold __remove_from_activation_Q in Hrm.
      inv_bind_as Hrm u Hu. injection Hrm as <-.
      inv_bind_as H st2 Hins. unfold __insert_into_runnable_Q in Hins.
      inv_bind_as Hins t2 Ht2. inv_bind_as Hins q Hq. injection Hins as <-.
      rewrite (IH _ H). simpl.
      destruct (test_bit GSBIT_WAS_WAITING_FOR_EVENT (flags t)); reflexivity.
    + injection H as <-. reflexivity.
Qed.

(** [__update_sched_info] leaves the current-ticket table all NULL. *)
Lemma update_sched_info_table g now st earliest_actv st' :
  __update_sched_info NR_CPUS g now st = Done (earliest_actv, st') ->
  cur_ticket_per_cpu (local_sched st') = replicate NR_CPUS None.
Proof.
  unfold __update_sched_info. intros H. inv_bind_as H st1 Hcur.
  assert (Htbl : cur_ticket_per_cpu (local_sched st1) = replicate NR_CPUS None).
  { unfold __update_current_tickets in Hcur. inv_bind_as Hcur acc Hacc.
    destruct acc as [checked st0]. injection Hcur as <-. reflexivity. }
  destruct (now =? INFINITY).
  - injection H as _ <-. exact Htbl.
  - inv_bind_as H st2 Hact. apply activate_due_tickets_table in Hact.
    destruct (__head_of_activation_Q st2).
    + inv_bind_as H th Hth. injection H as _ <-. congruence.
    + injection H as _ <-. congruence.
Qed.

(** Guest yield handling writes flags of the current VCPU's ticket
    only. *)
Lemma handle_guest_sched_commands_inv assigned current ticket st ticket' st' :
  handle_guest_sched_commands current ticket st = Done (ticket', st') ->
  gang_inv NR_CPUS assigned (tickets st) (cur_ticket_per_cpu (local_sched st)) ->
  gang_inv NR_CPUS assigned (tickets st') (cur_ticket_per_cpu (local_sched st')).
Proof.
  unfold handle_guest_sched_commands. intros H Hinv.
  destruct (negb (is_idle_vcpu current)); [|injection H as _ <-; exact Hinv].
  destruct (sched_priv current) as [cur_tkt|]; [|discriminate].
  inv_bind_as H ct Hct. apply load_Done_inv in Hct.
  inv_bind_as H r Hr. destruct r as [tk1 st1].
  inv_bind_as H ct1 Hct1. apply load_Done_inv in Hct1.
  injection H as _ <-. simpl.
  assert (Hinv1 : gang_inv NR_CPUS assigned (tickets st1) (cur_ticket_per_cpu (local_sched st1))).
  { destruct (bool_decide (ticket = Some cur_tkt));
      [destruct (negb (is_no_muxing (tm_muxing_spec (dom_info ct))) &&
                 test_bit GSBIT_SINGLE_VCPU_YIELD (flags ct))|];
      injection Hr as _ <-; try exact Hinv.
    simpl. apply gang_inv_store with (t := ct); [exact Hct | reflexivity | exact Hinv]. }
  apply gang_inv_store with (t := ct1); [exact Hct1 | reflexivity | exact Hinv1].
Qed.

(** C1.  When a schedule decision on a pool with domains returns,
    every ticket it has installed in the current-ticket table is
    allocated and sits in the slot of every CPU (below [NR_CPUS]) of
    its domain's CPU mask, and the CPU masks of two different tickets
    of the table do not intersect.  (The table was cleared at the start
    of the decision: its tickets are those selected in this step.) *)
Theorem gang_invariant g cpu_id current now tasklet_work_scheduled st ret st' :
  num_of_cohorts g <> 0 ->
  gang_do_schedule NR_CPUS g cpu_id current now tasklet_work_scheduled st
    = Done (ret, st') ->
  (forall c p, current_ticket st' c = Some p ->
     exists m, ticket_mask st' p = Some m /\
       cpumask_test_cpu c m = true /\
       forall c', (c' < NR_CPUS)%nat -> cpumask_test_cpu c' m = true ->
                  current_ticket st' c' = Some p) /\
  (forall c1 c2 p1 p2 m1 m2,
     current_ticket st' c1 = Some p1 -> current_ticket st' c2 = Some p2 ->
     p1 <> p2 ->
     ticket_mask st' p1 = Some m1 -> ticket_mask st' p2 = Some m2 ->
     cpumask_intersects m1 m2 = false).
Proof.
  intros Hcoh H.
  assert (Hinv : exists assigned,
             gang_inv NR_CPUS assigned (tickets st') (cur_ticket_per_cpu (local_sched st'))).
  { unfold gang_do_schedule in H.
    destruct (num_of_cohorts g =? 0) eqn:E; [lia|]. simpl in H.
    destruct (num_of_muxgroups g =? 0) eqn:E2; simpl in H; [discriminate|].
    inv_bind_as H r Hupd. destruct r as [earliest_actv st1].
    pose proof (update_sched_info_table _ _ _ _ _ Hupd) as Htbl.
    destruct tasklet_work_scheduled.
    - rewrite exit_idle_no_limit in H. injection H as _ <-.
      exists cpumask_clear. rewrite Htbl. apply gang_inv_empty.
    - inv_bind_as H r Hloop. destruct r as [lv st2].
      apply schedule_loop_inv in Hloop; [|rewrite Htbl; apply gang_inv_empty].
      inv_bind_as H u Hu. inv_bind_as H ticket Hticket.
      inv_bind_as H eots Heots. inv_bind_as H r Hyield. destruct r as [ticket' st3].
      apply handle_guest_sched_commands_inv with (assigned := assigned_cpus lv) in Hyield;
        [|exact Hloop].
      unfold exit_gang_do_schedule in H. inv_bind_as H tsk Htsk.
      injection H as _ <-. eauto. }
  destruct Hinv as (assigned & Hlen & Hin & Hdis).
  unfold current_ticket, ticket_mask. split.
  - intros c p Hc.
    destruct (cur_ticket_per_cpu (local_sched st') !! c) as [[q|]|] eqn:Hq;
      try discriminate. simpl in Hc. injection Hc as ->.
    destruct (Hin c p Hq) as (t & Ht & Hbit & _ & Hall).
    exists (cpumask (dom_info t)). rewrite Ht. split; [reflexivity|].
    split; [exact Hbit|]. intros c' Hc' Hbit'. rewrite (Hall c' Hc' Hbit'). reflexivity.
  - intros c1 c2 p1 p2 m1 m2 H1 H2 Hne Hm1 Hm2.
    destruct (cur_ticket_per_cpu (local_sched st') !! c1) as [[q1|]|] eqn:Hq1;
      try discriminate. simpl in H1. injection H1 as ->.
    destruct (cur_ticket_per_cpu (local_sched st') !! c2) as [[q2|]|] eqn:Hq2;
      try discriminate. simpl in H2. injection H2 as ->.
    destruct (tickets st' !! p1) as [t1|] eqn:Ht1; [|discriminate].
    destruct (tickets st' !! p2) as [t2|] eqn:Ht2; [|discriminate].
    simpl in Hm1, Hm2. injection Hm1 as <-. injection Hm2 as <-.
    apply intersects_false_iff. exact (Hdis c1 c2 p1 p2 t1 t2 Hq1 Hq2 Hne Ht1 Ht2).
Qed.

End ScheduleFacts.

Lemma tasklet_goes_idle_without_limit_witness :
  exists ret st',
    gang_do_schedule 4 globals4 0 the_idle_vcpu (ms 1) true (cpu0_state (ms 10) (ms 10))
      = Done (ret, st') /\
    task ret = idle_vcpu 0 /\ time ret = -1 /\ migrated ret = false.
Proof.
  destruct (gang_do_schedule 4 globals4 0 the_idle_vcpu (ms 1) true
              (cpu0_state (ms 10) (ms 10))) as [[ret st']|c] eqn:E;
    [|vm_compute in E; discriminate].
  exists ret, st'. split; [reflexivity|].
  exact (tasklet_goes_idle_without_limit 4 _ _ _ _ _ _ _ E).
Defined.

(** C7 as stated fails: with the head of the activation queue due at
    10 ms and the tasklet hint set at 1 ms, the slice returned is -1
    (no limit), not the 9 ms up to [earliest_actv]. *)
Lemma tasklet_slice_ignores_earliest_actv :
  (fst <$> match __update_sched_info 4 globals4 (ms 1) (cpu0_state (ms 10) (ms 10)) with
           | Done r => Some r | Crash _ => None end) = Some (ms 10) /\
  (time ∘ fst <$> match gang_do_schedule 4 globals4 0 the_idle_vcpu (ms 1) true
                          (cpu0_state (ms 10) (ms 10)) with
                  | Done r => Some r | Crash _ => None end) = Some (-1) /\
  -1 <> ms 10 - ms 1.
Proof. split; [|split]; [vm_compute; reflexivity .. | discriminate]. Qed.

Lemma overlapping_ticket_is_deferred_witness :
  exists q',
    RB_INSERT __cmp_tckt_rel_times state_dom2_popped 20%nat (ticket_of None dom2_info 0)
      (activation_Q (local_sched state_dom2_popped)) = Done q' /\
    schedule_ticket 4 (ms 1) 20%nat lv_after_dom1 state_dom2_popped
    = Done ({| assigned_cpus := assigned_cpus lv_after_dom1;
               end_of_time_slice :=
                 Z.min (end_of_time_slice lv_after_dom1)
                       (deferral_tval (ms 1) (ticket_of None dom2_info 0));
               __num_of_runnable_domains := __num_of_runnable_domains lv_after_dom1 + 1;
               __non_muxed_domain_present := __non_muxed_domain_present lv_after_dom1 |},
            set_activation_Q q' state_dom2_popped) /\
    q' ≡ₚ 20%nat :: activation_Q (local_sched state_dom2_popped) /\
    tickets (set_activation_Q q' state_dom2_popped) !! 20%nat
    = Some (ticket_of None dom2_info 0) /\
    exists hd th,
      __head_of_activation_Q (set_activation_Q q' state_dom2_popped) = Some hd /\
      tickets (set_activation_Q q' state_dom2_popped) !! hd = Some th /\
      earliest_start_time th <= ms 1.
Proof.
  apply (overlapping_ticket_is_deferred 4 (ms 1) 20%nat lv_after_dom1 state_dom2_popped).
  - reflexivity.
  - reflexivity.
  - vm_compute. reflexivity.
  - vm_compute. discriminate.
  - reflexivity.
Defined.

(** C3 as stated fails.  At 49.5 ms the ticket of domain 2 (deadline
    100 ms, 50 ms remaining, [earliest_start_time] 0) overlaps domain 1:
    it returns to the activation queue with its [earliest_start_time]
    still 0, not in the future, and the computed [tval] is 50 ms, not
    [max (deadline - remaining_time, now + 1 ms)] = 50.5 ms. *)
Lemma deferred_ticket_not_retimed :
  match schedule_ticket 4 49500000 20%nat lv_after_dom1 state_dom2_popped with
  | Done (lv', st') =>
      activation_Q (local_sched st') = [20%nat] /\
      (earliest_start_time <$> tickets st' !! 20%nat) = Some 0 /\
      0 <= 49500000 /\
      end_of_time_slice lv' = ms 50 /\
      ms 50 <> Z.max (ms 100 - ms 50) (49500000 + ms 1)
  | Crash _ => False
  end.
Proof. vm_compute. repeat split; discriminate. Qed.

Lemma ticket_time_update_witness :
  (exists q',
     RB_INSERT __cmp_tckt_rel_times
       (store 10%nat
          (updated_ticket globals4 (ms 51)
             (set_activated_at (ms 1) (ticket_of (Some vcpu_dom1) dom1_info 0)))
          state_dom1_running) 10%nat
       (updated_ticket globals4 (ms 51)
          (set_activated_at (ms 1) (ticket_of (Some vcpu_dom1) dom1_info 0)))
       (activation_Q (local_sched state_dom1_running)) = Done q' /\
     __update_times_in_ticket globals4 10%nat (ms 51) NORMAL_SCHEDULING state_dom1_running
     = Done (set_activation_Q q'
               (store 10%nat
                  (updated_ticket globals4 (ms 51)
                     (set_activated_at (ms 1) (ticket_of (Some vcpu_dom1) dom1_info 0)))
                  state_dom1_running)) /\
     q' ≡ₚ 10%nat :: activation_Q (local_sched state_dom1_running)) /\
  updated_ticket globals4 (ms 51)
    (set_activated_at (ms 1) (ticket_of (Some vcpu_dom1) dom1_info 0))
  = set_times (ms 100) (ms 200) (ms 50)
      (set_activated_at (ms 1) (ticket_of (Some vcpu_dom1) dom1_info 0)).
Proof.
  split; [|reflexivity].
  destruct (ticket_time_update globals4 10%nat (ms 51) state_dom1_running
              (set_activated_at (ms 1) (ticket_of (Some vcpu_dom1) dom1_info 0)))
    as (_ & _ & Hupd).
  - reflexivity.
  - reflexivity.
  - reflexivity.
  - intros v Hv. injection Hv as <-. reflexivity.
  - apply Hupd.
    + reflexivity.
    + unfold times_in_range, small. vm_compute. repeat split; intros; discriminate.
    + vm_compute. discriminate.
Defined.

Lemma gang_invariant_witness :
  exists ret st',
    gang_do_schedule 4 globals4 0 the_idle_vcpu (ms 1) false (cpu0_state 0 0)
      = Done (ret, st') /\
    ((forall c p, current_ticket st' c = Some p ->
        exists m, ticket_mask st' p = Some m /\
          cpumask_test_cpu c m = true /\
          forall c', (c' < 4)%nat -> cpumask_test_cpu c' m = true ->
                     current_ticket st' c' = Some p) /\
     (forall c1 c2 p1 p2 m1 m2,
        current_ticket st' c1 = Some p1 -> current_ticket st' c2 = Some p2 ->
        p1 <> p2 ->
        ticket_mask st' p1 = Some m1 -> ticket_mask st' p2 = Some m2 ->
        cpumask_intersects m1 m2 = false)) /\
    current_ticket st' 0 = Some 10%nat /\ current_ticket st' 1 = Some 10%nat /\
    current_ticket st' 2 = None.
Proof.
  destruct (gang_do_schedule 4 globals4 0 the_idle_vcpu (ms 1) false (cpu0_state 0 0))
    as [[ret st']|c] eqn:E; [|vm_compute in E; discriminate].
  exists ret, st'. split; [reflexivity|].
  split; [exact (gang_invariant 4 globals4 0 the_idle_vcpu (ms 1) false _ ret st'
                   ltac:(discriminate) E)|].
  vm_compute in E. injection E as <- <-. repeat split.
Defined.

(** ** Cohorts *)

Section CohortFacts.

Local Open Scope nat_scope.
Import Cohorts.

Variable NR_CPUS : nat.

(** *** Bit masks *)


Lemma intersects_true_bit a b :
  cpumask_intersects a b = true ->
  exists i, N.testbit a i = true /\ N.testbit b i = true.
Proof.
  unfold cpumask_intersects. intros H. apply negb_true_iff, N.eqb_neq in H.
  exists (N.log2 (N.land a b)).
  pose proof (N.bit_log2 (N.land a b) H) as Hb.
  rewrite N.land_spec in Hb. apply andb_true_iff in Hb. exact Hb.
Qed.












(** *** The loops of [__update_cohorts] *)














(** *** Counting cohorts *)











End CohortFacts.



(** ** The schedulability test *)

Section SchedTestFacts.
Import SchedTest ToolValidate.

Lemma s32_le z : 0 <= z -> s32 z <= z.
Proof.
  intros Hz. unfold s32. pose proof (Z.mod_le (z + 2^31) (2^32)). lia.
Qed.

(** A loop over the indices of [di->cpus] is a loop over the CPU ids
    stored there. *)
Lemma ofold_over_cpus {S} (di : gs_dominfo_t) (f : S -> nat -> outcome S)
    (g : S -> Z -> outcome S) :
  (forall s c x, cpus di !! c = Some x -> f s c = g s x) ->
  forall l pre s, cpus di = pre ++ l ->
    ofold f (seq (length pre) (length l)) s = ofold g l s.
Proof.
  intros Hfg l. induction l as [|x l IH]; intros pre s Heq; [reflexivity|].
  cbn [length seq ofold]. rewrite (Hfg s (length pre) x).
  - destruct (g s x) as [s'|e]; simpl; [|reflexivity].
    replace (Datatypes.S (length pre)) with (length (pre ++ [x])).
    + apply IH. rewrite <- app_assoc. exact Heq.
    + rewrite length_app. simpl. lia.
  - rewrite Heq. rewrite lookup_app_r by lia.
    replace (length pre - length pre)%nat with 0%nat by lia. reflexivity.
Qed.

Lemma ofold_cpu_indices {S} (di : gs_dominfo_t) (f : S -> nat -> outcome S)
    (g : S -> Z -> outcome S) s :
  Z.to_nat (num_of_cpus di) = length (cpus di) ->
  (forall s c x, cpus di !! c = Some x -> f s c = g s x) ->
  ofold f (cpu_indices di) s = ofold g (cpus di) s.
Proof.
  intros Hn Hfg. unfold cpu_indices. rewrite Hn.
  apply (ofold_over_cpus di f g Hfg (cpus di) [] s). reflexivity.
Qed.

Lemma read_cpu_Some di c x : cpus di !! c = Some x -> read_cpu di c = Done x.
Proof. intros H. unfold read_cpu. rewrite H. reflexivity. Qed.

(** *** What a passed validation says *)

Lemma check_ids_inv cc ids : forall ok,
  ofold (fun (ok : bool) cpuid =>
           if ok then
             ASSERT (cpuid >=? 0);;
             ASSERT (cpuid <? s32 cc);;
             if (cpuid <? 0) || (s32 cc <=? cpuid) then Done false
             else Done true
           else Done false) ids ok = Done true ->
  ok = true /\ Forall (fun id => 0 <= id < s32 cc) ids.
Proof.
  induction ids as [|id ids IH]; intros ok H.
  - simpl in H. split; [congruence | constructor].
  - cbn [ofold] in H. destruct ok.
    + destruct (id >=? 0) eqn:H0; simpl in H; [|discriminate].
      destruct (id <? s32 cc) eqn:H1; simpl in H; [|discriminate].
      replace ((id <? 0) || (s32 cc <=? id)) with false in H by lia.
      simpl in H. apply IH in H. destruct H as [_ H].
      split; [reflexivity|]. constructor; [lia | exact H].
    + simpl in H. apply IH in H. destruct H as [H _]. discriminate.
Qed.

Lemma validate_cpu_ids_inv di cc :
  Z.to_nat (num_of_cpus di) = length (cpus di) ->
  validate_cpu_ids di cc = Done true ->
  Forall (fun id => 0 <= id < s32 cc) (cpus di).
Proof.
  intros Hn H. unfold validate_cpu_ids in H.
  erewrite ofold_cpu_indices in H; [apply check_ids_inv in H; apply H | exact Hn |].
  intros [] c x Hx; [|reflexivity]. rewrite (read_cpu_Some _ _ _ Hx). reflexivity.
Qed.

Lemma validate_dominfos_inv arr cc :
  Forall (fun di => Z.to_nat (num_of_cpus di) = length (cpus di)) arr ->
  __validate_dominfos arr cc = Done true ->
  Forall (fun di => num_of_cpus di <= s32 cc /\
                    Forall (fun id => 0 <= id < s32 cc) (cpus di) /\
                    __validate_muxing_policy (gang_sched_policy di) = true) arr.
Proof.
  induction 1 as [|di arr Hn Harr IH]; intros H; [constructor|].
  cbn [__validate_dominfos] in H.
  destruct (domid di <? 0); [discriminate|].
  destruct ((num_of_cpus di <? 0) || (s32 cc <? num_of_cpus di)) eqn:Hnum; [discriminate|].
  apply bind_Done_inv in H. destruct H as (ok & Hids & H).
  destruct ok; simpl in H; [|discriminate].
  destruct (__validate_muxing_policy (gang_sched_policy di)) eqn:Hpol; simpl in H;
    [|discriminate].
  constructor; [|apply IH; exact H].
  split; [lia|]. split; [|exact Hpol].
  apply validate_cpu_ids_inv; assumption.
Qed.

(** *** The CPU-to-domains map is filled without a failed assertion *)

Lemma cpu2dom_insert_fresh di cc m id :
  0 <= id < s32 cc ->
  domid di ∉ default (∅ : gset Z) (m !! id) ->
  cpu2dom_insert_id di cc m id
  = Done (<[id := {[ domid di ]} ∪ default ∅ (m !! id)]> m).
Proof.
  intros Hid Hfresh. unfold cpu2dom_insert_id.
  replace (id >=? 0) with true by lia. replace (id <? s32 cc) with true by lia.
  cbv zeta. rewrite (bool_decide_eq_true_2 _ Hfresh). reflexivity.
Qed.

Lemma cpu2dom_insert_ids di cc ids : forall m seen,
  cpu2dom_within m seen ->
  NoDup (seen ++ map (fun c => (c, domid di)) ids) ->
  Forall (fun id => 0 <= id < s32 cc) ids ->
  exists m', ofold (cpu2dom_insert_id di cc) ids m = Done m' /\
             cpu2dom_within m' (seen ++ map (fun c => (c, domid di)) ids).
Proof.
  induction ids as [|id ids IH]; intros m seen Hm Hnd Hids.
  - exists m. split; [reflexivity|]. simpl. rewrite app_nil_r. exact Hm.
  - inversion Hids as [|? ? Hid Hids']; subst.
    cbn [ofold]. simpl map in *.
    assert (Hfresh : domid di ∉ default (∅ : gset Z) (m !! id)).
    { intros Hin. apply Hm in Hin. apply NoDup_app in Hnd.
      destruct Hnd as (_ & Hsep & _). apply (Hsep _ Hin). left. }
    rewrite (cpu2dom_insert_fresh di cc m id) by (lia || exact Hfresh). simpl.
    replace (seen ++ (id, domid di) :: map (fun c => (c, domid di)) ids)
      with ((seen ++ [(id, domid di)]) ++ map (fun c => (c, domid di)) ids) in *
      by (rewrite <- app_assoc; reflexivity).
    apply IH; [|exact Hnd|exact Hids'].
    intros cpu d Hd. destruct (decide (cpu = id)) as [->|Hne].
    + rewrite lookup_insert_eq in Hd. simpl in Hd.
      apply elem_of_union in Hd. destruct Hd as [Hd|Hd].
      * apply elem_of_singleton in Hd. subst d. apply elem_of_app. right. left.
      * apply elem_of_app. left. apply Hm. exact Hd.
    + rewrite lookup_insert_ne in Hd by congruence.
      apply elem_of_app. left. apply Hm. exact Hd.
Qed.

Lemma populate_cpu2dom_from cc arr : forall m seen,
  cpu2dom_within m seen ->
  NoDup (seen ++ cpu_dom_pairs arr) ->
  Forall (fun di => 0 < num_of_cpus di /\
                    Z.to_nat (num_of_cpus di) = length (cpus di) /\
                    num_of_cpus di <= s32 cc /\
                    Forall (fun id => 0 <= id < s32 cc) (cpus di)) arr ->
  exists m',
    ofold (fun cpu2dom di =>
             ASSERT (num_of_cpus di >? 0);;
             ASSERT (num_of_cpus di <=? s32 cc);;
             ofold (cpu2dom_insert di cc) (cpu_indices di) cpu2dom) arr m = Done m'.
Proof.
  induction arr as [|di arr IH]; intros m seen Hm Hnd Harr.
  - exists m. reflexivity.
  - inversion Harr as [|? ? (Hpos & Hn & Hle & Hids) Harr']; subst.
    cbn [ofold]. replace (num_of_cpus di >? 0) with true by lia.
    replace (num_of_cpus di <=? s32 cc) with true by lia. simpl.
    unfold cpu_dom_pairs in Hnd. cbn [flat_map] in Hnd. rewrite app_assoc in Hnd.
    destruct (cpu2dom_insert_ids di cc (cpus di) m seen Hm) as (m1 & Hrun & Hm1).
    + apply NoDup_app in Hnd. apply Hnd.
    + exact Hids.
    + rewrite (ofold_cpu_indices di (cpu2dom_insert di cc) (cpu2dom_insert_id di cc) m Hn).
      * rewrite Hrun. simpl. apply (IH m1 _ Hm1 Hnd Harr').
      * intros s c x Hx. unfold cpu2dom_insert. rewrite (read_cpu_Some _ _ _ Hx).
        reflexivity.
Qed.

Lemma populate_cpu2dom_total arr cc :
  NoDup (cpu_dom_pairs arr) ->
  Forall (fun di => 0 < num_of_cpus di /\
                    Z.to_nat (num_of_cpus di) = length (cpus di) /\
                    num_of_cpus di <= s32 cc /\
                    Forall (fun id => 0 <= id < s32 cc) (cpus di)) arr ->
  exists m, __populate_cpu2dom arr cc = Done m.
Proof.
  intros Hnd Harr. unfold __populate_cpu2dom.
  apply (populate_cpu2dom_from cc arr _ []); [|exact Hnd|exact Harr].
  intros cpu d Hd. exfalso.
  destruct (list_to_map _ !! cpu) as [g|] eqn:Hg in Hd; simpl in Hd.
  - apply elem_of_list_to_map_2 in Hg. apply list_elem_of_In in Hg.
    apply in_map_iff in Hg. destruct Hg as (c & Hc & _).
    assert (g = ∅) as -> by congruence. apply elem_of_empty in Hd. exact Hd.
  - apply elem_of_empty in Hd. exact Hd.
Qed.

(** *** The utilisation vectors follow the per-CPU charge *)

Lemma vectors_hold_ext n v sp sp' :
  (forall c, 0 <= c < Z.of_nat n -> sp c = sp' c) ->
  vectors_hold n v sp -> vectors_hold n v sp'.
Proof.
  intros Hext (Hl1 & Hl2 & Hc). split; [exact Hl1|]. split; [exact Hl2|].
  intros c Hlt. rewrite <- Hext by lia. apply Hc. exact Hlt.
Qed.

Lemma existsb_eqb_false (c : Z) ids : c ∉ ids -> existsb (Z.eqb c) ids = false.
Proof.
  intros Hc. destruct (existsb (Z.eqb c) ids) eqn:He; [|reflexivity].
  apply existsb_exists in He. destruct He as (x & Hx & Heq).
  apply Z.eqb_eq in Heq. subst x. apply list_elem_of_In in Hx. contradiction.
Qed.

Lemma charge_cpu_id_spec di u n v sp id :
  vectors_hold n v sp -> 0 <= id < Z.of_nat n ->
  exists v1, charge_cpu_id di u v id = Done v1 /\
    vectors_hold n v1
      (fun c => if c =? id
                then charge_one (is_best_effort (gang_sched_policy di)) u (sp c)
                else sp c).
Proof.
  destruct v as [tot cons]. intros (Hl1 & Hl2 & Hc) Hid. simpl in Hl1, Hl2, Hc.
  unfold charge_cpu_id. replace (id <? 0) with false by lia. cbv zeta.
  destruct (Hc (Z.to_nat id)) as [Ht Hb]; [lia|].
  rewrite Z2Nat.id in Ht, Hb by lia. rewrite Ht, Hb.
  assert (Hother : forall c : nat, (c < n)%nat -> c <> Z.to_nat id ->
            (Z.of_nat c =? id) = false) by (intros; lia).
  unfold charge_one.
  destruct (is_best_effort (gang_sched_policy di)); [destruct (sp id).2 eqn:Hcons|];
    simpl; eexists; (split; [reflexivity|]);
    (split; [simpl; rewrite ?length_insert; assumption|]);
    (split; [simpl; rewrite ?length_insert; assumption|]);
    intros c Hlt; simpl;
    (destruct (decide (c = Z.to_nat id)) as [->|Hne];
     [ rewrite Z2Nat.id, Z.eqb_refl by lia;
       rewrite ?list_lookup_insert_eq by lia; simpl; rewrite ?Hcons; auto
     | rewrite (Hother c Hlt Hne);
       rewrite ?list_lookup_insert_ne by congruence; apply Hc; exact Hlt ]).
Qed.

Lemma charge_cpu_ids di u n ids : forall v sp,
  vectors_hold n v sp -> NoDup ids ->
  Forall (fun id => 0 <= id < Z.of_nat n) ids ->
  exists v', ofold (charge_cpu_id di u) ids v = Done v' /\
    vectors_hold n v'
      (fun c => if existsb (Z.eqb c) ids
                then charge_one (is_best_effort (gang_sched_policy di)) u (sp c)
                else sp c).
Proof.
  induction ids as [|id ids IH]; intros v sp Hv Hnd Hids.
  - exists v. split; [reflexivity|]. exact Hv.
  - inversion Hids as [|? ? Hid Hids']; subst.
    apply NoDup_cons in Hnd. destruct Hnd as [Hfresh Hnd].
    destruct (charge_cpu_id_spec di u n v sp id Hv Hid) as (v1 & Hstep & Hv1).
    destruct (IH v1 _ Hv1 Hnd Hids') as (v' & Hrun & Hv').
    exists v'. cbn [ofold]. rewrite Hstep. split; [exact Hrun|].
    revert Hv'. apply vectors_hold_ext. intros c Hc. cbn [existsb].
    destruct (c =? id) eqn:Heq.
    + apply Z.eqb_eq in Heq. subst c.
      rewrite (existsb_eqb_false _ _ Hfresh). reflexivity.
    + reflexivity.
Qed.

Lemma domain_util_valid be_reserve p :
  __validate_muxing_policy p = true ->
  domain_util (PrimFloat.div (double_of_Z be_reserve) dbl_100) p
  = Done (contribution be_reserve p).
Proof. destruct p; intros H; try discriminate H; reflexivity. Qed.

Lemma charge_domain_spec be_reserve cc v sp di :
  0 <= cc ->
  vectors_hold (Z.to_nat cc) v sp ->
  0 < num_of_cpus di ->
  Z.to_nat (num_of_cpus di) = length (cpus di) ->
  num_of_cpus di <= s32 cc ->
  Forall (fun id => 0 <= id < s32 cc) (cpus di) ->
  NoDup (cpus di) ->
  __validate_muxing_policy (gang_sched_policy di) = true ->
  dgt (contribution be_reserve (gang_sched_policy di)) dbl_0 = true ->
  dle (contribution be_reserve (gang_sched_policy di)) dbl_1 = true ->
  exists v',
    charge_domain (PrimFloat.div (double_of_Z be_reserve) dbl_100) cc v di = Done v' /\
    vectors_hold (Z.to_nat cc) v' (fun c => charge_spec be_reserve c (sp c) di).
Proof.
  intros Hcc Hv Hpos Hn Hle Hids Hnd Hpol Hgt Hle1. unfold charge_domain.
  replace (num_of_cpus di >? 0) with true by lia.
  replace (num_of_cpus di <=? s32 cc) with true by lia.
  rewrite (domain_util_valid _ _ Hpol). simpl. rewrite Hgt, Hle1. simpl.
  rewrite (ofold_cpu_indices di _ (charge_cpu_id di (contribution be_reserve
             (gang_sched_policy di))) v Hn).
  - apply charge_cpu_ids; [exact Hv | exact Hnd |].
    pose proof (s32_le cc Hcc). eapply Forall_impl; [exact Hids|].
    simpl. intros id Hid. lia.
  - intros s c x Hx. unfold charge_cpu. rewrite (read_cpu_Some _ _ _ Hx). reflexivity.
Qed.

Lemma charge_domains_spec be_reserve cc arr : forall v sp,
  0 <= cc ->
  vectors_hold (Z.to_nat cc) v sp ->
  Forall (fun di =>
            (0 < num_of_cpus di /\
             Z.to_nat (num_of_cpus di) = length (cpus di) /\
             dgt (contribution be_reserve (gang_sched_policy di)) dbl_0 = true /\
             dle (contribution be_reserve (gang_sched_policy di)) dbl_1 = true) /\
            NoDup (cpus di) /\
            num_of_cpus di <= s32 cc /\
            Forall (fun id => 0 <= id < s32 cc) (cpus di) /\
            __validate_muxing_policy (gang_sched_policy di) = true) arr ->
  exists v',
    ofold (charge_domain (PrimFloat.div (double_of_Z be_reserve) dbl_100) cc) arr v
    = Done v' /\
    vectors_hold (Z.to_nat cc) v'
      (fun c => fold_left (charge_spec be_reserve c) arr (sp c)).
Proof.
  induction arr as [|di arr IH]; intros v sp Hcc Hv Harr.
  - exists v. split; [reflexivity | exact Hv].
  - inversion Harr
      as [|? ? ((Hpos & Hn & Hgt & Hle1) & Hnd & Hle & Hids & Hpol) Harr']; subst.
    destruct (charge_domain_spec be_reserve cc v sp di) as (v1 & Hstep & Hv1);
      try assumption.
    destruct (IH v1 _ Hcc Hv1 Harr') as (v' & Hrun & Hv').
    exists v'. cbn [ofold fold_left]. rewrite Hstep. split; [exact Hrun | exact Hv'].
Qed.

(** No CPU id is listed twice in a domain when no (CPU, domain id)
    pair occurs twice. *)
Lemma cpu_dom_pairs_NoDup arr :
  NoDup (cpu_dom_pairs arr) -> Forall (fun di => NoDup (cpus di)) arr.
Proof.
  induction arr as [|di arr IH]; intros Hnd; [constructor|].
  unfold cpu_dom_pairs in Hnd. cbn [flat_map] in Hnd.
  apply NoDup_app in Hnd. destruct Hnd as (Hdi & _ & Hrest).
  constructor; [|apply IH; exact Hrest].
  apply (NoDup_fmap_1 (fun c => (c, domid di))). exact Hdi.
Qed.

Lemma overloaded_cpu_iff cc tot cons (sp : Z -> float * bool) :
  vectors_hold (Z.to_nat cc) (tot, cons) sp ->
  existsb (fun total => dgt total dbl_1) tot = false <->
  forall c, 0 <= c < cc -> dgt (sp c).1 dbl_1 = false.
Proof.
  intros (Hl1 & _ & Hc). simpl in Hl1, Hc. split.
  - intros Hex c Hrange. destruct (dgt (sp c).1 dbl_1) eqn:Hgt; [|reflexivity].
    rewrite <- Hex. symmetry. apply existsb_exists. exists (sp c).1.
    split; [|exact Hgt]. apply list_elem_of_In.
    destruct (Hc (Z.to_nat c)) as [Ht _]; [lia|].
    rewrite Z2Nat.id in Ht by lia. apply list_elem_of_lookup. eauto.
  - intros Hall. destruct (existsb _ tot) eqn:Hex; [|reflexivity].
    apply existsb_exists in Hex. destruct Hex as (x & Hx & Hgt).
    apply list_elem_of_In, list_elem_of_lookup in Hx. destruct Hx as [i Hi].
    pose proof (lookup_lt_Some _ _ _ Hi) as Hlt. rewrite Hl1 in Hlt.
    destruct (Hc i Hlt) as [Ht _]. rewrite Ht in Hi. injection Hi as <-.
    rewrite Hall in Hgt by lia. discriminate.
Qed.

(** C2.  With [be_reserve = 100] the test fails at once.  With
    [be_reserve < 100], for domain infos that pass the input validation
    and meet what the test asserts of them (at least one CPU per
    domain, no CPU listed twice for a domain id, a utilisation in
    (0, 1]), [are_schedulable] returns 0 (pass) or 1 (fail), and it
    returns 0 exactly when no CPU has a utilisation [U] above 1.0. *)
Theorem schedulability_test arr be_reserve be_basic_period cpu_count :
  0 < cpu_count -> be_basic_period <> 0 ->
  are_schedulable arr 100 be_basic_period cpu_count = Done 1 /\
  (0 <= be_reserve < 100 ->
   __validate_dominfos arr cpu_count = Done true ->
   assertions_hold arr be_reserve ->
   exists rc,
     are_schedulable arr be_reserve be_basic_period cpu_count = Done rc /\
     (rc = 0 \/ rc = 1) /\
     (rc = 0 <->
      forall c, 0 <= c < cpu_count -> dgt (U be_reserve arr c) dbl_1 = false)).
Proof.
  intros Hcc Hbbp. split.
  - unfold are_schedulable. replace (cpu_count <=? 0) with false by lia. reflexivity.
  - intros Hbr Hval [Hasrt Hnd].
    assert (Hlen : Forall (fun di => Z.to_nat (num_of_cpus di) = length (cpus di)) arr).
    { eapply Forall_impl; [exact Hasrt|]. simpl. intros di H. apply H. }
    pose proof (validate_dominfos_inv arr cpu_count Hlen Hval) as Hvalid.
    pose proof (cpu_dom_pairs_NoDup arr Hnd) as Hnodup.
    destruct (populate_cpu2dom_total arr cpu_count Hnd) as [m Hm].
    { rewrite Forall_forall in Hasrt, Hvalid. apply Forall_forall. intros di Hdi.
      specialize (Hasrt di Hdi). specialize (Hvalid di Hdi). tauto. }
    destruct (charge_domains_spec be_reserve cpu_count arr
                (replicate (Z.to_nat cpu_count) dbl_0,
                 replicate (Z.to_nat cpu_count) false)
                (fun _ => (dbl_0, false))) as ([tot cons] & Hrun & Hv).
    { lia. }
    { split; [apply length_replicate|]. split; [apply length_replicate|].
      intros c Hc. simpl. rewrite !lookup_replicate_2 by exact Hc. auto. }
    { rewrite Forall_forall in Hasrt, Hvalid, Hnodup. apply Forall_forall.
      intros di Hdi. specialize (Hasrt di Hdi). specialize (Hvalid di Hdi).
      specialize (Hnodup di Hdi). tauto. }
    unfold are_schedulable.
    replace (cpu_count <=? 0) with false by lia.
    replace (be_reserve =? 100) with false by lia.
    replace (be_reserve >? 100) with false by lia.
    replace (be_basic_period =? 0) with false by lia.
    rewrite Hval. simpl. rewrite Hm. simpl. rewrite Hrun. simpl.
    pose proof (overloaded_cpu_iff cpu_count tot cons _ Hv) as Hiff.
    unfold U. destruct (existsb _ tot).
    + exists 1. split; [reflexivity|]. split; [right; reflexivity|].
      split; [discriminate|]. intros H. apply Hiff in H. discriminate.
    + exists 0. split; [reflexivity|]. split; [left; reflexivity|].
      split; [|reflexivity]. intros _. apply Hiff. reflexivity.
Qed.

End SchedTestFacts.

(** The theorem at the overloaded pair of domains on two CPUs, with a
    best-effort reserve of 10 %. *)
Lemma schedulability_test_witness :
  SchedTest.are_schedulable overload_doms 100 100 2 = Done 1 /\
  exists rc,
    SchedTest.are_schedulable overload_doms 10 100 2 = Done rc /\
    (rc = 0 \/ rc = 1) /\
    (rc = 0 <->
     forall c, 0 <= c < 2 ->
       SchedTest.dgt (SchedTest.U 10 overload_doms c) SchedTest.dbl_1 = false).
Proof.
  destruct (schedulability_test overload_doms 10 100 2) as [H100 H]; [lia | lia |].
  split; [exact H100|]. apply H.
  - lia.
  - vm_compute. reflexivity.
  - split.
    + repeat constructor; vm_compute; reflexivity.
    + apply (bool_decide_unpack _). vm_compute. exact I.
Defined.

(** C2 as stated fails.  The validation lets a CPU id occur twice in a
    domain; the test then stops at the assertion on the CPU-to-domains
    map, although neither CPU is charged more than 1.0. *)
Lemma cpu_listed_twice_stops_test :
  SchedTest.__validate_dominfos [twice_on_cpu0] 2 = Done true /\
  SchedTest.dle (SchedTest.U 10 [twice_on_cpu0] 0) SchedTest.dbl_1 = true /\
  SchedTest.dle (SchedTest.U 10 [twice_on_cpu0] 1) SchedTest.dbl_1 = true /\
  SchedTest.are_schedulable [twice_on_cpu0] 10 100 2 = Crash ASSERT_FAILED.
Proof. vm_compute. repeat split. Qed.


(** ** The global adjustment *)

Section AdjustFacts.
Import Adjust.

Variable NR_CPUS : nat.
Variable GANG_SCHED_MAX_DOMAINS : nat.
Variable sched_ratelimit_us : Z.
Variable xenctl_bitmap_to_cpumask : call_site -> nat -> nat.
Variable di_parr_allocated : bool.

(** *** The overlay of the request *)

Lemma has_duplicate_domid_false p :
  has_duplicate_domid p = false -> NoDup (domid <$> p).
Proof.
  induction p as [|e p IH]; intros H; [constructor|].
  cbn [has_duplicate_domid] in H. apply orb_false_iff in H. destruct H as [He Hp].
  rewrite fmap_cons. apply NoDup_cons. split; [|apply IH; exact Hp].
  intros Hin. apply list_elem_of_fmap in Hin. destruct Hin as (j & Hj & Hin).
  assert (existsb (fun j => domid e =? domid j) p = true); [|congruence].
  apply existsb_exists. exists j. split; [apply list_elem_of_In; exact Hin | lia].
Qed.

Lemma named_entry_None p id :
  id ∉ domid <$> p -> named_entry p id = None.
Proof.
  intros Hid. unfold named_entry. destruct (find _ p) as [e|] eqn:Hf; [|reflexivity].
  apply find_some in Hf. destruct Hf as [Hin Heq]. exfalso. apply Hid.
  apply list_elem_of_fmap. exists e. split; [lia | apply list_elem_of_In; exact Hin].
Qed.

Lemma named_entry_self p e :
  NoDup (domid <$> p) -> e ∈ p -> named_entry p (domid e) = Some e.
Proof.
  induction p as [|x p IH]; intros Hnd Hin; [inversion Hin|].
  rewrite fmap_cons in Hnd. apply NoDup_cons in Hnd. destruct Hnd as [Hfresh Hnd].
  unfold named_entry. cbn [find]. apply elem_of_cons in Hin. destruct Hin as [->|Hin].
  - rewrite Z.eqb_refl. reflexivity.
  - destruct (domid x =? domid e) eqn:Heq.
    + exfalso. apply Hfresh. apply list_elem_of_fmap. exists e. split; [lia | exact Hin].
    + apply IH; assumption.
Qed.

Lemma named_entry_Some p id e :
  named_entry p id = Some e -> e ∈ p /\ domid e = id.
Proof.
  unfold named_entry. intros Hf. apply find_some in Hf. destruct Hf as [Hin Heq].
  split; [apply list_elem_of_In; exact Hin | lia].
Qed.

Lemma overlay_domain_id p di : domain_id (overlay p di) = domain_id di.
Proof. unfold overlay. destruct (named_entry p (domain_id di)); reflexivity. Qed.

Lemma overlay_one e di :
  overlay [e] di = if domid e =? domain_id di then apply_entry e di else di.
Proof.
  unfold overlay, named_entry. cbn [find].
  destruct (domid e =? domain_id di); reflexivity.
Qed.

Lemma overlay_nil di : overlay [] di = di.
Proof. reflexivity. Qed.

Lemma overlay_cons e p di :
  domid e ∉ domid <$> p -> overlay p (overlay [e] di) = overlay (e :: p) di.
Proof.
  intros Hfresh. rewrite overlay_one. unfold overlay at 2, named_entry. cbn [find].
  destruct (domid e =? domain_id di) eqn:Heq; [|reflexivity].
  unfold overlay. simpl. rewrite named_entry_None; [reflexivity|].
  replace (domain_id di) with (domid e) by lia. exact Hfresh.
Qed.

Lemma overlay_ids p (infos : list gang_dom_info_t) :
  domain_id <$> (overlay p <$> infos) = domain_id <$> infos.
Proof.
  rewrite <- list_fmap_compose. apply list_fmap_ext. intros i di _.
  apply overlay_domain_id.
Qed.

(** *** The loops of [__update_domain_infos] *)

Lemma find_domain_info_spec e infos : forall n a,
  (a + n <= length infos)%nat ->
  (exists j di, (a <= j < a + n)%nat /\ infos !! j = Some di /\
                domid e = domain_id di /\
                find_domain_info e infos (seq a n) = Done (Some j)) \/
  ((forall j di, (a <= j < a + n)%nat -> infos !! j = Some di ->
                 domid e <> domain_id di) /\
   find_domain_info e infos (seq a n) = Done None).
Proof.
  induction n as [|n IH]; intros a Hlen.
  - right. split; [intros; lia | reflexivity].
  - cbn [seq find_domain_info].
    destruct (lookup_lt_is_Some_2 infos a) as [di Hdi]; [lia|].
    unfold array_read. rewrite Hdi. simpl.
    destruct (domid e =? domain_id di) eqn:Heq.
    + left. exists a, di. split; [lia|]. split; [exact Hdi|]. split; [lia | reflexivity].
    + destruct (IH (S a)) as [(j & dj & Hj & Hdj & Hid & Hrun)|[Hnone Hrun]]; [lia| |].
      * left. exists j, dj. split; [lia|]. auto.
      * right. split; [|exact Hrun]. intros j dj Hj Hdj.
        destruct (decide (j = a)) as [->|Hne].
        -- assert (dj = di) as -> by congruence. lia.
        -- apply (Hnone j dj); [lia | exact Hdj].
Qed.

(** One round of the loop over the entries, on an array that holds
    [len] records with distinct domain ids. *)
Lemma update_entries_cons len e x p infos n :
  (len <= length infos)%nat -> NoDup (domain_id <$> infos) ->
  update_entries xenctl_bitmap_to_cpumask len e (x :: p) infos n =
  if decide (domid x ∈ domain_id <$> take len infos) then
    if (xenctl_bitmap_to_cpumask in_update e =? 0)%nat then
      update_entries xenctl_bitmap_to_cpumask len (S e) p (overlay [x] <$> infos) n
    else Done (- Z.of_nat (xenctl_bitmap_to_cpumask in_update e), infos)
  else Done (- EINVAL, infos).
Proof.
  intros Hlen Hnd. cbn [update_entries].
  destruct (find_domain_info_spec x infos len 0%nat)
    as [(j & di & Hj & Hdi & Hid & Hrun)|[Hnone Hrun]]; [lia| |]; rewrite Hrun; simpl.
  - rewrite decide_True.
    2:{ apply list_elem_of_fmap. exists di. split; [exact Hid|].
        apply list_elem_of_lookup. exists j. rewrite lookup_take_lt by lia. exact Hdi. }
    destruct (xenctl_bitmap_to_cpumask in_update e) as [|k] eqn:Hk; [|reflexivity].
    simpl. unfold array_read. rewrite Hdi. simpl. f_equal.
    apply list_eq. intros i. rewrite list_lookup_fmap.
    destruct (decide (i = j)) as [->|Hne].
    + rewrite list_lookup_insert_eq by (apply lookup_lt_Some in Hdi; exact Hdi).
      rewrite Hdi. simpl. rewrite overlay_one.
      replace (domid x =? domain_id di) with true by lia. reflexivity.
    + rewrite list_lookup_insert_ne by congruence.
      destruct (infos !! i) as [dj|] eqn:Hi; [|reflexivity]. simpl.
      rewrite overlay_one. destruct (domid x =? domain_id dj) eqn:Heq; [|reflexivity].
      exfalso. apply Hne.
      apply (NoDup_lookup (domain_id <$> infos) i j (domid x)); [exact Hnd | |];
        rewrite list_lookup_fmap.
      * rewrite Hi. simpl. f_equal. lia.
      * rewrite Hdi. simpl. f_equal. lia.
  - rewrite decide_False; [reflexivity|].
    intros Hin. apply list_elem_of_fmap in Hin. destruct Hin as (di & Hid & Hin).
    apply list_elem_of_lookup in Hin. destruct Hin as (j & Hj).
    pose proof (lookup_lt_Some _ _ _ Hj) as Hlt. rewrite length_take in Hlt.
    rewrite lookup_take_lt in Hj by lia.
    apply (Hnone j di); [lia | exact Hj | exact Hid].
Qed.

(** A run of the loop that returns no error has laid every entry over
    the array. *)
Lemma update_entries_inv len : forall p e infos n r infos',
  (len <= length infos)%nat -> NoDup (domain_id <$> infos) -> NoDup (domid <$> p) ->
  update_entries xenctl_bitmap_to_cpumask len e p infos n = Done (r, infos') ->
  0 <= r ->
  infos' = overlay p <$> infos /\
  forall x, x ∈ p -> exists di, di ∈ infos /\ domain_id di = domid x.
Proof.
  induction p as [|x p IH]; intros e infos n r infos' Hlen Hids Hnd Hrun Hr.
  - injection Hrun as _ <-. split.
    + symmetry. rewrite <- (list_fmap_id infos) at 2. apply list_fmap_ext.
      intros; apply overlay_nil.
    + intros x Hx. inversion Hx.
  - rewrite update_entries_cons in Hrun by assumption.
    rewrite fmap_cons in Hnd. apply NoDup_cons in Hnd. destruct Hnd as [Hfresh Hnd].
    destruct (decide (domid x ∈ domain_id <$> take len infos)) as [Hin|Hno];
      [|injection Hrun as <- _; unfold EINVAL in Hr; lia].
    destruct (xenctl_bitmap_to_cpumask in_update e) as [|k];
      [|injection Hrun as <- _; lia].
    simpl in Hrun.
    destruct (IH _ _ _ _ _ (eq_ind_r (fun l => (len <= l)%nat) Hlen (length_fmap _ _))
                (eq_ind_r (fun l => NoDup l) Hids (overlay_ids [x] infos)) Hnd Hrun Hr)
      as (-> & Hall).
    split.
    + rewrite <- list_fmap_compose. apply list_fmap_ext. intros i di _. simpl.
      apply overlay_cons. exact Hfresh.
    + intros y Hy. apply elem_of_cons in Hy. destruct Hy as [->|Hy].
      * apply list_elem_of_fmap in Hin. destruct Hin as (di & Hid & Hdi).
        exists di. split; [|symmetry; exact Hid].
        apply list_elem_of_lookup in Hdi. destruct Hdi as (j & Hj).
        apply lookup_take_Some in Hj. apply list_elem_of_lookup.
        exists j. apply Hj.
      * destruct (Hall y Hy) as (dj & Hdj & Hidj).
        apply list_elem_of_fmap in Hdj. destruct Hdj as (dk & -> & Hdk).
        exists dk. split; [exact Hdk|]. rewrite <- Hidj.
        symmetry. apply overlay_domain_id.
Qed.

Lemma update_domain_infos_accepted infos len p err infos' :
  __update_domain_infos xenctl_bitmap_to_cpumask infos len p = Done (err, infos') ->
  0 <= err -> len = Z.of_nat (length infos) ->
  NoDup (domain_id <$> infos) -> NoDup (domid <$> p) ->
  infos' = overlay p <$> infos /\
  forall e, e ∈ p -> exists di, di ∈ infos /\ domain_id di = domid e.
Proof.
  unfold __update_domain_infos. intros Hrun Herr -> Hids Hnd.
  destruct (Z.of_nat (length infos) <? Z.of_nat (length p));
    [injection Hrun as <- _; unfold EINVAL in Herr; lia|].
  eapply update_entries_inv; [|exact Hids|exact Hnd|exact Hrun|exact Herr].
  rewrite Nat2Z.id. reflexivity.
Qed.

(** *** The sort of the pointer array *)

Lemma swap_adjacent {A} (pre : list A) a b post :
  <[S (length pre) := a]> (<[length pre := b]> (pre ++ a :: b :: post))
  = pre ++ b :: a :: post.
Proof. induction pre as [|x pre IH]; simpl; [reflexivity | f_equal; exact IH]. Qed.

Lemma adjacent_split {A} (arr : list A) i a b :
  arr !! i = Some a -> arr !! S i = Some b ->
  arr = take i arr ++ a :: b :: drop (S (S i)) arr /\ length (take i arr) = i.
Proof.
  intros Ha Hb. split.
  - rewrite <- (drop_S _ _ _ Hb). symmetry. apply take_drop_middle. exact Ha.
  - apply lookup_lt_Some in Ha. rewrite length_take. lia.
Qed.

Lemma swap_items arr i (a b : gang_dom_info_t) :
  arr !! i = Some a -> arr !! S i = Some b ->
  exists pre post,
    arr = pre ++ a :: b :: post /\
    <[S i := a]> (<[i := b]> arr) = pre ++ b :: a :: post.
Proof.
  intros Ha Hb. destruct (adjacent_split arr i a b Ha Hb) as [Heq Hlen].
  remember (take i arr) as pre eqn:Hpre. remember (drop (S (S i)) arr) as post eqn:Hpost.
  clear Hpre Hpost. exists pre, post. split; [exact Heq|].
  rewrite Heq, <- Hlen. apply swap_adjacent.
Qed.

Lemma array_read_Done {A} (l : list A) i a :
  array_read l i = Done a -> l !! i = Some a.
Proof. unfold array_read. destruct (l !! i); intros H; congruence. Qed.

Lemma sort_loop_Permutation fuel : forall i arr arr',
  sort_loop fuel i arr = Done arr' -> arr' ≡ₚ arr.
Proof.
  induction fuel as [|fuel IH]; intros i arr arr' Hrun; [discriminate|].
  cbn [sort_loop] in Hrun.
  destruct (Z.of_nat i =? Z.of_nat (length arr) - 1); [injection Hrun as <-; reflexivity|].
  apply bind_Done_inv in Hrun. destruct Hrun as (a & Ha & Hrun).
  apply bind_Done_inv in Hrun. destruct Hrun as (b & Hb & Hrun).
  apply array_read_Done in Ha, Hb.
  destruct (item_ord a >? item_ord b).
  - apply IH in Hrun. rewrite Hrun.
    destruct (swap_items arr i a b Ha Hb) as (pre & post & -> & ->).
    apply Permutation_app_head. apply perm_swap.
  - apply IH in Hrun. exact Hrun.
Qed.

Lemma inversions_swap pre (a b : gang_dom_info_t) post :
  item_ord b < item_ord a ->
  (inversions (pre ++ b :: a :: post) + 1 = inversions (pre ++ a :: b :: post))%nat.
Proof.
  intros Hlt. induction pre as [|x pre IH].
  - cbn [app inversions].
    rewrite (filter_cons_True (fun y => item_ord y < item_ord a) b post Hlt).
    rewrite (filter_cons_False (fun y => item_ord y < item_ord b) a post) by lia.
    simpl. lia.
  - cbn [app inversions].
    assert (Hperm : pre ++ b :: a :: post ≡ₚ pre ++ a :: b :: post)
      by (apply Permutation_app_head, perm_swap).
    rewrite (Permutation_length
               (filter_Permutation (fun y => item_ord y < item_ord x) _ _ Hperm)).
    lia.
Qed.

Lemma inversions_bound arr : (inversions arr <= length arr * length arr)%nat.
Proof.
  induction arr as [|a arr IH]; [simpl; lia|].
  cbn [inversions length].
  pose proof (length_filter (fun b => item_ord b < item_ord a) arr). nia.
Qed.

(** The step budget of the sort is enough. *)
Lemma sort_loop_total fuel : forall i arr,
  (i < length arr)%nat ->
  (inversions arr * length arr + (length arr - 1 - i) < fuel)%nat ->
  exists arr', sort_loop fuel i arr = Done arr'.
Proof.
  induction fuel as [|fuel IH]; intros i arr Hi Hfuel; [lia|].
  cbn [sort_loop].
  destruct (Z.of_nat i =? Z.of_nat (length arr) - 1) eqn:Hend; [eauto|].
  destruct (lookup_lt_is_Some_2 arr i) as [a Ha]; [lia|].
  destruct (lookup_lt_is_Some_2 arr (S i)) as [b Hb]; [lia|].
  unfold array_read. rewrite Ha, Hb. simpl.
  destruct (item_ord a >? item_ord b) eqn:Hord.
  - destruct (swap_items arr i a b Ha Hb) as (pre & post & Heq & Hswap).
    apply IH.
    + rewrite !length_insert. lia.
    + rewrite !length_insert. rewrite Hswap.
      pose proof (inversions_swap pre a b post ltac:(lia)) as Hinv.
      rewrite <- Heq in Hinv. nia.
  - apply IH; lia.
Qed.

Lemma sort_domain_infos_total arr :
  arr <> [] -> exists arr', __sort_domain_infos arr = Done arr' /\ arr' ≡ₚ arr.
Proof.
  intros Hne. unfold __sort_domain_infos.
  destruct (sort_loop_total ((length arr * length arr + 1) * length arr + 1) 0 arr)
    as [arr' Hrun].
  - destruct arr; [congruence | simpl; lia].
  - pose proof (inversions_bound arr). nia.
  - exists arr'. split; [exact Hrun|]. eapply sort_loop_Permutation. exact Hrun.
Qed.

(** *** The cohorts and groups leave the CPU masks and policies alone *)

Lemma ofor_each_entries {S} (body : S -> gang_dom_info_t -> outcome (gang_dom_info_t * S)) :
  (forall s di di' s', body s di = Done (di', s') ->
                       entry_of_info di' = entry_of_info di) ->
  forall l s l' s', ofor_each body l s = Done (l', s') ->
                    entry_of_info <$> l' = entry_of_info <$> l.
Proof.
  intros Hbody l. induction l as [|di l IH]; intros s l' s' Hrun.
  - injection Hrun as <- <-. reflexivity.
  - cbn [ofor_each] in Hrun.
    apply bind_Done_inv in Hrun. destruct Hrun as ([di1 s1] & Hstep & Hrun).
    apply bind_Done_inv in Hrun. destruct Hrun as ([l1 s2] & Hrest & Hrun).
    injection Hrun as <- <-. rewrite !fmap_cons.
    rewrite (Hbody _ _ _ _ Hstep), (IH _ _ _ Hrest). reflexivity.
Qed.

Lemma add_dom_to_muxgroups_entry di mg di' mg' :
  __add_dom_to_muxgroups NR_CPUS di mg = Done (di', mg') ->
  entry_of_info di' = entry_of_info di.
Proof.
  unfold __add_dom_to_muxgroups. intros Hrun.
  apply bind_Done_inv in Hrun. destruct Hrun as ([[pending m] mg1] & _ & Hrun).
  injection Hrun as <- <-. reflexivity.
Qed.

Lemma populate_cohorts_and_muxgroups_entries arr arr' :
  __populate_cohorts_and_muxgroups NR_CPUS arr = Done arr' ->
  entry_of_info <$> arr' = entry_of_info <$> arr.
Proof.
  unfold __populate_cohorts_and_muxgroups. intros Hrun.
  apply bind_Done_inv in Hrun. destruct Hrun as ([arr1 [mg [c num]]] & Hfirst & Hrun).
  apply bind_Done_inv in Hrun. destruct Hrun as (? & _ & Hrun).
  apply bind_Done_inv in Hrun. destruct Hrun as (? & _ & Hrun).
  apply bind_Done_inv in Hrun. destruct Hrun as (? & _ & Hrun).
  apply bind_Done_inv in Hrun. destruct Hrun as (? & _ & Hrun).
  apply bind_Done_inv in Hrun. destruct Hrun as ([arr2 u] & Hsecond & Hrun).
  injection Hrun as <-.
  transitivity (entry_of_info <$> arr1).
  - revert Hsecond. apply ofor_each_entries. intros s di di' s' Hstep.
    apply bind_Done_inv in Hstep. destruct Hstep as (k & _ & Hstep).
    injection Hstep as <- _. reflexivity.
  - revert Hfirst. apply ofor_each_entries. intros [mg0 cs0] di di' s' Hstep.
    apply bind_Done_inv in Hstep. destruct Hstep as ([di1 mg1] & Hadd & Hstep).
    apply bind_Done_inv in Hstep. destruct Hstep as (cs1 & _ & Hstep).
    injection Hstep as <- _. eapply add_dom_to_muxgroups_entry. exact Hadd.
Qed.

(** *** What the designated CPU writes back *)

Lemma write_back_fold arr : forall st,
  fold_left (fun st di =>
               set_domain_list (write_domain_info di <$> domain_list st) st) arr st
  = set_domain_list (written_back arr <$> domain_list st) st.
Proof.
  induction arr as [|di arr IH]; intros [doms pool].
  - unfold written_back, set_domain_list. simpl. rewrite list_fmap_id. reflexivity.
  - cbn [fold_left]. rewrite IH. unfold set_domain_list. simpl.
    rewrite <- list_fmap_compose. reflexivity.
Qed.

Lemma write_domain_info_keeps di d :
  d_domain_id (write_domain_info di d) = d_domain_id d /\
  d_cpupool_id (write_domain_info di d) = d_cpupool_id d /\
  domain_id (d_sched_priv (write_domain_info di d)) = domain_id (d_sched_priv d).
Proof.
  unfold write_domain_info. destruct (d_domain_id d =? domain_id di); auto.
Qed.

Lemma written_back_keeps arr : forall d,
  d_domain_id (written_back arr d) = d_domain_id d /\
  d_cpupool_id (written_back arr d) = d_cpupool_id d /\
  domain_id (d_sched_priv (written_back arr d)) = domain_id (d_sched_priv d).
Proof.
  induction arr as [|di arr IH]; intros d; [auto|].
  unfold written_back in *. cbn [fold_left].
  destruct (IH (write_domain_info di d)) as (-> & -> & ->).
  apply write_domain_info_keeps.
Qed.

Lemma written_back_other arr : forall d,
  (forall di, di ∈ arr -> domain_id di <> d_domain_id d) ->
  written_back arr d = d.
Proof.
  induction arr as [|di arr IH]; intros d Hno; [reflexivity|].
  unfold written_back in *. cbn [fold_left].
  assert (Hsame : write_domain_info di d = d).
  { unfold write_domain_info.
    destruct (d_domain_id d =? domain_id di) eqn:Heq; [|reflexivity].
    exfalso. apply (Hno di); [left | lia]. }
  rewrite Hsame. apply IH. intros dj Hdj. apply Hno. right. exact Hdj.
Qed.

Lemma written_back_entry arr : forall d di,
  NoDup (domain_id <$> arr) -> di ∈ arr -> domain_id di = d_domain_id d ->
  entry_of_info (d_sched_priv (written_back arr d))
  = {| domid := domain_id (d_sched_priv d); cpumap := cpumask di;
       gang_sched_policy := tm_muxing_spec di |}.
Proof.
  induction arr as [|dj arr IH]; intros d di Hnd Hin Hid; [inversion Hin|].
  rewrite fmap_cons in Hnd. apply NoDup_cons in Hnd. destruct Hnd as [Hfresh Hnd].
  unfold written_back in *. cbn [fold_left].
  apply elem_of_cons in Hin. destruct Hin as [->|Hin].
  - fold (written_back arr (write_domain_info dj d)).
    rewrite written_back_other.
    + unfold write_domain_info. replace (d_domain_id d =? domain_id dj) with true by lia.
      reflexivity.
    + intros dk Hdk Heq. apply Hfresh. apply list_elem_of_fmap. exists dk.
      split; [|exact Hdk].
      destruct (write_domain_info_keeps dj d) as (Hk & _). lia.
  - assert (Hsame : write_domain_info dj d = d).
    { unfold write_domain_info.
      destruct (d_domain_id d =? domain_id dj) eqn:Heq; [|reflexivity].
      exfalso. apply Hfresh. apply list_elem_of_fmap. exists di.
      split; [lia | exact Hin]. }
    rewrite Hsame. apply IH; assumption.
Qed.

Lemma filter_fmap_keeps {A} (P : A -> Prop) `{forall x, Decision (P x)} (f : A -> A)
    (l : list A) :
  (forall x, P (f x) <-> P x) -> filter P (f <$> l) = f <$> filter P l.
Proof.
  intros Hf. induction l as [|x l IH]; [reflexivity|].
  rewrite fmap_cons, !filter_cons.
  destruct (decide (P (f x))) as [Hy|Hn]; destruct (decide (P x)) as [Hy'|Hn'].
  - rewrite fmap_cons, IH. reflexivity.
  - exfalso. apply Hn', Hf, Hy.
  - exfalso. apply Hn, Hf, Hy'.
  - exact IH.
Qed.

(** *** An accepted request *)

Lemma get_all_domain_infos_spec st :
  __get_all_domain_infos GANG_SCHED_MAX_DOMAINS GANG_SCHED_MAX_DOMAINS st
  = Done (copy_domain_info <$> take GANG_SCHED_MAX_DOMAINS (domains_in_cpupool st),
          Z.of_nat (length (domains_in_cpupool st))).
Proof.
  unfold __get_all_domain_infos. rewrite Nat.ltb_irrefl. reflexivity.
Qed.

Lemma putinfo_accepted_inv caller p st st' out :
  cpu_valid (cpu_pool st) <> 0%N ->
  gang_adjust_global NR_CPUS GANG_SCHED_MAX_DOMAINS sched_ratelimit_us
    xenctl_bitmap_to_cpumask di_parr_allocated
    caller XEN_SYSCTL_SCHEDOP_putinfo p st = Done (0, st', out) ->
  from_dom0 caller = true /\ in_cpupool0 caller = true /\
  cpumask_test_cpu (processor caller) (cpu_valid (cpu_pool st)) = false /\
  has_duplicate_domid p = false /\
  (length (domains_in_cpupool st) <= GANG_SCHED_MAX_DOMAINS)%nat /\
  exists err infos arr1 arr2,
    __update_domain_infos xenctl_bitmap_to_cpumask
      (copy_domain_info <$> domains_in_cpupool st)
      (Z.of_nat (length (domains_in_cpupool st))) p = Done (err, infos) /\
    0 <= err /\
    arr1 ≡ₚ infos /\
    entry_of_info <$> arr2 = entry_of_info <$> arr1 /\
    st' = set_domain_list (written_back arr2 <$> domain_list st) st.
Proof.
  intros Hpool Hrun. unfold gang_adjust_global in Hrun.
  destruct (from_dom0 caller); [|discriminate].
  destruct (in_cpupool0 caller); [|discriminate]. simpl in Hrun.
  destruct ((Z.of_nat (length p) <? 1) ||
            (Z.of_nat (length p) >? Z.of_nat GANG_SCHED_MAX_DOMAINS)); [discriminate|].
  destruct (has_duplicate_domid p); [discriminate|].
  destruct (validate_dom_entries sched_ratelimit_us xenctl_bitmap_to_cpumask st 0 p =? 0)
    eqn:Hrc; [|simpl in Hrun; injection Hrun as Hrc0 _ _; lia].
  simpl in Hrun.
  apply bind_Done_inv in Hrun. destruct Hrun as (u & Hcpu & Hrun).
  apply BUG_ON_Done_inv in Hcpu.
  rewrite get_all_domain_infos_spec in Hrun. simpl in Hrun.
  apply bind_Done_inv in Hrun. destruct Hrun as (u0 & Hzero & Hrun).
  apply bind_Done_inv in Hrun. destruct Hrun as (u1 & Hmax & Hrun).
  apply BUG_ON_Done_inv in Hmax.
  assert (Hlen : (length (domains_in_cpupool st) <= GANG_SCHED_MAX_DOMAINS)%nat) by lia.
  rewrite take_ge in Hrun by exact Hlen.
  apply bind_Done_inv in Hrun. destruct Hrun as ([err infos] & Hupd & Hrun).
  simpl in Hrun.
  apply bind_Done_inv in Hrun. destruct Hrun as (u2 & Herr & Hrun).
  apply BUG_ON_Done_inv in Herr.
  destruct di_parr_allocated; [|discriminate]. simpl in Hrun.
  apply bind_Done_inv in Hrun. destruct Hrun as ([valid arr1] & Hsort & Hrun).
  unfold __validate_resource_allocation in Hsort.
  apply bind_Done_inv in Hsort. destruct Hsort as (sorted & Hsort & Hvalid).
  injection Hvalid as <- <-. simpl in Hrun.
  apply bind_Done_inv in Hrun. destruct Hrun as (arr2 & Htopo & Hrun).
  apply bind_Done_inv in Hrun. destruct Hrun as (st1 & Hsmp & Hrun).
  injection Hrun as <- _.
  unfold __smp_adjust_and_pause in Hsmp. rewrite Hcpu in Hsmp. simpl in Hsmp.
  destruct (cpu_valid (cpu_pool st) =? 0)%N eqn:Hz; [apply N.eqb_eq in Hz; contradiction|].
  apply bind_Done_inv in Hsmp. destruct Hsmp as (u3 & _ & Hsmp).
  injection Hsmp as <-.
  repeat (split; [reflexivity || assumption|]).
  exists err, infos, sorted, arr2. split; [exact Hupd|]. split; [lia|]. split.
  - eapply sort_loop_Permutation. exact Hsort.
  - split; [eapply populate_cohorts_and_muxgroups_entries; exact Htopo|].
    apply write_back_fold.
Qed.

Lemma pool_domain_ids st :
  wf_state st ->
  NoDup (domain_id <$> (copy_domain_info <$> domains_in_cpupool st)) /\
  forall d, d ∈ domains_in_cpupool st -> domain_id (d_sched_priv d) = d_domain_id d.
Proof.
  intros [Hnd Hback].
  assert (Hb : forall d, d ∈ domains_in_cpupool st ->
                         domain_id (d_sched_priv d) = d_domain_id d).
  { intros d Hd. unfold domains_in_cpupool in Hd. apply list_elem_of_filter in Hd.
    rewrite Forall_forall in Hback. apply Hback. apply Hd. }
  split; [|exact Hb].
  rewrite <- list_fmap_compose.
  rewrite (list_fmap_ext _ d_domain_id (domains_in_cpupool st)).
  - eapply sublist_NoDup; [exact Hnd|]. apply fmap_sublist. apply sublist_filter.
  - intros i d Hd. simpl. apply Hb. apply list_elem_of_lookup. eauto.
Qed.

(** C9.  After a request [p] that [putinfo] accepts, [getinfo] returns
    one entry for every domain of the pool, in the order of the domain
    list: the CPU map and policy of [p] for a domain that [p] names,
    the CPU mask and policy the domain had for another.  The returned
    configuration is [p], up to the order of the entries, exactly when
    [p] names every domain of the pool. *)
Theorem getinfo_after_putinfo caller p q st st' out :
  wf_state st ->
  cpu_valid (cpu_pool st) <> 0%N ->
  gang_adjust_global NR_CPUS GANG_SCHED_MAX_DOMAINS sched_ratelimit_us
    xenctl_bitmap_to_cpumask di_parr_allocated
    caller XEN_SYSCTL_SCHEDOP_putinfo p st = Done (0, st', out) ->
  gang_adjust_global NR_CPUS GANG_SCHED_MAX_DOMAINS sched_ratelimit_us
    xenctl_bitmap_to_cpumask di_parr_allocated
    caller XEN_SYSCTL_SCHEDOP_getinfo q st'
  = Done (0, st', expected_entry p <$> domains_in_cpupool st) /\
  (expected_entry p <$> domains_in_cpupool st ≡ₚ p <->
   forall d, d ∈ domains_in_cpupool st ->
             is_Some (named_entry p (domain_id (d_sched_priv d)))).
Proof.
  intros Hwf Hpool Hput.
  destruct (putinfo_accepted_inv caller p st st' out Hpool Hput)
    as (Hdom0 & Hpool0 & Hcpu & Hdup & Hlen & err & infos & arr1 & arr2 &
        Hupd & Herr & Hsort & Htopo & ->).
  destruct (pool_domain_ids st Hwf) as [Hids Hback].
  pose proof (has_duplicate_domid_false p Hdup) as Hnd.
  destruct (update_domain_infos_accepted _ _ p err infos Hupd Herr
              (eq_sym (f_equal Z.of_nat (length_fmap copy_domain_info _))) Hids Hnd)
    as [-> Hfound].
  set (doms := domains_in_cpupool st) in *.
  assert (Hids2 : NoDup (domain_id <$> arr2)).
  { replace (domain_id <$> arr2) with (domid <$> (entry_of_info <$> arr2))
      by (rewrite <- list_fmap_compose; reflexivity).
    rewrite Htopo, <- list_fmap_compose.
    change (domid ∘ entry_of_info) with domain_id.
    rewrite Hsort, <- list_fmap_compose.
    rewrite (list_fmap_ext _ domain_id (copy_domain_info <$> doms));
      [exact Hids|].
    intros i di _. apply overlay_domain_id. }
  assert (Hentry : forall d, d ∈ doms ->
            entry_of_info (d_sched_priv (written_back arr2 d)) = expected_entry p d).
  { intros d Hd.
    assert (Hin : entry_of_info (overlay p (copy_domain_info d))
                  ∈ entry_of_info <$> arr2).
    { rewrite Htopo. apply list_elem_of_fmap_2. rewrite Hsort.
      apply list_elem_of_fmap_2, list_elem_of_fmap_2. exact Hd. }
    apply list_elem_of_fmap in Hin. destruct Hin as (di2 & Heq & Hdi2).
    assert (Hid : domain_id di2 = d_domain_id d).
    { rewrite <- (Hback d Hd).
      change (domain_id di2) with (domid (entry_of_info di2)). rewrite <- Heq.
      simpl. rewrite overlay_domain_id. reflexivity. }
    rewrite (written_back_entry arr2 d di2 Hids2 Hdi2 Hid).
    change (cpumask di2) with (cpumap (entry_of_info di2)).
    change (tm_muxing_spec di2) with (gang_sched_policy (entry_of_info di2)).
    rewrite <- Heq. unfold expected_entry, overlay. simpl.
    destruct (named_entry p (domain_id (d_sched_priv d))); reflexivity. }
  split.
  - unfold gang_adjust_global. rewrite Hdom0, Hpool0. simpl. rewrite Hcpu. simpl.
    rewrite get_all_domain_infos_spec.
    assert (Hdoms : domains_in_cpupool
                      (set_domain_list (written_back arr2 <$> domain_list st) st)
                    = written_back arr2 <$> doms).
    { unfold domains_in_cpupool, set_domain_list. simpl.
      apply filter_fmap_keeps. intros d.
      destruct (written_back_keeps arr2 d) as (_ & -> & _). reflexivity. }
    rewrite Hdoms. simpl. rewrite length_fmap.
    replace (Z.of_nat (length doms) >? Z.of_nat GANG_SCHED_MAX_DOMAINS) with false by lia.
    simpl. rewrite take_ge by (rewrite length_fmap; exact Hlen).
    do 2 f_equal. rewrite <- !list_fmap_compose. apply list_fmap_ext.
    intros i d Hd. simpl. apply (Hentry d). apply list_elem_of_lookup. eauto.
  - split.
    + intros Hperm d Hd.
      assert (Hin : expected_entry p d ∈ expected_entry p <$> doms)
        by (apply list_elem_of_fmap_2; exact Hd).
      rewrite Hperm in Hin.
      destruct (named_entry p (domain_id (d_sched_priv d))) as [e|] eqn:Hnamed;
        [eauto|]. exfalso.
      pose proof (find_none _ _ Hnamed (expected_entry p d)) as Hno.
      rewrite <- list_elem_of_In in Hno. specialize (Hno Hin).
      unfold expected_entry in Hno. rewrite Hnamed in Hno. simpl in Hno. lia.
    + intros Hall. apply NoDup_Permutation.
      * apply (NoDup_fmap_1 domid). rewrite <- list_fmap_compose.
        rewrite (list_fmap_ext _ (domain_id ∘ copy_domain_info) doms).
        -- rewrite list_fmap_compose. exact Hids.
        -- intros i d _. simpl. unfold expected_entry.
           destruct (named_entry p (domain_id (d_sched_priv d))); reflexivity.
      * apply (NoDup_fmap_1 domid). exact Hnd.
      * intros x. split.
        -- intros Hx. apply list_elem_of_fmap in Hx. destruct Hx as (d & -> & Hd).
           destruct (Hall d Hd) as [e He]. unfold expected_entry. rewrite He.
           apply named_entry_Some in He. destruct He as [Hin Hid].
           rewrite <- Hid. destruct e; exact Hin.
        -- intros Hx. destruct (Hfound x Hx) as (di & Hdi & Hid).
           apply list_elem_of_fmap in Hdi. destruct Hdi as (d & -> & Hd).
           apply list_elem_of_fmap. exists d. split; [|exact Hd].
           unfold expected_entry. simpl in Hid. rewrite Hid.
           rewrite (named_entry_self p x Hnd Hx). destruct x; reflexivity.
Qed.

End AdjustFacts.

(** The theorem at the pool of two domains, for the request that names
    domain 1 only. *)
Lemma getinfo_after_putinfo_witness :
  adjust_pool Adjust.XEN_SYSCTL_SCHEDOP_getinfo [] pool_reconfigured
  = Done (0, pool_reconfigured,
          Adjust.expected_entry conf_one <$> Adjust.domains_in_cpupool pool_configured).
Proof.
  apply (getinfo_after_putinfo 4 8 1000 (fun _ _ => 0%nat) true dom0_caller conf_one []
           pool_configured pool_reconfigured conf_one).
  - split.
    + apply (bool_decide_unpack _). vm_compute. exact I.
    + repeat constructor.
  - vm_compute. discriminate.
  - vm_compute. reflexivity.
Defined.

(** C9 as stated fails.  Both domains are configured by a first
    request; a second request that names domain 1 only is accepted, and
    [getinfo] then returns two entries: the one of the request and the
    one of domain 2. *)
Lemma getinfo_lists_unnamed_domain :
  adjust_pool Adjust.XEN_SYSCTL_SCHEDOP_putinfo conf_both pool_created
  = Done (0, pool_configured, conf_both) /\
  adjust_pool Adjust.XEN_SYSCTL_SCHEDOP_putinfo conf_one pool_configured
  = Done (0, pool_reconfigured, conf_one) /\
  adjust_pool Adjust.XEN_SYSCTL_SCHEDOP_getinfo [] pool_reconfigured
  = Done (0, pool_reconfigured, conf_one ++ [conf_of 2 [2%nat] tt_100_50]) /\
  ~ (conf_one ++ [conf_of 2 [2%nat] tt_100_50] ≡ₚ conf_one).
Proof.
  split; [vm_compute; reflexivity|]. split; [vm_compute; reflexivity|].
  split; [vm_compute; reflexivity|].
  intros H. apply Permutation_length in H. discriminate H.
Qed.


(** * Further properties of the code *)

(** ** The global adjustment: requests and their overlay *)

Section AdjustRequests.
Import Adjust.

Variable NR_CPUS : nat.
Variable GANG_SCHED_MAX_DOMAINS : nat.
Variable sched_ratelimit_us : Z.
Variable xenctl_bitmap_to_cpumask : call_site -> nat -> nat.
Variable di_parr_allocated : bool.

Lemma sort_loop_sorted fuel : forall i arr arr',
  (forall j a b, (j < i)%nat -> arr !! j = Some a -> arr !! S j = Some b ->
                 item_ord a <= item_ord b) ->
  sort_loop fuel i arr = Done arr' ->
  forall j a b, arr' !! j = Some a -> arr' !! S j = Some b ->
                item_ord a <= item_ord b.
Proof.
  induction fuel as [|fuel IH]; intros i arr arr' Hpre Hrun; [discriminate|].
  cbn [sort_loop] in Hrun.
  destruct (Z.of_nat i =? Z.of_nat (length arr) - 1) eqn:Hend.
  - injection Hrun as <-. intros j a b Ha Hb. apply (Hpre j a b); try assumption.
    apply lookup_lt_Some in Hb. apply Z.eqb_eq in Hend. lia.
  - apply bind_Done_inv in Hrun. destruct Hrun as (x & Hx & Hrun).
    apply bind_Done_inv in Hrun. destruct Hrun as (y & Hy & Hrun).
    apply array_read_Done in Hx, Hy.
    destruct (item_ord x >? item_ord y) eqn:Hord.
    + eapply (IH 0%nat); [|exact Hrun]. intros; lia.
    + eapply (IH (S i)); [|exact Hrun].
      intros j a b Hj Ha Hb. destruct (decide (j = i)) as [->|Hne].
      * assert (a = x) as -> by congruence. assert (b = y) as -> by congruence. lia.
      * apply (Hpre j a b); try assumption. lia.
Qed.

(** X1.  The sort of the domain infos ends, and its result holds the same
    records in the order of their policy types. *)
Theorem sort_domain_infos_sorts arr :
  arr <> [] ->
  exists arr',
    __sort_domain_infos arr = Done arr' /\
    arr' ≡ₚ arr /\
    forall j a b, arr' !! j = Some a -> arr' !! S j = Some b ->
                  item_ord a <= item_ord b.
Proof.
  intros Hne. destruct (sort_domain_infos_total arr Hne) as (arr' & Hrun & Hperm).
  exists arr'. split; [exact Hrun|]. split; [exact Hperm|].
  unfold __sort_domain_infos in Hrun.
  eapply (sort_loop_sorted _ 0%nat arr arr'); [|exact Hrun]. intros; lia.
Qed.

Lemma validate_dom_entry_rc st e x :
  validate_dom_entry sched_ratelimit_us xenctl_bitmap_to_cpumask st e x = 0 \/
  validate_dom_entry sched_ratelimit_us xenctl_bitmap_to_cpumask st e x = - EINVAL \/
  (xenctl_bitmap_to_cpumask in_validation e <> 0%nat /\
   validate_dom_entry sched_ratelimit_us xenctl_bitmap_to_cpumask st e x
   = - Z.of_nat (xenctl_bitmap_to_cpumask in_validation e)).
Proof.
  unfold validate_dom_entry. cbv zeta.
  destruct (xenctl_bitmap_to_cpumask in_validation e) as [|k].
  - repeat match goal with
           | |- context [if ?c then _ else _] => destruct c
           | |- context [match ?o with Some _ => _ | None => _ end] => destruct o
           end; auto.
  - repeat match goal with
           | |- context [if ?c then _ else _] => destruct c
           | |- context [match ?o with Some _ => _ | None => _ end] => destruct o
           end; auto.
Qed.

Lemma validate_dom_entries_rc st : forall p e,
  validate_dom_entries sched_ratelimit_us xenctl_bitmap_to_cpumask st e p = 0 \/
  validate_dom_entries sched_ratelimit_us xenctl_bitmap_to_cpumask st e p = - EINVAL \/
  exists k, (k < length p)%nat /\
    xenctl_bitmap_to_cpumask in_validation (e + k) <> 0%nat /\
    validate_dom_entries sched_ratelimit_us xenctl_bitmap_to_cpumask st e p
    = - Z.of_nat (xenctl_bitmap_to_cpumask in_validation (e + k)).
Proof.
  induction p as [|x p IH]; intros e; [left; reflexivity|].
  cbn [validate_dom_entries].
  destruct (validate_dom_entry_rc st e x) as [-> | [-> | [Hne ->]]].
  - simpl. destruct (IH (S e)) as [H0 | [H1 | (k & Hk & Hne & Hrc)]];
      [left; exact H0 | right; left; exact H1 |].
    right. right. exists (S k). split; [simpl; lia|].
    replace (e + S k)%nat with (S e + k)%nat by lia. split; assumption.
  - right. left. reflexivity.
  - right. right. exists 0%nat. rewrite Nat.add_0_r. split; [simpl; lia|].
    split; [exact Hne|].
    destruct (- Z.of_nat (xenctl_bitmap_to_cpumask in_validation e) =? 0) eqn:E;
      [lia | reflexivity].
Qed.

(** X2.  A request that [putinfo] turns down changes nothing: the state and
    the entries are as before, and the error is [-EPERM], [-EINVAL],
    [-ENOMEM] when there is no memory for the pointer array, or what
    the failed conversion of the CPU map of an entry has returned. *)
Theorem rejected_putinfo_keeps_state caller p st rc st' out :
  gang_adjust_global NR_CPUS GANG_SCHED_MAX_DOMAINS sched_ratelimit_us
    xenctl_bitmap_to_cpumask di_parr_allocated
    caller XEN_SYSCTL_SCHEDOP_putinfo p st = Done (rc, st', out) ->
  rc <> 0 ->
  st' = st /\ out = p /\
  (rc = - EPERM \/ rc = - EINVAL \/
   (rc = - ENOMEM /\ di_parr_allocated = false) \/
   exists e, (e < length p)%nat /\
     xenctl_bitmap_to_cpumask in_validation e <> 0%nat /\
     rc = - Z.of_nat (xenctl_bitmap_to_cpumask in_validation e)).
Proof.
  intros Hrun Hrc. unfold gang_adjust_global in Hrun.
  destruct (from_dom0 caller); [|injection Hrun as <- <- <-; auto].
  destruct (in_cpupool0 caller); [|injection Hrun as <- <- <-; auto].
  simpl in Hrun.
  destruct ((Z.of_nat (length p) <? 1) ||
            (Z.of_nat (length p) >? Z.of_nat GANG_SCHED_MAX_DOMAINS));
    [injection Hrun as <- <- <-; auto|].
  destruct (has_duplicate_domid p); [injection Hrun as <- <- <-; auto|].
  destruct (validate_dom_entries sched_ratelimit_us xenctl_bitmap_to_cpumask st 0 p =? 0)
    eqn:Hv; simpl in Hrun.
  - apply bind_Done_inv in Hrun. destruct Hrun as (u & _ & Hrun).
    apply bind_Done_inv in Hrun. destruct Hrun as ([infos n] & _ & Hrun).
    apply bind_Done_inv in Hrun. destruct Hrun as (u0 & _ & Hrun).
    apply bind_Done_inv in Hrun. destruct Hrun as (u1 & _ & Hrun).
    apply bind_Done_inv in Hrun. destruct Hrun as ([err infos1] & _ & Hrun).
    simpl in Hrun.
    apply bind_Done_inv in Hrun. destruct Hrun as (u2 & _ & Hrun).
    destruct di_parr_allocated; simpl in Hrun;
      [exfalso | injection Hrun as <- <- <-; split; [reflexivity|]; split; [reflexivity|];
                 right; right; left; split; reflexivity].
    apply bind_Done_inv in Hrun. destruct Hrun as ([valid arr1] & Hsort & Hrun).
    unfold __validate_resource_allocation in Hsort.
    apply bind_Done_inv in Hsort. destruct Hsort as (sorted & _ & Hvalid).
    injection Hvalid as <- <-. simpl in Hrun.
    apply bind_Done_inv in Hrun. destruct Hrun as (arr2 & _ & Hrun).
    apply bind_Done_inv in Hrun. destruct Hrun as (st1 & _ & Hrun).
    injection Hrun as <- _ _. apply Hrc. reflexivity.
  - injection Hrun as <- <- <-. split; [reflexivity|]. split; [reflexivity|].
    destruct (validate_dom_entries_rc st p 0%nat) as [H0 | [H1 | (k & Hk & Hne & Hk')]];
      [lia | right; left; exact H1 |].
    right. right. right. exists k. simpl in Hne, Hk'. auto.
Qed.

(** *** [__update_domain_infos] on an array of [len] records *)

Lemma update_entries_ok len : forall p e infos n,
  (len <= length infos)%nat -> NoDup (domain_id <$> infos) -> NoDup (domid <$> p) ->
  (forall k x, p !! k = Some x ->
     domid x ∈ domain_id <$> take len infos /\
     xenctl_bitmap_to_cpumask in_update (e + k) = 0%nat) ->
  update_entries xenctl_bitmap_to_cpumask len e p infos n
  = Done (n, overlay p <$> infos).
Proof.
  induction p as [|x p IH]; intros e infos n Hlen Hids Hnd Hall.
  - cbn [update_entries]. do 2 f_equal. symmetry.
    rewrite <- (list_fmap_id infos) at 2. apply list_fmap_ext. intros; apply overlay_nil.
  - rewrite update_entries_cons by assumption.
    rewrite fmap_cons in Hnd. apply NoDup_cons in Hnd. destruct Hnd as [Hfresh Hnd].
    destruct (Hall 0%nat x eq_refl) as [Hin Hok]. rewrite Nat.add_0_r in Hok.
    rewrite decide_True by exact Hin. rewrite Hok. simpl.
    rewrite IH.
    + do 2 f_equal. rewrite <- list_fmap_compose. apply list_fmap_ext.
      intros i di _. simpl. apply overlay_cons. exact Hfresh.
    + rewrite length_fmap. exact Hlen.
    + rewrite overlay_ids. exact Hids.
    + exact Hnd.
    + intros k y Hy. rewrite fmap_take, overlay_ids, <- fmap_take.
      replace (S e + k)%nat with (e + S k)%nat by lia. apply (Hall (S k) y Hy).
Qed.

Lemma update_entries_stops len : forall p e infos n k x,
  (len <= length infos)%nat -> NoDup (domain_id <$> infos) -> NoDup (domid <$> p) ->
  p !! k = Some x ->
  (forall j y, (j < k)%nat -> p !! j = Some y ->
     domid y ∈ domain_id <$> take len infos /\
     xenctl_bitmap_to_cpumask in_update (e + j) = 0%nat) ->
  ~ (domid x ∈ domain_id <$> take len infos /\
     xenctl_bitmap_to_cpumask in_update (e + k) = 0%nat) ->
  update_entries xenctl_bitmap_to_cpumask len e p infos n
  = Done (if decide (domid x ∈ domain_id <$> take len infos)
          then - Z.of_nat (xenctl_bitmap_to_cpumask in_update (e + k))
          else - EINVAL,
          overlay (take k p) <$> infos).
Proof.
  induction p as [|a p IH]; intros e infos n k x Hlen Hids Hnd Hk Hbefore Hbad;
    [discriminate|].
  rewrite update_entries_cons by assumption.
  rewrite fmap_cons in Hnd. apply NoDup_cons in Hnd. destruct Hnd as [Hfresh Hnd].
  destruct k as [|k].
  - injection Hk as ->. rewrite Nat.add_0_r in *. cbn [take].
    assert (Hsame : overlay [] <$> infos = infos).
    { rewrite <- (list_fmap_id infos) at 2. apply list_fmap_ext. intros; apply overlay_nil. }
    rewrite Hsame.
    destruct (decide (domid x ∈ domain_id <$> take len infos)) as [Hin|Hno];
      [|reflexivity].
    destruct (xenctl_bitmap_to_cpumask in_update e) as [|c]; [|reflexivity].
    exfalso. apply Hbad. split; [exact Hin | reflexivity].
  - cbn in Hk. destruct (Hbefore 0%nat a) as [Hin Hok]; [lia | reflexivity|].
    rewrite Nat.add_0_r in Hok. rewrite decide_True by exact Hin. rewrite Hok. simpl.
    rewrite (IH (S e) _ n k x).
    + replace (S e + k)%nat with (e + S k)%nat by lia.
      rewrite fmap_take, overlay_ids, <- fmap_take. do 2 f_equal.
      cbn [take]. rewrite <- list_fmap_compose. apply list_fmap_ext.
      intros i di _. simpl. apply overlay_cons.
      intros Hx. apply Hfresh. apply list_elem_of_fmap in Hx.
      destruct Hx as (y & Hy & Hin'). apply list_elem_of_fmap. exists y.
      split; [exact Hy|]. apply list_elem_of_lookup in Hin'. destruct Hin' as (i' & Hi').
      apply lookup_take_Some in Hi'. apply list_elem_of_lookup. exists i'. apply Hi'.
    + rewrite length_fmap. exact Hlen.
    + rewrite overlay_ids. exact Hids.
    + exact Hnd.
    + exact Hk.
    + intros j y Hj Hy. rewrite fmap_take, overlay_ids, <- fmap_take.
      replace (S e + j)%nat with (e + S j)%nat by lia. apply (Hbefore (S j) y); [lia|exact Hy].
    + rewrite fmap_take, overlay_ids, <- fmap_take.
      replace (S e + k)%nat with (e + S k)%nat by lia. exact Hbad.
Qed.

(** X3.  [__update_domain_infos] on an array that holds at least [len]
    records, with distinct domain ids, and a request with distinct
    domain ids.  With more entries than [len] it returns [-EINVAL] and
    leaves the array.  Otherwise it takes the entries in order, looks
    for the domain of each among the first [len] records and converts
    its CPU map: when every entry is found and converted, it returns
    the number of entries, and each named record has the CPU map and
    policy of its entry; at the first entry that is not found, or whose
    conversion fails, it returns [-EINVAL], or the error of the
    conversion, and the array holds the entries before that one. *)
Theorem update_domain_infos_result infos len p :
  NoDup (domain_id <$> infos) -> NoDup (domid <$> p) ->
  0 <= len <= Z.of_nat (length infos) ->
  (len < Z.of_nat (length p) ->
   __update_domain_infos xenctl_bitmap_to_cpumask infos len p = Done (- EINVAL, infos)) /\
  (Z.of_nat (length p) <= len ->
   (forall k e, p !! k = Some e ->
      named_within infos len e /\ xenctl_bitmap_to_cpumask in_update k = 0%nat) ->
   __update_domain_infos xenctl_bitmap_to_cpumask infos len p
   = Done (Z.of_nat (length p), overlay p <$> infos)) /\
  (Z.of_nat (length p) <= len ->
   forall k e, p !! k = Some e ->
     (forall j x, (j < k)%nat -> p !! j = Some x ->
        named_within infos len x /\ xenctl_bitmap_to_cpumask in_update j = 0%nat) ->
     ~ (named_within infos len e /\ xenctl_bitmap_to_cpumask in_update k = 0%nat) ->
     __update_domain_infos xenctl_bitmap_to_cpumask infos len p
     = Done (if decide (named_within infos len e)
             then - Z.of_nat (xenctl_bitmap_to_cpumask in_update k)
             else - EINVAL,
             overlay (take k p) <$> infos)).
Proof.
  intros Hids Hnd Hlen. unfold __update_domain_infos, named_within. split; [|split].
  - intros Hlt. replace (len <? Z.of_nat (length p)) with true by lia. reflexivity.
  - intros Hle Hall. replace (len <? Z.of_nat (length p)) with false by lia.
    apply update_entries_ok; [lia | exact Hids | exact Hnd | exact Hall].
  - intros Hle k e Hk Hbefore Hbad.
    replace (len <? Z.of_nat (length p)) with false by lia.
    apply (update_entries_stops (Z.to_nat len) p 0%nat infos _ k e);
      [lia | exact Hids | exact Hnd | exact Hk | exact Hbefore | exact Hbad].
Qed.

End AdjustRequests.

(** The search stops at [len]: an entry that names the second of two
    records is not found when [len] is 1, and a record that an earlier
    entry has overwritten stays so. *)
Lemma update_domain_infos_searches_len_records :
  Adjust.__update_domain_infos (fun _ _ => 0%nat)
    (Adjust.copy_domain_info <$> Adjust.domain_list pool_configured) 1
    [conf_of 2 [2%nat] tt_200_50]
  = Done (- Adjust.EINVAL,
          Adjust.copy_domain_info <$> Adjust.domain_list pool_configured) /\
  Adjust.__update_domain_infos (fun _ _ => 0%nat)
    (Adjust.copy_domain_info <$> Adjust.domain_list pool_configured) 2
    [conf_of 1 [1%nat] tt_200_50; conf_of 3 [2%nat] tt_200_50]
  = Done (- Adjust.EINVAL,
          Adjust.overlay conf_one
            <$> (Adjust.copy_domain_info <$> Adjust.domain_list pool_configured)) /\
  Adjust.overlay conf_one <$> (Adjust.copy_domain_info <$> Adjust.domain_list pool_configured)
  <> Adjust.copy_domain_info <$> Adjust.domain_list pool_configured.
Proof.
  split; [vm_compute; reflexivity|]. split; [vm_compute; reflexivity|].
  vm_compute. discriminate.
Qed.

(** ** The global adjustment: what an accepted request needs *)

Section AdjustAccepted.
Import Adjust.

Variable NR_CPUS : nat.
Variable GANG_SCHED_MAX_DOMAINS : nat.
Variable sched_ratelimit_us : Z.
Variable xenctl_bitmap_to_cpumask : call_site -> nat -> nat.
Variable di_parr_allocated : bool.

Lemma setup_vcpus_loop st : forall arr u,
  ofold (fun (_ : unit) di => __setup_vcpus_for_domain st di) arr u = Done tt ->
  forall di, di ∈ arr ->
    exists d, get_domain_by_id st (domain_id di) = Some d /\
              nr_vcpus d = max_vcpus d /\
              nr_vcpus d <= cpumask_weight (cpu_valid (cpu_pool st)) /\
              cpumask_weight (cpumask di) = nr_vcpus d.
Proof.
  induction arr as [|a arr IH]; intros u Hrun di Hdi; [inversion Hdi|].
  cbn [ofold] in Hrun. apply bind_Done_inv in Hrun. destruct Hrun as (u1 & Hone & Hrun).
  apply elem_of_cons in Hdi. destruct Hdi as [->|Hdi]; [|exact (IH u1 Hrun di Hdi)].
  unfold __setup_vcpus_for_domain in Hone.
  destruct (get_domain_by_id st (domain_id a)) as [d|]; [|discriminate].
  apply bind_Done_inv in Hone. destruct Hone as (? & H1 & Hone).
  apply bind_Done_inv in Hone. destruct Hone as (? & H2 & H3).
  apply BUG_ON_Done_inv in H1, H2, H3.
  exists d. split; [reflexivity|]. apply negb_false_iff in H1, H3. lia.
Qed.

Lemma putinfo_accepted_setup caller p st st' out :
  cpu_valid (cpu_pool st) <> 0%N ->
  gang_adjust_global NR_CPUS GANG_SCHED_MAX_DOMAINS sched_ratelimit_us
    xenctl_bitmap_to_cpumask di_parr_allocated
    caller XEN_SYSCTL_SCHEDOP_putinfo p st = Done (0, st', out) ->
  has_duplicate_domid p = false /\
  exists err infos arr1 arr2,
    __update_domain_infos xenctl_bitmap_to_cpumask
      (copy_domain_info <$> domains_in_cpupool st)
      (Z.of_nat (length (domains_in_cpupool st))) p = Done (err, infos) /\
    0 <= err /\
    arr1 ≡ₚ infos /\
    entry_of_info <$> arr2 = entry_of_info <$> arr1 /\
    ofold (fun (_ : unit) di => __setup_vcpus_for_domain st di) arr2 tt = Done tt.
Proof.
  intros Hpool Hrun. unfold gang_adjust_global in Hrun.
  destruct (from_dom0 caller); [|discriminate].
  destruct (in_cpupool0 caller); [|discriminate]. simpl in Hrun.
  destruct ((Z.of_nat (length p) <? 1) ||
            (Z.of_nat (length p) >? Z.of_nat GANG_SCHED_MAX_DOMAINS)); [discriminate|].
  destruct (has_duplicate_domid p); [discriminate|].
  destruct (validate_dom_entries sched_ratelimit_us xenctl_bitmap_to_cpumask st 0 p =? 0)
    eqn:Hrc; [|simpl in Hrun; injection Hrun as Hrc0 _ _; lia].
  simpl in Hrun.
  apply bind_Done_inv in Hrun. destruct Hrun as (u & Hcpu & Hrun).
  apply BUG_ON_Done_inv in Hcpu.
  rewrite get_all_domain_infos_spec in Hrun. simpl in Hrun.
  apply bind_Done_inv in Hrun. destruct Hrun as (u0 & Hzero & Hrun).
  apply bind_Done_inv in Hrun. destruct Hrun as (u1 & Hmax & Hrun).
  apply BUG_ON_Done_inv in Hmax.
  assert (Hlen : (length (domains_in_cpupool st) <= GANG_SCHED_MAX_DOMAINS)%nat) by lia.
  rewrite take_ge in Hrun by exact Hlen.
  apply bind_Done_inv in Hrun. destruct Hrun as ([err infos] & Hupd & Hrun).
  simpl in Hrun.
  apply bind_Done_inv in Hrun. destruct Hrun as (u2 & Herr & Hrun).
  apply BUG_ON_Done_inv in Herr.
  destruct di_parr_allocated; [|discriminate]. simpl in Hrun.
  apply bind_Done_inv in Hrun. destruct Hrun as ([valid arr1] & Hsort & Hrun).
  unfold __validate_resource_allocation in Hsort.
  apply bind_Done_inv in Hsort. destruct Hsort as (sorted & Hsort & Hvalid).
  injection Hvalid as <- <-. simpl in Hrun.
  apply bind_Done_inv in Hrun. destruct Hrun as (arr2 & Htopo & Hrun).
  apply bind_Done_inv in Hrun. destruct Hrun as (st1 & Hsmp & Hrun).
  unfold __smp_adjust_and_pause in Hsmp. rewrite Hcpu in Hsmp. simpl in Hsmp.
  destruct (cpu_valid (cpu_pool st) =? 0)%N eqn:Hz; [apply N.eqb_eq in Hz; contradiction|].
  apply bind_Done_inv in Hsmp. destruct Hsmp as (u3 & Hsetup & Hsmp).
  split; [reflexivity|].
  exists err, infos, sorted, arr2. split; [exact Hupd|]. split; [lia|]. split.
  - eapply sort_loop_Permutation. exact Hsort.
  - split; [eapply populate_cohorts_and_muxgroups_entries; exact Htopo|].
    destruct u3. exact Hsetup.
Qed.

Lemma get_domain_by_id_finds st d :
  NoDup (d_domain_id <$> domain_list st) -> d ∈ domain_list st ->
  get_domain_by_id st (d_domain_id d) = Some d.
Proof.
  unfold get_domain_by_id. induction (domain_list st) as [|x l IH]; intros Hnd Hd;
    [inversion Hd|].
  rewrite fmap_cons in Hnd. apply NoDup_cons in Hnd. destruct Hnd as [Hx Hnd].
  cbn [find]. destruct (d_domain_id x =? d_domain_id d) eqn:Heq.
  - apply Z.eqb_eq in Heq. apply elem_of_cons in Hd. destruct Hd as [->|Hd]; [reflexivity|].
    exfalso. apply Hx. rewrite Heq. apply list_elem_of_fmap. exists d. auto.
  - apply elem_of_cons in Hd. destruct Hd as [->|Hd]; [rewrite Z.eqb_refl in Heq; discriminate|].
    apply IH; assumption.
Qed.

(** X4.  A request is carried out only when it leaves no domain of the pool
    without its CPUs: if [putinfo] returns 0 on a pool with CPUs, then
    every domain of the pool, named by the request or not, has as many
    CPUs in its CPU mask, with the request laid over it, as it has
    VCPUs, all its VCPUs exist, and they are no more than the CPUs of
    the pool. *)
Theorem accepted_putinfo_gives_every_domain_its_cpus caller p st st' out :
  wf_state st -> cpu_valid (cpu_pool st) <> 0%N ->
  gang_adjust_global NR_CPUS GANG_SCHED_MAX_DOMAINS sched_ratelimit_us
    xenctl_bitmap_to_cpumask di_parr_allocated
    caller XEN_SYSCTL_SCHEDOP_putinfo p st = Done (0, st', out) ->
  forall d, d ∈ domains_in_cpupool st ->
    cpumask_weight (cpumask (overlay p (copy_domain_info d))) = nr_vcpus d /\
    nr_vcpus d = max_vcpus d /\
    nr_vcpus d <= cpumask_weight (cpu_valid (cpu_pool st)).
Proof.
  intros Hwf Hpool Hrun d Hd.
  destruct (putinfo_accepted_setup caller p st st' out Hpool Hrun)
    as (Hdup & err & infos & arr1 & arr2 & Hupd & Herr & Hperm & Hentries & Hsetup).
  destruct (pool_domain_ids st Hwf) as [Hids Hback].
  destruct (update_domain_infos_accepted _ _ _ p err infos Hupd Herr
              (eq_sym (f_equal Z.of_nat (length_fmap copy_domain_info _))) Hids
              (has_duplicate_domid_false p Hdup))
    as [-> _].
  set (di := overlay p (copy_domain_info d)).
  assert (Hin1 : entry_of_info di ∈ entry_of_info <$> arr1).
  { apply list_elem_of_fmap. exists di. split; [reflexivity|]. rewrite Hperm.
    apply list_elem_of_fmap. exists (copy_domain_info d). split; [reflexivity|].
    apply list_elem_of_fmap. exists d. auto. }
  rewrite <- Hentries in Hin1. apply list_elem_of_fmap in Hin1.
  destruct Hin1 as (di2 & Heq & Hdi2).
  destruct (setup_vcpus_loop st arr2 tt Hsetup di2 Hdi2) as (d' & Hfind & H1 & H2 & H3).
  assert (Hid : domain_id di2 = d_domain_id d).
  { transitivity (domid (entry_of_info di2)); [reflexivity|]. rewrite <- Heq.
    cbn. unfold di. rewrite overlay_domain_id. cbn. apply Hback. exact Hd. }
  assert (Hmask : cpumask di2 = cpumask di).
  { transitivity (cpumap (entry_of_info di2)); [reflexivity|]. rewrite <- Heq.
    reflexivity. }
  rewrite Hid in Hfind.
  rewrite get_domain_by_id_finds in Hfind.
  - injection Hfind as <-. rewrite <- Hmask. auto.
  - apply Hwf.
  - unfold domains_in_cpupool in Hd. apply list_elem_of_filter in Hd. apply Hd.
Qed.

End AdjustAccepted.

Lemma accepted_putinfo_gives_every_domain_its_cpus_witness :
  adjust_pool Adjust.XEN_SYSCTL_SCHEDOP_putinfo conf_one pool_configured
  = Done (0, pool_reconfigured, conf_one) /\
  forall d, d ∈ Adjust.domains_in_cpupool pool_configured ->
    cpumask_weight (cpumask (Adjust.overlay conf_one (Adjust.copy_domain_info d)))
    = Adjust.nr_vcpus d /\
    Adjust.nr_vcpus d = Adjust.max_vcpus d /\
    Adjust.nr_vcpus d <= cpumask_weight (Adjust.cpu_valid (Adjust.cpu_pool pool_configured)).
Proof.
  split; [vm_compute; reflexivity|].
  apply (accepted_putinfo_gives_every_domain_its_cpus 4 8 1000 (fun _ _ => 0%nat) true
           dom0_caller conf_one
           pool_configured pool_reconfigured conf_one).
  - split.
    + apply (bool_decide_unpack _). vm_compute. exact I.
    + repeat constructor.
  - vm_compute. discriminate.
  - vm_compute. reflexivity.
Defined.

(** ** The local scheduler: queues and draining *)

(** X5.  The two ticket comparisons are total orders on the pairs (deadline,
    domain id) and (earliest start time, domain id): equal only for
    equal pairs, antisymmetric and transitive. *)
Theorem ticket_comparisons_are_total_orders :
  (forall t1 t2,
     (__cmp_tckt_deadlines t1 t2 = Eq <->
      deadline t1 = deadline t2 /\
      domain_id (dom_info t1) = domain_id (dom_info t2)) /\
     (__cmp_tckt_deadlines t1 t2 = Lt <-> __cmp_tckt_deadlines t2 t1 = Gt)) /\
  (forall t1 t2 t3,
     __cmp_tckt_deadlines t1 t2 = Lt -> __cmp_tckt_deadlines t2 t3 = Lt ->
     __cmp_tckt_deadlines t1 t3 = Lt) /\
  (forall t1 t2,
     (__cmp_tckt_rel_times t1 t2 = Eq <->
      earliest_start_time t1 = earliest_start_time t2 /\
      domain_id (dom_info t1) = domain_id (dom_info t2)) /\
     (__cmp_tckt_rel_times t1 t2 = Lt <-> __cmp_tckt_rel_times t2 t1 = Gt)) /\
  (forall t1 t2 t3,
     __cmp_tckt_rel_times t1 t2 = Lt -> __cmp_tckt_rel_times t2 t3 = Lt ->
     __cmp_tckt_rel_times t1 t3 = Lt).
Proof.
  unfold __cmp_tckt_deadlines, __cmp_tckt_rel_times.
  repeat split; intros;
    repeat match goal with
           | H : context [if ?c then _ else _] |- _ => destruct c eqn:?
           | |- context [if ?c then _ else _] => destruct c eqn:?
           end; try discriminate; try reflexivity; try lia;
    repeat match goal with H : _ /\ _ |- _ => destruct H end; lia.
Qed.

Section SchedulerQueues.

Variable NR_CPUS : nat.

Lemma insert_into_runnable_Q_keeps p st st' :
  __insert_into_runnable_Q p st = Done st' ->
  tickets st' = tickets st /\
  activation_Q (local_sched st') = activation_Q (local_sched st).
Proof.
  unfold __insert_into_runnable_Q. intros H.
  apply bind_Done_inv in H. destruct H as (t & _ & H).
  apply bind_Done_inv in H. destruct H as (q & _ & H).
  injection H as <-. split; reflexivity.
Qed.

Lemma activate_due_tickets_head now aq : forall st st',
  activation_Q (local_sched st) = aq ->
  activate_due_tickets now aq st = Done st' ->
  match activation_Q (local_sched st') with
  | [] => True
  | ht :: _ => exists t, tickets st' !! ht = Some t /\ now < earliest_start_time t
  end.
Proof.
  induction aq as [|tkt aq IH]; intros st st' Hq Hrun.
  - injection Hrun as <-. rewrite Hq. exact I.
  - cbn [activate_due_tickets] in Hrun.
    apply bind_Done_inv in Hrun. destruct Hrun as (t & Ht & Hrun).
    apply load_Done_inv in Ht.
    destruct (earliest_start_time t <=? now) eqn:Hdue.
    + apply bind_Done_inv in Hrun. destruct Hrun as (st1 & Hrm & Hrun).
      apply bind_Done_inv in Hrun. destruct Hrun as (st2 & Hins & Hrun).
      unfold __remove_from_activation_Q in Hrm.
      apply bind_Done_inv in Hrm. destruct Hrm as (u & _ & Hrm). injection Hrm as <-.
      apply insert_into_runnable_Q_keeps in Hins. destruct Hins as [_ Haq].
      apply (IH st2 st'); [|exact Hrun].
      rewrite Haq, Hq. cbn [RB_REMOVE]. rewrite decide_True by reflexivity.
      destruct (test_bit GSBIT_WAS_WAITING_FOR_EVENT (flags t)); reflexivity.
    + injection Hrun as <-. rewrite Hq. exists t. split; [exact Ht | lia].
Qed.

(** X6.  When [__update_sched_info] returns at a time [now] other than
    INFINITY, the time it returns lies after [now]: it is the earliest
    start time of the head of the activation queue, or INFINITY when
    that queue is empty. *)
Theorem update_sched_info_returns_future_time g now st ea st' :
  __update_sched_info NR_CPUS g now st = Done (ea, st') ->
  now < INFINITY ->
  now < ea /\
  match __head_of_activation_Q st' with
  | None => ea = INFINITY
  | Some ht => exists t, tickets st' !! ht = Some t /\ ea = earliest_start_time t
  end.
Proof.
  intros Hrun Hlt. unfold __update_sched_info in Hrun.
  apply bind_Done_inv in Hrun. destruct Hrun as (st1 & _ & Hrun).
  replace (now =? INFINITY) with false in Hrun by lia.
  apply bind_Done_inv in Hrun. destruct Hrun as (st2 & Hact & Hrun).
  apply (activate_due_tickets_head now _ st1 st2 eq_refl) in Hact.
  unfold __head_of_activation_Q in *.
  destruct (activation_Q (local_sched st2)) as [|ht q] eqn:Hq; simpl in Hrun.
  - injection Hrun as <- <-. rewrite Hq. simpl. auto.
  - apply bind_Done_inv in Hrun. destruct Hrun as (t & Ht & Hrun).
    injection Hrun as <- <-. apply load_Done_inv in Ht. rewrite Hq. simpl.
    destruct Hact as (t' & Ht' & Hfut).
    assert (t' = t) as -> by congruence. split; [exact Hfut|]. eauto.
Qed.

(** *** Draining a local scheduler *)

Lemma free_tickets_spec : forall ps (mem : gmap tkt_ptr sched_ticket_t),
  NoDup ps -> (forall p, p ∈ ps -> is_Some (mem !! p)) ->
  exists mem',
    Pdata.free_tickets ps mem = Done mem' /\
    forall p, mem' !! p = if decide (p ∈ ps) then None else mem !! p.
Proof.
  unfold Pdata.free_tickets.
  induction ps as [|q ps IH]; intros mem Hnd Hall; cbn [ofold].
  - exists mem. split; [reflexivity|]. intros p.
    rewrite decide_False by (intros H; inversion H). reflexivity.
  - apply NoDup_cons in Hnd. destruct Hnd as [Hq Hnd].
    destruct (Hall q) as [t Ht]; [left|].
    assert (Hx : Pdata.xfree mem q = Done (delete q mem)).
    { unfold Pdata.xfree. rewrite Ht. reflexivity. }
    rewrite Hx. simpl.
    destruct (IH (delete q mem) Hnd) as (mem' & Hrun & Hmem').
    + intros p Hp. rewrite lookup_delete_ne by (intros ->; exact (Hq Hp)).
      apply Hall. right. exact Hp.
    + exists mem'. split; [exact Hrun|]. intros p. rewrite Hmem'.
      destruct (decide (p ∈ ps)) as [Hin|Hno].
      * rewrite decide_True by (right; exact Hin). reflexivity.
      * destruct (decide (p = q)) as [->|Hne].
        -- rewrite decide_True by left. apply lookup_delete_eq.
        -- rewrite decide_False by (intros H; apply elem_of_cons in H; tauto).
           apply lookup_delete_ne. congruence.
Qed.

Lemma clean_Q_spec q (mem : gmap tkt_ptr sched_ticket_t) :
  NoDup q -> (forall p, p ∈ q -> is_Some (mem !! p)) ->
  exists mem',
    Pdata.clean_Q q mem = Done mem' /\
    forall p, mem' !! p = if decide (p ∈ q) then None else mem !! p.
Proof.
  intros Hnd Hall. unfold Pdata.clean_Q.
  destruct (free_tickets_spec (reverse q) mem) as (mem' & Hrun & Hmem').
  - rewrite reverse_Permutation. exact Hnd.
  - intros p Hp. apply Hall. apply elem_of_reverse. exact Hp.
  - exists mem'. split; [exact Hrun|]. intros p. rewrite Hmem'.
    destruct (decide (p ∈ reverse q)) as [H1|H1]; destruct (decide (p ∈ q)) as [H2|H2];
      try reflexivity; exfalso; rewrite elem_of_reverse in H1; tauto.
Qed.

Lemma free_current_tickets_loop assigned mem0 tbl :
  gang_inv NR_CPUS assigned mem0 tbl ->
  forall k, (k <= NR_CPUS)%nat ->
  exists cleared mem,
    ofold (Pdata.free_current_ticket_of_cpu tbl) (seq 0 k) (cpumask_clear, mem0)
    = Done (cleared, mem) /\
    (forall c p, tbl !! c = Some (Some p) ->
                 (cpumask_test_cpu c cleared = true <-> mem !! p = None)) /\
    (forall p, mem !! p = None \/ mem !! p = mem0 !! p) /\
    (forall c p, (c < k)%nat -> tbl !! c = Some (Some p) -> mem !! p = None) /\
    (forall p, Some p ∉ tbl -> mem !! p = mem0 !! p).
Proof.
  intros (Hlen & Hslots & Hdisj) k. induction k as [|k IH]; intros Hk.
  - exists cpumask_clear, mem0. split; [reflexivity|]. split.
    + intros c p Hc. destruct (Hslots c p Hc) as (t & Ht & _).
      unfold cpumask_test_cpu, cpumask_clear. rewrite N.bits_0, Ht.
      split; discriminate.
    + split; [auto|]. split; [intros; lia | reflexivity].
  - destruct IH as (cleared & mem & Hrun & I1 & I2 & I3 & I4); [lia|].
    rewrite seq_S, ofold_app, Hrun. simpl.
    destruct (lookup_lt_is_Some_2 tbl k) as [slot Hslot]; [lia|].
    destruct (cpumask_test_cpu k cleared) eqn:Hck; simpl.
    + exists cleared, mem. split; [reflexivity|]. split; [exact I1|].
      split; [exact I2|]. split; [|exact I4].
      intros c p Hc Hcp. destruct (decide (c = k)) as [->|Hne].
      * apply (I1 k p Hcp). exact Hck.
      * apply (I3 c p); [lia | exact Hcp].
    + rewrite Hslot. destruct slot as [p|].
      * destruct (Hslots k p Hslot) as (t & Ht & Hkt & _ & _).
        assert (Hmem : mem !! p = Some t).
        { destruct (I2 p) as [Hnone|Hsame]; [|congruence].
          apply (I1 k p Hslot) in Hnone. congruence. }
        rewrite Hmem.
        exists (cpumask_or cleared (cpumask (dom_info t))), (delete p mem).
        split; [reflexivity|]. split.
        { intros c q Hcq. destruct (decide (q = p)) as [->|Hne].
          - rewrite lookup_delete_eq. split; [reflexivity|]. intros _.
            destruct (Hslots c p Hcq) as (t' & Ht' & Hct & _).
            assert (t' = t) as -> by congruence.
            unfold cpumask_test_cpu, cpumask_or in *. rewrite N.lor_spec, Hct.
            apply orb_true_r.
          - rewrite lookup_delete_ne by congruence. rewrite <- (I1 c q Hcq).
            destruct (Hslots c q Hcq) as (tq & Htq & Hcq' & _).
            pose proof (Hdisj c k q p tq t Hcq Hslot Hne Htq Ht) as Hland.
            unfold cpumask_test_cpu, cpumask_or in *. rewrite N.lor_spec.
            rewrite (land_zero_bits _ _ _ Hland Hcq'). rewrite orb_false_r.
            reflexivity. }
        split.
        { intros q. destruct (decide (q = p)) as [->|Hne].
          - left. apply lookup_delete_eq.
          - rewrite lookup_delete_ne by congruence. apply I2. }
        split.
        { intros c q Hc Hcq. destruct (decide (q = p)) as [->|Hne].
          - apply lookup_delete_eq.
          - rewrite lookup_delete_ne by congruence.
            destruct (decide (c = k)) as [->|Hck']; [congruence|].
            apply (I3 c q); [lia | exact Hcq]. }
        { intros q Hq. destruct (decide (q = p)) as [->|Hne].
          - exfalso. apply Hq. apply list_elem_of_lookup. eauto.
          - rewrite lookup_delete_ne by congruence. apply I4. exact Hq. }
      * exists cleared, mem. split; [reflexivity|]. split; [exact I1|].
        split; [exact I2|]. split; [|exact I4].
        intros c p Hc Hcp. destruct (decide (c = k)) as [->|Hne]; [congruence|].
        apply (I3 c p); [lia | exact Hcp].
Qed.

(** X7.  Draining a local scheduler whose queues and waiting set hold
    allocated tickets, each once, and whose current tickets keep the
    gang invariant and are in neither queue nor in the waiting set: the
    drain completes, every ticket of the queues, of the set and of the
    current-ticket table is freed (each current ticket once), no other
    ticket is touched, and the scheduler is left empty. *)
Theorem deinit_sched_info_frees_each_ticket_once assigned s w destroy mem :
  tickets_waiting_4_event s = Some w ->
  NoDup (edf_runnable_Q s ++ activation_Q s ++ map snd w) ->
  (forall p, p ∈ edf_runnable_Q s ++ activation_Q s ++ map snd w ->
             is_Some (mem !! p)) ->
  gang_inv NR_CPUS assigned mem (cur_ticket_per_cpu s) ->
  (forall c p, cur_ticket_per_cpu s !! c = Some (Some p) ->
               p ∉ edf_runnable_Q s ++ activation_Q s ++ map snd w) ->
  exists mem',
    Pdata.__deinit_sched_info NR_CPUS (Some s) destroy mem
    = Done ({| edf_runnable_Q := []; activation_Q := [];
               tickets_waiting_4_event := if destroy then None else Some [];
               cur_ticket_per_cpu := replicate NR_CPUS None |}, mem') /\
    forall p,
      mem' !! p =
      if decide (p ∈ edf_runnable_Q s ++ activation_Q s ++ map snd w \/
                 Some p ∈ cur_ticket_per_cpu s)
      then None else mem !! p.
Proof.
  intros Hw Hnd Hall Hinv Hsep. unfold Pdata.__deinit_sched_info.
  apply NoDup_app in Hnd. destruct Hnd as (Hnd1 & Hd1 & Hnd).
  apply NoDup_app in Hnd. destruct Hnd as (Hnd2 & Hd2 & Hnd3).
  destruct (clean_Q_spec (edf_runnable_Q s) mem Hnd1) as (m1 & Hr1 & Hm1).
  { intros p Hp. apply Hall. rewrite elem_of_app. left. exact Hp. }
  destruct (clean_Q_spec (activation_Q s) m1 Hnd2) as (m2 & Hr2 & Hm2).
  { intros p Hp. rewrite Hm1.
    rewrite decide_False
      by (intros Hin; apply (Hd1 p Hin); rewrite elem_of_app; left; exact Hp).
    apply Hall. rewrite !elem_of_app. right. left. exact Hp. }
  destruct (free_tickets_spec (map snd w) m2 Hnd3) as (mem1 & Hr3 & Hm3).
  { intros p Hp. rewrite Hm2, Hm1.
    rewrite decide_False by (intros Hin; exact (Hd2 p Hin Hp)).
    rewrite decide_False
      by (intros Hin; apply (Hd1 p Hin); rewrite elem_of_app; right; exact Hp).
    apply Hall. rewrite !elem_of_app. right. right. exact Hp. }
  rewrite Hr1. simpl. rewrite Hr2. simpl. rewrite Hw, Hr3. simpl.
  assert (Hmem1 : forall p, mem1 !! p =
            if decide (p ∈ edf_runnable_Q s ++ activation_Q s ++ map snd w)
            then None else mem !! p).
  { intros p. rewrite Hm3, Hm2, Hm1.
    destruct (decide (p ∈ map snd w)) as [H1|H1];
      destruct (decide (p ∈ activation_Q s)) as [H2|H2];
      destruct (decide (p ∈ edf_runnable_Q s)) as [H3|H3];
      destruct (decide (p ∈ edf_runnable_Q s ++ activation_Q s ++ map snd w))
        as [H4|H4]; try reflexivity; exfalso;
      rewrite !elem_of_app in H4; tauto. }
  assert (Hinv1 : gang_inv NR_CPUS assigned mem1 (cur_ticket_per_cpu s)).
  { destruct Hinv as (Hlen & Hslots & Hdisj). split; [exact Hlen|]. split.
    - intros c p Hc. destruct (Hslots c p Hc) as (t & Ht & Hrest).
      exists t. split; [|exact Hrest]. rewrite Hmem1.
      rewrite decide_False by (apply (Hsep c p Hc)). exact Ht.
    - intros c1 c2 p1 p2 t1 t2 H1 H2 Hne Ht1 Ht2.
      rewrite Hmem1 in Ht1, Ht2.
      rewrite decide_False in Ht1 by (apply (Hsep c1 p1 H1)).
      rewrite decide_False in Ht2 by (apply (Hsep c2 p2 H2)).
      apply (Hdisj c1 c2 p1 p2 t1 t2); assumption. }
  destruct (free_current_tickets_loop assigned mem1 _ Hinv1 NR_CPUS (le_n _))
    as (cleared & mem' & Hrun & I1 & I2 & I3 & I4).
  rewrite Hrun. simpl. exists mem'. split; [reflexivity|].
  intros p. destruct Hinv as (Hlen & _ & _).
  destruct (decide (_ \/ _)) as [[Hq|Hc]|Hno].
  - destruct (I2 p) as [Hnone|Hsame]; [exact Hnone|].
    rewrite Hsame, Hmem1. rewrite decide_True by exact Hq. reflexivity.
  - apply list_elem_of_lookup in Hc. destruct Hc as [c Hc].
    apply (I3 c p); [|exact Hc]. apply lookup_lt_Some in Hc. lia.
  - rewrite I4 by tauto. rewrite Hmem1. rewrite decide_False by tauto. reflexivity.
Qed.

(** A ticket that is in both queues is freed twice: the drain does not
    complete. *)
Lemma deinit_sched_info_double_free s destroy mem p :
  p ∈ edf_runnable_Q s -> p ∈ activation_Q s ->
  forall r, Pdata.__deinit_sched_info NR_CPUS (Some s) destroy mem <> Done r.
Proof.
  intros H1 H2 r H. unfold Pdata.__deinit_sched_info in H.
  inv_bind_as H m1 Hm1. inv_bind_as H m2 Hm2. clear H.
  assert (Hfreed : forall ps (m m' : gmap tkt_ptr sched_ticket_t),
            Pdata.free_tickets ps m = Done m' ->
            (forall q, m !! q = None -> m' !! q = None) /\
            (forall q, q ∈ ps -> is_Some (m !! q) /\ m' !! q = None)).
  { unfold Pdata.free_tickets.
    induction ps as [|a ps IH]; intros m m' Hf; cbn [ofold] in Hf.
    - injection Hf as <-. split; [auto|]. intros q Hq. inversion Hq.
    - inv_bind_as Hf ma Ha. unfold Pdata.xfree in Ha.
      destruct (m !! a) as [ta|] eqn:Ea; [|discriminate]. injection Ha as <-.
      destruct (IH _ _ Hf) as (K1 & K2). split.
      + intros q Hq. apply K1. destruct (decide (q = a)) as [->|Hne].
        * apply lookup_delete_eq.
        * rewrite lookup_delete_ne by congruence. exact Hq.
      + intros q Hq. apply elem_of_cons in Hq. destruct Hq as [->|Hq].
        * split; [rewrite Ea; eauto|]. apply K1. apply lookup_delete_eq.
        * destruct (K2 q Hq) as (K3 & K4). split; [|exact K4].
          destruct (decide (q = a)) as [->|Hne]; [rewrite Ea; eauto|].
          rewrite lookup_delete_ne in K3 by congruence. exact K3. }
  unfold Pdata.clean_Q in Hm1, Hm2.
  destruct (Hfreed _ _ _ Hm1) as (_ & K1).
  destruct (Hfreed _ _ _ Hm2) as (_ & K2).
  destruct (K1 p) as (_ & Hgone); [apply elem_of_reverse; exact H1|].
  destruct (K2 p) as ([t Ht] & _); [apply elem_of_reverse; exact H2|].
  congruence.
Qed.

End SchedulerQueues.

(** *** The theorems above at concrete inputs *)

Lemma sort_domain_infos_sorts_witness :
  exists arr',
    Adjust.__sort_domain_infos unsorted_infos = Done arr' /\
    arr' ≡ₚ unsorted_infos /\
    forall j a b, arr' !! j = Some a -> arr' !! S j = Some b ->
                  Adjust.item_ord a <= Adjust.item_ord b.
Proof.
  apply (sort_domain_infos_sorts unsorted_infos). discriminate.
Defined.

Lemma rejected_putinfo_keeps_state_witness :
  Adjust.gang_adjust_global 4 8 1000 no_memory_in_validation true dom0_caller
    Adjust.XEN_SYSCTL_SCHEDOP_putinfo conf_one pool_configured
  = Done (- Adjust.ENOMEM, pool_configured, conf_one) /\
  pool_configured = pool_configured /\ conf_one = conf_one /\
  (- Adjust.ENOMEM = - Adjust.EPERM \/ - Adjust.ENOMEM = - Adjust.EINVAL \/
   (- Adjust.ENOMEM = - Adjust.ENOMEM /\ true = false) \/
   exists e, (e < length conf_one)%nat /\
     no_memory_in_validation Adjust.in_validation e <> 0%nat /\
     - Adjust.ENOMEM = - Z.of_nat (no_memory_in_validation Adjust.in_validation e)).
Proof.
  split; [reflexivity|].
  apply (rejected_putinfo_keeps_state 4 8 1000 no_memory_in_validation true dom0_caller
           conf_one pool_configured (- Adjust.ENOMEM) pool_configured conf_one).
  - reflexivity.
  - discriminate.
Defined.

Lemma update_domain_infos_result_witness :
  Adjust.__update_domain_infos no_memory_for_second
    (Adjust.copy_domain_info <$> Adjust.domain_list pool_configured) 2 conf_both
  = Done (- Adjust.ENOMEM,
          Adjust.overlay (take 1 conf_both)
            <$> (Adjust.copy_domain_info <$> Adjust.domain_list pool_configured)).
Proof.
  destruct (update_domain_infos_result no_memory_for_second
              (Adjust.copy_domain_info <$> Adjust.domain_list pool_configured) 2 conf_both)
    as (_ & _ & Hstop).
  - apply (bool_decide_unpack _). vm_compute. exact I.
  - apply (bool_decide_unpack _). vm_compute. exact I.
  - simpl. lia.
  - rewrite (Hstop ltac:(simpl; lia) 1%nat (conf_of 2 [2%nat] tt_100_50) eq_refl).
    + rewrite decide_True; [reflexivity|].
      unfold Adjust.named_within. apply (bool_decide_unpack _). vm_compute. exact I.
    + intros j x Hj Hx. assert (j = 0%nat) as -> by lia. injection Hx as <-.
      split; [|reflexivity].
      unfold Adjust.named_within. apply (bool_decide_unpack _). vm_compute. exact I.
    + intros [_ Hok]. discriminate Hok.
Defined.

Lemma update_sched_info_returns_future_time_witness :
  exists ea st',
    __update_sched_info 4 globals4 (ms 1) cpu0_dom2_later = Done (ea, st') /\
    ms 1 < ea /\
    match __head_of_activation_Q st' with
    | None => ea = INFINITY
    | Some ht => exists t, tickets st' !! ht = Some t /\ ea = earliest_start_time t
    end.
Proof.
  destruct (__update_sched_info 4 globals4 (ms 1) cpu0_dom2_later)
    as [[ea st']|c] eqn:E; [|vm_compute in E; discriminate].
  exists ea, st'. split; [reflexivity|].
  apply (update_sched_info_returns_future_time 4 globals4 (ms 1) cpu0_dom2_later ea st' E).
  reflexivity.
Defined.

Lemma deinit_sched_info_frees_each_ticket_once_witness :
  exists mem',
    Pdata.__deinit_sched_info 4 (Some sched_dom1_running) true
      (tickets state_dom1_running)
    = Done ({| edf_runnable_Q := []; activation_Q := [];
               tickets_waiting_4_event := None;
               cur_ticket_per_cpu := replicate 4 None |}, mem') /\
    forall p,
      mem' !! p =
      if decide (p ∈ edf_runnable_Q sched_dom1_running
                     ++ activation_Q sched_dom1_running ++ map snd ([] : list (Z * tkt_ptr)) \/
                 Some p ∈ cur_ticket_per_cpu sched_dom1_running)
      then None else tickets state_dom1_running !! p.
Proof.
  apply (deinit_sched_info_frees_each_ticket_once 4 (mask_of_cpus [0; 1]%nat)
           sched_dom1_running [] true (tickets state_dom1_running)).
  - reflexivity.
  - simpl. apply NoDup_singleton.
  - simpl. intros p Hp. apply list_elem_of_singleton in Hp. subst p.
    eexists. reflexivity.
  - split; [reflexivity|]. split.
    + intros c p Hc.
      assert (Hp : p = 10%nat /\ (c < 2)%nat).
      { destruct c as [|[|[|[|c]]]]; simpl in Hc; try discriminate;
          injection Hc as <-; split; lia. }
      destruct Hp as [-> Hlt].
      eexists. split; [reflexivity|]. split.
      { destruct c as [|[|c]]; [reflexivity | reflexivity | lia]. }
      split; [intros i Hi; exact Hi|].
      intros c' Hc' Hbit.
      destruct c' as [|[|[|[|c']]]]; try reflexivity; try lia;
        vm_compute in Hbit; discriminate.
    + intros c1 c2 p1 p2 t1 t2 H1 H2 Hne.
      assert (p1 = 10%nat).
      { destruct c1 as [|[|[|[|c1]]]]; simpl in H1; try discriminate;
          injection H1 as <-; reflexivity. }
      assert (p2 = 10%nat).
      { destruct c2 as [|[|[|[|c2]]]]; simpl in H2; try discriminate;
          injection H2 as <-; reflexivity. }
      congruence.
  - intros c p Hc.
    assert (p = 10%nat) as ->.
    { destruct c as [|[|[|[|c]]]]; simpl in Hc; try discriminate;
        injection Hc as <-; reflexivity. }
    simpl. intros H. apply list_elem_of_singleton in H. discriminate.
Defined.

(** ** Scheduler initialisation *)

Section GangInitProperties.
Import GangInit.

Lemma ms_2_ns_small n : 0 <= n <= 1000000 -> ms_2_ns n = n * 1000000.
Proof. intros H. unfold ms_2_ns. apply s64_id. lia. Qed.

(** X8.  [gang_init] with memory, a positive time grain and a period within
    2^55 ns: it stops at [BUG_ON] exactly when the reservation for
    best-effort domains is 0; otherwise it returns 0, a reservation
    above 100 becomes 10, the period is at least 100 grains, the quantum
    is the reserved share of the period and at least one grain, and the
    adopted bound of the adjustment time is the given one, or 100 ms
    when that is below 10 ms: it is never below 10 ms, so that the
    fallback of 2 ms is never taken. *)
Theorem gang_init_adopts_parameters us s :
  0 < us < 2^31 ->
  0 <= sched_gang_cpu_rsrv_4_be_doms s < 256 ->
  0 <= sched_gang_period_4_be_doms s <= 2^55 ->
  if sched_gang_cpu_rsrv_4_be_doms s =? 0
  then gang_init true us s = Crash BUG
  else exists s',
    gang_init true us s = Done (0, s') /\
    sched_gang_cpu_rsrv_4_be_doms s' =
      (if sched_gang_cpu_rsrv_4_be_doms s >? 100 then 10
       else sched_gang_cpu_rsrv_4_be_doms s) /\
    __period_4_be_doms s' = Z.max (sched_gang_period_4_be_doms s) (100 * (us * 1000)) /\
    __quantum_4_be_doms s' =
      (__period_4_be_doms s' * sched_gang_cpu_rsrv_4_be_doms s') / 100 /\
    us * 1000 <= __quantum_4_be_doms s' <= __period_4_be_doms s' /\
    __adj_time_upper_bound s' =
      (if sched_gang_adj_time_upper_bound s <? 10 * 1000000 then 100 * 1000000
       else sched_gang_adj_time_upper_bound s) /\
    10 * 1000000 <= __adj_time_upper_bound s'.
Proof.
  intros Hus Hr Hp. unfold gang_init. cbn [negb].
  unfold MAX_CPU_RESERV_4_BE_DOMAINS, MIN_CPU_RESERV_4_BE_DOMAINS,
    DEFAULT_CPU_RESERV_4_BE_DOMAINS, MAX_ADJ_TIME_UPPER_BOUND,
    MIN_ADJ_TIME_UPPER_BOUND, DEFAULT_ADJ_TIME_UPPER_BOUND.
  rewrite !ms_2_ns_small by lia.
  assert (Hg : us_2_ns us = us * 1000) by (unfold us_2_ns; apply s64_id; lia).
  rewrite Hg. rewrite (s64_id (100 * (us * 1000))) by lia.
  set (r := if (sched_gang_cpu_rsrv_4_be_doms s >? 100) ||
               (sched_gang_cpu_rsrv_4_be_doms s <? 0)
            then 10 else sched_gang_cpu_rsrv_4_be_doms s).
  set (p := if sched_gang_period_4_be_doms s <? 100 * (us * 1000)
            then 100 * (us * 1000) else sched_gang_period_4_be_doms s).
  assert (Hr' : r = if sched_gang_cpu_rsrv_4_be_doms s >? 100 then 10
                    else sched_gang_cpu_rsrv_4_be_doms s).
  { unfold r. replace (sched_gang_cpu_rsrv_4_be_doms s <? 0) with false by lia.
    rewrite orb_false_r. reflexivity. }
  assert (Hp' : p = Z.max (sched_gang_period_4_be_doms s) (100 * (us * 1000))).
  { unfold p. destruct (sched_gang_period_4_be_doms s <? 100 * (us * 1000)) eqn:E; lia. }
  assert (Hrr : 0 <= r <= 100).
  { rewrite Hr'. destruct (sched_gang_cpu_rsrv_4_be_doms s >? 100) eqn:E; lia. }
  assert (Hpr : 100 * (us * 1000) <= p <= 2^55) by lia.
  rewrite (s64_id (p * r)) by nia.
  rewrite Z.quot_div_nonneg by nia.
  destruct (sched_gang_cpu_rsrv_4_be_doms s =? 0) eqn:Hz.
  - assert (r = 0) as -> by (rewrite Hr'; destruct (sched_gang_cpu_rsrv_4_be_doms s >? 100) eqn:E; lia).
    rewrite Z.mul_0_r. change (0 / 100) with 0.
    replace (0 <? us * 1000) with true by lia. reflexivity.
  - assert (1 <= r) by (rewrite Hr'; destruct (sched_gang_cpu_rsrv_4_be_doms s >? 100) eqn:E; lia).
    assert (Hq : us * 1000 <= p * r / 100 <= p).
    { split.
      - apply Z.div_le_lower_bound; nia.
      - apply Z.div_le_upper_bound; nia. }
    replace (p * r / 100 <? us * 1000) with false by lia. cbn [BUG_ON].
    set (a := if sched_gang_adj_time_upper_bound s >? 500 * 1000000
              then sched_gang_adj_time_upper_bound s
              else if sched_gang_adj_time_upper_bound s <? 10 * 1000000
                   then 100 * 1000000 else sched_gang_adj_time_upper_bound s).
    assert (Ha : a = if sched_gang_adj_time_upper_bound s <? 10 * 1000000
                     then 100 * 1000000 else sched_gang_adj_time_upper_bound s).
    { unfold a. destruct (sched_gang_adj_time_upper_bound s >? 500 * 1000000) eqn:E1;
        destruct (sched_gang_adj_time_upper_bound s <? 10 * 1000000) eqn:E2; lia. }
    assert (Ha10 : 10 * 1000000 <= a).
    { rewrite Ha. destruct (sched_gang_adj_time_upper_bound s <? 10 * 1000000) eqn:E; lia. }
    assert (Ht : (a ÷ (1 * 1000000) ÷ 2 <? 1) = false).
    { apply Z.ltb_ge. rewrite (Z.quot_div_nonneg a) by lia.
      rewrite Z.quot_div_nonneg by (try lia; apply Z.div_pos; lia).
      apply Z.div_le_lower_bound; [lia|]. apply Z.div_le_lower_bound; lia. }
    simpl. fold a. rewrite Ht.
    eexists. split; [reflexivity|]. cbn.
    repeat split; try assumption; try lia.
Qed.

End GangInitProperties.

Lemma gang_init_adopts_parameters_witness :
  exists s',
    GangInit.gang_init true 1000 (GangInit.at_boot 200) = Done (0, s') /\
    GangInit.sched_gang_cpu_rsrv_4_be_doms s' = 10 /\
    GangInit.__period_4_be_doms s' = 100000000 /\
    GangInit.__quantum_4_be_doms s' = 10000000 /\
    GangInit.__adj_time_upper_bound s' = 100000000.
Proof.
  pose proof (gang_init_adopts_parameters 1000 (GangInit.at_boot 200)
                ltac:(lia) ltac:(cbn; lia)
                ltac:(vm_compute; split; intros H; discriminate H)) as H.
  cbn in H. destruct H as (s' & Hrun & H1 & H2 & H3 & _ & H5 & _).
  exists s'. split; [exact Hrun|].
  rewrite H3, H2, H1, H5. vm_compute. repeat split; reflexivity.
Defined.

(** ** The activation time of a ticket after a global adjustment *)

Lemma adjust_activation_time_spec start_at actv_time period :
  0 < period < 2^61 ->
  - 2^61 <= actv_time < 2^61 -> - 2^61 <= start_at < 2^61 ->
  exists r,
    Reseed.__adjust_activation_time start_at actv_time period = Done r /\
    start_at <= r /\ actv_time <= r /\ (r - actv_time) mod period = 0 /\
    forall r', start_at <= r' -> actv_time <= r' ->
               (r' - actv_time) mod period = 0 -> r <= r'.
Proof.
  intros Hp Ha Hs. unfold Reseed.__adjust_activation_time.
  destruct (actv_time <? start_at) eqn:Hlt.
  - apply Z.ltb_lt in Hlt.
    rewrite (s64_id (start_at - actv_time)) by lia.
    set (diff := start_at - actv_time).
    assert (Hdiff : 0 < diff < 2^63) by (unfold diff; lia).
    replace (period =? 0) with false by lia.
    replace (period =? -1) with false by lia. cbn [orb andb].
    rewrite Z.rem_mod_nonneg, Z.quot_div_nonneg by lia.
    pose proof (Z.div_mod diff period ltac:(lia)) as Hdm.
    pose proof (Z.mod_pos_bound diff period ltac:(lia)) as Hmod.
    assert (Hq : 0 <= diff / period <= diff).
    { split; [apply Z.div_pos; lia | apply Z.div_le_upper_bound; nia]. }
    set (k := if negb (diff mod period =? 0)
              then s64 (diff / period + 1) else diff / period).
    assert (Hk : k = if diff mod period =? 0 then diff / period
                     else diff / period + 1).
    { unfold k. destruct (diff mod period =? 0) eqn:E; cbn [negb]; [reflexivity|].
      apply s64_id. apply Z.eqb_neq in E.
      assert (2 * (diff / period) <= period * (diff / period)) by nia. lia. }
    assert (Hkp : diff <= k * period < diff + period /\ 0 <= k).
    { rewrite Hk. destruct (diff mod period =? 0) eqn:E; nia. }
    rewrite (s64_id (k * period)) by lia.
    rewrite (s64_id (actv_time + k * period)) by (unfold diff in *; lia).
    eexists. split; [reflexivity|].
    split; [unfold diff in *; lia|]. split; [nia|]. split.
    + replace (actv_time + k * period - actv_time) with (k * period) by lia.
      apply Z.mod_mul. lia.
    + intros r' Hr1 Hr2 Hr3.
      apply Z.mod_divide in Hr3; [|lia]. destruct Hr3 as [m Hm].
      assert (k <= m) by (unfold diff in *; nia). nia.
  - apply Z.ltb_ge in Hlt. exists actv_time. split; [reflexivity|].
    split; [lia|]. split; [lia|]. split.
    + rewrite Z.sub_diag. apply Z.mod_0_l. lia.
    + intros; lia.
Qed.

(** X9.  [__adjust_activation_time] returns the first activation at or after
    [start_at] of the periodic sequence [actv_time],
    [actv_time + period], ...: the result is not before [start_at], is
    [actv_time] plus a whole number of periods (none when [actv_time]
    is not before [start_at]), and no earlier time has both
    properties. *)
Theorem adjust_activation_time_is_first_activation start_at actv_time period :
  0 < period < 2^61 ->
  - 2^61 <= actv_time < 2^61 -> - 2^61 <= start_at < 2^61 ->
  exists r,
    Reseed.__adjust_activation_time start_at actv_time period = Done r /\
    start_at <= r /\ actv_time <= r /\ (r - actv_time) mod period = 0 /\
    forall r', start_at <= r' -> actv_time <= r' ->
               (r' - actv_time) mod period = 0 -> r <= r'.
Proof. exact (adjust_activation_time_spec start_at actv_time period). Qed.

Lemma adjust_activation_time_is_first_activation_witness :
  exists r,
    Reseed.__adjust_activation_time 250 30 100 = Done r /\
    250 <= r /\ 30 <= r /\ (r - 30) mod 100 = 0 /\
    forall r', 250 <= r' -> 30 <= r' -> (r' - 30) mod 100 = 0 -> r <= r'.
Proof.
  apply (adjust_activation_time_is_first_activation 250 30 100); lia.
Defined.

(** ** The tickets of a local scheduler across a decision *)

Section TicketsKept.
Import TicketsHeld.

Variable NR_CPUS : nat.

Lemma domain_of_Some tks p t : tks !! p = Some t -> domain_of tks p = Some (dom_info t).
Proof. unfold domain_of. intros ->. reflexivity. Qed.

Lemma domain_of_insert tks p t t' q :
  tks !! p = Some t -> dom_info t' = dom_info t ->
  domain_of (<[p := t']> tks) q = domain_of tks q.
Proof.
  intros Hp Hd. unfold domain_of. destruct (decide (p = q)) as [<-|Hne].
  - rewrite lookup_insert_eq, Hp. simpl. rewrite Hd. reflexivity.
  - rewrite lookup_insert_ne by exact Hne. reflexivity.
Qed.

Lemma same_domains_refl tks : same_domains tks tks.
Proof. intros p. reflexivity. Qed.

Lemma same_domains_trans a b c :
  same_domains a b -> same_domains b c -> same_domains a c.
Proof. intros H1 H2 p. rewrite H2. apply H1. Qed.

Lemma same_domains_insert tks p t t' :
  tks !! p = Some t -> dom_info t' = dom_info t -> same_domains tks (<[p := t']> tks).
Proof. intros Hp Hd q. exact (domain_of_insert tks p t t' q Hp Hd). Qed.

Lemma one_ticket_per_domain_ext tks tks' (P Q : tkt_ptr -> Prop) :
  same_domains tks tks' -> (forall p, Q p -> P p) ->
  one_ticket_per_domain tks P -> one_ticket_per_domain tks' Q.
Proof.
  intros Hs Hsub H p q d e Hp Hq Hdp Hdq. rewrite Hs in Hdp, Hdq.
  apply (H p q d e); auto.
Qed.

Lemma domains_have_cpu_ext tks tks' (P Q : tkt_ptr -> Prop) :
  same_domains tks tks' -> (forall p, Q p -> P p) ->
  domains_have_cpu NR_CPUS tks P -> domains_have_cpu NR_CPUS tks' Q.
Proof.
  intros Hs Hsub H p d Hp Hdp. rewrite Hs in Hdp. apply (H p d); auto.
Qed.

Lemma store_same st p t : tickets st !! p = Some t -> store p t st = st.
Proof.
  intros H. destruct st as [tks s]. unfold store. cbn in *. f_equal.
  apply insert_id. exact H.
Qed.

Lemma RB_REMOVE_head p q : RB_REMOVE p (p :: q) = q.
Proof. cbn [RB_REMOVE]. rewrite decide_True by reflexivity. reflexivity. Qed.

Lemma insert_into_activation_Q_perm held p st st' :
  one_ticket_per_domain (tickets st) held -> held p ->
  (forall h, h ∈ activation_Q (local_sched st) -> held h) ->
  p ∉ activation_Q (local_sched st) ->
  __insert_into_activation_Q p st = Done st' ->
  tickets st' = tickets st /\
  edf_runnable_Q (local_sched st') = edf_runnable_Q (local_sched st) /\
  cur_ticket_per_cpu (local_sched st') = cur_ticket_per_cpu (local_sched st) /\
  activation_Q (local_sched st') ≡ₚ p :: activation_Q (local_sched st).
Proof.
  intros Hone Hp Hheld Hnew H. unfold __insert_into_activation_Q in H.
  inv_bind_as H t Ht. apply load_Done_inv in Ht.
  inv_bind_as H q Hq. injection H as <-. cbn.
  split; [reflexivity|]. split; [reflexivity|]. split; [reflexivity|].
  apply (RB_INSERT_perm _ _ _ _ _ _ Hq).
  intros h th Hh Hth Heq. apply cmp_tckt_rel_times_Eq in Heq.
  apply Hnew. rewrite (Hone p h (dom_info t) (dom_info th)); auto using domain_of_Some.
Qed.

Lemma insert_into_runnable_Q_perm held p st st' :
  one_ticket_per_domain (tickets st) held -> held p ->
  (forall h, h ∈ edf_runnable_Q (local_sched st) -> held h) ->
  p ∉ edf_runnable_Q (local_sched st) ->
  __insert_into_runnable_Q p st = Done st' ->
  tickets st' = tickets st /\
  activation_Q (local_sched st') = activation_Q (local_sched st) /\
  cur_ticket_per_cpu (local_sched st') = cur_ticket_per_cpu (local_sched st) /\
  edf_runnable_Q (local_sched st') ≡ₚ p :: edf_runnable_Q (local_sched st).
Proof.
  intros Hone Hp Hheld Hnew H. unfold __insert_into_runnable_Q in H.
  inv_bind_as H t Ht. apply load_Done_inv in Ht.
  inv_bind_as H q Hq. injection H as <-. cbn.
  split; [reflexivity|]. split; [reflexivity|]. split; [reflexivity|].
  apply (RB_INSERT_perm _ _ _ _ _ _ Hq).
  intros h th Hh Hth Heq. apply cmp_tckt_deadlines_Eq in Heq.
  apply Hnew. rewrite (Hone p h (dom_info t) (dom_info th)); auto using domain_of_Some.
Qed.

(** *** The current tickets go back to the activation queue *)

Lemma rearm_ticket_dom g now t t2 :
  rearm_ticket g now t = Done t2 -> dom_info t2 = dom_info t.
Proof.
  unfold rearm_ticket. intros H.
  destruct (tm_muxing_spec (dom_info t)); try discriminate H;
    destruct (remaining_time t <? MARGIN);
    repeat (let a := fresh "a" in let Ha := fresh "Ha" in
            apply bind_Done_inv in H; destruct H as (a & Ha & H));
    injection H as <-; reflexivity.
Qed.

Lemma update_times_normal g tkt now st st1 :
  __update_times_in_ticket g tkt now NORMAL_SCHEDULING st = Done st1 ->
  exists t t2, tickets st !! tkt = Some t /\ dom_info t2 = dom_info t /\
    __insert_into_activation_Q tkt (store tkt t2 st) = Done st1.
Proof.
  unfold __update_times_in_ticket. intros H.
  inv_bind_as H t Ht. apply load_Done_inv in Ht.
  inv_bind_as H found Hfound. inv_bind_as H u1 Hu1. inv_bind_as H u2 Hu2.
  inv_bind_as H u3 Hu3. inv_bind_as H u4 Hu4. inv_bind_as H u5 Hu5.
  change (NORMAL_SCHEDULING =? NORMAL_SCHEDULING) with true in H. cbv iota in H.
  destruct (is_no_muxing (tm_muxing_spec (dom_info t))).
  - exists t, t. split; [exact Ht|]. split; [reflexivity|].
    rewrite (store_same _ _ _ Ht). exact H.
  - cbv zeta in H. destruct (s64 (now - activated_at t) <? MIN_NEGATIVE_DIFF);
      [discriminate|].
    inv_bind_as H t2 Ht2. apply rearm_ticket_dom in Ht2.
    exists t, t2. split; [exact Ht|]. split; [exact Ht2 | exact H].
Qed.

(** The loop of [__update_current_tickets] after [k] CPUs: the tickets
    of the first [k] slots have joined the activation queue, each once,
    and [checked_cpus] covers the slots of these tickets. *)
Lemma update_current_tickets_loop g now assigned st0 :
  gang_inv NR_CPUS assigned (tickets st0) (cur_ticket_per_cpu (local_sched st0)) ->
  one_ticket_per_domain (tickets st0) (holds (local_sched st0)) ->
  NoDup (activation_Q (local_sched st0)) ->
  (forall p, Some p ∈ cur_ticket_per_cpu (local_sched st0) ->
             p ∉ activation_Q (local_sched st0)) ->
  forall k checked st,
  ofold (update_current_ticket_of_cpu g now) (seq 0 k) (cpumask_clear, st0)
  = Done (checked, st) ->
  same_domains (tickets st0) (tickets st) /\
  edf_runnable_Q (local_sched st) = edf_runnable_Q (local_sched st0) /\
  cur_ticket_per_cpu (local_sched st) = cur_ticket_per_cpu (local_sched st0) /\
  NoDup (activation_Q (local_sched st)) /\
  (forall p, p ∈ activation_Q (local_sched st) <->
     p ∈ activation_Q (local_sched st0) \/
     exists c, (c < k)%nat /\ cur_ticket_per_cpu (local_sched st0) !! c = Some (Some p)) /\
  (forall c p, cur_ticket_per_cpu (local_sched st0) !! c = Some (Some p) ->
     (cpumask_test_cpu c checked = true <->
      exists c', (c' < k)%nat /\ cur_ticket_per_cpu (local_sched st0) !! c' = Some (Some p))).
Proof.
  intros (Hlen & Hslots & Hdisj) Hone Hnd Hapart.
  set (T := cur_ticket_per_cpu (local_sched st0)) in *.
  induction k as [|k IH]; intros checked st H.
  - cbn in H. injection H as <- <-.
    split; [apply same_domains_refl|]. split; [reflexivity|]. split; [reflexivity|].
    split; [exact Hnd|]. split.
    + intros p. split; [auto|]. intros [Hp|(c & Hc & _)]; [exact Hp | lia].
    + intros c p Hc. unfold cpumask_test_cpu, cpumask_clear. rewrite N.bits_0.
      split; [discriminate|]. intros (c' & Hc' & _). lia.
  - rewrite seq_S, ofold_app in H. simpl in H.
    inv_bind_as H acc Hacc. destruct acc as [checked1 st1].
    destruct (IH _ _ Hacc) as (Hdom & Hrq & Htbl & Hnd1 & Haq & Hchk). clear IH Hacc.
    inv_bind_as H acc Hstep. injection H as ->.
    unfold update_current_ticket_of_cpu in Hstep.
    assert (Hsame : forall p0,
              (exists c, (c < k)%nat /\ T !! c = Some (Some p0)) ->
              exists c, (c < S k)%nat /\ T !! c = Some (Some p0)).
    { intros p0 (c & Hc & Hcp). exists c. split; [lia | exact Hcp]. }
    assert (Hskip : (forall p, T !! k = Some (Some p) ->
                        exists c', (c' < k)%nat /\ T !! c' = Some (Some p)) ->
              forall p0,
              (exists c, (c < S k)%nat /\ T !! c = Some (Some p0)) ->
              exists c, (c < k)%nat /\ T !! c = Some (Some p0)).
    { intros Hk p0 (c & Hc & Hcp). destruct (decide (c = k)) as [->|Hne].
      - apply Hk. exact Hcp.
      - exists c. split; [lia | exact Hcp]. }
    destruct (cpumask_test_cpu k checked1) eqn:Hck; cbn [negb] in Hstep; cbv iota in Hstep.
    + (* the CPU is covered: its ticket has been handled *)
      injection Hstep as <- <-.
      assert (Hk : forall p, T !! k = Some (Some p) ->
                     exists c', (c' < k)%nat /\ T !! c' = Some (Some p)).
      { intros p Hp. apply (Hchk k p Hp). exact Hck. }
      split; [exact Hdom|]. split; [exact Hrq|]. split; [exact Htbl|].
      split; [exact Hnd1|]. split.
      * intros p. rewrite Haq. split; (intros [Hp|Hp]; [left; exact Hp | right]).
        -- apply Hsame. exact Hp.
        -- apply (Hskip Hk). exact Hp.
      * intros c p Hc. rewrite (Hchk c p Hc). split.
        -- apply Hsame.
        -- apply (Hskip Hk).
    + rewrite Htbl in Hstep. fold T in Hstep.
      destruct (T !! k) as [[tkt|]|] eqn:Hslot; [| |discriminate].
      * (* a ticket that has not been handled *)
        inv_bind_as Hstep t Ht. apply load_Done_inv in Ht.
        inv_bind_as Hstep st2 Hupd. inv_bind_as Hstep t' Ht'.
        apply load_Done_inv in Ht'. injection Hstep as <- <-.
        destruct (update_times_normal _ _ _ _ _ Hupd) as (t0 & t2 & Ht0 & Hd2 & Hins).
        assert (t0 = t) as -> by congruence.
        assert (Hnot : ~ exists c', (c' < k)%nat /\ T !! c' = Some (Some tkt)).
        { intros Hex. apply (Hchk k tkt Hslot) in Hex. congruence. }
        assert (HinT : Some tkt ∈ T) by (apply list_elem_of_lookup; eauto).
        assert (Hnew : tkt ∉ activation_Q (local_sched st1)).
        { rewrite Haq. intros [Hp|Hp]; [exact (Hapart tkt HinT Hp) | exact (Hnot Hp)]. }
        assert (Hdom1 : same_domains (tickets st0) (tickets (store tkt t2 st1))).
        { apply (same_domains_trans _ (tickets st1)); [exact Hdom|].
          apply same_domains_insert with (t := t); assumption. }
        assert (Hheld : forall h, h ∈ activation_Q (local_sched st1) ->
                                  holds (local_sched st0) h).
        { intros h Hh. apply Haq in Hh. destruct Hh as [Hh|(c & _ & Hc)].
          - right. left. exact Hh.
          - right. right. apply list_elem_of_lookup. eauto. }
        destruct (insert_into_activation_Q_perm (holds (local_sched st0)) tkt
                    (store tkt t2 st1) st2) as (Htk & Hrq2 & Htbl2 & Hperm).
        { apply (one_ticket_per_domain_ext (tickets st0) _ (holds (local_sched st0)));
            [exact Hdom1 | auto | exact Hone]. }
        { right. right. exact HinT. }
        { exact Hheld. }
        { exact Hnew. }
        { exact Hins. }
        cbn in Htk, Hrq2, Htbl2, Hperm.
        (* the domain of the ticket is that of the table's invariant *)
        destruct (Hslots k tkt Hslot) as (tk0 & Htk0 & Hbit0 & _ & _).
        assert (Hdi : dom_info t = dom_info tk0).
        { pose proof (Hdom tkt) as Hd. unfold domain_of in Hd.
          rewrite Ht, Htk0 in Hd. cbn in Hd. congruence. }
        split.
        { cbn. apply (same_domains_trans _ (tickets st2)).
          - rewrite Htk. exact Hdom1.
          - apply same_domains_insert with (t := t'); [exact Ht' | reflexivity]. }
        split; [cbn; congruence|]. split; [cbn; congruence|].
        split; [cbn; rewrite Hperm; apply NoDup_cons_2; assumption|]. split.
        { intros p. cbn. rewrite Hperm, elem_of_cons, Haq. split.
          - intros [->|[Hp|Hp]].
            + right. exists k. split; [lia | exact Hslot].
            + left. exact Hp.
            + right. apply Hsame. exact Hp.
          - intros [Hp|(c & Hc & Hcp)]; [right; left; exact Hp|].
            destruct (decide (c = k)) as [->|Hne].
            + left. congruence.
            + right. right. exists c. split; [lia | exact Hcp]. }
        { intros c p Hc. unfold cpumask_test_cpu, cpumask_or. rewrite N.lor_spec.
          rewrite Hdi. destruct (decide (p = tkt)) as [->|Hne].
          - destruct (Hslots c tkt Hc) as (tc & Htc & Hbitc & _ & _).
            assert (tc = tk0) as -> by congruence.
            unfold cpumask_test_cpu in Hbitc. rewrite Hbitc, orb_true_r.
            split; [|reflexivity]. intros _. exists k. split; [lia | exact Hslot].
          - destruct (Hslots c p Hc) as (tp & Htp & Hbitp & _ & _).
            pose proof (Hdisj c k p tkt tp tk0 Hc Hslot Hne Htp Htk0) as Hland.
            unfold cpumask_test_cpu in Hbitp.
            rewrite (land_zero_bits _ _ _ Hland Hbitp), orb_false_r.
            fold (cpumask_test_cpu c checked1). rewrite (Hchk c p Hc). split.
            + apply Hsame.
            + intros (c' & Hc' & Hcp'). destruct (decide (c' = k)) as [->|Hck'].
              * congruence.
              * exists c'. split; [lia | exact Hcp']. }
      * (* an empty slot *)
        injection Hstep as <- <-.
        split; [exact Hdom|]. split; [exact Hrq|]. split; [exact Htbl|].
        split; [exact Hnd1|]. split.
        -- intros p. rewrite Haq. split; (intros [Hp|Hp]; [left; exact Hp | right]).
           ++ apply Hsame. exact Hp.
           ++ apply Hskip; [intros p0 Hp0; discriminate Hp0 | exact Hp].
        -- intros c p Hc. rewrite (Hchk c p Hc). split.
           ++ apply Hsame.
           ++ apply Hskip. intros p0 Hp0. discriminate Hp0.
Qed.

(** [__update_current_tickets]: every current ticket is again in the
    activation queue, and the table is empty. *)
Lemma update_current_tickets_moves g now st st1 :
  tickets_in_order NR_CPUS st ->
  __update_current_tickets NR_CPUS g now st = Done st1 ->
  same_domains (tickets st) (tickets st1) /\
  cur_ticket_per_cpu (local_sched st1) = replicate NR_CPUS None /\
  NoDup (edf_runnable_Q (local_sched st1) ++ activation_Q (local_sched st1)) /\
  (forall p, p ∈ edf_runnable_Q (local_sched st1) ++ activation_Q (local_sched st1) <->
             holds (local_sched st) p).
Proof.
  intros (Hnd & Hapart & Hone & _ & assigned & Hinv) H.
  unfold __update_current_tickets in H. inv_bind_as H acc Hloop.
  destruct acc as [checked st2]. injection H as <-.
  apply NoDup_app in Hnd. destruct Hnd as (Hndr & Hnda & Hndq).
  destruct (update_current_tickets_loop g now assigned st Hinv Hone Hndq) with
    (k := NR_CPUS) (checked := checked) (st := st2)
    as (Hdom & Hrq & Htbl & Hnd2 & Haq & _).
  { intros p Hp Hq. apply (Hapart p Hp). apply elem_of_app. right. exact Hq. }
  { exact Hloop. }
  assert (Hcur : forall p,
            (exists c, (c < NR_CPUS)%nat /\
                       cur_ticket_per_cpu (local_sched st) !! c = Some (Some p)) <->
            Some p ∈ cur_ticket_per_cpu (local_sched st)).
  { intros p. rewrite list_elem_of_lookup. destruct Hinv as (Hlen & _). split.
    - intros (c & _ & Hc). eauto.
    - intros (c & Hc). exists c. split; [|exact Hc].
      apply lookup_lt_Some in Hc. lia. }
  cbn. split; [exact Hdom|]. split; [reflexivity|]. rewrite Hrq. split.
  - apply NoDup_app. split; [exact Hndr|]. split; [|exact Hnd2].
    intros p Hp Hq. apply Haq in Hq. destruct Hq as [Hq|Hq].
    + exact (Hnda p Hp Hq).
    + apply Hcur in Hq. apply (Hapart p Hq). apply elem_of_app. left. exact Hp.
  - intros p. rewrite elem_of_app, Haq, Hcur. unfold holds. tauto.
Qed.

(** *** The due tickets become runnable *)

Lemma activate_due_tickets_perm (held : tkt_ptr -> Prop) now : forall aq st st',
  activation_Q (local_sched st) = aq ->
  NoDup (edf_runnable_Q (local_sched st) ++ aq) ->
  one_ticket_per_domain (tickets st) held ->
  (forall p, p ∈ edf_runnable_Q (local_sched st) ++ aq -> held p) ->
  activate_due_tickets now aq st = Done st' ->
  same_domains (tickets st) (tickets st') /\
  edf_runnable_Q (local_sched st') ++ activation_Q (local_sched st')
  ≡ₚ edf_runnable_Q (local_sched st) ++ aq.
Proof.
  induction aq as [|tkt aq IH]; intros st st' Hq Hnd Hone Hheld H;
    cbn [activate_due_tickets] in H.
  - injection H as <-. rewrite Hq. split; [apply same_domains_refl | reflexivity].
  - inv_bind_as H t Ht. apply load_Done_inv in Ht.
    destruct (earliest_start_time t <=? now);
      [|injection H as <-; rewrite Hq; split; [apply same_domains_refl | reflexivity]].
    inv_bind_as H st1 Hrm. unfold __remove_from_activation_Q in Hrm.
    inv_bind_as Hrm u Hu. injection Hrm as <-. rewrite Hq, RB_REMOVE_head in H.
    inv_bind_as H st2 Hins.
    set (st1 := if test_bit GSBIT_WAS_WAITING_FOR_EVENT (flags t)
                then store tkt (set_flags (clear_bit GSBIT_WAS_WAITING_FOR_EVENT (flags t)) t)
                       (set_activation_Q aq st)
                else set_activation_Q aq st) in *.
    assert (Hst1 : same_domains (tickets st) (tickets st1) /\
                   local_sched st1 = local_sched (set_activation_Q aq st)).
    { unfold st1. destruct (test_bit GSBIT_WAS_WAITING_FOR_EVENT (flags t)).
      - split; [|reflexivity]. cbn. apply same_domains_insert with (t := t);
          [exact Ht | reflexivity].
      - split; [apply same_domains_refl | reflexivity]. }
    destruct Hst1 as [Hdom1 Hls1].
    pose proof Hnd as Hnd0.
    apply NoDup_app in Hnd. destruct Hnd as (Hndr & Hnda & Hndq).
    destruct (insert_into_runnable_Q_perm held tkt st1 st2)
      as (Htk & Haq2 & _ & Hperm).
    { apply (one_ticket_per_domain_ext (tickets st) _ held); [exact Hdom1 | auto | exact Hone]. }
    { apply Hheld. apply elem_of_app. right. left. }
    { intros h Hh. rewrite Hls1 in Hh. cbn in Hh. apply Hheld.
      apply elem_of_app. left. exact Hh. }
    { rewrite Hls1. cbn. intros Hin. apply (Hnda tkt Hin). left. }
    { exact Hins. }
    rewrite Hls1 in Haq2, Hperm. cbn in Haq2, Hperm.
    assert (Hall : edf_runnable_Q (local_sched st2) ++ aq
                   ≡ₚ edf_runnable_Q (local_sched st) ++ tkt :: aq).
    { rewrite Hperm. cbn. apply Permutation_middle. }
    destruct (IH st2 st') as [Hdom2 Hperm2].
    + exact Haq2.
    + rewrite Hall. exact Hnd0.
    + apply (one_ticket_per_domain_ext (tickets st) _ held); [|auto | exact Hone].
      rewrite Htk. exact Hdom1.
    + intros p Hp. apply Hheld. rewrite <- Hall. exact Hp.
    + exact H.
    + split.
      * apply (same_domains_trans _ (tickets st2)); [|exact Hdom2].
        rewrite Htk. exact Hdom1.
      * rewrite Hperm2. exact Hall.
Qed.

Lemma update_sched_info_moves g now st ea st1 :
  tickets_in_order NR_CPUS st ->
  __update_sched_info NR_CPUS g now st = Done (ea, st1) ->
  same_domains (tickets st) (tickets st1) /\
  cur_ticket_per_cpu (local_sched st1) = replicate NR_CPUS None /\
  NoDup (edf_runnable_Q (local_sched st1) ++ activation_Q (local_sched st1)) /\
  (forall p, p ∈ edf_runnable_Q (local_sched st1) ++ activation_Q (local_sched st1) <->
             holds (local_sched st) p).
Proof.
  intros Hord H. pose proof (update_sched_info_table NR_CPUS _ _ _ _ _ H) as Htbl.
  unfold __update_sched_info in H. inv_bind_as H st2 Hcur.
  destruct (update_current_tickets_moves g now st st2 Hord Hcur)
    as (Hdom & _ & Hnd & Hel).
  destruct Hord as (_ & _ & Hone & _).
  destruct (now =? INFINITY).
  { injection H as _ <-. auto. }
  inv_bind_as H st3 Hact.
  destruct (activate_due_tickets_perm (holds (local_sched st)) now _ st2 st3 eq_refl Hnd)
    as [Hdom3 Hperm].
  { apply (one_ticket_per_domain_ext (tickets st) _ (holds (local_sched st)));
      [exact Hdom | auto | exact Hone]. }
  { intros p Hp. apply Hel. exact Hp. }
  { exact Hact. }
  assert (st1 = st3) as ->.
  { destruct (__head_of_activation_Q st3).
    - inv_bind_as H th Hth. injection H as _ <-. reflexivity.
    - injection H as _ <-. reflexivity. }
  split; [exact (same_domains_trans _ _ _ Hdom Hdom3)|]. split; [exact Htbl|].
  split; [rewrite Hperm; exact Hnd|].
  intros p. rewrite Hperm. apply Hel.
Qed.

(** *** The decision loop *)

(** One round: the ticket taken from the runnable queue goes to the
    current-ticket table or to the activation queue. *)
Lemma schedule_ticket_moves (held : tkt_ptr -> Prop) now ticket lv st lv' st' :
  one_ticket_per_domain (tickets st) held ->
  domains_have_cpu NR_CPUS (tickets st) held ->
  held ticket ->
  (forall h, h ∈ activation_Q (local_sched st) -> held h) ->
  ticket ∉ activation_Q (local_sched st) ->
  schedule_ticket NR_CPUS now ticket lv st = Done (lv', st') ->
  same_domains (tickets st) (tickets st') /\
  edf_runnable_Q (local_sched st') = edf_runnable_Q (local_sched st) /\
  ((activation_Q (local_sched st') ≡ₚ ticket :: activation_Q (local_sched st) /\
    cur_ticket_per_cpu (local_sched st') = cur_ticket_per_cpu (local_sched st)) \/
   (activation_Q (local_sched st') = activation_Q (local_sched st) /\
    forall p, Some p ∈ cur_ticket_per_cpu (local_sched st') <->
              p = ticket \/ Some p ∈ cur_ticket_per_cpu (local_sched st))).
Proof.
  intros Hone Hcpu Hheld Haq Hnew H. unfold schedule_ticket in H.
  inv_bind_as H t Ht. apply load_Done_inv in Ht.
  destruct (cpumask_intersects (assigned_cpus lv) (cpumask (dom_info t)));
    cbn [negb] in H; cbv iota in H.
  - (* deferred *)
    inv_bind_as H u Hu. cbv zeta in H. inv_bind_as H st1 Hins. injection H as _ <-.
    destruct (insert_into_activation_Q_perm held ticket st st1 Hone Hheld Haq Hnew Hins)
      as (Htk & Hrq & Htbl & Hperm).
    split; [rewrite Htk; apply same_domains_refl|]. split; [exact Hrq|].
    left. split; assumption.
  - (* installed *)
    cbv zeta in H. inv_bind_as H tbl Hinst. inv_bind_as H u Hu. injection H as _ <-.
    cbn. split; [apply same_domains_insert with (t := t); [exact Ht | reflexivity]|].
    split; [reflexivity|]. right. split; [reflexivity|].
    destruct (install_ticket_spec _ _ _ _ _ Hinst) as [_ Hslots].
    destruct (Hcpu ticket (dom_info t) Hheld (domain_of_Some _ _ _ Ht)) as (c0 & Hc0 & Hbit0).
    intros p. rewrite !list_elem_of_lookup. split.
    + intros (i & Hi).
      destruct (decide ((i < NR_CPUS)%nat /\
                        cpumask_test_cpu i (cpumask (dom_info t)) = true)) as [[Hlt Hbit]|Hno].
      * left. destruct (proj1 (Hslots i) Hlt Hbit) as [_ Hnew']. congruence.
      * right. exists i. rewrite <- (proj2 (Hslots i)); [exact Hi|].
        destruct (cpumask_test_cpu i (cpumask (dom_info t))); [left; lia | right; reflexivity].
    + intros [->|(i & Hi)].
      * exists c0. apply (proj1 (Hslots c0) Hc0 Hbit0).
      * exists i.
        destruct (decide ((i < NR_CPUS)%nat /\
                          cpumask_test_cpu i (cpumask (dom_info t)) = true)) as [[Hlt Hbit]|Hno].
        -- destruct (proj1 (Hslots i) Hlt Hbit) as [Hnull _]. congruence.
        -- rewrite (proj2 (Hslots i)); [exact Hi|].
           destruct (cpumask_test_cpu i (cpumask (dom_info t))); [left; lia | right; reflexivity].
Qed.

Lemma schedule_loop_moves (held : tkt_ptr -> Prop) g cpu_id now : forall rq lv st lv' st',
  edf_runnable_Q (local_sched st) = rq ->
  NoDup (rq ++ activation_Q (local_sched st)) ->
  (forall p, Some p ∈ cur_ticket_per_cpu (local_sched st) ->
             p ∉ rq ++ activation_Q (local_sched st)) ->
  one_ticket_per_domain (tickets st) held ->
  domains_have_cpu NR_CPUS (tickets st) held ->
  (forall p, p ∈ rq ++ activation_Q (local_sched st) -> held p) ->
  schedule_loop NR_CPUS g cpu_id now rq lv st = Done (lv', st') ->
  same_domains (tickets st) (tickets st') /\
  NoDup (edf_runnable_Q (local_sched st') ++ activation_Q (local_sched st')) /\
  (forall p, Some p ∈ cur_ticket_per_cpu (local_sched st') ->
             p ∉ edf_runnable_Q (local_sched st') ++ activation_Q (local_sched st')) /\
  (forall p, holds (local_sched st') p <-> holds (local_sched st) p).
Proof.
  induction rq as [|ticket rq IH]; intros lv st lv' st' Hrq Hnd Hapart Hone Hcpu Hheld H;
    cbn [schedule_loop] in H.
  - injection H as _ <-. rewrite Hrq. split; [apply same_domains_refl|].
    split; [exact Hnd|]. split; [exact Hapart | tauto].
  - inv_bind_as H st1 Hrm. unfold __remove_from_runnable_Q in Hrm.
    inv_bind_as Hrm u Hu. injection Hrm as <-. rewrite Hrq, RB_REMOVE_head in H.
    inv_bind_as H r Hround. destruct r as [lv1 st2].
    inv_bind_as H coh Hcoh.
    cbn [app] in Hnd. apply NoDup_cons in Hnd. destruct Hnd as [Hfresh Hnd].
    destruct (schedule_ticket_moves held now ticket lv (set_runnable_Q rq st) lv1 st2)
      as (Hdom & Hrq2 & Hcase); try assumption.
    { apply Hheld. left. }
    { intros h Hh. apply Hheld. right. apply elem_of_app. right. exact Hh. }
    { intros Hin. apply Hfresh. apply elem_of_app. right. exact Hin. }
    cbn in Hdom, Hrq2, Hcase.
    (* the state after the round *)
    assert (Hnd2 : NoDup (rq ++ activation_Q (local_sched st2))).
    { destruct Hcase as [[Hperm _]|[-> _]]; [|exact Hnd].
      rewrite Hperm. rewrite <- Permutation_middle. apply NoDup_cons_2; assumption. }
    assert (Hapart2 : forall p, Some p ∈ cur_ticket_per_cpu (local_sched st2) ->
                                p ∉ rq ++ activation_Q (local_sched st2)).
    { intros p Hp Hin. destruct Hcase as [[Hperm Htbl]|[Haq Htbl]].
      - rewrite Htbl in Hp. apply (Hapart p Hp).
        rewrite Hperm, <- Permutation_middle in Hin. exact Hin.
      - rewrite Haq in Hin. apply Htbl in Hp. destruct Hp as [->|Hp].
        + exact (Hfresh Hin).
        + apply (Hapart p Hp). right. exact Hin. }
    assert (Hholds2 : forall p, holds (local_sched st2) p <-> holds (local_sched st) p).
    { intros p. unfold holds. rewrite Hrq2, Hrq, elem_of_cons.
      destruct Hcase as [[Hperm Htbl]|[Haq Htbl]].
      - rewrite Hperm, Htbl, elem_of_cons. tauto.
      - rewrite Haq, Htbl. tauto. }
    assert (Hheld2 : forall p, p ∈ rq ++ activation_Q (local_sched st2) -> held p).
    { intros p Hp. apply Hheld. destruct Hcase as [[Hperm _]|[Haq _]].
      - rewrite Hperm, <- Permutation_middle in Hp. exact Hp.
      - rewrite Haq in Hp. right. exact Hp. }
    destruct (cpumask_equal (assigned_cpus lv1) coh).
    + injection H as _ <-. rewrite Hrq2. auto.
    + destruct (IH lv1 st2 lv' st' Hrq2 Hnd2 Hapart2) as (Hdom3 & Hnd3 & Hapart3 & Hholds3).
      * apply (one_ticket_per_domain_ext (tickets st) _ held); [exact Hdom | auto | exact Hone].
      * apply (domains_have_cpu_ext (tickets st) _ held); [exact Hdom | auto | exact Hcpu].
      * exact Hheld2.
      * exact H.
      * split; [exact (same_domains_trans _ _ _ Hdom Hdom3)|].
        split; [exact Hnd3|]. split; [exact Hapart3|].
        intros p. rewrite Hholds3. apply Hholds2.
Qed.

(** Guest yield handling writes flags only. *)
Lemma handle_guest_sched_commands_keeps current ticket st ticket' st' :
  handle_guest_sched_commands current ticket st = Done (ticket', st') ->
  local_sched st' = local_sched st /\ same_domains (tickets st) (tickets st').
Proof.
  unfold handle_guest_sched_commands. intros H.
  destruct (negb (is_idle_vcpu current));
    [|injection H as _ <-; split; [reflexivity | apply same_domains_refl]].
  destruct (sched_priv current) as [cur_tkt|]; [|discriminate].
  inv_bind_as H ct Hct. apply load_Done_inv in Hct.
  inv_bind_as H r Hr. destruct r as [tk1 st1].
  inv_bind_as H ct1 Hct1. apply load_Done_inv in Hct1.
  injection H as _ <-. cbn.
  assert (H1 : local_sched st1 = local_sched st /\ same_domains (tickets st) (tickets st1)).
  { destruct (bool_decide (ticket = Some cur_tkt));
      [destruct (negb (is_no_muxing (tm_muxing_spec (dom_info ct))) &&
                 test_bit GSBIT_SINGLE_VCPU_YIELD (flags ct))|];
      injection Hr as _ <-; try (split; [reflexivity | apply same_domains_refl]).
    cbn. split; [reflexivity|].
    apply same_domains_insert with (t := ct); [exact Hct | reflexivity]. }
  destruct H1 as [Hls Hdom]. split; [exact Hls|].
  apply (same_domains_trans _ _ _ Hdom).
  apply same_domains_insert with (t := ct1); [exact Hct1 | reflexivity].
Qed.

Lemma tickets_in_order_ext st st' assigned :
  tickets_in_order NR_CPUS st ->
  same_domains (tickets st) (tickets st') ->
  (forall p, holds (local_sched st') p <-> holds (local_sched st) p) ->
  NoDup (edf_runnable_Q (local_sched st') ++ activation_Q (local_sched st')) ->
  (forall p, Some p ∈ cur_ticket_per_cpu (local_sched st') ->
             p ∉ edf_runnable_Q (local_sched st') ++ activation_Q (local_sched st')) ->
  gang_inv NR_CPUS assigned (tickets st') (cur_ticket_per_cpu (local_sched st')) ->
  tickets_in_order NR_CPUS st'.
Proof.
  intros (_ & _ & Hone & Hcpu & _) Hdom Hholds Hnd Hapart Hinv.
  split; [exact Hnd|]. split; [exact Hapart|]. split.
  - apply (one_ticket_per_domain_ext (tickets st) _ (holds (local_sched st)));
      [exact Hdom | apply Hholds | exact Hone].
  - split; [|exists assigned; exact Hinv].
    apply (domains_have_cpu_ext (tickets st) _ (holds (local_sched st)));
      [exact Hdom | apply Hholds | exact Hcpu].
Qed.

(** X10.  A schedule decision loses no ticket and takes none twice.  For a
    local scheduler whose tickets are in order (no ticket twice in the
    queues, a current ticket in no queue, one ticket for a domain, a
    CPU below [NR_CPUS] for every domain, the gang invariant on the
    current tickets), a decision that returns leaves the same tickets
    in the runnable queue, the activation queue and the current-ticket
    table together, each with its domain, and the tickets are in order
    again. *)
Theorem gang_do_schedule_keeps_tickets g cpu_id current now tasklet_work_scheduled st ret st' :
  tickets_in_order NR_CPUS st ->
  gang_do_schedule NR_CPUS g cpu_id current now tasklet_work_scheduled st
  = Done (ret, st') ->
  (forall p, holds (local_sched st') p <-> holds (local_sched st) p) /\
  same_domains (tickets st) (tickets st') /\
  tickets_in_order NR_CPUS st'.
Proof.
  intros Hord H. unfold gang_do_schedule in H.
  destruct ((num_of_cohorts g =? 0) || (num_of_muxgroups g =? 0)).
  { inv_bind_as H u Hu. rewrite exit_idle_no_limit in H. injection H as _ <-.
    split; [intros p; reflexivity|]. split; [apply same_domains_refl | exact Hord]. }
  inv_bind_as H r Hupd. destruct r as [earliest_actv st1].
  destruct (update_sched_info_moves _ _ _ _ _ Hord Hupd) as (Hdom1 & Htbl1 & Hnd1 & Hel1).
  assert (Hempty : forall p, Some p ∉ replicate NR_CPUS (@None tkt_ptr)).
  { intros p Hp. apply elem_of_replicate in Hp. destruct Hp as [Hp _]. discriminate. }
  assert (Hholds1 : forall p, holds (local_sched st1) p <-> holds (local_sched st) p).
  { intros p. rewrite <- Hel1. unfold holds. rewrite Htbl1, elem_of_app.
    pose proof (Hempty p). tauto. }
  destruct tasklet_work_scheduled.
  { rewrite exit_idle_no_limit in H. injection H as _ <-.
    split; [exact Hholds1|]. split; [exact Hdom1|].
    apply (tickets_in_order_ext st st1 cpumask_clear Hord Hdom1 Hholds1 Hnd1).
    - rewrite Htbl1. intros p Hp. destruct (Hempty p Hp).
    - rewrite Htbl1. apply gang_inv_empty. }
  inv_bind_as H r Hloop. destruct r as [lv st2].
  pose proof Hord as (_ & _ & Hone & Hcpu & _).
  destruct (schedule_loop_moves (holds (local_sched st)) g cpu_id now _
              {| assigned_cpus := cpumask_clear; end_of_time_slice := INFINITY;
                 __num_of_runnable_domains := 0; __non_muxed_domain_present := false |}
              st1 lv st2 eq_refl Hnd1)
    as (Hdom2 & Hnd2 & Hapart2 & Hholds2).
  { rewrite Htbl1. intros p Hp. destruct (Hempty p Hp). }
  { apply (one_ticket_per_domain_ext (tickets st) _ (holds (local_sched st)));
      [exact Hdom1 | auto | exact Hone]. }
  { apply (domains_have_cpu_ext (tickets st) _ (holds (local_sched st)));
      [exact Hdom1 | auto | exact Hcpu]. }
  { intros p Hp. apply Hel1. exact Hp. }
  { exact Hloop. }
  apply schedule_loop_inv in Hloop; [|rewrite Htbl1; apply gang_inv_empty].
  inv_bind_as H u Hu. inv_bind_as H ticket Hticket.
  inv_bind_as H eots Heots. inv_bind_as H r Hyield. destruct r as [ticket' st3].
  pose proof (handle_guest_sched_commands_inv NR_CPUS (assigned_cpus lv) _ _ _ _ _ Hyield Hloop)
    as Hinv3.
  destruct (handle_guest_sched_commands_keeps _ _ _ _ _ Hyield) as [Hls3 Hdom3].
  unfold exit_gang_do_schedule in H. inv_bind_as H tsk Htsk. injection H as _ <-.
  assert (Hholds3 : forall p, holds (local_sched st3) p <-> holds (local_sched st) p).
  { intros p. rewrite Hls3, Hholds2. apply Hholds1. }
  assert (Hdom : same_domains (tickets st) (tickets st3)).
  { exact (same_domains_trans _ _ _ (same_domains_trans _ _ _ Hdom1 Hdom2) Hdom3). }
  split; [exact Hholds3|]. split; [exact Hdom|].
  apply (tickets_in_order_ext st st3 (assigned_cpus lv) Hord Hdom Hholds3).
  - rewrite Hls3. exact Hnd2.
  - rewrite Hls3. exact Hapart2.
  - exact Hinv3.
Qed.

End TicketsKept.

Lemma state_dom1_running_in_order : TicketsHeld.tickets_in_order 4 state_dom1_running.
Proof.
  assert (Hcur : forall c p,
            cur_ticket_per_cpu (local_sched state_dom1_running) !! c = Some (Some p) ->
            p = 10%nat /\ (c < 2)%nat).
  { intros c p Hc. destruct c as [|[|[|[|c]]]]; simpl in Hc; try discriminate;
      injection Hc as <-; split; lia. }
  assert (Hheld : forall p, TicketsHeld.holds (local_sched state_dom1_running) p ->
                            p = 10%nat \/ p = 20%nat).
  { intros p [Hp|[Hp|Hp]].
    - inversion Hp.
    - apply list_elem_of_singleton in Hp. right. exact Hp.
    - apply list_elem_of_lookup in Hp. destruct Hp as [c Hc].
      left. apply (Hcur c p Hc). }
  split; [repeat constructor; intros H; inversion H|]. split.
  { intros p Hp Hq. apply list_elem_of_lookup in Hp. destruct Hp as [c Hc].
    destruct (Hcur c p Hc) as [-> _]. cbn in Hq.
    apply list_elem_of_singleton in Hq. discriminate. }
  split.
  { intros p q d e Hp Hq Hd He Hid.
    destruct (Hheld p Hp) as [-> | ->]; destruct (Hheld q Hq) as [-> | ->];
      try reflexivity; vm_compute in Hd, He; injection Hd as <-; injection He as <-;
      discriminate Hid. }
  split.
  { intros p d Hp Hd. exists 1%nat. split; [lia|].
    destruct (Hheld p Hp) as [-> | ->]; vm_compute in Hd; injection Hd as <-; reflexivity. }
  exists (mask_of_cpus [0; 1]%nat). split; [reflexivity|]. split.
  - intros c p Hc. destruct (Hcur c p Hc) as [-> Hlt].
    eexists. split; [reflexivity|]. split.
    { destruct c as [|[|c]]; [reflexivity | reflexivity | lia]. }
    split; [intros i Hi; exact Hi|].
    intros c' Hc' Hbit.
    destruct c' as [|[|[|[|c']]]]; try reflexivity; try lia;
      vm_compute in Hbit; discriminate.
  - intros c1 c2 p1 p2 t1 t2 H1 H2 Hne.
    destruct (Hcur c1 p1 H1) as [-> _]. destruct (Hcur c2 p2 H2) as [-> _]. congruence.
Qed.

Lemma gang_do_schedule_keeps_tickets_witness :
  exists ret st',
    gang_do_schedule 4 globals4 0 vcpu_dom1 (ms 51) false state_dom1_running
    = Done (ret, st') /\
    (forall p, TicketsHeld.holds (local_sched st') p <->
               TicketsHeld.holds (local_sched state_dom1_running) p) /\
    TicketsHeld.same_domains (tickets state_dom1_running) (tickets st') /\
    TicketsHeld.tickets_in_order 4 st'.
Proof.
  destruct (gang_do_schedule 4 globals4 0 vcpu_dom1 (ms 51) false state_dom1_running)
    as [[ret st']|c] eqn:E; [|vm_compute in E; discriminate].
  exists ret, st'. split; [reflexivity|].
  exact (gang_do_schedule_keeps_tickets 4 globals4 0 vcpu_dom1 (ms 51) false
           state_dom1_running ret st' state_dom1_running_in_order E).
Defined.

(** ** The local scheduler after a global adjustment *)

Section LocalUpdateFacts.
Import TicketsHeld LocalUpdate.

Variable NR_CPUS : nat.
Variable xzalloc : gmap tkt_ptr sched_ticket_t -> option tkt_ptr.
Variable entry_ok : Z -> bool.

(** The allocator returns a block that is not in use. *)
Hypothesis xzalloc_fresh : forall mem tkt, xzalloc mem = Some tkt -> mem !! tkt = None.

Lemma deinit_sched_info_result si mem s mem' :
  Pdata.__deinit_sched_info NR_CPUS si false mem = Done (s, mem') ->
  s = {| edf_runnable_Q := []; activation_Q := [];
         tickets_waiting_4_event := Some [];
         cur_ticket_per_cpu := replicate NR_CPUS None |}.
Proof.
  unfold Pdata.__deinit_sched_info. intros H.
  destruct si as [s0|]; [|discriminate].
  inv_bind_as H m1 Hm1. inv_bind_as H m2 Hm2.
  destruct (tickets_waiting_4_event s0) as [w|]; [|discriminate].
  inv_bind_as H wm Hwm. inv_bind_as Hwm m3 Hm3. injection Hwm as <-.
  cbn in H. inv_bind_as H acc Hacc. destruct acc as [cleared mem1].
  injection H as <- _. reflexivity.
Qed.

Lemma only_at_refl tkt mem : only_at tkt mem mem.
Proof. split; reflexivity. Qed.

Lemma only_at_trans tkt a b c : only_at tkt a b -> only_at tkt b c -> only_at tkt a c.
Proof.
  intros (H1 & H2) (H4 & H5). split.
  - intros q Hq. rewrite (H4 q Hq). apply H1. exact Hq.
  - congruence.
Qed.

Lemma only_at_store tkt t t' st :
  tickets st !! tkt = Some t -> dom_info t' = dom_info t ->
  only_at tkt (tickets st) (tickets (store tkt t' st)).
Proof.
  intros Ht Hd. split.
  - intros q Hq. cbn. apply lookup_insert_ne. congruence.
  - cbn. apply (domain_of_insert _ _ t); assumption.
Qed.

Lemma remove_entry_head domid tkt w :
  remove_entry domid ((domid, tkt) :: w) = (Some tkt, w).
Proof. cbn. rewrite Z.eqb_refl. reflexivity. Qed.

(** The times are written to the ticket, which then joins the
    activation queue. *)
Lemma seed_ticket_inserts g will_resume_at cpu_cohort tkt d vars st vars' st' :
  seed_ticket g will_resume_at cpu_cohort tkt d vars st = Done (vars', st') ->
  exists t t', tickets st !! tkt = Some t /\ dom_info t' = dom_info t /\
    __insert_into_activation_Q tkt (store tkt t' st) = Done st'.
Proof.
  unfold seed_ticket. intros H. inv_bind_as H t Ht. apply load_Done_inv in Ht.
  destruct (tm_muxing_spec d) as [|p|p|p|p|]; try discriminate H.
  - inv_bind_as H st1 Hins. injection H as _ <-. eexists t, _.
    split; [exact Ht|]. split; [|exact Hins]. reflexivity.
  - inv_bind_as H est Hest. inv_bind_as H st1 Hins. injection H as _ <-. eexists t, _.
    split; [exact Ht|]. split; [|exact Hins]. reflexivity.
  - inv_bind_as H est Hest. inv_bind_as H st1 Hins. injection H as _ <-. eexists t, _.
    split; [exact Ht|]. split; [|exact Hins]. reflexivity.
  - inv_bind_as H est Hest. inv_bind_as H n Hn. inv_bind_as H u Hu.
    inv_bind_as H st1 Hins. injection H as _ <-. eexists t, _.
    split; [exact Ht|]. split; [|exact Hins]. reflexivity.
Qed.

Lemma domains_of_cohort_snoc k arr1 d :
  domains_of_cohort k (arr1 ++ [d])
  = domains_of_cohort k arr1 ++ (if decide (cohort (di d) = k) then [di d] else []).
Proof.
  unfold domains_of_cohort. rewrite filter_app, fmap_app. f_equal.
  destruct (decide (cohort (di d) = k)) as [Hk|Hk].
  - rewrite filter_cons_True by exact Hk. reflexivity.
  - rewrite filter_cons_False by exact Hk. reflexivity.
Qed.

(** One round of the loop: for a domain of the cohort a ticket is
    allocated, goes through the waiting set, and is given its times. *)
Lemma update_for_domain_round g will_resume_at cpu_id k d vars st vars1 st1 :
  update_for_domain xzalloc entry_ok g will_resume_at cpu_id k (vars, st) d
  = Done (vars1, st1) ->
  (cohort (di d) <> k /\ st1 = st) \/
  (cohort (di d) = k /\
   exists tkt tb std vars',
     xzalloc (tickets st) = Some tkt /\
     tickets std !! tkt = Some tb /\ dom_info tb = di d /\
     (forall q, q <> tkt -> tickets std !! q = tickets st !! q) /\
     local_sched std = local_sched st /\
     seed_ticket g will_resume_at k tkt (di d) vars' std = Done (vars1, st1)).
Proof.
  intros H. unfold update_for_domain in H. inv_bind_as H u0 Hu0.
  destruct (k =? cohort (di d)) eqn:Hk; cbn [negb] in H; cbv iota in H.
  2: { injection H as _ <-. apply Z.eqb_neq in Hk. left. split; congruence. }
  apply Z.eqb_eq in Hk. right. split; [congruence|].
  cbv zeta in H. inv_bind_as H u1 Hu1. inv_bind_as H u2 Hu2.
  destruct (gang_alloc_vdata xzalloc _ (di d) st) as [[tkt sta]|] eqn:Hal; [|discriminate].
  unfold gang_alloc_vdata in Hal.
  destruct (xzalloc (tickets st)) as [tkt'|] eqn:Hx; [|discriminate].
  injection Hal as -> <-.
  set (t0 := {| vcpu := _; dom_info := di d |}) in H.
  set (sta := store tkt t0 st) in H.
  assert (Hta : tickets sta !! tkt = Some t0) by (cbn; apply lookup_insert_eq).
  (* the VCPU takes the ticket *)
  inv_bind_as H stb Hstb.
  assert (Hb : exists tb, tickets stb !! tkt = Some tb /\ dom_info tb = di d /\
                 (forall q, q <> tkt -> tickets stb !! q = tickets st !! q) /\
                 local_sched stb = local_sched st).
  { destruct (cpumask_test_cpu cpu_id (cpumask (di d))).
    - destruct (vcpu_on_cpu cpu_id d) as [v|]; [|discriminate].
      inv_bind_as Hstb t Ht. apply load_Done_inv in Ht. injection Hstb as <-.
      assert (t = t0) as -> by congruence.
      eexists. split; [cbn; apply lookup_insert_eq|]. split; [reflexivity|].
      split; [|reflexivity]. intros q Hq. cbn.
      rewrite !lookup_insert_ne by congruence. reflexivity.
    - injection Hstb as <-. exists t0. split; [exact Hta|]. split; [reflexivity|].
      split; [|reflexivity]. intros q Hq. cbn. apply lookup_insert_ne. congruence. }
  destruct Hb as (tb & Htb & Hdb & Hothers & Hlsb).
  (* the ticket goes through the waiting set *)
  inv_bind_as H r Hins. destruct r as [res stc].
  unfold __insert_into_waiting_4_event_set in Hins.
  rewrite (load_Some _ _ _ Htb) in Hins. simpl in Hins.
  rewrite Hdb in Hins.
  destruct (tickets_waiting_4_event (local_sched stb)) as [w|] eqn:Hw; [|discriminate].
  destruct (entry_ok (domain_id (di d)));
    [|injection Hins as <- <-; discriminate H].
  injection Hins as <- <-.
  inv_bind_as H u3 Hu3. cbv zeta in H. inv_bind_as H u4 Hu4.
  inv_bind_as H r Hrm. destruct r as [tmp std].
  unfold __remove_from_waiting_4_event_set in Hrm. cbn in Hrm.
  rewrite Z.eqb_refl in Hrm. injection Hrm as <- <-.
  inv_bind_as H u5 Hu5.
  exists tkt, tb,
    (set_waiting_4_event (Some w)
       (set_waiting_4_event (Some ((domain_id (di d), tkt) :: w)) stb)).
  eexists. split; [reflexivity|]. split; [exact Htb|].
  split; [exact Hdb|]. split; [exact Hothers|]. split; [|exact H].
  cbn. rewrite <- Hlsb. destruct (local_sched stb). cbn in *. congruence.
Qed.

(** The domain gets its ticket when it is in the cohort of the CPU. *)
Lemma update_for_domain_seeds g will_resume_at cpu_id k arr1 d vars st vars1 st1 :
  seeded NR_CPUS k arr1 st ->
  domain_id (di d) ∉ (fun d => domain_id (di d)) <$> arr1 ->
  update_for_domain xzalloc entry_ok g will_resume_at cpu_id k (vars, st) d
  = Done (vars1, st1) ->
  seeded NR_CPUS k (arr1 ++ [d]) st1.
Proof.
  intros (Hrq & Hcur & Hw & Hnd & Halloc & Hdoms) Hid H.
  unfold seeded. rewrite domains_of_cohort_snoc.
  destruct (update_for_domain_round _ _ _ _ _ _ _ _ _ H)
    as [[Hk ->]|(Hk & tkt & tb & std & vars' & Hx & Htb & Hdb & Hothers & Hls & Hseed)].
  { rewrite decide_False by exact Hk. rewrite app_nil_r. repeat split; assumption. }
  rewrite decide_True by exact Hk. apply xzalloc_fresh in Hx.
  destruct (seed_ticket_inserts _ _ _ _ _ _ _ _ _ Hseed) as (t & t' & Ht & Hdt & Hq).
  assert (t = tb) as -> by congruence.
  unfold __insert_into_activation_Q in Hq.
  inv_bind_as Hq t2 Ht2. inv_bind_as Hq q Hins. injection Hq as <-.
  cbn in Hins. rewrite Hls in Hins.
  (* the queue holds no ticket of this domain *)
  assert (Hfresh : tkt ∉ activation_Q (local_sched st)).
  { intros Hin. destruct (Halloc tkt Hin) as [x Hx']. congruence. }
  assert (Hold : forall h, h ∈ activation_Q (local_sched st) ->
                   domain_of (<[tkt := t']> (tickets std)) h = domain_of (tickets st) h).
  { intros h Hh. unfold domain_of. rewrite lookup_insert_ne by congruence.
    rewrite Hothers by congruence. reflexivity. }
  assert (Hperm : q ≡ₚ tkt :: activation_Q (local_sched st)).
  { apply (RB_INSERT_perm _ _ _ _ _ _ Hins).
    intros h th Hh Hth Heq. apply cmp_tckt_rel_times_Eq in Heq.
    apply load_Done_inv in Ht2. cbn in Ht2. rewrite lookup_insert_eq in Ht2.
    injection Ht2 as <-. rewrite Hdt, Hdb in Heq.
    apply Hid. rewrite Heq.
    assert (Hdh : domain_of (tickets st) h = Some (dom_info th)).
    { rewrite <- (Hold h Hh). apply domain_of_Some. exact Hth. }
    assert (Hin : Some (dom_info th) ∈ Some <$> domains_of_cohort k arr1).
    { rewrite <- Hdoms, <- Hdh. apply list_elem_of_fmap. eauto. }
    apply list_elem_of_fmap in Hin. destruct Hin as (dh & Hdh' & Hin).
    injection Hdh' as ->. unfold domains_of_cohort in Hin.
    apply list_elem_of_fmap in Hin. destruct Hin as (d' & -> & Hin).
    apply list_elem_of_filter in Hin. destruct Hin as [_ Hin].
    apply list_elem_of_fmap. eauto. }
  cbn. rewrite Hls. split; [exact Hrq|]. split; [exact Hcur|]. split; [exact Hw|].
  split; [rewrite Hperm; apply NoDup_cons_2; assumption|]. split.
  - intros p Hp. rewrite Hperm in Hp. apply elem_of_cons in Hp.
    destruct Hp as [->|Hp].
    + rewrite lookup_insert_eq. eauto.
    + rewrite lookup_insert_ne by congruence. rewrite Hothers by congruence.
      apply Halloc. exact Hp.
  - rewrite Hperm, fmap_cons, fmap_app. cbn [fmap list_fmap].
    rewrite <- Permutation_cons_append. apply Permutation_cons.
    + unfold domain_of. rewrite lookup_insert_eq. cbn. congruence.
    + rewrite <- Hdoms.
      assert (E : domain_of (<[tkt := t']> (tickets std)) <$> activation_Q (local_sched st)
                  = domain_of (tickets st) <$> activation_Q (local_sched st)).
      { apply list_fmap_ext. intros i h Hh. apply Hold.
        apply list_elem_of_lookup. eauto. }
      rewrite E. reflexivity.
Qed.

Lemma update_loop_seeds g will_resume_at cpu_id k : forall arr2 arr1 vars st vars' st',
  seeded NR_CPUS k arr1 st ->
  NoDup ((fun d => domain_id (di d)) <$> arr1 ++ arr2) ->
  ofold (update_for_domain xzalloc entry_ok g will_resume_at cpu_id k) arr2 (vars, st)
  = Done (vars', st') ->
  seeded NR_CPUS k (arr1 ++ arr2) st'.
Proof.
  induction arr2 as [|d arr2 IH]; intros arr1 vars st vars' st' Hinv Hnd H.
  - injection H as _ <-. rewrite app_nil_r. exact Hinv.
  - cbn [ofold] in H. inv_bind_as H acc Hround. destruct acc as [vars1 st1].
    replace (arr1 ++ d :: arr2) with ((arr1 ++ [d]) ++ arr2) in *
      by (rewrite <- app_assoc; reflexivity).
    apply (IH (arr1 ++ [d]) vars1 st1 vars' st'); [|exact Hnd | exact H].
    apply (update_for_domain_seeds g will_resume_at cpu_id k arr1 d vars st vars1 st1 Hinv);
      [|exact Hround].
    rewrite !fmap_app in Hnd. apply NoDup_app in Hnd. destruct Hnd as (Hnd & _ & _).
    apply NoDup_app in Hnd. destruct Hnd as (_ & Hnd & _).
    intros Hin. apply (Hnd _ Hin). left.
Qed.

Lemma NoDup_fmap_eq {A B} (f : A -> B) (l : list A) x y :
  NoDup (f <$> l) -> x ∈ l -> y ∈ l -> f x = f y -> x = y.
Proof.
  intros Hnd Hx Hy Heq.
  apply list_elem_of_lookup in Hx. destruct Hx as [i Hi].
  apply list_elem_of_lookup in Hy. destruct Hy as [j Hj].
  assert (i = j).
  { apply (NoDup_lookup (f <$> l) i j (f x)); [exact Hnd| |].
    - rewrite list_lookup_fmap, Hi. reflexivity.
    - rewrite list_lookup_fmap, Hj, Heq. reflexivity. }
  subst j. congruence.
Qed.

(** X11.  The local scheduler that [__update_local_sched_v0] leaves.  For
    an allocator that returns unused blocks and an array of domains
    with different ids, each with a CPU below [NR_CPUS]: when the
    update returns on a CPU, the runnable queue, the waiting set and
    the current-ticket table of the CPU are empty, the domains of the
    tickets in its activation queue are, in some order, the domains of
    the array that are in the cohort of the CPU, each once, and the
    tickets are in order for the schedule decisions that follow. *)
Theorem update_local_sched_v0_seeds_tickets g adj arr now cpu_id si mem st' :
  NoDup ((fun d => domain_id (di d)) <$> arr) ->
  (forall d, d ∈ arr ->
     exists c, (c < NR_CPUS)%nat /\ cpumask_test_cpu c (cpumask (di d)) = true) ->
  __update_local_sched_v0 NR_CPUS xzalloc entry_ok g adj arr now cpu_id si mem = Done st' ->
  exists k, cpu_2_cohort g !! cpu_id = Some k /\
    edf_runnable_Q (local_sched st') = [] /\
    cur_ticket_per_cpu (local_sched st') = replicate NR_CPUS None /\
    tickets_waiting_4_event (local_sched st') = Some [] /\
    domain_of (tickets st') <$> activation_Q (local_sched st')
    ≡ₚ Some <$> domains_of_cohort k arr /\
    tickets_in_order NR_CPUS st'.
Proof.
  intros Hids Hcpus H. unfold __update_local_sched_v0 in H.
  destruct (cpu_2_cohort g !! cpu_id) as [k|]; [|discriminate].
  cbn in H. cbv zeta in H. inv_bind_as H will_resume_at Hwill.
  inv_bind_as H r Hdeinit. destruct r as [s mem1].
  apply deinit_sched_info_result in Hdeinit. subst s.
  inv_bind_as H acc Hloop. destruct acc as [vars st1]. injection H as ->.
  apply (update_loop_seeds g will_resume_at cpu_id k arr []) in Hloop; [|..|exact Hids].
  2: { split; [reflexivity|]. split; [reflexivity|]. split; [reflexivity|].
       split; [constructor|]. split; [intros p Hp; inversion Hp | reflexivity]. }
  destruct Hloop as (Hrq & Hcur & Hw & Hnd & Halloc & Hdoms).
  cbn [app] in Hdoms.
  exists k. split; [reflexivity|]. split; [exact Hrq|]. split; [exact Hcur|].
  split; [exact Hw|]. split; [exact Hdoms|].
  assert (Hheld : forall p, holds (local_sched st') p -> p ∈ activation_Q (local_sched st')).
  { intros p [Hp|[Hp|Hp]].
    - rewrite Hrq in Hp. inversion Hp.
    - exact Hp.
    - rewrite Hcur in Hp. apply elem_of_replicate in Hp. destruct Hp as [Hp _].
      discriminate. }
  assert (Hfrom : forall p d0, p ∈ activation_Q (local_sched st') ->
                    domain_of (tickets st') p = Some d0 ->
                    exists d, d ∈ arr /\ di d = d0).
  { intros p d0 Hp Hd0.
    assert (Hin : Some d0 ∈ Some <$> domains_of_cohort k arr).
    { rewrite <- Hdoms, <- Hd0. apply list_elem_of_fmap. eauto. }
    apply list_elem_of_fmap in Hin. destruct Hin as (d1 & Heq & Hin).
    injection Heq as <-. unfold domains_of_cohort in Hin.
    apply list_elem_of_fmap in Hin. destruct Hin as (d & -> & Hin).
    apply list_elem_of_filter in Hin. destruct Hin as [_ Hin]. eauto. }
  split; [rewrite Hrq; exact Hnd|]. split.
  { intros p Hp. rewrite Hcur in Hp. apply elem_of_replicate in Hp.
    destruct Hp as [Hp _]. discriminate. }
  split.
  { intros p q d e Hp Hq Hd He Hid. apply Hheld in Hp, Hq.
    set (key := fun p => domain_id <$> domain_of (tickets st') p).
    apply (NoDup_fmap_eq key (activation_Q (local_sched st'))); try assumption.
    - assert (E : key <$> activation_Q (local_sched st')
                  = fmap domain_id <$> (domain_of (tickets st') <$> activation_Q (local_sched st'))).
      { rewrite <- list_fmap_compose. reflexivity. }
      rewrite E, Hdoms. rewrite <- !list_fmap_compose.
      unfold domains_of_cohort. rewrite <- list_fmap_compose.
      assert (E2 : (fmap domain_id ∘ Some ∘ di) <$> filter (fun d => cohort (di d) = k) arr
                   = Some <$> ((fun d => domain_id (di d)) <$> filter (fun d => cohort (di d) = k) arr)).
      { rewrite <- list_fmap_compose. reflexivity. }
      rewrite E2. apply NoDup_fmap_2; [intros x y Hxy; congruence|].
      apply (sublist_NoDup _ _ Hids). apply fmap_sublist. apply sublist_filter.
    - unfold key. rewrite Hd, He. cbn. congruence. }
  split.
  { intros p d0 Hp Hd0. apply Hheld in Hp.
    destruct (Hfrom p d0 Hp Hd0) as (d & Hd & <-). apply Hcpus. exact Hd. }
  exists cpumask_clear. rewrite Hcur. apply gang_inv_empty.
Qed.

(** *** No ticket starts before the adjustment is over *)

Lemma MAX_from_not_before from w :
  0 <= from < 2^61 -> 0 <= w < 2^61 -> w <= MAX_from from w.
Proof.
  intros Hf Hw. unfold MAX_from, u64. rewrite (Z.mod_small w) by lia.
  destruct (from >? w) eqn:E; rewrite s64_id by lia; lia.
Qed.

Lemma adjust_activation_time_not_before w from period est :
  0 <= w < 2^61 -> 0 <= from < 2^61 -> 0 < period < 2^61 ->
  Reseed.__adjust_activation_time w (s64 from) (s64 period) = Done est ->
  w <= est.
Proof.
  intros Hw Hf Hp H. rewrite !s64_id in H by lia.
  destruct (adjust_activation_time_spec w from period) as (r & Hr & Hge & _); try lia.
  congruence.
Qed.

Lemma seed_ticket_not_before g w k tkt d vars st vars' st' :
  0 <= w < 2^61 -> seed_times_in_range g d ->
  seed_ticket g w k tkt d vars st = Done (vars', st') ->
  exists t', w <= earliest_start_time t' /\
    __insert_into_activation_Q tkt (store tkt t' st) = Done st'.
Proof.
  intros Hw Hrange H. unfold seed_ticket in H. unfold seed_times_in_range in Hrange.
  inv_bind_as H t Ht.
  destruct (tm_muxing_spec d) as [|p|p|p|p|]; try discriminate H.
  - inv_bind_as H st1 Hins. injection H as _ <-. eexists.
    split; [|exact Hins]. cbn. apply MAX_from_not_before; assumption.
  - inv_bind_as H est Hest. inv_bind_as H st1 Hins. injection H as _ <-. eexists.
    split; [|exact Hins]. cbn.
    apply (adjust_activation_time_not_before w (tt_from p) (tt_period p)); tauto.
  - inv_bind_as H est Hest. inv_bind_as H st1 Hins. injection H as _ <-. eexists.
    split; [|exact Hins]. cbn.
    apply (adjust_activation_time_not_before w (et_from p) (et_period p)); tauto.
  - inv_bind_as H est Hest. inv_bind_as H n Hn. inv_bind_as H u Hu.
    inv_bind_as H st1 Hins. injection H as _ <-. eexists.
    split; [|exact Hins]. cbn.
    apply (adjust_activation_time_not_before w (be_from p) (__period_4_be_doms g));
      try tauto.
    rewrite (s64_id (__period_4_be_doms g)) by lia. exact Hest.
Qed.

Lemma update_for_domain_not_before g w cpu_id k d vars st vars1 st1 :
  0 <= w < 2^61 -> seed_times_in_range g (di d) ->
  all_start_after w st ->
  update_for_domain xzalloc entry_ok g w cpu_id k (vars, st) d = Done (vars1, st1) ->
  all_start_after w st1.
Proof.
  intros Hw Hrange Hinv H.
  destruct (update_for_domain_round _ _ _ _ _ _ _ _ _ H)
    as [[Hk ->]|(Hk & tkt & tb & std & vars' & Hx & Htb & Hdb & Hothers & Hls & Hseed)];
    [exact Hinv|].
  destruct (seed_ticket_not_before _ _ _ _ _ _ _ _ _ Hw Hrange Hseed) as (t' & Hest & Hq).
  unfold __insert_into_activation_Q in Hq.
  inv_bind_as Hq t2 Ht2. inv_bind_as Hq q Hins. injection Hq as <-.
  cbn in Hins. rewrite Hls in Hins.
  intros p Hp. cbn in Hp. cbn.
  destruct (decide (p = tkt)) as [->|Hne].
  - rewrite lookup_insert_eq. eauto.
  - rewrite lookup_insert_ne by congruence. rewrite Hothers by exact Hne.
    apply Hinv. destruct (RB_INSERT_subset _ _ _ _ _ _ Hins p Hp); [contradiction | assumption].
Qed.

Lemma update_loop_not_before g w cpu_id k : forall arr vars st vars' st',
  0 <= w < 2^61 -> (forall d, d ∈ arr -> seed_times_in_range g (di d)) ->
  all_start_after w st ->
  ofold (update_for_domain xzalloc entry_ok g w cpu_id k) arr (vars, st)
  = Done (vars', st') ->
  all_start_after w st'.
Proof.
  induction arr as [|d arr IH]; intros vars st vars' st' Hw Hrange Hinv H.
  - injection H as _ <-. exact Hinv.
  - cbn [ofold] in H. inv_bind_as H acc Hround. destruct acc as [vars1 st1].
    apply (IH vars1 st1 vars' st' Hw); [|exact (update_for_domain_not_before
             g w cpu_id k d vars st vars1 st1 Hw (Hrange d ltac:(left)) Hinv Hround)|exact H].
    intros d' Hd'. apply Hrange. right. exact Hd'.
Qed.

(** X12.  The tickets that [__update_local_sched_v0] seeds start when the
    adjustment is over.  For a time grain and times in range (the sum
    of [now] and the adjustment bound below 2^60 ns, starts below
    2^61 ns, positive periods below 2^61 ns): when the update returns,
    every ticket of the activation queue has its earliest start time
    at or after [will_resume_at], the first multiple of the time grain
    after [now] plus the adjustment bound. *)
Theorem update_local_sched_v0_defers_activations g adj arr now cpu_id si mem st' :
  0 < sched_ratelimit_us g < 2^31 ->
  0 <= now -> 0 <= adj -> now + adj < 2^60 ->
  (forall d, d ∈ arr -> seed_times_in_range g (di d)) ->
  __update_local_sched_v0 NR_CPUS xzalloc entry_ok g adj arr now cpu_id si mem = Done st' ->
  exists will_resume_at,
    now + adj < will_resume_at <= now + adj + grain_ns g /\
    will_resume_at mod grain_ns g = 0 /\
    all_start_after will_resume_at st'.
Proof.
  intros Hg Hnow Hadj Hsum Hrange H. unfold __update_local_sched_v0 in H.
  destruct (cpu_2_cohort g !! cpu_id) as [k|]; [|discriminate].
  cbn in H. cbv zeta in H. inv_bind_as H w Hwill.
  destruct (grain_eq g Hg) as [Hgrain Hpos]. rewrite Hgrain in Hwill.
  assert (Hsmall : grain_ns g < 2^41) by (unfold grain_ns; lia).
  replace (grain_ns g =? 0) with false in Hwill by lia.
  replace (grain_ns g =? -1) with false in Hwill by lia.
  cbn [orb andb] in Hwill. injection Hwill as Hw.
  rewrite (s64_id (now + adj)) in Hw by lia.
  rewrite Z.quot_div_nonneg in Hw by lia.
  pose proof (Z.div_mod (now + adj) (grain_ns g) ltac:(lia)) as Hdm.
  pose proof (Z.mod_pos_bound (now + adj) (grain_ns g) Hpos) as Hmod.
  assert (Hq : 0 <= (now + adj) / grain_ns g <= now + adj).
  { split; [apply Z.div_pos; lia | apply Z.div_le_upper_bound; nia]. }
  rewrite (s64_id ((now + adj) / grain_ns g + 1)) in Hw by lia.
  rewrite s64_id in Hw by nia.
  inv_bind_as H r Hdeinit. destruct r as [s mem1].
  apply deinit_sched_info_result in Hdeinit. subst s.
  inv_bind_as H acc Hloop. destruct acc as [vars st1]. injection H as ->.
  exists w. split; [nia|]. split; [rewrite <- Hw; apply Z.mod_mul; lia|].
  apply (update_loop_not_before g w cpu_id k arr _ _ vars st') in Hloop;
    [exact Hloop | nia | exact Hrange |].
  intros p Hp. inversion Hp.
Qed.

End LocalUpdateFacts.

Lemma foldr_max_ge (l : list nat) x : x ∈ l -> (x <= foldr Nat.max 0 l)%nat.
Proof.
  induction l as [|y l IH]; intros Hx; [inversion Hx|].
  apply elem_of_cons in Hx. cbn [foldr]. destruct Hx as [->|Hx]; [lia|].
  specialize (IH Hx). lia.
Qed.

Lemma block_after_last_fresh mem tkt :
  block_after_last mem = Some tkt -> mem !! tkt = None.
Proof.
  unfold block_after_last. intros H. injection H as <-.
  destruct (mem !! S (foldr Nat.max 0%nat (fst <$> map_to_list mem))) as [t|] eqn:E;
    [|exact E].
  exfalso.
  apply elem_of_map_to_list in E.
  assert (Hin : S (foldr Nat.max 0%nat (fst <$> map_to_list mem))
                ∈ fst <$> map_to_list mem).
  { apply list_elem_of_fmap. eexists. split; [|exact E]. reflexivity. }
  apply foldr_max_ge in Hin. lia.
Qed.

Lemma update_local_sched_v0_seeds_tickets_witness :
  exists st',
    LocalUpdate.__update_local_sched_v0 4 block_after_last (fun _ => true) globals4
      (ms 100) doms_after_setup (ms 1) 0
      (Some (local_sched state_dom1_running)) (tickets state_dom1_running)
    = Done st' /\
    exists k, cpu_2_cohort globals4 !! 0%nat = Some k /\
      edf_runnable_Q (local_sched st') = [] /\
      cur_ticket_per_cpu (local_sched st') = replicate 4 None /\
      tickets_waiting_4_event (local_sched st') = Some [] /\
      TicketsHeld.domain_of (tickets st') <$> activation_Q (local_sched st')
      ≡ₚ Some <$> LocalUpdate.domains_of_cohort k doms_after_setup /\
      TicketsHeld.tickets_in_order 4 st'.
Proof.
  destruct (LocalUpdate.__update_local_sched_v0 4 block_after_last (fun _ => true) globals4
              (ms 100) doms_after_setup (ms 1) 0
              (Some (local_sched state_dom1_running)) (tickets state_dom1_running))
    as [st'|c] eqn:E; [|vm_compute in E; discriminate].
  exists st'. split; [reflexivity|].
  apply (update_local_sched_v0_seeds_tickets 4 block_after_last (fun _ => true)
           block_after_last_fresh globals4 (ms 100) doms_after_setup (ms 1) 0
           (Some (local_sched state_dom1_running)) (tickets state_dom1_running) st').
  - apply (bool_decide_unpack _). vm_compute. exact I.
  - intros d Hd. exists 1%nat. split; [lia|].
    apply elem_of_cons in Hd. destruct Hd as [->|Hd]; [reflexivity|].
    apply list_elem_of_singleton in Hd. subst d. reflexivity.
  - exact E.
Defined.

Lemma update_local_sched_v0_defers_activations_witness :
  exists st',
    LocalUpdate.__update_local_sched_v0 4 block_after_last (fun _ => true) globals4
      (ms 100) doms_after_setup (ms 1) 0
      (Some (local_sched state_dom1_running)) (tickets state_dom1_running)
    = Done st' /\
    exists will_resume_at,
      ms 1 + ms 100 < will_resume_at <= ms 1 + ms 100 + grain_ns globals4 /\
      will_resume_at mod grain_ns globals4 = 0 /\
      LocalUpdate.all_start_after will_resume_at st'.
Proof.
  destruct (LocalUpdate.__update_local_sched_v0 4 block_after_last (fun _ => true) globals4
              (ms 100) doms_after_setup (ms 1) 0
              (Some (local_sched state_dom1_running)) (tickets state_dom1_running))
    as [st'|c] eqn:E; [|vm_compute in E; discriminate].
  exists st'. split; [reflexivity|].
  apply (update_local_sched_v0_defers_activations 4 block_after_last (fun _ => true)
           globals4 (ms 100) doms_after_setup (ms 1) 0
           (Some (local_sched state_dom1_running)) (tickets state_dom1_running) st').
  - cbn. lia.
  - unfold ms. lia.
  - unfold ms. lia.
  - unfold ms. lia.
  - intros d Hd.
    apply elem_of_cons in Hd. destruct Hd as [->|Hd].
    + cbn. unfold ms. lia.
    + apply list_elem_of_singleton in Hd. subst d. cbn. unfold ms. lia.
  - exact E.
Defined.

(** ** The CPU bitmaps of the sysctl *)

Section Bitmaps.
Import XcGang.

Lemma read_at_Some a i x :
  a !! i = Some x -> read_at a (Z.of_nat i) = Done x.
Proof.
  intros H. unfold read_at. pose proof (Nat2Z.is_nonneg i).
  replace (Z.of_nat i <? 0) with false by lia.
  rewrite Nat2Z.id, H. reflexivity.
Qed.

Lemma land_bit_test b bit :
  0 <= bit -> (Z.land b (Z.shiftl 1 bit) =? 0) = negb (Z.testbit b bit).
Proof.
  intros Hbit. rewrite Z.shiftl_1_l.
  destruct (Z.testbit b bit) eqn:Hb; cbn [negb].
  - apply Z.eqb_neq. intros H0.
    assert (Z.testbit (Z.land b (2 ^ bit)) bit = false) as Hc
      by (rewrite H0; apply Z.bits_0).
    rewrite Z.land_spec, Hb, Z.pow2_bits_true in Hc by lia. discriminate.
  - apply Z.eqb_eq. apply Z.bits_inj'. intros n Hn.
    rewrite Z.land_spec, Z.bits_0, Z.pow2_bits_eqb by lia.
    destruct (Z.eqb_spec bit n) as [->|]; [rewrite Hb; reflexivity|].
    apply andb_false_r.
Qed.

Lemma byte_and_bit (j : nat) :
  Z.quot (Z.of_nat j) 8 = Z.of_nat (j / 8) /\ Z.rem (Z.of_nat j) 8 = Z.of_nat (j mod 8).
Proof.
  rewrite Z.quot_div_nonneg, Z.rem_mod_nonneg by lia.
  rewrite Nat2Z.inj_div, Nat2Z.inj_mod. split; reflexivity.
Qed.

Lemma bit_of_insert bitmap (a j : nat) b :
  bitmap !! (a / 8)%nat = Some b ->
  bit_of (<[(a / 8)%nat := u8 (Z.lor b (Z.shiftl 1 (Z.of_nat (a mod 8))))]> bitmap) j
  = bit_of bitmap j || bool_decide (j = a).
Proof.
  intros Hb. unfold bit_of.
  destruct (decide (j / 8 = a / 8)%nat) as [Heq|Hne].
  - rewrite Heq, list_lookup_insert_eq by (apply lookup_lt_Some in Hb; exact Hb).
    rewrite Hb. unfold u8. change 256 with (2 ^ 8).
    assert (j mod 8 < 8)%nat by (apply Nat.mod_upper_bound; lia).
    rewrite Z.mod_pow2_bits_low by lia.
    rewrite Z.lor_spec, Z.shiftl_1_l, Z.pow2_bits_eqb by lia. f_equal.
    destruct (Z.eqb_spec (Z.of_nat (a mod 8)) (Z.of_nat (j mod 8))) as [Hm|Hm].
    + symmetry. apply bool_decide_eq_true_2.
      rewrite (Nat.div_mod_eq j 8), (Nat.div_mod_eq a 8). lia.
    + symmetry. apply bool_decide_eq_false_2. intros ->. lia.
  - rewrite list_lookup_insert_ne by congruence.
    rewrite bool_decide_eq_false_2 by (intros ->; congruence).
    rewrite orb_false_r. reflexivity.
Qed.

Lemma set_bit_of_element_spec arr nr_bits bitmap i a :
  arr !! i = Some (Z.of_nat a) ->
  Z.of_nat a < nr_bits -> nr_bits <= 8 * Z.of_nat (length bitmap) ->
  exists bitmap',
    set_bit_of_element arr nr_bits bitmap i = Done bitmap' /\
    length bitmap' = length bitmap /\
    forall j, bit_of bitmap' j = bit_of bitmap j || bool_decide (j = a).
Proof.
  intros Ha Hlt Hlen. unfold set_bit_of_element.
  rewrite (read_at_Some _ _ _ Ha). cbn -[Nat.div Nat.modulo Z.of_nat].
  pose proof (Nat2Z.is_nonneg a). pose proof (Nat2Z.is_nonneg (a / 8)).
  replace (Z.of_nat a >=? 0) with true by lia.
  replace (Z.of_nat a <? nr_bits) with true by lia. cbn -[Nat.div Nat.modulo Z.of_nat].
  destruct (byte_and_bit a) as [-> ->].
  assert (Hbyte : (a / 8 < length bitmap)%nat).
  { apply Nat.Div0.div_lt_upper_bound. lia. }
  destruct (lookup_lt_is_Some_2 bitmap (a / 8)%nat Hbyte) as [b Hb].
  rewrite (read_at_Some _ _ _ Hb). cbn -[Nat.div Nat.modulo Z.of_nat]. unfold write_at.
  replace (Z.of_nat (a / 8) <? 0) with false by lia.
  replace (Z.of_nat (length bitmap) <=? Z.of_nat (a / 8)) with false by lia.
  cbn -[Nat.div Nat.modulo Z.of_nat]. rewrite Nat2Z.id. eexists. split; [reflexivity|].
  split; [apply length_insert|]. intros j. apply bit_of_insert. exact Hb.
Qed.

Lemma array_to_bitmap_loop arr nr_bits : forall n bitmap,
  (n <= length arr)%nat ->
  Forall (fun a => 0 <= a < nr_bits) (take n arr) ->
  nr_bits <= 8 * Z.of_nat (length bitmap) ->
  exists bitmap',
    ofold (set_bit_of_element arr nr_bits) (seq 0 n) bitmap = Done bitmap' /\
    length bitmap' = length bitmap /\
    forall j, bit_of bitmap' j
              = bit_of bitmap j || bool_decide (Z.of_nat j ∈ take n arr).
Proof.
  induction n as [|n IH]; intros bitmap Hn Hall Hlen.
  - exists bitmap. split; [reflexivity|]. split; [reflexivity|].
    intros j. rewrite take_0, bool_decide_eq_false_2 by (intros H; inversion H).
    rewrite orb_false_r. reflexivity.
  - destruct (lookup_lt_is_Some_2 arr n) as [a Ha]; [lia|].
    rewrite (take_S_r _ _ _ Ha) in Hall |- *.
    apply Forall_app in Hall. destruct Hall as [Hall Hlast].
    rewrite Forall_singleton in Hlast.
    destruct (IH bitmap) as (bm1 & Hrun & Hlen1 & Hbits1); [lia | exact Hall | exact Hlen |].
    rewrite seq_S, ofold_app, Hrun. simpl.
    assert (Hza : a = Z.of_nat (Z.to_nat a)) by lia.
    rewrite Hza in Ha.
    destruct (set_bit_of_element_spec arr nr_bits bm1 n (Z.to_nat a) Ha)
      as (bm2 & Hrun2 & Hlen2 & Hbits2); [lia | lia |].
    rewrite Hrun2. simpl. exists bm2. split; [reflexivity|]. split; [congruence|].
    intros j. rewrite Hbits2, Hbits1, <- orb_assoc. f_equal.
    destruct (decide (Z.of_nat j ∈ take n arr ++ [a])) as [Hin|Hno].
    + rewrite (bool_decide_eq_true_2 _ Hin).
      apply elem_of_app in Hin. destruct Hin as [Hin|Hin].
      * rewrite (bool_decide_eq_true_2 _ Hin). reflexivity.
      * apply list_elem_of_singleton in Hin.
        rewrite (bool_decide_eq_true_2 (j = Z.to_nat a)) by lia.
        apply orb_true_r.
    + rewrite (bool_decide_eq_false_2 _ Hno).
      rewrite elem_of_app, list_elem_of_singleton in Hno.
      rewrite bool_decide_eq_false_2 by tauto.
      rewrite bool_decide_eq_false_2 by (intros ->; apply Hno; right; lia).
      reflexivity.
Qed.

Lemma array_to_bitmap_spec arr arr_len bitmap nr_bits :
  0 <= arr_len <= nr_bits -> 0 < nr_bits <= 8 * Z.of_nat (length bitmap) ->
  arr_len <= Z.of_nat (length arr) ->
  Forall (fun a => 0 <= a < nr_bits) (take (Z.to_nat arr_len) arr) ->
  exists bitmap',
    array_to_bitmap (Some arr) arr_len (Some bitmap) nr_bits = Done bitmap' /\
    length bitmap' = length bitmap /\
    forall j, bit_of bitmap' j
              = bit_of bitmap j ||
                bool_decide (Z.of_nat j ∈ take (Z.to_nat arr_len) arr).
Proof.
  intros Hlen Hbits Harr Hall. unfold array_to_bitmap.
  rewrite !bool_decide_eq_true_2 by discriminate.
  replace (arr_len >=? 0) with true by lia.
  replace (nr_bits >? 0) with true by lia.
  replace (arr_len <=? nr_bits) with true by lia. simpl.
  apply array_to_bitmap_loop; [lia | exact Hall | lia].
Qed.

(** X13.  [array_to_bitmap] only sets bits: when the array has [arr_len]
    elements, all in [0, nr_bits), and the bitmap holds [nr_bits] bits,
    the call returns, and a bit of the bitmap is set afterwards exactly
    when it was set before or its position is an element of the array.
    The bits that the buffer held before the call stay. *)
Theorem array_to_bitmap_adds_listed_bits arr arr_len bitmap nr_bits :
  0 <= arr_len <= nr_bits -> 0 < nr_bits <= 8 * Z.of_nat (length bitmap) ->
  arr_len <= Z.of_nat (length arr) ->
  Forall (fun a => 0 <= a < nr_bits) (take (Z.to_nat arr_len) arr) ->
  exists bitmap',
    array_to_bitmap (Some arr) arr_len (Some bitmap) nr_bits = Done bitmap' /\
    length bitmap' = length bitmap /\
    forall j, bit_of bitmap' j
              = bit_of bitmap j ||
                bool_decide (Z.of_nat j ∈ take (Z.to_nat arr_len) arr).
Proof. exact (array_to_bitmap_spec arr arr_len bitmap nr_bits). Qed.


Lemma set_bits_S bitmap k :
  set_bits bitmap (S k)
  = set_bits bitmap k ++ (if bit_of bitmap k then [k] else []).
Proof.
  unfold set_bits. rewrite seq_S, filter_app. f_equal. cbn [Nat.add].
  destruct (bit_of bitmap k) eqn:E.
  - rewrite filter_cons_True by exact E. reflexivity.
  - rewrite filter_cons_False by (rewrite E; discriminate). reflexivity.
Qed.

Lemma set_bits_elem bitmap k j :
  j ∈ set_bits bitmap k <-> (j < k)%nat /\ bit_of bitmap j = true.
Proof.
  unfold set_bits. rewrite list_elem_of_filter, elem_of_seq. intuition lia.
Qed.

Lemma set_bits_length bitmap k : (length (set_bits bitmap k) <= k)%nat.
Proof.
  unfold set_bits. etransitivity; [apply length_filter|]. rewrite length_seq. lia.
Qed.

Lemma set_bits_increasing bitmap k : forall i j a b,
  (i < j)%nat -> set_bits bitmap k !! i = Some a -> set_bits bitmap k !! j = Some b ->
  (a < b)%nat.
Proof.
  induction k as [|k IH]; intros i j a b Hij Ha Hb; [discriminate|].
  rewrite set_bits_S in Ha, Hb.
  destruct (decide (j < length (set_bits bitmap k))%nat) as [Hj|Hj].
  - rewrite lookup_app_l in Ha, Hb by lia. exact (IH i j a b Hij Ha Hb).
  - rewrite lookup_app_r in Hb by lia.
    destruct (bit_of bitmap k); [|destruct (j - _)%nat; discriminate].
    assert (b = k) as ->.
    { destruct (j - _)%nat as [|m]; [injection Hb as <-; reflexivity|].
      destruct m; discriminate. }
    assert (Hi : (i < length (set_bits bitmap k))%nat).
    { apply lookup_lt_Some in Ha, Hb. rewrite length_app in Ha. cbn in Ha, Hb. lia. }
    rewrite lookup_app_l in Ha by exact Hi.
    assert (a ∈ set_bits bitmap k) as Hin by (apply list_elem_of_lookup; eauto).
    apply set_bits_elem in Hin. lia.
Qed.

Lemma bitmap_to_array_loop bitmap rest arr_len : forall k,
  (k <= arr_len)%nat -> (k <= 8 * length bitmap)%nat ->
  ofold (collect_bit bitmap) (seq 0 k) (0, replicate arr_len 0 ++ rest)
  = Done (Z.of_nat (length (set_bits bitmap k)),
          (Z.of_nat <$> set_bits bitmap k)
            ++ replicate (arr_len - length (set_bits bitmap k)) 0 ++ rest).
Proof.
  induction k as [|k IH]; intros Hk Hlen.
  - cbn. rewrite Nat.sub_0_r. reflexivity.
  - rewrite seq_S, ofold_app, IH by lia. cbn [Nat.add ofold mbind outcome_bind obind].
    unfold collect_bit. destruct (byte_and_bit k) as [-> ->].
    assert (Hbyte : (k / 8 < length bitmap)%nat).
    { apply Nat.Div0.div_lt_upper_bound. lia. }
    destruct (lookup_lt_is_Some_2 bitmap (k / 8)%nat Hbyte) as [b Hb].
    rewrite (read_at_Some _ _ _ Hb). cbn [mbind outcome_bind obind].
    rewrite land_bit_test by lia. rewrite negb_involutive.
    assert (Htb : Z.testbit b (Z.of_nat (k mod 8)) = bit_of bitmap k)
      by (unfold bit_of; rewrite Hb; reflexivity).
    rewrite Htb, set_bits_S.
    pose proof (set_bits_length bitmap k) as Hsb.
    set (sb := set_bits bitmap k) in *.
    destruct (bit_of bitmap k).
    + unfold write_at.
      replace (Z.of_nat (length sb) <? 0) with false
        by (symmetry; apply Z.ltb_ge; lia).
      rewrite !length_app, length_fmap, length_replicate.
      replace (Z.of_nat (length sb + (arr_len - length sb + length rest))
               <=? Z.of_nat (length sb)) with false
        by (symmetry; apply Z.leb_gt; lia).
      cbn [orb mbind outcome_bind obind]. rewrite Nat2Z.id. f_equal. f_equal.
      * rewrite Nat.add_1_r. lia.
      * rewrite insert_app_r_alt by (rewrite length_fmap; lia).
        rewrite length_fmap, Nat.sub_diag.
        replace (arr_len - length sb)%nat with (S (arr_len - (length sb + 1)))%nat by lia.
        cbn [replicate app length]. rewrite fmap_app. cbn [fmap list_fmap].
        rewrite <- app_assoc. reflexivity.
    + cbn [mbind outcome_bind obind]. rewrite app_nil_r. reflexivity.
Qed.

Lemma bitmap_to_array_spec bitmap nr_bits arr arr_len :
  0 < nr_bits <= arr_len -> nr_bits <= 8 * Z.of_nat (length bitmap) ->
  arr_len <= Z.of_nat (length arr) ->
  bitmap_to_array (Some bitmap) nr_bits (Some arr) arr_len
  = Done (Z.of_nat (length (set_bits bitmap (Z.to_nat nr_bits))),
          (Z.of_nat <$> set_bits bitmap (Z.to_nat nr_bits))
            ++ replicate (Z.to_nat arr_len
                          - length (set_bits bitmap (Z.to_nat nr_bits))) 0
            ++ drop (Z.to_nat arr_len) arr).
Proof.
  intros Hbits Hlen Harr. unfold bitmap_to_array, bzero.
  change (default [] (Some arr)) with arr.
  change (default [] (Some bitmap)) with bitmap.
  rewrite !bool_decide_eq_true_2 by discriminate.
  replace (arr_len >=? 0) with true by lia.
  replace (nr_bits >? 0) with true by lia.
  replace (arr_len >=? nr_bits) with true by lia.
  replace (Z.of_nat (length arr) <? arr_len) with false by lia.
  cbn [ASSERT mbind outcome_bind obind].
  apply bitmap_to_array_loop; lia.
Qed.

(** X14.  [bitmap_to_array] lists the set bits: when the bitmap holds
    [nr_bits] bits and the array [arr_len >= nr_bits] elements, the
    call returns the number of set bits below [nr_bits], and the array
    then holds their positions in increasing order, followed by zeros
    up to [arr_len]; the elements from [arr_len] on are untouched. *)
Theorem bitmap_to_array_lists_set_bits bitmap nr_bits arr arr_len :
  0 < nr_bits <= arr_len -> nr_bits <= 8 * Z.of_nat (length bitmap) ->
  arr_len <= Z.of_nat (length arr) ->
  bitmap_to_array (Some bitmap) nr_bits (Some arr) arr_len
  = Done (Z.of_nat (length (set_bits bitmap (Z.to_nat nr_bits))),
          (Z.of_nat <$> set_bits bitmap (Z.to_nat nr_bits))
            ++ replicate (Z.to_nat arr_len
                          - length (set_bits bitmap (Z.to_nat nr_bits))) 0
            ++ drop (Z.to_nat arr_len) arr).
Proof. exact (bitmap_to_array_spec bitmap nr_bits arr arr_len). Qed.

Lemma bit_of_zeroed size j : bit_of (replicate size 0) j = false.
Proof.
  unfold bit_of. destruct (replicate size 0 !! (j / 8)%nat) as [b|] eqn:E;
    [|reflexivity].
  apply lookup_replicate in E. destruct E as [-> _]. apply Z.bits_0.
Qed.

(** X15.  The CPUs of a domain entry, sent as a bitmap and read back: from a
    zeroed bitmap of [size] bytes, [array_to_bitmap] followed by
    [bitmap_to_array] over all [8 * size] bits returns, and the first
    [n] elements of the resulting array (with [n] the returned count)
    are the elements of the original array in strictly increasing
    order, each once. *)
Theorem cpu_array_through_bitmap arr arr_len size nr_bits tmp :
  0 <= arr_len <= nr_bits -> 0 < nr_bits <= 8 * Z.of_nat size ->
  arr_len <= Z.of_nat (length arr) ->
  Forall (fun a => 0 <= a < nr_bits) (take (Z.to_nat arr_len) arr) ->
  8 * Z.of_nat size <= Z.of_nat (length tmp) ->
  exists bitmap n out,
    array_to_bitmap (Some arr) arr_len (Some (replicate size 0)) nr_bits
    = Done bitmap /\
    bitmap_to_array (Some bitmap) (8 * Z.of_nat size) (Some tmp) (8 * Z.of_nat size)
    = Done (n, out) /\
    (forall c, c ∈ take (Z.to_nat n) out <-> c ∈ take (Z.to_nat arr_len) arr) /\
    (forall i j a b, (i < j)%nat -> take (Z.to_nat n) out !! i = Some a ->
                     take (Z.to_nat n) out !! j = Some b -> a < b).
Proof.
  intros Hlen Hbits Harr Hall Htmp.
  destruct (array_to_bitmap_spec arr arr_len (replicate size 0) nr_bits)
    as (bitmap & Hrun & Hblen & Hbit); try assumption;
    [rewrite length_replicate; lia|].
  rewrite length_replicate in Hblen.
  exists bitmap. eexists. eexists. split; [exact Hrun|].
  split; [apply bitmap_to_array_spec; lia|].
  rewrite Nat2Z.id.
  set (sb := set_bits bitmap (Z.to_nat (8 * Z.of_nat size))).
  assert (Htake : take (length sb) ((Z.of_nat <$> sb)
                    ++ replicate (Z.to_nat (8 * Z.of_nat size) - length sb) 0
                    ++ drop (Z.to_nat (8 * Z.of_nat size)) tmp)
                  = Z.of_nat <$> sb).
  { rewrite take_app_le by (rewrite length_fmap; lia).
    apply take_ge. rewrite length_fmap. lia. }
  rewrite Htake. split.
  - intros c. rewrite list_elem_of_fmap. split.
    + intros (j & -> & Hj). apply set_bits_elem in Hj. destruct Hj as [_ Hj].
      rewrite Hbit, bit_of_zeroed in Hj. cbn [orb] in Hj.
      apply bool_decide_eq_true_1 in Hj. exact Hj.
    + intros Hc. assert (Hr : 0 <= c < nr_bits).
      { rewrite Forall_forall in Hall. apply Hall. exact Hc. }
      exists (Z.to_nat c). split; [lia|]. apply set_bits_elem. split; [lia|].
      rewrite Hbit, bit_of_zeroed. cbn [orb]. apply bool_decide_eq_true_2.
      rewrite Z2Nat.id by lia. exact Hc.
  - intros i j a b Hij Ha Hb. rewrite list_lookup_fmap in Ha, Hb.
    destruct (sb !! i) as [a'|] eqn:Ea; [|discriminate].
    destruct (sb !! j) as [b'|] eqn:Eb; [|discriminate].
    injection Ha as <-. injection Hb as <-.
    pose proof (set_bits_increasing _ _ i j a' b' Hij Ea Eb). lia.
Qed.

End Bitmaps.

(** ** The check of a CPU array in the control tool *)

Section CpuArrayCheck.
Import XcGang GsUtils.

Lemma first_return_None {A R} (body : A -> outcome (option R)) l :
  (forall a, a ∈ l -> body a = Done None) -> first_return body l = Done None.
Proof.
  induction l as [|a l IH]; intros H; [reflexivity|]. cbn [first_return].
  rewrite (H a) by left. simpl. apply IH. intros b Hb. apply H. right. exact Hb.
Qed.

Lemma first_return_Some {A R} (body : A -> outcome (option R)) l x :
  (forall a, a ∈ l -> body a = Done None \/ body a = Done (Some x)) ->
  (exists a, a ∈ l /\ body a = Done (Some x)) ->
  first_return body l = Done (Some x).
Proof.
  induction l as [|a l IH]; intros H (b & Hb & Hx); [inversion Hb|].
  cbn [first_return]. destruct (H a) as [Hn|Hs]; [left| |].
  - rewrite Hn. simpl. apply IH.
    + intros c Hc. apply H. right. exact Hc.
    + apply elem_of_cons in Hb. destruct Hb as [->|Hb]; [congruence|]. eauto.
  - rewrite Hs. reflexivity.
Qed.

(** X16.  [validate_cpu_array] where [xc_cpumap_t] has size 8, for an array
    of [num_of_cpus] CPU ids and a pool whose CPU map holds
    [xc_get_max_cpus] bits: the call returns 0 exactly when there is at
    least one id and no more than [xc_get_max_cpus], every id is in
    [0, xc_get_max_cpus), no id occurs twice and every id has its bit
    set in the CPU map of the pool; otherwise it returns [-EINVAL]. *)
Theorem validate_cpu_array_accepts xch cpupool_id cpus num_of_cpus cpumap :
  Z.of_nat (length cpus) = num_of_cpus ->
  xc_cpupool_getinfo xch cpupool_id = Some cpumap ->
  xc_get_max_cpus xch <= 8 * Z.of_nat (length cpumap) ->
  xc_get_max_cpus xch < 2^31 ->
  validate_cpu_array 8 xch cpupool_id (Some cpus) num_of_cpus
  = Done (if decide (0 < num_of_cpus <= xc_get_max_cpus xch /\
                     Forall (fun c => 0 <= c < xc_get_max_cpus xch) cpus /\
                     NoDup cpus /\
                     Forall (fun c => bit_of cpumap (Z.to_nat c) = true) cpus)
          then 0 else - EINVAL).
Proof.
  intros Hlen Hinfo Hmap Hmax. unfold validate_cpu_array.
  destruct (Z.leb_spec num_of_cpus 0) as [Hle|Hpos].
  { rewrite decide_False by lia. reflexivity. }
  destruct (Z.gtb_spec num_of_cpus (xc_get_max_cpus xch)) as [Hgt|Hle].
  { rewrite decide_False by lia. reflexivity. }
  assert (Hn : Z.to_nat num_of_cpus = length cpus) by lia.
  rewrite Hn.
  (* the ids *)
  destruct (decide (Forall (fun c => 0 <= c < xc_get_max_cpus xch) cpus))
    as [Hids|Hids].
  2:{ rewrite (first_return_Some (check_cpu_id cpus (xc_get_max_cpus xch)) _ (- EINVAL)).
      - simpl. rewrite decide_False by tauto. reflexivity.
      - intros i Hi. apply elem_of_seq in Hi.
        destruct (lookup_lt_is_Some_2 cpus i) as [c Hc]; [lia|].
        unfold check_cpu_id. rewrite (read_at_Some _ _ _ Hc). simpl.
        destruct ((c <? 0) || (c >=? xc_get_max_cpus xch)); auto.
      - apply not_Forall_Exists in Hids; [|intros c; apply _].
        apply Exists_exists in Hids. destruct Hids as (c & Hc & Hbad).
        unfold compose in Hbad.
        apply list_elem_of_lookup in Hc. destruct Hc as [i Hc].
        exists i. split.
        + apply elem_of_seq. apply lookup_lt_Some in Hc. lia.
        + unfold check_cpu_id. rewrite (read_at_Some _ _ _ Hc). simpl.
          replace ((c <? 0) || (c >=? xc_get_max_cpus xch)) with true; [reflexivity|].
          symmetry. apply orb_true_iff. lia. }
  rewrite (first_return_None (check_cpu_id cpus (xc_get_max_cpus xch))).
  2:{ intros i Hi. apply elem_of_seq in Hi.
      destruct (lookup_lt_is_Some_2 cpus i) as [c Hc]; [lia|].
      unfold check_cpu_id. rewrite (read_at_Some _ _ _ Hc). simpl.
      rewrite Forall_forall in Hids. apply list_elem_of_lookup_2 in Hc.
      specialize (Hids c Hc). cbv beta in Hids.
      replace ((c <? 0) || (c >=? xc_get_max_cpus xch)) with false; [reflexivity|].
      symmetry. apply orb_false_iff. lia. }
  cbn [mbind outcome_bind obind].
  (* the repeated elements *)
  assert (Hinner : forall i, (i < length cpus)%nat ->
            forall j, j ∈ seq (i + 1) (length cpus - (i + 1)) ->
            exists ci cj, cpus !! i = Some ci /\ cpus !! j = Some cj /\
              (ci ← read_at cpus (Z.of_nat i);
               cj ← read_at cpus (Z.of_nat j);
               if ci =? cj then Done (Some (- EINVAL)) else Done None)
              = (if ci =? cj then Done (Some (- EINVAL)) else Done None)).
  { intros i Hi j Hj. apply elem_of_seq in Hj.
    destruct (lookup_lt_is_Some_2 cpus i) as [ci Hci]; [lia|].
    destruct (lookup_lt_is_Some_2 cpus j) as [cj Hcj]; [lia|].
    exists ci, cj. split; [exact Hci|]. split; [exact Hcj|].
    rewrite (read_at_Some _ _ _ Hci). simpl.
    rewrite (read_at_Some _ _ _ Hcj). reflexivity. }
  replace (Z.to_nat (num_of_cpus - 1)) with (length cpus - 1)%nat by lia.
  destruct (decide (NoDup cpus)) as [Hnd|Hnd].
  2:{ rewrite (first_return_Some (check_repeated cpus num_of_cpus) _ (- EINVAL)).
      - simpl. rewrite decide_False by tauto. reflexivity.
      - intros i Hi. apply elem_of_seq in Hi. unfold check_repeated. rewrite Hn.
        destruct (decide (Exists (fun j => cpus !! i = cpus !! j)
                            (seq (i + 1) (length cpus - (i + 1))))) as [Hex|Hex].
        + right. apply first_return_Some.
          * intros j Hj. destruct (Hinner i ltac:(lia) j Hj) as (ci & cj & _ & _ & ->).
            destruct (ci =? cj); auto.
          * apply Exists_exists in Hex. destruct Hex as (j & Hj & Heq).
            exists j. split; [exact Hj|].
            destruct (Hinner i ltac:(lia) j Hj) as (ci & cj & Hci & Hcj & ->).
            replace (ci =? cj) with true; [reflexivity|].
            symmetry. apply Z.eqb_eq. congruence.
        + left. apply first_return_None. intros j Hj.
          destruct (Hinner i ltac:(lia) j Hj) as (ci & cj & Hci & Hcj & ->).
          replace (ci =? cj) with false; [reflexivity|].
          symmetry. apply Z.eqb_neq. intros ->. apply Hex.
          apply Exists_exists. exists j. split; [exact Hj|].
          congruence.
      - destruct (decide (Exists (fun i => Exists (fun j => cpus !! i = cpus !! j)
                               (seq (i + 1) (length cpus - (i + 1))))
                            (seq 0 (length cpus - 1)))) as [Hex|Hex].
        + apply Exists_exists in Hex. destruct Hex as (i & Hi & Hex).
          exists i. split; [exact Hi|].
          apply elem_of_seq in Hi. unfold check_repeated. rewrite Hn.
          apply first_return_Some.
          * intros j Hj. destruct (Hinner i ltac:(lia) j Hj) as (ci & cj & _ & _ & ->).
            destruct (ci =? cj); auto.
          * apply Exists_exists in Hex. destruct Hex as (j & Hj & Heq).
            exists j. split; [exact Hj|].
            destruct (Hinner i ltac:(lia) j Hj) as (ci & cj & Hci & Hcj & ->).
            replace (ci =? cj) with true; [reflexivity|].
            symmetry. apply Z.eqb_eq. congruence.
        + exfalso. apply Hnd. apply NoDup_alt. intros i j c Hi Hj.
          destruct (Nat.lt_trichotomy i j) as [Hlt|[Heq|Hgt]]; [|exact Heq|];
            exfalso; apply Hex; apply Exists_exists.
          * exists i. pose proof (lookup_lt_Some _ _ _ Hj).
            split; [apply elem_of_seq; lia|].
            apply Exists_exists. exists j.
            split; [apply elem_of_seq; lia | congruence].
          * exists j. pose proof (lookup_lt_Some _ _ _ Hi).
            split; [apply elem_of_seq; lia|].
            apply Exists_exists. exists i.
            split; [apply elem_of_seq; lia | congruence]. }
  rewrite (first_return_None (check_repeated cpus num_of_cpus)).
  2:{ intros i Hi. apply elem_of_seq in Hi. unfold check_repeated. rewrite Hn.
      apply first_return_None. intros j Hj.
      destruct (Hinner i ltac:(lia) j Hj) as (ci & cj & Hci & Hcj & ->).
      replace (ci =? cj) with false; [reflexivity|].
      symmetry. apply Z.eqb_neq. intros ->.
      apply elem_of_seq in Hj.
      pose proof (NoDup_lookup _ _ _ _ Hnd Hci Hcj). lia. }
  cbn [mbind outcome_bind obind]. rewrite Hinfo.
  (* the CPUs of the pool *)
  assert (Hpresent : forall i c, cpus !! i = Some c ->
            check_present 8 cpus cpumap i
            = Done (if bit_of cpumap (Z.to_nat c) then None else Some tt)).
  { intros i c Hc. unfold check_present. rewrite (read_at_Some _ _ _ Hc). simpl.
    rewrite Forall_forall in Hids.
    pose proof (Hids c ltac:(eapply list_elem_of_lookup_2; exact Hc))
      as Hr. cbv beta in Hr.
    assert (Hc' : c = Z.of_nat (Z.to_nat c)) by lia.
    destruct (byte_and_bit (Z.to_nat c)) as [Hq Hm]. rewrite <- Hc' in Hq, Hm.
    rewrite Hq, Hm.
    assert (Hm8 : (Z.to_nat c mod 8 < 8)%nat) by (apply Nat.mod_upper_bound; lia).
    assert (Hd8 : (Z.to_nat c / 8 < length cpumap)%nat)
      by (apply Nat.Div0.div_lt_upper_bound; lia).
    assert (Hdle : (Z.to_nat c / 8 <= Z.to_nat c)%nat)
      by (apply Nat.Div0.div_le_upper_bound; lia).
    rewrite (s32_id (Z.of_nat (Z.to_nat c / 8))) by lia.
    rewrite (s32_id (Z.of_nat (Z.to_nat c mod 8))) by lia.
    destruct (lookup_lt_is_Some_2 cpumap _ Hd8) as [b Hb].
    rewrite (read_at_Some _ _ _ Hb). cbn [mbind outcome_bind obind].
    unfold bit_of. rewrite Hb.
    set (k := Z.of_nat (Z.to_nat c mod 8)).
    assert (Hk : 0 <= k <= 7) by (unfold k; lia).
    pose proof (land_bit_test b k ltac:(lia)) as Hland.
    destruct (Z.testbit b k) eqn:Hbit; cbn [negb] in Hland.
    - assert (Hval : Z.land b (Z.shiftl 1 k) = 2 ^ k).
      { rewrite Z.shiftl_1_l. apply Z.bits_inj'. intros n Hnn.
        rewrite Z.land_spec, Z.pow2_bits_eqb by lia.
        destruct (Z.eqb_spec k n) as [<-|]; [rewrite Hbit; reflexivity|].
        apply andb_false_r. }
      rewrite Hval. unfold u8.
      assert (1 <= 2 ^ k <= 2 ^ 7).
      { split; [apply (Z.pow_le_mono_r 2 0 k); lia | apply Z.pow_le_mono_r; lia]. }
      rewrite Z.mod_small by lia.
      replace (2 ^ k =? 0) with false by lia. reflexivity.
    - apply Z.eqb_eq in Hland. rewrite Hland. reflexivity. }
  destruct (decide (Forall (fun c => bit_of cpumap (Z.to_nat c) = true) cpus))
    as [Hall|Hall].
  - rewrite (first_return_None (check_present 8 cpus cpumap)).
    + simpl. rewrite decide_True by (repeat split; try assumption; lia). reflexivity.
    + intros i Hi. apply elem_of_seq in Hi.
      destruct (lookup_lt_is_Some_2 cpus i) as [c Hc]; [lia|].
      rewrite (Hpresent i c Hc). rewrite Forall_forall in Hall.
      rewrite (Hall c) by (eapply list_elem_of_lookup_2; exact Hc).
      reflexivity.
  - rewrite (first_return_Some (check_present 8 cpus cpumap) _ tt).
    + simpl. rewrite decide_False by tauto. reflexivity.
    + intros i Hi. apply elem_of_seq in Hi.
      destruct (lookup_lt_is_Some_2 cpus i) as [c Hc]; [lia|].
      rewrite (Hpresent i c Hc). destruct (bit_of cpumap (Z.to_nat c)); auto.
    + apply not_Forall_Exists in Hall; [|intros c; apply _].
      apply Exists_exists in Hall. destruct Hall as (c & Hc & Hbad).
      unfold compose in Hbad.
      apply list_elem_of_lookup in Hc. destruct Hc as [i Hc].
      exists i. split.
      * apply elem_of_seq. apply lookup_lt_Some in Hc. lia.
      * rewrite (Hpresent i c Hc). destruct (bit_of cpumap (Z.to_nat c)); congruence.
Qed.

End CpuArrayCheck.

(** ** The hash table *)

Section HashtableProperties.
Import Hashtable.

Variable indexFor : Z -> Z -> Z.
Hypothesis indexFor_range : forall n hv, 0 < n -> 0 <= indexFor n hv < n.

Lemma chain_at_index (t : list (list entry)) index :
  0 <= index < Z.of_nat (length t) ->
  exists chain, t !! Z.to_nat index = Some chain /\ chain_at t index = Done chain.
Proof.
  intros Hi. destruct (lookup_lt_is_Some_2 t (Z.to_nat index)) as [c Hc]; [lia|].
  exists c. split; [exact Hc|]. unfold chain_at.
  replace (index <? 0) with false by lia. rewrite Hc. reflexivity.
Qed.

Lemma concat_split (t : list (list entry)) i c :
  t !! i = Some c ->
  concat t = concat (take i t) ++ c ++ concat (drop (S i) t).
Proof.
  intros Hc. rewrite <- (take_drop_middle t i c Hc) at 1.
  rewrite concat_app, concat_cons. reflexivity.
Qed.

Lemma concat_insert (t : list (list entry)) i c c' :
  t !! i = Some c ->
  concat (<[i := c']> t) = concat (take i t) ++ c' ++ concat (drop (S i) t).
Proof.
  intros Hc. rewrite insert_take_drop by (apply lookup_lt_Some in Hc; exact Hc).
  rewrite concat_app, concat_cons. reflexivity.
Qed.

Lemma concat_insert_cons (t : list (list entry)) i c e :
  t !! i = Some c -> concat (<[i := e :: c]> t) ≡ₚ e :: concat t.
Proof.
  intros Hc. rewrite (concat_insert t i c _ Hc), (concat_split t i c Hc).
  cbn [app]. symmetry. apply Permutation_middle.
Qed.

Lemma concat_insert_without (t : list (list entry)) i l1 e l2 :
  t !! i = Some (l1 ++ e :: l2) ->
  concat t ≡ₚ e :: concat (<[i := l1 ++ l2]> t).
Proof.
  intros Hc. rewrite (concat_insert t i _ _ Hc), (concat_split t i _ Hc).
  rewrite <- !app_assoc. cbn [app].
  rewrite (app_assoc (concat (take i t)) l1 (e :: _)).
  rewrite <- Permutation_middle. rewrite <- app_assoc. reflexivity.
Qed.

Lemma elem_of_chains (t : list (list entry)) e :
  e ∈ concat t <-> exists i chain, t !! i = Some chain /\ e ∈ chain.
Proof.
  induction t as [|c t IH]; cbn [concat].
  - split; [intros H; inversion H | intros (i & c & H & _); destruct i; discriminate].
  - rewrite elem_of_app, IH. split.
    + intros [H|(i & c' & Hi & Hin)]; [exists 0%nat, c; auto | exists (S i), c'; auto].
    + intros (i & c' & Hi & Hin). destruct i as [|i].
      * injection Hi as ->. left. exact Hin.
      * right. exists i, c'. auto.
Qed.

Lemma placed_insert n (t : list (list entry)) i c' :
  placed indexFor n t ->
  (forall e, e ∈ c' -> indexFor n (h e) = Z.of_nat i) ->
  placed indexFor n (<[i := c']> t).
Proof.
  intros Hp Hc' j chain e Hj He.
  destruct (decide (j = i)) as [->|Hne].
  - assert (i < length t)%nat as Hlt.
    { apply lookup_lt_Some in Hj. rewrite length_insert in Hj. exact Hj. }
    rewrite list_lookup_insert_eq in Hj by exact Hlt. injection Hj as <-.
    apply Hc'. exact He.
  - rewrite list_lookup_insert_ne in Hj by congruence. exact (Hp j chain e Hj He).
Qed.

Lemma push_entry_spec n e (t : list (list entry)) :
  0 < n -> Z.of_nat (length t) = n -> placed indexFor n t ->
  exists t',
    push_entry e (indexFor n (h e)) t = Done t' /\
    length t' = length t /\ concat t' ≡ₚ e :: concat t /\ placed indexFor n t'.
Proof.
  intros Hn Hlen Hp. pose proof (indexFor_range n (h e) Hn) as Hr.
  destruct (chain_at_index t (indexFor n (h e))) as (c & Hc & Hrun); [lia|].
  unfold push_entry. rewrite Hrun. simpl. eexists. split; [reflexivity|].
  split; [apply length_insert|]. split; [apply concat_insert_cons; exact Hc|].
  apply placed_insert; [exact Hp|]. intros e' He'.
  apply elem_of_cons in He'. destruct He' as [->|He']; [lia|].
  rewrite (Hp _ c e' Hc He'). reflexivity.
Qed.

Lemma move_entries n : forall es (t : list (list entry)),
  0 < n -> Z.of_nat (length t) = n -> placed indexFor n t ->
  exists t',
    ofold (move_entry indexFor n) es t = Done t' /\
    length t' = length t /\ concat t' ≡ₚ es ++ concat t /\ placed indexFor n t'.
Proof.
  induction es as [|e es IH]; intros t Hn Hlen Hp.
  - exists t. split; [reflexivity|]. split; [reflexivity|]. split; [reflexivity|].
    exact Hp.
  - cbn [ofold].
    change (move_entry indexFor n t e) with (push_entry e (indexFor n (h e)) t).
    destruct (push_entry_spec n e t Hn Hlen Hp) as (t1 & Hrun & Hl1 & Hc1 & Hp1).
    rewrite Hrun. simpl.
    destruct (IH t1 Hn ltac:(congruence) Hp1) as (t2 & Hrun2 & Hl2 & Hc2 & Hp2).
    exists t2. split; [exact Hrun2|]. split; [congruence|]. split; [|exact Hp2].
    rewrite Hc2, Hc1. cbn [app]. symmetry. apply Permutation_middle.
Qed.

Lemma move_chains n (old : list (list entry)) : forall m (t : list (list entry)),
  (m <= length old)%nat ->
  0 < n -> Z.of_nat (length t) = n -> placed indexFor n t ->
  exists t',
    ofold (move_chain indexFor n old) (seq 0 m) t = Done t' /\
    length t' = length t /\ concat t' ≡ₚ concat (take m old) ++ concat t /\
    placed indexFor n t'.
Proof.
  induction m as [|m IH]; intros t Hm Hn Hlen Hp.
  - exists t. split; [reflexivity|]. split; [reflexivity|]. split; [|exact Hp].
    rewrite take_0. reflexivity.
  - destruct (IH t) as (t1 & Hrun & Hl1 & Hc1 & Hp1); [lia | lia | exact Hlen | exact Hp |].
    rewrite seq_S, ofold_app, Hrun. cbn [Nat.add ofold mbind outcome_bind obind].
    destruct (lookup_lt_is_Some_2 old m) as [c Hc]; [lia|].
    unfold move_chain. unfold chain_at.
    pose proof (Nat2Z.is_nonneg m).
    replace (Z.of_nat m <? 0) with false by lia. rewrite Nat2Z.id, Hc.
    cbn [mbind outcome_bind obind].
    destruct (move_entries n c t1 Hn ltac:(congruence) Hp1)
      as (t2 & Hrun2 & Hl2 & Hc2 & Hp2).
    rewrite Hrun2. exists t2. split; [reflexivity|]. split; [congruence|].
    split; [|exact Hp2].
    rewrite Hc2, Hc1, (take_S_r _ _ _ Hc), concat_app. cbn [concat].
    rewrite app_nil_r, app_assoc.
    apply Permutation_app_tail. apply Permutation_app_comm.
Qed.

Lemma primes_positive i p : primes !! i = Some p -> 0 < p.
Proof.
  intros H. apply list_elem_of_lookup_2 in H.
  assert (Hall : Forall (fun p => 0 < p) primes) by (repeat constructor).
  rewrite Forall_forall in Hall. exact (Hall p H).
Qed.

Lemma concat_replicate_nil n : concat (replicate n ([] : list entry)) = [].
Proof. induction n as [|n IH]; [reflexivity|]. exact IH. Qed.

Lemma placed_replicate_nil n m : placed indexFor n (replicate m []).
Proof.
  intros i chain e Hi He. apply lookup_replicate in Hi. destruct Hi as [-> _].
  inversion He.
Qed.

Lemma hash_ext tbl tbl' key : hashfn tbl' = hashfn tbl -> hash tbl' key = hash tbl key.
Proof. intros H. unfold hash. rewrite H. reflexivity. Qed.

(** What [hashtable_expand] keeps, whether it allocates or not. *)
Lemma hashtable_expand_spec newtable_ok tbl :
  0 < tablelength tbl -> Z.of_nat (length (table tbl)) = tablelength tbl ->
  0 <= primeindex tbl < prime_table_length ->
  placed indexFor (tablelength tbl) (table tbl) ->
  exists r tbl',
    hashtable_expand indexFor newtable_ok tbl = Done (r, tbl') /\
    0 < tablelength tbl' /\ Z.of_nat (length (table tbl')) = tablelength tbl' /\
    0 <= primeindex tbl' < prime_table_length /\
    placed indexFor (tablelength tbl') (table tbl') /\
    entries tbl' ≡ₚ entries tbl /\
    entrycount tbl' = entrycount tbl /\
    hashfn tbl' = hashfn tbl /\ eqfn tbl' = eqfn tbl.
Proof.
  intros Hlen Htab Hpi Hp. unfold hashtable_expand.
  change prime_table_length with 26 in *.
  destruct (primeindex tbl =? 26 - 1) eqn:Hmax.
  { exists 0, tbl. repeat split; try assumption; try lia; reflexivity. }
  apply Z.eqb_neq in Hmax.
  assert (Hu : u32 (primeindex tbl + 1) = primeindex tbl + 1).
  { unfold u32. apply Z.mod_small. lia. }
  rewrite Hu.
  destruct (lookup_lt_is_Some_2 primes (Z.to_nat (primeindex tbl + 1)))
    as [newsize Hns]; [cbn; lia|].
  rewrite Hns. pose proof (primes_positive _ _ Hns) as Hpos.
  destruct newtable_ok.
  - destruct (move_chains newsize (table tbl) (Z.to_nat (tablelength tbl))
                (replicate (Z.to_nat newsize) []))
      as (t' & Hrun & Hl & Hc & Hp'); [lia | exact Hpos | | |].
    + rewrite length_replicate. lia.
    + apply placed_replicate_nil.
    + rewrite Hrun. simpl. eexists _, _. split; [reflexivity|]. cbn.
      rewrite length_replicate in Hl.
      repeat split; try assumption; try lia.
      unfold entries. cbn. rewrite Hc, concat_replicate_nil, app_nil_r.
      rewrite take_ge by lia. reflexivity.
  - eexists _, _. split; [reflexivity|]. cbn.
    repeat split; try assumption; try lia; reflexivity.
Qed.


(** *** The table as a map *)

Lemma pairs_keys (es : list entry) :
  ((fun e => (k e, v e)) <$> es).*1 = k <$> es.
Proof. rewrite <- list_fmap_compose. reflexivity. Qed.

Lemma map_of_cons (es es' : list entry) e :
  es' ≡ₚ e :: es -> NoDup (k <$> es') ->
  list_to_map ((fun e => (k e, v e)) <$> es')
  = (<[k e := v e]> (list_to_map ((fun e => (k e, v e)) <$> es)) : gmap Z Z).
Proof.
  intros Hperm Hnd. rewrite <- list_to_map_cons.
  apply list_to_map_proper.
  - rewrite pairs_keys. exact Hnd.
  - rewrite Hperm. reflexivity.
Qed.

Lemma to_map_None tbl key :
  to_map tbl !! key = None <-> forall e, e ∈ entries tbl -> k e <> key.
Proof.
  unfold to_map. split.
  - intros H e He Hk. apply not_elem_of_list_to_map_2 in H. apply H.
    rewrite pairs_keys. apply list_elem_of_fmap. exists e. auto.
  - intros H. apply not_elem_of_list_to_map_1. rewrite pairs_keys.
    intros Hin. apply list_elem_of_fmap in Hin. destruct Hin as (e & Hk & He).
    exact (H e He (eq_sym Hk)).
Qed.

Lemma to_map_Some tbl e :
  NoDup (k <$> entries tbl) -> e ∈ entries tbl -> to_map tbl !! k e = Some (v e).
Proof.
  intros Hnd He. unfold to_map. apply elem_of_list_to_map_1.
  - rewrite pairs_keys. exact Hnd.
  - apply list_elem_of_fmap. exists e. auto.
Qed.

(** An entry with the key sits in the chain that the key leads to. *)
Lemma key_in_its_chain tbl key e chain :
  wf indexFor tbl -> e ∈ entries tbl -> k e = key ->
  table tbl !! Z.to_nat (indexFor (tablelength tbl) (hash tbl key)) = Some chain ->
  e ∈ chain.
Proof.
  intros (Hlen & Htab & _ & _ & _ & Hp & Hh & _) He Hk Hc.
  apply elem_of_chains in He. destruct He as (i & c & Hi & Hin).
  pose proof (Hp i c e Hi Hin) as Hidx.
  rewrite (Hh e) in Hidx by (apply elem_of_chains; eauto).
  rewrite Hk in Hidx. rewrite Hidx, Nat2Z.id in Hc. congruence.
Qed.

Lemma chain_of_key tbl key :
  wf indexFor tbl ->
  exists chain,
    table tbl !! Z.to_nat (indexFor (tablelength tbl) (hash tbl key)) = Some chain /\
    chain_at (table tbl) (indexFor (tablelength tbl) (hash tbl key)) = Done chain.
Proof.
  intros (Hlen & Htab & _). apply chain_at_index.
  pose proof (indexFor_range (tablelength tbl) (hash tbl key) Hlen). lia.
Qed.

Lemma match_iff tbl e key :
  is_equality (eqfn tbl) -> h e = hash tbl (k e) ->
  ((hash tbl key =? h e) && negb (eqfn tbl key (k e) =? 0)) = true <-> k e = key.
Proof.
  intros Heq Hh. rewrite andb_true_iff, negb_true_iff, Z.eqb_eq, Z.eqb_neq.
  rewrite (Heq key (k e)). split.
  - intros [_ ->]. reflexivity.
  - intros <-. auto.
Qed.

Lemma search_chain_spec tbl key : forall chain,
  is_equality (eqfn tbl) -> (forall e, e ∈ chain -> h e = hash tbl (k e)) ->
  (exists e, e ∈ chain /\ k e = key /\
             v e = search_chain (eqfn tbl) (hash tbl key) key chain) \/
  (search_chain (eqfn tbl) (hash tbl key) key chain = NULL /\
   forall e, e ∈ chain -> k e <> key).
Proof.
  induction chain as [|e next IH]; intros Heq Hh; cbn [search_chain].
  - right. split; [reflexivity|]. intros e He. inversion He.
  - pose proof (match_iff tbl e key Heq (Hh e ltac:(left))) as Hm.
    destruct ((hash tbl key =? h e) && negb (eqfn tbl key (k e) =? 0)).
    + left. exists e. split; [left|]. split; [apply Hm; reflexivity | reflexivity].
    + destruct (IH Heq) as [(e' & He' & Hk & Hv)|[Hnull Hno]].
      * intros e' He'. apply Hh. right. exact He'.
      * left. exists e'. split; [right; exact He'|]. auto.
      * right. split; [exact Hnull|]. intros e' He'.
        apply elem_of_cons in He'. destruct He' as [->|He']; [|exact (Hno e' He')].
        intros Hk. apply Hm in Hk. discriminate.
Qed.

Lemma wf_chain_hashed tbl i chain :
  wf indexFor tbl -> table tbl !! i = Some chain ->
  forall e, e ∈ chain -> h e = hash tbl (k e).
Proof.
  intros (_ & _ & _ & _ & _ & _ & Hh & _) Hc e He. apply Hh.
  apply elem_of_chains. eauto.
Qed.

Lemma hashtable_search_spec tbl key :
  wf indexFor tbl -> is_equality (eqfn tbl) ->
  hashtable_search indexFor tbl key = Done (default NULL (to_map tbl !! key)).
Proof.
  intros Hwf Heq. unfold hashtable_search.
  destruct (chain_of_key tbl key Hwf) as (chain & Hc & Hrun).
  rewrite Hrun. simpl. f_equal.
  destruct (search_chain_spec tbl key chain Heq (wf_chain_hashed _ _ _ Hwf Hc))
    as [(e & He & Hk & Hv)|[Hnull Hno]].
  - rewrite <- Hv, <- Hk. rewrite to_map_Some; [reflexivity| |].
    + apply Hwf.
    + apply elem_of_chains. eauto.
  - rewrite Hnull. assert (to_map tbl !! key = None) as ->; [|reflexivity].
    apply to_map_None. intros e He Hk.
    exact (Hno e (key_in_its_chain tbl key e chain Hwf He Hk Hc) Hk).
Qed.

(** X17.  [hashtable_search] on a table that keeps its invariant, with an
    [eqfn] that is the equality of keys: the call returns the value
    held for the key, and NULL when the key is not held. *)
Theorem hashtable_search_returns_held_value tbl key :
  wf indexFor tbl -> is_equality (eqfn tbl) ->
  hashtable_search indexFor tbl key = Done (default NULL (to_map tbl !! key)).
Proof. exact (hashtable_search_spec tbl key). Qed.


(** The first part of [hashtable_insert]: the count goes up and the
    table may grow. *)
Lemma insert_grow_spec newtable_ok tbl n :
  wf indexFor tbl ->
  let tbl1 := set_entrycount n tbl in
  exists tbl2,
    (if entrycount tbl1 >? loadlimit tbl1 then
       r ← hashtable_expand indexFor newtable_ok tbl1; Done r.2
     else Done tbl1) = Done tbl2 /\
    0 < tablelength tbl2 /\ Z.of_nat (length (table tbl2)) = tablelength tbl2 /\
    0 <= primeindex tbl2 < prime_table_length /\
    placed indexFor (tablelength tbl2) (table tbl2) /\
    entries tbl2 ≡ₚ entries tbl /\
    entrycount tbl2 = n /\
    hashfn tbl2 = hashfn tbl /\ eqfn tbl2 = eqfn tbl.
Proof.
  intros (Hlen & Htab & Hcnt & Hfit & Hpi & Hp & Hh & Hnd) tbl1.
  destruct (entrycount tbl1 >? loadlimit tbl1).
  - destruct (hashtable_expand_spec newtable_ok tbl1 Hlen Htab Hpi Hp)
      as (r & tbl2 & Hrun & H1 & H2 & H3 & H4 & H5 & H6 & H7 & H8).
    rewrite Hrun. exists tbl2. split; [reflexivity|].
    subst tbl1. cbn in *. repeat split; try assumption; lia.
  - exists tbl1. split; [reflexivity|]. subst tbl1. cbn.
    repeat split; try assumption; try lia; reflexivity.
Qed.

Lemma hashed_perm tbl tbl' :
  hashed tbl -> hashfn tbl' = hashfn tbl -> entries tbl' ≡ₚ entries tbl ->
  hashed tbl'.
Proof.
  intros Hh Hf Hperm e He. rewrite (hash_ext tbl tbl') by exact Hf.
  apply Hh. rewrite <- Hperm. exact He.
Qed.

Lemma hashtable_insert_spec newtable_ok tbl key value :
  wf indexFor tbl -> to_map tbl !! key = None -> entrycount tbl + 1 < 2^32 ->
  exists tbl',
    hashtable_insert indexFor newtable_ok true tbl key value = Done (-1, tbl') /\
    wf indexFor tbl' /\
    hashfn tbl' = hashfn tbl /\ eqfn tbl' = eqfn tbl /\
    to_map tbl' = <[key := value]> (to_map tbl) /\
    hashtable_count tbl' = hashtable_count tbl + 1.
Proof.
  intros Hwf Hfresh Hroom. unfold hashtable_insert.
  destruct (insert_grow_spec newtable_ok tbl (u32 (entrycount tbl + 1)) Hwf)
    as (tbl2 & Hrun & Hlen2 & Htab2 & Hpi2 & Hp2 & Hperm2 & Hcnt2 & Hf2 & He2).
  cbv zeta in Hrun. rewrite Hrun. cbn [mbind outcome_bind obind negb].
  destruct Hwf as (Hlen & Htab & Hcnt & Hfit & Hpi & Hp & Hh & Hnd).
  set (e := {| k := key; v := value; h := hash tbl2 key |}).
  destruct (push_entry_spec (tablelength tbl2) e (table tbl2) Hlen2 Htab2 Hp2)
    as (t' & Hpush & Hl' & Hc' & Hp').
  change (hash tbl2 key) with (h e) at 1. rewrite Hpush. simpl.
  eexists. split; [reflexivity|].
  assert (Hents : entries (set_table t' tbl2) ≡ₚ e :: entries tbl).
  { unfold entries at 1. cbn. rewrite Hc'. constructor. exact Hperm2. }
  assert (Hu : u32 (entrycount tbl + 1) = entrycount tbl + 1).
  { unfold u32. apply Z.mod_small. lia. }
  assert (Hkeys : NoDup (k <$> entries (set_table t' tbl2))).
  { rewrite Hents. cbn. apply NoDup_cons_2; [|exact Hnd].
    intros Hin. apply list_elem_of_fmap in Hin. destruct Hin as (e' & Hk & He').
    apply to_map_None with (e := e') in Hfresh; [|exact He']. congruence. }
  split; [|split; [exact Hf2|split; [exact He2|split]]].
  - unfold wf. cbn. split; [exact Hlen2|]. split; [lia|].
    split; [|split; [lia|split; [exact Hpi2|split; [exact Hp'|split; [|exact Hkeys]]]]].
    + rewrite Hcnt2, Hu, Hcnt.
      change (concat t') with (entries (set_table t' tbl2)).
      rewrite Hents. cbn [length]. lia.
    + intros e' He'.
      rewrite (hash_ext tbl (set_table t' tbl2)) by exact Hf2.
      rewrite Hents in He'. apply elem_of_cons in He'.
      destruct He' as [->|He']; [|exact (Hh e' He')].
      cbn. apply hash_ext. exact Hf2.
  - unfold to_map. exact (map_of_cons _ _ e Hents Hkeys).
  - unfold hashtable_count. cbn. lia.
Qed.

(** X18.  An insertion that gets its entry, of a key that the table does not
    hold, into a table that keeps its invariant: the call returns -1,
    the table then holds the value for the key and everything else as
    before, the count is one more and the invariant is kept.  This
    holds whether or not the insertion makes the table grow, and
    whether or not the allocation of the larger table succeeds. *)
Theorem hashtable_insert_adds_binding newtable_ok tbl key value :
  wf indexFor tbl -> to_map tbl !! key = None -> entrycount tbl + 1 < 2^32 ->
  exists tbl',
    hashtable_insert indexFor newtable_ok true tbl key value = Done (-1, tbl') /\
    wf indexFor tbl' /\
    hashfn tbl' = hashfn tbl /\ eqfn tbl' = eqfn tbl /\
    to_map tbl' = <[key := value]> (to_map tbl) /\
    hashtable_count tbl' = hashtable_count tbl + 1.
Proof. exact (hashtable_insert_spec newtable_ok tbl key value). Qed.

(** X19.  An insertion that gets no memory for its entry: the call returns
    0, and the table holds what it held, with its count and its
    invariant, also when the table has grown on the way. *)
Theorem hashtable_insert_without_memory newtable_ok tbl key value :
  wf indexFor tbl ->
  exists tbl',
    hashtable_insert indexFor newtable_ok false tbl key value = Done (0, tbl') /\
    wf indexFor tbl' /\
    hashfn tbl' = hashfn tbl /\ eqfn tbl' = eqfn tbl /\
    to_map tbl' = to_map tbl /\
    hashtable_count tbl' = hashtable_count tbl.
Proof.
  intros Hwf. unfold hashtable_insert.
  destruct (insert_grow_spec newtable_ok tbl (u32 (entrycount tbl + 1)) Hwf)
    as (tbl2 & Hrun & Hlen2 & Htab2 & Hpi2 & Hp2 & Hperm2 & Hcnt2 & Hf2 & He2).
  cbv zeta in Hrun. rewrite Hrun. cbn [mbind outcome_bind obind negb].
  destruct Hwf as (Hlen & Htab & Hcnt & Hfit & Hpi & Hp & Hh & Hnd).
  eexists. split; [reflexivity|].
  assert (Hback : u32 (entrycount tbl2 - 1) = entrycount tbl).
  { rewrite Hcnt2. unfold u32.
    destruct (Z.eq_dec (entrycount tbl + 1) (2^32)) as [Hwrap|Hno].
    - rewrite Hwrap. change (2 ^ 32 mod 2 ^ 32) with 0.
      change ((0 - 1) mod 2 ^ 32) with (2 ^ 32 - 1). lia.
    - rewrite (Z.mod_small (entrycount tbl + 1)) by lia.
      rewrite Z.mod_small by lia. lia. }
  assert (Hmap : to_map (set_entrycount (u32 (entrycount tbl2 - 1)) tbl2) = to_map tbl).
  { unfold to_map, entries. cbn. apply list_to_map_proper.
    - rewrite pairs_keys. change (concat (table tbl2)) with (entries tbl2).
      rewrite Hperm2. exact Hnd.
    - apply fmap_Permutation. exact Hperm2. }
  split; [|split; [exact Hf2|split; [exact He2|split; [exact Hmap|]]]].
  - unfold wf. unfold entries. cbn. change (concat (table tbl2)) with (entries tbl2).
    split; [exact Hlen2|]. split; [exact Htab2|].
    split; [rewrite Hback, Hcnt, Hperm2; reflexivity|].
    split; [rewrite Hback; exact Hfit|]. split; [exact Hpi2|].
    split; [exact Hp2|]. split.
    + apply (hashed_perm tbl); [exact Hh | exact Hf2 | exact Hperm2].
    + rewrite Hperm2. exact Hnd.
  - unfold hashtable_count. cbn. exact Hback.
Qed.

Lemma remove_from_chain_spec tbl key : forall chain,
  is_equality (eqfn tbl) -> (forall e, e ∈ chain -> h e = hash tbl (k e)) ->
  match remove_from_chain (eqfn tbl) (hash tbl key) key chain with
  | Some (x, chain') =>
      exists l1 e l2, chain = l1 ++ e :: l2 /\ chain' = l1 ++ l2 /\
                      k e = key /\ v e = x
  | None => forall e, e ∈ chain -> k e <> key
  end.
Proof.
  induction chain as [|e next IH]; intros Heq Hh; cbn [remove_from_chain].
  - intros e He. inversion He.
  - pose proof (match_iff tbl e key Heq (Hh e ltac:(left))) as Hm.
    destruct ((hash tbl key =? h e) && negb (eqfn tbl key (k e) =? 0)).
    + exists [], e, next. repeat split. apply Hm. reflexivity.
    + specialize (IH Heq (fun e' He' => Hh e' ltac:(right; exact He'))).
      destruct (remove_from_chain (eqfn tbl) (hash tbl key) key next)
        as [[x next']|].
      * destruct IH as (l1 & e' & l2 & -> & -> & Hk & Hv).
        exists (e :: l1), e', l2. repeat split; assumption.
      * intros e' He'. apply elem_of_cons in He'.
        destruct He' as [->|He']; [|exact (IH e' He')].
        intros Hk. apply Hm in Hk. discriminate.
Qed.

(** X20.  [hashtable_remove] on a table that keeps its invariant, with an
    [eqfn] that is the equality of keys: the call returns the value
    held for the key and the table no longer holds the key, with a
    count one less; for a key that is not held it returns NULL and
    leaves the table as it is.  Every other key keeps its value, and
    the invariant is kept. *)
Theorem hashtable_remove_takes_binding tbl key :
  wf indexFor tbl -> is_equality (eqfn tbl) ->
  exists tbl',
    hashtable_remove indexFor tbl key
    = Done (default NULL (to_map tbl !! key), tbl') /\
    wf indexFor tbl' /\
    hashfn tbl' = hashfn tbl /\ eqfn tbl' = eqfn tbl /\
    to_map tbl' = delete key (to_map tbl) /\
    hashtable_count tbl'
    = hashtable_count tbl
      - match to_map tbl !! key with Some _ => 1 | None => 0 end /\
    (to_map tbl !! key = None -> tbl' = tbl).
Proof.
  intros Hwf Heq. unfold hashtable_remove.
  destruct (chain_of_key tbl key Hwf) as (chain & Hc & Hrun).
  rewrite Hrun. cbn [mbind outcome_bind obind].
  pose proof (remove_from_chain_spec tbl key chain Heq
                (wf_chain_hashed _ _ _ Hwf Hc)) as Hrm.
  destruct (remove_from_chain (eqfn tbl) (hash tbl key) key chain)
    as [[x chain']|].
  - destruct Hrm as (l1 & e & l2 & -> & -> & Hk & Hv).
    set (t' := <[Z.to_nat (indexFor (tablelength tbl) (hash tbl key)) := l1 ++ l2]>
                 (table tbl)).
    assert (Hents : entries tbl ≡ₚ e :: concat t')
      by (apply concat_insert_without; exact Hc).
    pose proof Hwf as (Hlen & Htab & Hcnt & Hfit & Hpi & Hp & Hh & Hnd).
    assert (Hnd' : NoDup (k e :: (k <$> concat t'))).
    { rewrite Hents in Hnd. exact Hnd. }
    apply NoDup_cons in Hnd'. destruct Hnd' as [Hnotin Hnd'].
    assert (Hmap : to_map tbl
                   = <[key := x]> (list_to_map ((fun e => (k e, v e)) <$> concat t'))).
    { rewrite <- Hk, <- Hv. unfold to_map. apply map_of_cons; assumption. }
    assert (Hnone : (list_to_map ((fun e => (k e, v e)) <$> concat t') : gmap Z Z)
                    !! key = None).
    { apply not_elem_of_list_to_map_1. rewrite pairs_keys, <- Hk. exact Hnotin. }
    assert (Hlook : to_map tbl !! key = Some x).
    { rewrite Hmap. apply lookup_insert_eq. }
    rewrite Hlook. cbn [default].
    assert (Hlenents : Z.of_nat (length (entries tbl)) = Z.of_nat (length (concat t')) + 1).
    { rewrite Hents. cbn [length]. lia. }
    assert (Hu : u32 (entrycount tbl - 1) = entrycount tbl - 1).
    { unfold u32. apply Z.mod_small. lia. }
    eexists. split; [reflexivity|].
    split; [|split; [reflexivity|split; [reflexivity|split; [|split]]]].
    + unfold wf, entries. cbn. fold t'.
      split; [exact Hlen|]. split; [unfold t'; rewrite length_insert; exact Htab|].
      split; [rewrite Hu; lia|]. split; [rewrite Hu; lia|]. split; [exact Hpi|].
      split; [|split; [|exact Hnd']].
      * apply placed_insert; [exact Hp|]. intros e' He'.
        rewrite (Hp _ _ e' Hc); [rewrite Z2Nat.id; [reflexivity|]|].
        -- pose proof (indexFor_range (tablelength tbl) (hash tbl key) Hlen). lia.
        -- rewrite elem_of_app in He'. rewrite elem_of_app, elem_of_cons. tauto.
      * intros e' He'. unfold entries in He'. cbn in He'. fold t' in He'.
        transitivity (hash tbl (k e')); [|reflexivity].
        apply Hh. rewrite Hents. right. exact He'.
    + rewrite Hmap, delete_insert_id by exact Hnone. reflexivity.
    + unfold hashtable_count. cbn. rewrite Hu. reflexivity.
    + intros Habs. congruence.
  - assert (Hnone : to_map tbl !! key = None).
    { apply to_map_None. intros e He Hk.
      exact (Hrm e (key_in_its_chain tbl key e chain Hwf He Hk Hc) Hk). }
    rewrite Hnone. exists tbl. split; [reflexivity|]. split; [exact Hwf|].
    split; [reflexivity|]. split; [reflexivity|].
    split; [symmetry; apply delete_id; exact Hnone|].
    split; [lia | reflexivity].
Qed.


(** *** Keys held twice *)

Lemma insert_grow_chains newtable_ok tbl n :
  wf_chains indexFor tbl ->
  exists tbl2,
    (if entrycount (set_entrycount n tbl) >? loadlimit (set_entrycount n tbl) then
       r ← hashtable_expand indexFor newtable_ok (set_entrycount n tbl); Done r.2
     else Done (set_entrycount n tbl)) = Done tbl2 /\
    wf_chains indexFor tbl2 /\
    hashfn tbl2 = hashfn tbl /\ eqfn tbl2 = eqfn tbl.
Proof.
  intros (Hlen & Htab & Hpi & Hp).
  destruct (entrycount (set_entrycount n tbl) >? loadlimit (set_entrycount n tbl)).
  - destruct (hashtable_expand_spec newtable_ok (set_entrycount n tbl) Hlen Htab Hpi Hp)
      as (r & tbl2 & Hrun & H1 & H2 & H3 & H4 & H5 & H6 & H7 & H8).
    rewrite Hrun. exists tbl2. split; [reflexivity|].
    split; [exact (conj H1 (conj H2 (conj H3 H4)))|]. split; assumption.
  - exists (set_entrycount n tbl). split; [reflexivity|].
    split; [exact (conj Hlen (conj Htab (conj Hpi Hp)))|]. split; reflexivity.
Qed.

(** X21.  [hashtable_insert] allows a key that the table holds already: the
    insertion (with memory for its entry) returns -1 on every table
    whose chains are in order, and a search of the key then returns the
    value just inserted, whatever the table held for the key. *)
Theorem hashtable_insert_then_search newtable_ok tbl key value :
  wf_chains indexFor tbl -> is_equality (eqfn tbl) ->
  exists tbl',
    hashtable_insert indexFor newtable_ok true tbl key value = Done (-1, tbl') /\
    wf_chains indexFor tbl' /\
    hashtable_search indexFor tbl' key = Done value.
Proof.
  intros Hwf Heq. unfold hashtable_insert.
  destruct (insert_grow_chains newtable_ok tbl (u32 (entrycount tbl + 1)) Hwf)
    as (tbl2 & Hrun & (Hlen2 & Htab2 & Hpi2 & Hp2) & Hf2 & He2).
  rewrite Hrun. cbn [mbind outcome_bind obind negb].
  set (e := {| k := key; v := value; h := hash tbl2 key |}).
  pose proof (indexFor_range (tablelength tbl2) (hash tbl2 key) Hlen2) as Hr.
  destruct (chain_at_index (table tbl2) (indexFor (tablelength tbl2) (hash tbl2 key)))
    as (c & Hc & Hchain); [lia|].
  unfold push_entry. rewrite Hchain. cbn [mbind outcome_bind obind].
  eexists. split; [reflexivity|].
  assert (Hlt : (Z.to_nat (indexFor (tablelength tbl2) (hash tbl2 key))
                 < length (table tbl2))%nat) by lia.
  split.
  - unfold wf_chains. cbn. rewrite length_insert.
    split; [exact Hlen2|]. split; [exact Htab2|]. split; [exact Hpi2|].
    apply placed_insert; [exact Hp2|]. intros e' He'.
    apply elem_of_cons in He'. destruct He' as [->|He'].
    + cbn. lia.
    + rewrite (Hp2 _ c e' Hc He'). reflexivity.
  - unfold hashtable_search. cbn [tablelength table eqfn set_table].
    assert (Hh : hash (set_table (<[Z.to_nat (indexFor (tablelength tbl2) (hash tbl2 key))
                                     := e :: c]> (table tbl2)) tbl2) key
                 = hash tbl2 key) by reflexivity.
    rewrite Hh. unfold chain_at.
    replace (indexFor (tablelength tbl2) (hash tbl2 key) <? 0) with false by lia.
    rewrite list_lookup_insert_eq by exact Hlt.
    cbn [mbind outcome_bind obind search_chain]. f_equal.
    change (h e) with (hash tbl2 key). change (k e) with key. rewrite Z.eqb_refl.
    assert (Hkk : eqfn tbl2 key key <> 0) by (rewrite He2; apply Heq; reflexivity).
    replace (eqfn tbl2 key key =? 0) with false by lia. reflexivity.
Qed.

(** *** Creation *)

Lemma first_prime_above_spec minsize : forall ps pindex size,
  (exists i p, ps !! i = Some p /\ minsize < p /\
     first_prime_above minsize pindex ps size = (pindex + Z.of_nat i, p) /\
     forall j q, (j < i)%nat -> ps !! j = Some q -> q <= minsize) \/
  (first_prime_above minsize pindex ps size = (pindex + Z.of_nat (length ps), size) /\
   forall q, q ∈ ps -> q <= minsize).
Proof.
  induction ps as [|p ps IH]; intros pindex size; cbn [first_prime_above].
  - right. split; [cbn; f_equal; lia|]. intros q Hq. inversion Hq.
  - destruct (p >? minsize) eqn:Hp.
    + left. exists 0%nat, p. split; [reflexivity|]. split; [lia|].
      split; [f_equal; lia|]. intros j q Hj. lia.
    + destruct (IH (pindex + 1) size) as [(i & q & Hi & Hq & Hrun & Hbefore)|[Hrun Hall]].
      * left. exists (S i), q. split; [exact Hi|]. split; [exact Hq|].
        split; [rewrite Hrun; f_equal; lia|].
        intros j r Hj Hr. destruct j as [|j]; [injection Hr as <-; lia|].
        apply (Hbefore j r); [lia | exact Hr].
      * right. split; [rewrite Hrun; cbn [length]; f_equal; lia|].
        intros q Hq. apply elem_of_cons in Hq. destruct Hq as [->|Hq]; [lia|auto].
Qed.

Lemma increasing_lookup : forall l i j a b,
  increasing l = true -> (i < j)%nat -> l !! i = Some a -> l !! j = Some b -> a < b.
Proof.
  induction l as [|x l IH]; intros i j a b Hinc Hij Ha Hb; [discriminate|].
  assert (Hl : increasing l = true).
  { cbn [increasing] in Hinc. destruct l; [reflexivity|].
    apply andb_true_iff in Hinc. apply Hinc. }
  assert (Hhead : forall m c, l !! m = Some c -> x < c).
  { clear i j a b Hij Ha Hb. intros m. induction m as [|m IHm]; intros c Hc.
    - cbn [increasing] in Hinc. destruct l as [|y l']; [discriminate|].
      injection Hc as <-. apply andb_true_iff in Hinc. lia.
    - destruct (lookup_lt_is_Some_2 l m) as [d Hd];
        [apply lookup_lt_Some in Hc; lia|].
      pose proof (IHm d Hd). pose proof (IH m (S m) d c Hl ltac:(lia) Hd Hc). lia. }
  destruct i as [|i]; destruct j as [|j]; try lia.
  - injection Ha as <-. exact (Hhead j b Hb).
  - apply (IH i j a b Hl); [lia | exact Ha | exact Hb].
Qed.

Lemma create_hashtable_spec h_ok table_ok pool_ok minsize hashf eqf :
  match create_hashtable h_ok table_ok pool_ok minsize hashf eqf with
  | None => 2^30 < minsize \/ h_ok = false \/ table_ok = false \/ pool_ok = false
  | Some tbl =>
      (minsize <= 2^30 /\ h_ok = true /\ table_ok = true /\ pool_ok = true) /\
      wf indexFor tbl /\ to_map tbl = ∅ /\ hashtable_count tbl = 0 /\
      hashfn tbl = hashf /\ eqfn tbl = eqf /\
      tablelength tbl ∈ primes /\ minsize < tablelength tbl /\
      forall p, p ∈ primes -> minsize < p -> tablelength tbl <= p
  end.
Proof.
  unfold create_hashtable. change (Z.shiftl 1 30) with (2^30).
  destruct (minsize >? 2^30) eqn:Hmin; [left; lia|].
  destruct (first_prime_above_spec minsize primes 0 53)
    as [(i & p & Hi & Hp & Hrun & Hbefore)|[_ Hall]].
  2:{ exfalso. specialize (Hall 1610612741).
      assert (1610612741 ∈ primes) as Hin by (apply list_elem_of_In; cbn; tauto).
      specialize (Hall Hin). lia. }
  rewrite Hrun.
  destruct h_ok; cbn [negb]; [|right; left; reflexivity].
  destruct table_ok; cbn [negb]; [|right; right; left; reflexivity].
  destruct pool_ok; cbn [negb]; [|right; right; right; reflexivity].
  pose proof (primes_positive _ _ Hi) as Hpos.
  split; [repeat split; lia|].
  assert (Hents : concat (replicate (Z.to_nat p) ([] : list entry)) = [])
    by apply concat_replicate_nil.
  split; [|split; [|split; [reflexivity|split; [reflexivity|split;
            [reflexivity|split; [|split]]]]]].
  - unfold wf, hashed, entries. cbn. rewrite Hents, length_replicate.
    split; [exact Hpos|]. split; [lia|]. split; [reflexivity|]. split; [lia|].
    split; [|split; [apply placed_replicate_nil|split; [|constructor]]].
    + apply lookup_lt_Some in Hi. change prime_table_length with 26.
      change (length primes) with 26%nat in Hi. lia.
    + intros e He. inversion He.
  - unfold to_map, entries. cbn. rewrite Hents. reflexivity.
  - cbn. eapply list_elem_of_lookup_2. exact Hi.
  - cbn. exact Hp.
  - cbn. intros q Hq Hgt. apply list_elem_of_lookup in Hq. destruct Hq as [j Hj].
    destruct (Nat.lt_trichotomy j i) as [Hlt|[->|Hlt]].
    + pose proof (Hbefore j q Hlt Hj). lia.
    + assert (q = p) by congruence. lia.
    + pose proof (increasing_lookup primes i j p q eq_refl Hlt Hi Hj). lia.
Qed.

(** X22.  [create_hashtable] returns NULL exactly when [minsize] is above
    2^30 or one of its three allocations fails.  Otherwise the table
    keeps the invariant, holds nothing, has count 0 and the two
    functions it was given, and its size is the least prime of the
    table of primes that is greater than [minsize]. *)
Theorem create_hashtable_makes_empty_table h_ok table_ok pool_ok minsize hashf eqf :
  match create_hashtable h_ok table_ok pool_ok minsize hashf eqf with
  | None => 2^30 < minsize \/ h_ok = false \/ table_ok = false \/ pool_ok = false
  | Some tbl =>
      (minsize <= 2^30 /\ h_ok = true /\ table_ok = true /\ pool_ok = true) /\
      wf indexFor tbl /\ to_map tbl = ∅ /\ hashtable_count tbl = 0 /\
      hashfn tbl = hashf /\ eqfn tbl = eqf /\
      tablelength tbl ∈ primes /\ minsize < tablelength tbl /\
      forall p, p ∈ primes -> minsize < p -> tablelength tbl <= p
  end.
Proof. exact (create_hashtable_spec h_ok table_ok pool_ok minsize hashf eqf). Qed.

End HashtableProperties.

Lemma generic_equal_is_equality : Hashtable.is_equality Hashtable.generic_equal.
Proof.
  intros a b. unfold Hashtable.generic_equal.
  destruct (Z.eqb_spec a b); split; intros; try lia; try congruence.
Qed.


Lemma array_to_bitmap_adds_listed_bits_witness :
  exists bitmap',
    XcGang.array_to_bitmap (Some cpus_3_1_3) 3 (Some one_zero_byte) 4 = Done bitmap' /\
    length bitmap' = length one_zero_byte /\
    forall j, XcGang.bit_of bitmap' j
              = XcGang.bit_of one_zero_byte j ||
                bool_decide (Z.of_nat j ∈ take (Z.to_nat 3) cpus_3_1_3).
Proof.
  apply (array_to_bitmap_adds_listed_bits cpus_3_1_3 3 one_zero_byte 4).
  - lia.
  - cbn. lia.
  - cbn. lia.
  - cbn. repeat constructor; lia.
Defined.

Lemma bitmap_to_array_lists_set_bits_witness :
  XcGang.bitmap_to_array (Some bitmap_1_3) 8 (Some tmp_array) 8
  = Done (Z.of_nat (length (XcGang.set_bits bitmap_1_3 (Z.to_nat 8))),
          (Z.of_nat <$> XcGang.set_bits bitmap_1_3 (Z.to_nat 8))
            ++ replicate (Z.to_nat 8
                          - length (XcGang.set_bits bitmap_1_3 (Z.to_nat 8))) 0
            ++ drop (Z.to_nat 8) tmp_array) /\
  XcGang.set_bits bitmap_1_3 (Z.to_nat 8) = [1; 3]%nat.
Proof.
  split; [|reflexivity].
  apply (bitmap_to_array_lists_set_bits bitmap_1_3 8 tmp_array 8).
  - lia.
  - cbn. lia.
  - cbn. lia.
Defined.

Lemma cpu_array_through_bitmap_witness :
  exists bitmap n out,
    XcGang.array_to_bitmap (Some cpus_3_1_3) 3 (Some (replicate 1 0)) 4
    = Done bitmap /\
    XcGang.bitmap_to_array (Some bitmap) (8 * Z.of_nat 1) (Some tmp_array)
      (8 * Z.of_nat 1)
    = Done (n, out) /\
    (forall c, c ∈ take (Z.to_nat n) out <-> c ∈ take (Z.to_nat 3) cpus_3_1_3) /\
    (forall i j a b, (i < j)%nat -> take (Z.to_nat n) out !! i = Some a ->
                     take (Z.to_nat n) out !! j = Some b -> a < b).
Proof.
  apply (cpu_array_through_bitmap cpus_3_1_3 3 1 4 tmp_array).
  - lia.
  - lia.
  - cbn. lia.
  - cbn. repeat constructor; lia.
  - cbn. lia.
Defined.

Lemma validate_cpu_array_accepts_witness :
  GsUtils.validate_cpu_array 8 xch_4_cpus 1 (Some [3; 1]) 2
  = Done (if decide (0 < 2 <= GsUtils.xc_get_max_cpus xch_4_cpus /\
                     Forall (fun c => 0 <= c < GsUtils.xc_get_max_cpus xch_4_cpus) [3; 1] /\
                     NoDup [3; 1] /\
                     Forall (fun c => XcGang.bit_of bitmap_1_3 (Z.to_nat c) = true) [3; 1])
          then 0 else - GsUtils.EINVAL) /\
  GsUtils.validate_cpu_array 8 xch_4_cpus 1 (Some [3; 1]) 2 = Done 0.
Proof.
  split; [|reflexivity].
  apply (validate_cpu_array_accepts xch_4_cpus 1 [3; 1] 2 bitmap_1_3).
  - reflexivity.
  - reflexivity.
  - cbn. lia.
  - cbn. lia.
Defined.

(** *** The waiting-for-event set of the examples *)

Lemma index_by_mod_range n hv : 0 < n -> 0 <= index_by_mod n hv < n.
Proof. intros Hn. unfold index_by_mod. apply Z.mod_pos_bound. exact Hn. Qed.

Lemma waiting_set_created_wf :
  Hashtable.wf index_by_mod waiting_set_created /\
  Hashtable.to_map waiting_set_created = ∅.
Proof.
  pose proof (create_hashtable_spec index_by_mod true true true 4
                Hashtable.generic_hash Hashtable.generic_equal) as H.
  change (Hashtable.create_hashtable true true true 4
            Hashtable.generic_hash Hashtable.generic_equal)
    with (Some waiting_set_created) in H.
  destruct H as (_ & Hwf & Hmap & _). split; assumption.
Qed.

Lemma waiting_set_with_dom7_wf :
  Hashtable.wf index_by_mod waiting_set_with_dom7 /\
  Hashtable.to_map waiting_set_with_dom7 = {[ 7 := 4096 ]}.
Proof.
  destruct waiting_set_created_wf as [Hwf Hmap].
  destruct (hashtable_insert_spec index_by_mod index_by_mod_range true
              waiting_set_created 7 4096 Hwf)
    as (tbl' & Hrun & Hwf' & _ & _ & Hmap' & _).
  - rewrite Hmap. reflexivity.
  - cbn. lia.
  - assert (tbl' = waiting_set_with_dom7) as <-.
    { unfold waiting_set_with_dom7. rewrite Hrun. reflexivity. }
    split; [exact Hwf'|]. rewrite Hmap', Hmap. reflexivity.
Qed.

Lemma hashtable_search_returns_held_value_witness :
  Hashtable.hashtable_search index_by_mod waiting_set_with_dom7 7
  = Done (default Hashtable.NULL (Hashtable.to_map waiting_set_with_dom7 !! 7)) /\
  Hashtable.hashtable_search index_by_mod waiting_set_with_dom7 7 = Done 4096.
Proof.
  split; [|vm_compute; reflexivity].
  apply (hashtable_search_returns_held_value index_by_mod index_by_mod_range
           waiting_set_with_dom7 7).
  - apply waiting_set_with_dom7_wf.
  - exact generic_equal_is_equality.
Defined.

Lemma hashtable_insert_adds_binding_witness :
  exists tbl',
    Hashtable.hashtable_insert index_by_mod true true waiting_set_created 7 4096
    = Done (-1, tbl') /\
    Hashtable.wf index_by_mod tbl' /\
    Hashtable.hashfn tbl' = Hashtable.hashfn waiting_set_created /\
    Hashtable.eqfn tbl' = Hashtable.eqfn waiting_set_created /\
    Hashtable.to_map tbl' = <[7 := 4096]> (Hashtable.to_map waiting_set_created) /\
    Hashtable.hashtable_count tbl' = Hashtable.hashtable_count waiting_set_created + 1.
Proof.
  apply (hashtable_insert_adds_binding index_by_mod index_by_mod_range true
           waiting_set_created 7 4096).
  - apply waiting_set_created_wf.
  - destruct waiting_set_created_wf as [_ ->]. reflexivity.
  - cbn. lia.
Defined.

Lemma hashtable_insert_without_memory_witness :
  exists tbl',
    Hashtable.hashtable_insert index_by_mod true false waiting_set_with_dom7 9 8192
    = Done (0, tbl') /\
    Hashtable.wf index_by_mod tbl' /\
    Hashtable.hashfn tbl' = Hashtable.hashfn waiting_set_with_dom7 /\
    Hashtable.eqfn tbl' = Hashtable.eqfn waiting_set_with_dom7 /\
    Hashtable.to_map tbl' = Hashtable.to_map waiting_set_with_dom7 /\
    Hashtable.hashtable_count tbl' = Hashtable.hashtable_count waiting_set_with_dom7.
Proof.
  apply (hashtable_insert_without_memory index_by_mod index_by_mod_range true
           waiting_set_with_dom7 9 8192).
  apply waiting_set_with_dom7_wf.
Defined.

Lemma hashtable_remove_takes_binding_witness :
  exists tbl',
    Hashtable.hashtable_remove index_by_mod waiting_set_with_dom7 7
    = Done (default Hashtable.NULL (Hashtable.to_map waiting_set_with_dom7 !! 7), tbl') /\
    Hashtable.wf index_by_mod tbl' /\
    Hashtable.hashfn tbl' = Hashtable.hashfn waiting_set_with_dom7 /\
    Hashtable.eqfn tbl' = Hashtable.eqfn waiting_set_with_dom7 /\
    Hashtable.to_map tbl' = delete 7 (Hashtable.to_map waiting_set_with_dom7) /\
    Hashtable.hashtable_count tbl'
    = Hashtable.hashtable_count waiting_set_with_dom7
      - match Hashtable.to_map waiting_set_with_dom7 !! 7 with
        | Some _ => 1 | None => 0 end /\
    (Hashtable.to_map waiting_set_with_dom7 !! 7 = None -> tbl' = waiting_set_with_dom7).
Proof.
  apply (hashtable_remove_takes_binding index_by_mod index_by_mod_range
           waiting_set_with_dom7 7).
  - apply waiting_set_with_dom7_wf.
  - exact generic_equal_is_equality.
Defined.

Lemma hashtable_insert_then_search_witness :
  exists tbl',
    Hashtable.hashtable_insert index_by_mod true true waiting_set_with_dom7 7 8192
    = Done (-1, tbl') /\
    Hashtable.wf_chains index_by_mod tbl' /\
    Hashtable.hashtable_search index_by_mod tbl' 7 = Done 8192.
Proof.
  apply (hashtable_insert_then_search index_by_mod index_by_mod_range true
           waiting_set_with_dom7 7 8192).
  - destruct waiting_set_with_dom7_wf as [(H1 & H2 & _ & _ & H3 & H4 & _) _].
    split; [exact H1|]. split; [exact H2|]. split; [exact H3 | exact H4].
  - exact generic_equal_is_equality.
Defined.

(** ** The spin barrier *)

Section BarrierSafety.
Import Barrier.

Lemma arrivals_le l : (arrivals l <= length l)%nat.
Proof.
  induction l as [|p l IH]; cbn [arrivals length]; [lia|].
  destruct (arrived p); lia.
Qed.

Lemma arrivals_all l :
  arrivals l = length l -> forall p, p ∈ l -> arrived p = true.
Proof.
  induction l as [|q l IH]; intros Hall p Hp; [inversion Hp|].
  cbn [arrivals length] in Hall. pose proof (arrivals_le l).
  destruct (arrived q) eqn:Hq; [|lia].
  apply elem_of_cons in Hp. destruct Hp as [->|Hp]; [exact Hq|].
  apply IH; [lia | exact Hp].
Qed.

Lemma arrivals_insert l : forall i p q,
  l !! i = Some p ->
  (arrivals (<[i := q]> l) + (if arrived p then 1 else 0)
   = arrivals l + (if arrived q then 1 else 0))%nat.
Proof.
  induction l as [|x l IH]; intros i p q Hi; [discriminate|].
  destruct i as [|i].
  - injection Hi as ->. cbn [arrivals]. cbn. lia.
  - cbn in Hi. cbn [arrivals]. change (<[S i := q]> (x :: l)) with (x :: <[i := q]> l).
    cbn [arrivals]. pose proof (IH i p q Hi). lia.
Qed.

Lemma arrivals_replicate_calling n : arrivals (replicate n Calling) = 0%nat.
Proof. induction n as [|n IH]; [reflexivity | exact IH]. Qed.

Lemma run_reachable count schedule : forall s,
  reachable count s (run count schedule s).
Proof.
  unfold reachable, run.
  induction schedule as [|i schedule IH]; intros s; [apply rtc_refl|].
  cbn [fold_left]. unfold run_cpu at 2.
  destruct (cpus s !! i) as [p|] eqn:Hi; [|apply IH].
  destruct (cpu_step count (barrier s) p) as [[b' p']|] eqn:Hstep; [|apply IH].
  eapply rtc_l; [|apply IH]. exact (step_cpu count s i p b' p' Hi Hstep).
Qed.

(** What holds of every state the CPUs reach: either all of them have
    arrived, or none is released, the count is the initial one less
    the arrivals, [ready] is still 0 and so is every [local_ready]. *)
Lemma barrier_invariant init_count count s :
  0 < count <= init_count -> init_count < 2^32 ->
  reachable count (start init_count (Z.to_nat count)) s ->
  length (cpus s) = Z.to_nat count /\
  Barrier.init_count (barrier s) = init_count /\
  (arrivals (cpus s) = length (cpus s) \/
   ((forall p, p ∈ cpus s -> released p = false) /\
    current_count (barrier s) = init_count - Z.of_nat (arrivals (cpus s)) /\
    ready (barrier s) = 0 /\
    (forall p r, p ∈ cpus s -> local_ready_of p = Some r -> r = 0))).
Proof.
  intros Hcount Hfit Hreach. unfold reachable in Hreach.
  apply rtc_nsteps in Hreach. destruct Hreach as [n Hreach].
  revert s Hreach. induction n as [|n IH]; intros s Hreach.
  - inversion Hreach; subst. cbn. rewrite length_replicate.
    split; [reflexivity|]. split; [reflexivity|]. right.
    split; [|split; [|split]].
    + intros p Hp. apply elem_of_replicate in Hp. destruct Hp as [-> _]. reflexivity.
    + rewrite arrivals_replicate_calling. lia.
    + reflexivity.
    + intros p r Hp Hr. apply elem_of_replicate in Hp. destruct Hp as [-> _].
      discriminate.
  - apply nsteps_inv_r in Hreach. destruct Hreach as (s1 & Hreach & Hstep).
    destruct (IH s1 Hreach) as (Hlen & Hinit & Hinv). clear IH Hreach.
    destruct Hstep as [s1 i p b' p' Hi Hcpu]. cbn [barrier cpus].
    rewrite length_insert.
    pose proof (arrivals_insert (cpus s1) i p p' Hi) as Harr.
    pose proof (arrivals_le (cpus s1)) as Hle.
    pose proof (arrivals_le (<[i := p']> (cpus s1))) as Hle'.
    rewrite length_insert in Hle'.
    assert (Hpin : p ∈ cpus s1) by (eapply list_elem_of_lookup_2; exact Hi).
    assert (Hmem : forall q, q ∈ <[i := p']> (cpus s1) -> q = p' \/ q ∈ cpus s1).
    { intros q Hq. apply list_elem_of_lookup in Hq. destruct Hq as [j Hj].
      destruct (decide (j = i)) as [->|Hne].
      - rewrite list_lookup_insert_eq in Hj by (apply lookup_lt_Some in Hi; exact Hi).
        left. congruence.
      - rewrite list_lookup_insert_ne in Hj by congruence.
        right. eapply list_elem_of_lookup_2. exact Hj. }
    split; [exact Hlen|].
    assert (Hinit' : Barrier.init_count b' = init_count).
    { destruct p; cbn in Hcpu;
        repeat match type of Hcpu with
               | context [if ?c then _ else _] => destruct c
               end; try discriminate; injection Hcpu as <- <-; exact Hinit. }
    split; [exact Hinit'|].
    destruct Hinv as [Hall|(Hrel & Hcur & Hready & Hlr)].
    + (* all have arrived: a CPU that has arrived stays so *)
      left. pose proof (arrivals_all _ Hall p Hpin) as Hp.
      assert (Hp' : arrived p' = true).
      { destruct p; try discriminate Hp; cbn in Hcpu;
          repeat match type of Hcpu with
                 | context [if ?c then _ else _] => destruct c
                 end; try discriminate; injection Hcpu as <- <-; reflexivity. }
      rewrite Hp, Hp' in Harr. lia.
    + (* nobody is released yet *)
      pose proof (Hrel p Hpin) as Hprel.
      destruct p; try discriminate Hprel; cbn in Hcpu.
      * (* Calling *)
        replace (Barrier.init_count (barrier s1) >=? count) with true in Hcpu by lia.
        injection Hcpu as <- <-. right. cbn in Harr.
        split; [|split; [|split]].
        -- intros q Hq. destruct (Hmem q Hq) as [->|Hq']; [reflexivity | auto].
        -- rewrite Hcur. lia.
        -- exact Hready.
        -- intros q r Hq Hr. destruct (Hmem q Hq) as [->|Hq']; [discriminate|].
           exact (Hlr q r Hq' Hr).
      * (* Asserted *)
        injection Hcpu as <- <-. right. cbn in Harr.
        split; [|split; [|split]].
        -- intros q Hq. destruct (Hmem q Hq) as [->|Hq']; [reflexivity | auto].
        -- rewrite Hcur. lia.
        -- exact Hready.
        -- intros q r Hq Hr. destruct (Hmem q Hq) as [->|Hq'].
           ++ cbn in Hr. congruence.
           ++ exact (Hlr q r Hq' Hr).
      * (* At_lock *)
        destruct (lock (barrier s1)); [discriminate|].
        injection Hcpu as <- <-. right. cbn in Harr.
        split; [|split; [|split]].
        -- intros q Hq. destruct (Hmem q Hq) as [->|Hq']; [reflexivity | auto].
        -- cbn. rewrite Hcur. lia.
        -- exact Hready.
        -- intros q r Hq Hr. destruct (Hmem q Hq) as [->|Hq'].
           ++ apply (Hlr _ r Hpin). exact Hr.
           ++ exact (Hlr q r Hq' Hr).
      * (* Holding: the decrement *)
        injection Hcpu as <- <-. cbn in Harr.
        destruct (decide (arrivals (<[i := Decremented local_ready]> (cpus s1))
                          = length (cpus s1))) as [Hfull|Hnot]; [left; exact Hfull|].
        right. split; [|split; [|split]].
        -- intros q Hq. destruct (Hmem q Hq) as [->|Hq']; [reflexivity | auto].
        -- cbn. rewrite Hcur. unfold u32. rewrite Z.mod_small by lia. lia.
        -- exact Hready.
        -- intros q r Hq Hr. destruct (Hmem q Hq) as [->|Hq'].
           ++ apply (Hlr _ r Hpin). exact Hr.
           ++ exact (Hlr q r Hq' Hr).
      * (* Decremented: the comparison *)
        assert (Hcmp : (current_count (barrier s1)
                        >? u32 (Barrier.init_count (barrier s1) - count)) = true
                       \/ arrivals (cpus s1) = length (cpus s1)).
        { rewrite Hcur, Hinit. unfold u32. rewrite (Z.mod_small (init_count - count)) by lia.
          destruct (decide (arrivals (cpus s1) = length (cpus s1))); [right; assumption|].
          left. lia. }
        destruct Hcmp as [Hcmp|Hfull].
        -- rewrite Hcmp in Hcpu. injection Hcpu as <- <-. right. cbn in Harr.
           split; [|split; [|split]].
           ++ intros q Hq. destruct (Hmem q Hq) as [->|Hq']; [reflexivity | auto].
           ++ rewrite Hcur. lia.
           ++ exact Hready.
           ++ intros q r Hq Hr. destruct (Hmem q Hq) as [->|Hq'].
              ** apply (Hlr _ r Hpin). exact Hr.
              ** exact (Hlr q r Hq' Hr).
        -- left. assert (Hp' : arrived p' = true).
           { destruct (_ >? _); injection Hcpu as <- <-; reflexivity. }
           rewrite Hp' in Harr. cbn in Harr. lia.
      * (* Waiting_unlock *)
        injection Hcpu as <- <-. right. cbn in Harr.
        split; [|split; [|split]].
        -- intros q Hq. destruct (Hmem q Hq) as [->|Hq']; [reflexivity | auto].
        -- cbn. rewrite Hcur. lia.
        -- exact Hready.
        -- intros q r Hq Hr. destruct (Hmem q Hq) as [->|Hq'].
           ++ apply (Hlr _ r Hpin). exact Hr.
           ++ exact (Hlr q r Hq' Hr).
      * (* Spinning: [ready] is still [local_ready] *)
        rewrite Hready, (Hlr _ local_ready Hpin eq_refl) in Hcpu. cbn in Hcpu.
        injection Hcpu as <- <-. right. cbn in Harr.
        split; [|split; [|split]].
        -- intros q Hq. destruct (Hmem q Hq) as [->|Hq']; [reflexivity | auto].
        -- rewrite Hcur. lia.
        -- exact Hready.
        -- intros q r Hq Hr. destruct (Hmem q Hq) as [->|Hq'].
           ++ cbn in Hr. congruence.
           ++ exact (Hlr q r Hq' Hr).
      * (* Assert_failed *)
        discriminate.
Qed.

(** X23.  [count] CPUs wait on a barrier set up by [init_barrier] for at
    least [count] CPUs.  In every state they can reach, however their
    steps interleave: when one CPU has returned from
    [waiton_barrier_with_count], every CPU has arrived at the barrier,
    that is, has decremented [current_count]. *)
Theorem barrier_holds_until_all_arrive init_count count s i :
  0 < count <= init_count -> init_count < 2^32 ->
  reachable count (start init_count (Z.to_nat count)) s ->
  cpus s !! i = Some Returned ->
  forall j p, cpus s !! j = Some p -> arrived p = true.
Proof.
  intros Hcount Hfit Hreach Hi j p Hj.
  destruct (barrier_invariant init_count count s Hcount Hfit Hreach)
    as (_ & _ & [Hall|(Hrel & _)]).
  - apply (arrivals_all _ Hall). eapply list_elem_of_lookup_2. exact Hj.
  - assert (released Returned = false) as Habs; [|discriminate].
    apply Hrel. eapply list_elem_of_lookup_2. exact Hi.
Qed.

End BarrierSafety.

(** Two CPUs: CPU 0 runs until it spins, then CPU 1 runs to its
    return. *)
Lemma barrier_holds_until_all_arrive_witness :
  Barrier.cpus (Barrier.run 2 two_cpus_schedule (Barrier.start 2 2)) !! 1%nat
  = Some Barrier.Returned /\
  forall j p,
    Barrier.cpus (Barrier.run 2 two_cpus_schedule (Barrier.start 2 2)) !! j = Some p ->
    Barrier.arrived p = true.
Proof.
  split; [reflexivity|].
  apply (barrier_holds_until_all_arrive 2 2
           (Barrier.run 2 two_cpus_schedule (Barrier.start 2 2)) 1).
  - lia.
  - lia.
  - apply (run_reachable 2 two_cpus_schedule (Barrier.start 2 (Z.to_nat 2))).
  - reflexivity.
Defined.

(** *** The whole round of the barrier *)

Section BarrierRound.
Import Barrier.

Lemma places_where_insert f l : forall i p q,
  l !! i = Some p ->
  (places_where f (<[i := q]> l) + (if f p then 1 else 0)
   = places_where f l + (if f q then 1 else 0))%nat.
Proof.
  induction l as [|x l IH]; intros i p q Hi; [discriminate|].
  destruct i as [|i].
  - injection Hi as ->. cbn [places_where]. cbn. lia.
  - cbn in Hi. change (<[S i := q]> (x :: l)) with (x :: <[i := q]> l).
    cbn [places_where]. pose proof (IH i p q Hi). lia.
Qed.

Lemma places_where_le f l : (places_where f l <= length l)%nat.
Proof.
  induction l as [|p l IH]; cbn [places_where length]; [lia|].
  destruct (f p); lia.
Qed.

Lemma places_where_all f l :
  places_where f l = length l -> forall p, p ∈ l -> f p = true.
Proof.
  induction l as [|q l IH]; intros Hall p Hp; [inversion Hp|].
  cbn [places_where length] in Hall. pose proof (places_where_le f l).
  destruct (f q) eqn:Hq; [|lia].
  apply elem_of_cons in Hp. destruct Hp as [->|Hp]; [exact Hq|].
  apply IH; [lia | exact Hp].
Qed.

Lemma places_where_zero f l :
  places_where f l = 0%nat -> forall j q, l !! j = Some q -> f q = false.
Proof.
  induction l as [|x l IH]; intros Hz j q Hj; [discriminate|].
  cbn [places_where] in Hz. destruct (f x) eqn:Hx; [discriminate|].
  destruct j as [|j]; [injection Hj as <-; exact Hx|].
  exact (IH Hz j q Hj).
Qed.

Lemma places_where_other f l : forall i j p q,
  (places_where f l <= 1)%nat -> l !! i = Some p -> f p = true ->
  j <> i -> l !! j = Some q -> f q = false.
Proof.
  induction l as [|x l IH]; intros i j p q Hle Hi Hp Hne Hj; [discriminate|].
  cbn [places_where] in Hle.
  destruct i as [|i]; destruct j as [|j]; try congruence.
  - injection Hi as ->. rewrite Hp in Hle.
    apply (places_where_zero f l ltac:(lia) j q Hj).
  - injection Hj as ->. destruct (f q) eqn:Hq; [|reflexivity].
    pose proof (places_where_zero f l ltac:(lia) i p Hi). congruence.
  - apply (IH i j p q); try assumption; [|congruence].
    destruct (f x); lia.
Qed.

Lemma places_where_exists f l :
  (0 < places_where f l)%nat -> exists i p, l !! i = Some p /\ f p = true.
Proof.
  induction l as [|x l IH]; cbn [places_where]; intros H; [lia|].
  destruct (f x) eqn:Hx.
  - exists 0%nat, x. auto.
  - destruct (IH ltac:(lia)) as (i & p & Hi & Hp). exists (S i), p. auto.
Qed.

Lemma places_where_replicate_calling f n :
  f Calling = false -> places_where f (replicate n Calling) = 0%nat.
Proof. intros Hf. induction n as [|n IH]; cbn; [reflexivity|]. rewrite Hf. exact IH. Qed.

Lemma lookup_insert_cases (l : list place) i j p' q :
  (i < length l)%nat -> <[i := p']> l !! j = Some q ->
  (j = i /\ q = p') \/ (j <> i /\ l !! j = Some q).
Proof.
  intros Hi Hj. destruct (decide (j = i)) as [->|Hne].
  - rewrite list_lookup_insert_eq in Hj by exact Hi. left. split; congruence.
  - rewrite list_lookup_insert_ne in Hj by congruence. right. auto.
Qed.

Lemma elem_of_insert_cases (l : list place) i p' q :
  (i < length l)%nat -> q ∈ <[i := p']> l -> q = p' \/ q ∈ l.
Proof.
  intros Hi Hq. apply list_elem_of_lookup in Hq. destruct Hq as [j Hj].
  destruct (lookup_insert_cases l i j p' q Hi Hj) as [[_ ->]|[_ Hl]]; [left; reflexivity|].
  right. eapply list_elem_of_lookup_2. exact Hl.
Qed.

(** In the arriving phase, a CPU that has arrived waits or has just
    decremented. *)
Lemma arriving_counts (l : list place) :
  (forall p, p ∈ l -> released p = false /\ p <> Assert_failed) ->
  (places_where waiting l <= places_where arrived l)%nat.
Proof.
  induction l as [|x l IH]; intros H; [cbn; lia|].
  cbn [places_where]. pose proof (IH (fun p Hp => H p ltac:(right; exact Hp))).
  destruct x; cbn; lia.
Qed.

(** The three phases cover every state that the CPUs reach. *)
Lemma barrier_phases init_count count s :
  0 < count <= init_count -> init_count < 2^32 ->
  reachable count (start init_count (Z.to_nat count)) s ->
  length (cpus s) = Z.to_nat count /\
  Barrier.init_count (barrier s) = init_count /\
  (arriving init_count s \/ (exists i, releasing_by init_count i s) \/
   all_released init_count s).
Proof.
  intros Hcount Hfit Hreach. unfold reachable in Hreach.
  apply rtc_nsteps in Hreach. destruct Hreach as [n Hreach].
  revert s Hreach. induction n as [|n IH]; intros s Hreach.
  - inversion Hreach; subst. cbn. rewrite length_replicate.
    split; [reflexivity|]. split; [reflexivity|]. left. unfold arriving. cbn.
    rewrite !places_where_replicate_calling by reflexivity. rewrite length_replicate.
    split; [|split; [lia|split; [reflexivity|split; [|split; [reflexivity|lia]]]]].
    + intros p Hp. apply elem_of_replicate in Hp. destruct Hp as [-> _].
      split; [reflexivity | discriminate].
    + intros p r Hp Hr. apply elem_of_replicate in Hp. destruct Hp as [-> _].
      discriminate.
  - apply nsteps_inv_r in Hreach. destruct Hreach as (s1 & Hreach & Hstep).
    destruct (IH s1 Hreach) as (Hlen & Hinit & Hinv). clear IH Hreach.
    destruct Hstep as [s1 i p b' p' Hi Hcpu].
    assert (Hilt : (i < length (cpus s1))%nat) by (apply lookup_lt_Some in Hi; exact Hi).
    assert (Hpin : p ∈ cpus s1) by (eapply list_elem_of_lookup_2; exact Hi).
    split; [cbn; rewrite length_insert; exact Hlen|].
    split.
    { cbn. destruct p; cbn in Hcpu;
        repeat match type of Hcpu with
               | context [if ?c then _ else _] => destruct c
               end; try discriminate; injection Hcpu as <- <-; exact Hinit. }
    destruct Hinv as [HA|[[k HB]|HC]].
    + (* arriving *)
      destruct HA as (Hrel & Hcur & Hready & Hlr & Hsec & Hwait).
      pose proof (places_where_insert arrived (cpus s1) i p p' Hi) as Ea.
      pose proof (places_where_insert in_section (cpus s1) i p p' Hi) as Es.
      pose proof (places_where_insert waiting (cpus s1) i p p' Hi) as Ew.
      pose proof (places_where_le arrived (cpus s1)) as Hale.
      pose proof (arriving_counts (cpus s1) Hrel) as Hwa.
      destruct (Hrel p Hpin) as [Hprel Hpnf].
      assert (Hkeep : forall P : place -> Prop,
                P p' -> (forall q, q ∈ cpus s1 -> P q) ->
                forall q, q ∈ <[i := p']> (cpus s1) -> P q).
      { intros P Hp' Hall q Hq.
        destruct (elem_of_insert_cases _ _ _ _ Hilt Hq) as [->|Hq']; auto. }
      assert (Hlr' : (forall r0, local_ready_of p' = Some r0 -> r0 = 0) ->
             forall q r, q ∈ <[i := p']> (cpus s1) -> local_ready_of q = Some r -> r = 0).
      { intros Hp' q r Hq Hr.
        destruct (elem_of_insert_cases _ _ _ _ Hilt Hq) as [->|Hq']; eauto. }
      destruct p; try discriminate Hprel; try congruence; cbn in Hcpu.
      * (* Calling *)
        replace (Barrier.init_count (barrier s1) >=? count) with true in Hcpu by lia.
        injection Hcpu as <- <-. left. unfold arriving. cbn [barrier cpus].
        rewrite length_insert. cbn in Ea, Es, Ew.
        split; [apply Hkeep; [split; [reflexivity|discriminate] | exact Hrel]|].
        split; [rewrite Hcur; lia|]. split; [exact Hready|].
        split; [apply Hlr'; discriminate|]. split; lia.
      * (* Asserted *)
        injection Hcpu as <- <-. left. unfold arriving. cbn [barrier cpus].
        rewrite length_insert. cbn in Ea, Es, Ew.
        split; [apply Hkeep; [split; [reflexivity|discriminate] | exact Hrel]|].
        split; [rewrite Hcur; lia|]. split; [exact Hready|].
        split; [apply Hlr'; cbn; congruence|]. split; lia.
      * (* At_lock *)
        destruct (lock (barrier s1)) eqn:Hlock; [discriminate|].
        injection Hcpu as <- <-. left. unfold arriving. cbn [barrier cpus].
        rewrite length_insert. cbn in Ea, Es, Ew. cbn.
        split; [apply Hkeep; [split; [reflexivity|discriminate] | exact Hrel]|].
        split; [rewrite Hcur; lia|]. split; [exact Hready|].
        split; [apply Hlr'; cbn; intros r0 Hr0; apply (Hlr _ r0 Hpin); exact Hr0|].
        split; lia.
      * (* Holding *)
        injection Hcpu as <- <-. left. unfold arriving. cbn [barrier cpus].
        rewrite length_insert. cbn in Ea, Es, Ew. cbn.
        pose proof (places_where_le arrived (<[i := Decremented local_ready]> (cpus s1)))
          as Hale'.
        rewrite length_insert in Hale'.
        split; [apply Hkeep; [split; [reflexivity|discriminate] | exact Hrel]|].
        split; [rewrite Hcur; unfold u32; rewrite Z.mod_small by lia; lia|].
        split; [exact Hready|].
        split; [apply Hlr'; cbn; intros r0 Hr0; apply (Hlr _ r0 Hpin); exact Hr0|].
        split; [lia|]. lia.
      * (* Decremented *)
        rewrite Hcur, Hinit in Hcpu. unfold u32 in Hcpu.
        rewrite (Z.mod_small (init_count - count)) in Hcpu by lia.
        destruct (decide (places_where arrived (cpus s1) = length (cpus s1)))
          as [Hfull|Hnot].
        -- (* the last arrival *)
           replace (init_count - Z.of_nat (places_where arrived (cpus s1))
                    >? init_count - count) with false in Hcpu by lia.
           injection Hcpu as <- <-. right. left. exists i.
           unfold releasing_by. cbn [barrier cpus].
           split; [|split; [|exact Hready]].
           ++ exists Last_unlock. rewrite list_lookup_insert_eq by exact Hilt.
              split; [reflexivity|]. split; [reflexivity|]. split; [|discriminate].
              rewrite bool_decide_eq_true_2 by reflexivity.
              destruct (lock (barrier s1)); [reflexivity|].
              exfalso. cbn in Es.
              pose proof (places_where_insert in_section (cpus s1) i _ Calling Hi)
                as Es0. cbn in Es0. lia.
           ++ intros j q Hne Hj. rewrite list_lookup_insert_ne in Hj by congruence.
              assert (Hqin : q ∈ cpus s1) by (eapply list_elem_of_lookup_2; exact Hj).
              pose proof (places_where_all arrived _ Hfull q Hqin) as Hqa.
              destruct (Hrel q Hqin) as [Hqr Hqf].
              assert (Hqs : in_section q = false).
              { apply (places_where_other in_section (cpus s1) i j
                         (Decremented local_ready) q); try assumption; try reflexivity.
                destruct (lock (barrier s1)); lia. }
              destruct q; try discriminate Hqa; try discriminate Hqr;
                try discriminate Hqs; try congruence.
              f_equal. apply (Hlr _ _ Hqin eq_refl).
        -- replace (init_count - Z.of_nat (places_where arrived (cpus s1))
                    >? init_count - count) with true in Hcpu by lia.
           injection Hcpu as <- <-. left. unfold arriving. cbn [barrier cpus].
           rewrite length_insert. cbn in Ea, Es, Ew.
           assert (Hrel' : forall q, q ∈ <[i := Waiting_unlock local_ready]> (cpus s1) ->
                             released q = false /\ q <> Assert_failed)
             by (apply Hkeep; [split; [reflexivity|discriminate] | exact Hrel]).
           pose proof (arriving_counts _ Hrel') as Hwa'.
           split; [exact Hrel'|].
           split; [rewrite Hcur; lia|]. split; [exact Hready|].
           split; [apply Hlr'; cbn; intros r0 Hr0; apply (Hlr _ r0 Hpin); exact Hr0|].
           split; lia.
      * (* Waiting_unlock *)
        injection Hcpu as <- <-. left. unfold arriving. cbn [barrier cpus].
        rewrite length_insert. cbn in Ea, Es, Ew. cbn.
        split; [apply Hkeep; [split; [reflexivity|discriminate] | exact Hrel]|].
        split; [rewrite Hcur; lia|]. split; [exact Hready|].
        split; [apply Hlr'; cbn; intros r0 Hr0; apply (Hlr _ r0 Hpin); exact Hr0|].
        split; [|lia].
        destruct (lock (barrier s1)); [lia|]. lia.
      * (* Spinning *)
        rewrite Hready, (Hlr _ local_ready Hpin eq_refl) in Hcpu. cbn in Hcpu.
        injection Hcpu as <- <-. left. unfold arriving. cbn [barrier cpus].
        rewrite length_insert. cbn in Ea, Es, Ew.
        split; [apply Hkeep; [split; [reflexivity|discriminate] | exact Hrel]|].
        split; [rewrite Hcur; lia|]. split; [exact Hready|].
        split; [apply Hlr'; cbn; congruence|]. split; lia.
    + (* releasing *)
      destruct HB as ((L & Hk & HL & Hlock & Hcc) & Hothers & Hready).
      destruct (decide (i = k)) as [->|Hne].
      * assert (p = L) as -> by congruence.
        destruct L; try discriminate HL; cbn in Hcpu; injection Hcpu as <- <-.
        -- (* Last_unlock *)
           right. left. exists k. unfold releasing_by. cbn [barrier cpus].
           split; [|split; [|exact Hready]].
           ++ exists Unlocked_last. rewrite list_lookup_insert_eq by exact Hilt.
              split; [reflexivity|]. split; [reflexivity|]. split; [|discriminate].
              cbn. rewrite bool_decide_eq_false_2 by discriminate. reflexivity.
           ++ intros j q Hj Hq. rewrite list_lookup_insert_ne in Hq by congruence.
              exact (Hothers j q Hj Hq).
        -- (* Unlocked_last *)
           right. left. exists k. unfold releasing_by. cbn [barrier cpus].
           split; [|split; [|exact Hready]].
           ++ exists After_reset. rewrite list_lookup_insert_eq by exact Hilt.
              split; [reflexivity|]. split; [reflexivity|]. split.
              ** cbn. rewrite Hlock.
                 rewrite !bool_decide_eq_false_2 by discriminate. reflexivity.
              ** intros _. cbn. exact Hinit.
           ++ intros j q Hj Hq. rewrite list_lookup_insert_ne in Hq by congruence.
              exact (Hothers j q Hj Hq).
        -- (* After_reset *)
           right. right. unfold all_released. cbn [barrier cpus]. cbn.
           split; [|split; [rewrite Hready; reflexivity|split; [apply Hcc; reflexivity|]]].
           ++ intros q Hq. apply list_elem_of_lookup in Hq. destruct Hq as [j Hj].
              destruct (lookup_insert_cases _ _ _ _ _ Hilt Hj) as [[_ ->]|[Hjk Hl]];
                [right; reflexivity|].
              left. exact (Hothers j q Hjk Hl).
           ++ rewrite Hlock. apply bool_decide_eq_false_2. discriminate.
      * (* a spinning CPU *)
        pose proof (Hothers i p Hne Hi) as ->. cbn in Hcpu.
        rewrite Hready in Hcpu. cbn in Hcpu. injection Hcpu as <- <-.
        right. left. exists k. unfold releasing_by. cbn [barrier cpus].
        split; [|split; [|exact Hready]].
        -- exists L. rewrite list_lookup_insert_ne by congruence. auto.
        -- intros j q Hj Hq.
           destruct (lookup_insert_cases _ _ _ _ _ Hilt Hq) as [[_ ->]|[_ Hl]];
             [reflexivity|]. exact (Hothers j q Hj Hl).
    + (* all released *)
      destruct HC as (Hall & Hready & Hcc & Hlock).
      destruct (Hall p Hpin) as [-> | ->]; cbn in Hcpu; [|discriminate].
      rewrite Hready in Hcpu. cbn in Hcpu. injection Hcpu as <- <-.
      right. right. unfold all_released. cbn [barrier cpus].
      split; [|auto].
      intros q Hq. destruct (elem_of_insert_cases _ _ _ _ Hilt Hq) as [->|Hq'];
        [right; reflexivity | exact (Hall q Hq')].
Qed.

(** X24.  The barrier can be used again: when all the [count] CPUs have
    returned from [waiton_barrier_with_count], whatever the
    interleaving of their steps, [current_count] is back at
    [init_count], the lock is free and [ready] has been incremented
    once. *)
Theorem barrier_is_reset_after_round init_count count s :
  0 < count <= init_count -> init_count < 2^32 ->
  reachable count (start init_count (Z.to_nat count)) s ->
  (forall p, p ∈ cpus s -> p = Returned) ->
  current_count (barrier s) = init_count /\
  Barrier.init_count (barrier s) = init_count /\
  lock (barrier s) = false /\ ready (barrier s) = 1.
Proof.
  intros Hcount Hfit Hreach Hall.
  destruct (barrier_phases init_count count s Hcount Hfit Hreach)
    as (Hlen & Hinit & [HA|[[k HB]|HC]]).
  - exfalso. destruct HA as (Hrel & _).
    destruct (lookup_lt_is_Some_2 (cpus s) 0) as [p Hp]; [lia|].
    apply list_elem_of_lookup_2 in Hp. destruct (Hrel p Hp) as [Hr _].
    rewrite (Hall p Hp) in Hr. discriminate.
  - exfalso. destruct HB as ((L & Hk & HL & _) & _).
    rewrite (Hall L) in HL by (eapply list_elem_of_lookup_2; exact Hk). discriminate.
  - destruct HC as (_ & Hready & Hcc & Hlock). auto.
Qed.

(** X25.  The barrier does not deadlock: in every state that the CPUs reach,
    either all of them have returned, or one of them has a step that
    moves it on. *)
Theorem barrier_never_deadlocks init_count count s :
  0 < count <= init_count -> init_count < 2^32 ->
  reachable count (start init_count (Z.to_nat count)) s ->
  (forall p, p ∈ cpus s -> p = Returned) \/
  exists i p b' p',
    cpus s !! i = Some p /\ cpu_step count (barrier s) p = Some (b', p') /\ p' <> p.
Proof.
  intros Hcount Hfit Hreach.
  destruct (barrier_phases init_count count s Hcount Hfit Hreach)
    as (Hlen & Hinit & [HA|[[k HB]|HC]]).
  - right. destruct HA as (Hrel & Hcur & Hready & Hlr & Hsec & Hwait).
    (* a CPU that holds the lock moves on *)
    assert (Hholder : forall i p, cpus s !! i = Some p -> in_section p = true ->
              exists b' p', cpu_step count (barrier s) p = Some (b', p') /\ p' <> p).
    { intros i p Hi Hp. destruct p; try discriminate Hp; cbn.
      - eexists _, _. split; [reflexivity | discriminate].
      - destruct (_ >? _); eexists _, _; (split; [reflexivity | discriminate]).
      - eexists _, _. split; [reflexivity | discriminate].
      - eexists _, _. split; [reflexivity | discriminate]. }
    destruct (lock (barrier s)) eqn:Hlock.
    + destruct (places_where_exists in_section (cpus s)) as (i & p & Hi & Hp); [lia|].
      destruct (Hholder i p Hi Hp) as (b' & p' & Hstep & Hne).
      exists i, p, b', p'. auto.
    + (* the lock is free: a CPU that does not wait moves on *)
      assert (Hex : exists i p, cpus s !! i = Some p /\ waiting p = false).
      { clear -Hwait. induction (cpus s) as [|x l IH]; [cbn in Hwait; lia|].
        cbn [places_where length] in Hwait. destruct (waiting x) eqn:Hx.
        - destruct IH as (i & p & Hi & Hp); [lia|]. exists (S i), p. auto.
        - exists 0%nat, x. auto. }
      destruct Hex as (i & p & Hi & Hp).
      assert (Hpin : p ∈ cpus s) by (eapply list_elem_of_lookup_2; exact Hi).
      destruct (Hrel p Hpin) as [Hpr Hpf].
      destruct (in_section p) eqn:Hps.
      * destruct (Hholder i p Hi Hps) as (b' & p' & Hstep & Hne).
        exists i, p, b', p'. auto.
      * exists i, p. destruct p; try discriminate Hpr; try discriminate Hp;
          try discriminate Hps; try congruence; cbn.
        -- destruct (_ >=? _); eexists _, _;
             (split; [exact Hi|split; [reflexivity|discriminate]]).
        -- eexists _, _. split; [exact Hi|]. split; [reflexivity | discriminate].
        -- rewrite Hlock. eexists _, _. split; [exact Hi|].
           split; [reflexivity | discriminate].
  - right. destruct HB as ((L & Hk & HL & _) & _). exists k, L.
    destruct L; try discriminate HL; cbn;
      eexists _, _; (split; [exact Hk|split; [reflexivity | discriminate]]).
  - destruct HC as (Hall & Hready & _).
    destruct (decide (Forall (fun p => p = Returned) (cpus s))) as [Hdone|Hnot].
    + left. rewrite Forall_forall in Hdone. exact Hdone.
    + right. apply not_Forall_Exists in Hnot; [|intros p; apply _].
      apply Exists_exists in Hnot. destruct Hnot as (p & Hp & Hne).
      unfold compose in Hne. destruct (Hall p Hp) as [-> | ->]; [|congruence].
      apply list_elem_of_lookup in Hp. destruct Hp as [i Hi].
      exists i, (Spinning 0). cbn. rewrite Hready. cbn.
      eexists _, _. split; [exact Hi|]. split; [reflexivity | discriminate].
Qed.

End BarrierRound.

(** The two CPUs of the schedule above, after CPU 0 has seen [ready]
    change. *)
Lemma barrier_is_reset_after_round_witness :
  Barrier.cpus (Barrier.run 2 (two_cpus_schedule ++ [0%nat]) (Barrier.start 2 2))
  = [Barrier.Returned; Barrier.Returned] /\
  Barrier.current_count
    (Barrier.barrier (Barrier.run 2 (two_cpus_schedule ++ [0%nat]) (Barrier.start 2 2)))
  = 2 /\
  Barrier.init_count
    (Barrier.barrier (Barrier.run 2 (two_cpus_schedule ++ [0%nat]) (Barrier.start 2 2)))
  = 2 /\
  Barrier.lock
    (Barrier.barrier (Barrier.run 2 (two_cpus_schedule ++ [0%nat]) (Barrier.start 2 2)))
  = false /\
  Barrier.ready
    (Barrier.barrier (Barrier.run 2 (two_cpus_schedule ++ [0%nat]) (Barrier.start 2 2)))
  = 1.
Proof.
  split; [reflexivity|].
  apply (barrier_is_reset_after_round 2 2
           (Barrier.run 2 (two_cpus_schedule ++ [0%nat]) (Barrier.start 2 2))).
  - lia.
  - lia.
  - apply (run_reachable 2 (two_cpus_schedule ++ [0%nat]) (Barrier.start 2 (Z.to_nat 2))).
  - intros p Hp. change (p ∈ [Barrier.Returned; Barrier.Returned]) in Hp.
    apply elem_of_cons in Hp. destruct Hp as [->|Hp]; [reflexivity|].
    apply list_elem_of_singleton in Hp. exact Hp.
Defined.

Lemma barrier_never_deadlocks_witness :
  (forall p, p ∈ Barrier.cpus (Barrier.run 2 two_cpus_schedule (Barrier.start 2 2)) ->
             p = Barrier.Returned) \/
  exists i p b' p',
    Barrier.cpus (Barrier.run 2 two_cpus_schedule (Barrier.start 2 2)) !! i = Some p /\
    Barrier.cpu_step 2
      (Barrier.barrier (Barrier.run 2 two_cpus_schedule (Barrier.start 2 2))) p
    = Some (b', p') /\ p' <> p.
Proof.
  apply (barrier_never_deadlocks 2 2
           (Barrier.run 2 two_cpus_schedule (Barrier.start 2 2))).
  - lia.
  - lia.
  - apply (run_reachable 2 two_cpus_schedule (Barrier.start 2 (Z.to_nat 2))).
Defined.

